(** * Weekly seating schedules: the optimisation engine

    A shallow embedding of the scheduling engine (venue layout, model
    configuration, scenario formulation, solve-status interpretation,
    allocation extraction and the scenario sweep) together with the
    properties its specification states.

    Conventions.  Python [int] is [Z].  A Python [float] is the rational
    [Q] it denotes: the quotient of the occupancy rate is rounded to
    binary64 ([Py.fl]) before [round] takes its decimals, as the
    interpreter does, and [Py.fl (3 # 10)] is the float written [0.3];
    weights and the quotient of the pre-check, which are only compared
    and added, are kept exact.  Values of binary solver variables are
    integers.  A Python [dict] is an association
    list in insertion order.  A raised exception is the left injection
    of a sum. *)

From Stdlib Require Import ZArith QArith Qabs Qround Qpower List String Ascii Bool.
From Stdlib Require Import Lia Lqa.
From Stdlib Require Import DecimalString DecimalZ Sorting.Sorted FinFun.
Import ListNotations.

Local Open Scope string_scope.
Local Open Scope Z_scope.

Set Implicit Arguments.

(* ================================================================== *)
(** * Python prelude *)
(* ================================================================== *)

Module Py.

(** Exceptions the modelled code can raise. *)
Inductive exn : Type :=
| ValueError (msg : string)
| RuntimeError (msg : string)
| IndexError
| KeyError
| TypeError
| ZeroDivisionError.

Definition result (A : Type) : Type := (exn + A)%type.

Definition ret {A} (a : A) : result A := inr a.
Definition raise {A} (e : exn) : result A := inl e.

Definition bind {A B} (m : result A) (f : A -> result B) : result B :=
  match m with
  | inl e => inl e
  | inr a => f a
  end.

(** [for a in l: acc = body(acc, a)], stopping at the first exception. *)
Fixpoint for_each {A S} (l : list A) (body : S -> A -> result S) (s : S)
  : result S :=
  match l with
  | [] => ret s
  | a :: l' => bind (body s a) (for_each l' body)
  end.

(** [range(a, b)]. *)
Definition range (a b : Z) : list Z :=
  map (fun i => a + Z.of_nat i) (seq 0 (Z.to_nat (b - a))).

(** [str(n)] and [int(s)] on decimal numerals. *)
Definition str (n : Z) : string := NilZero.string_of_int (Z.to_int n).

Definition int (s : string) : result Z :=
  match NilZero.int_of_string s with
  | Some d => ret (Z.of_int d)
  | None => raise (ValueError "invalid literal for int()")
  end.

(** [c in s] for a character. *)
Fixpoint occurs (c : ascii) (s : string) : bool :=
  match s with
  | EmptyString => false
  | String a s' => Ascii.eqb a c || occurs c s'
  end.

(** [s.split(sep)] for a non-empty separator: [skip] counts the
    characters of a separator occurrence still to be dropped, [cur] is the
    piece being accumulated. *)
Fixpoint split_go (sep : string) (skip : nat) (cur : string) (s : string)
  : list string :=
  match s with
  | EmptyString => [cur]
  | String c s' =>
      match skip with
      | S n => split_go sep n cur s'
      | O =>
          if String.prefix sep s
          then cur :: split_go sep (String.length sep - 1) EmptyString s'
          else split_go sep O (cur ++ String c EmptyString) s'
      end
  end.

Definition split (sep s : string) : list string := split_go sep O EmptyString s.

(** [l[i]] for [0 <= i]. *)
Definition index {A} (l : list A) (i : Z) : result A :=
  if i <? 0 then raise IndexError
  else match nth_error l (Z.to_nat i) with
       | Some a => ret a
       | None => raise IndexError
       end.

(** ** Dictionaries in insertion order *)

Section Dict.
Variables K V : Type.
Variable eqb : K -> K -> bool.

Definition dict := list (K * V).

Fixpoint dict_get (k : K) (d : dict) : option V :=
  match d with
  | [] => None
  | (k', v) :: d' => if eqb k k' then Some v else dict_get k d'
  end.

(** [d[k] = v]: an existing key keeps its place, a new one goes last. *)
Fixpoint dict_set (k : K) (v : V) (d : dict) : dict :=
  match d with
  | [] => [(k, v)]
  | (k', v') :: d' =>
      if eqb k k' then (k', v) :: d' else (k', v') :: dict_set k v d'
  end.

Definition dict_keys (d : dict) : list K := map fst d.
Definition dict_values (d : dict) : list V := map snd d.

(** [{k: v for (k, v) in l}]. *)
Definition dict_of_list (l : list (K * V)) : dict :=
  fold_left (fun d kv => dict_set (fst kv) (snd kv) d) l [].

(** [d[k]], raising [KeyError] on a missing key. *)
Definition dict_item (k : K) (d : dict) : result V :=
  match dict_get k d with
  | Some v => ret v
  | None => raise KeyError
  end.
End Dict.

Arguments dict_get {K V} eqb k d.
Arguments dict_set {K V} eqb k v d.
Arguments dict_keys {K V} d.
Arguments dict_values {K V} d.
Arguments dict_of_list {K V} eqb l.
Arguments dict_item {K V} eqb k d.

(** [sorted(set(l))] on integers: [set] drops repeated elements,
    [sorted] orders what is left. *)
Fixpoint set_of (l : list Z) : list Z :=
  match l with
  | [] => []
  | a :: l' => if existsb (Z.eqb a) l' then set_of l' else a :: set_of l'
  end.

Fixpoint insert_sorted (a : Z) (l : list Z) : list Z :=
  match l with
  | [] => [a]
  | b :: l' => if a <=? b then a :: l else b :: insert_sorted a l'
  end.

Definition sorted (l : list Z) : list Z := fold_right insert_sorted [] l.

(** [sum(l)] over solver values: adding [None] raises [TypeError]. *)
Fixpoint sum_from (acc : Z) (l : list (option Z)) : result Z :=
  match l with
  | [] => ret acc
  | Some v :: l' => sum_from (acc + v) l'
  | None :: _ => raise TypeError
  end.

Definition sum (l : list (option Z)) : result Z := sum_from 0 l.

(** [a < b] on rationals. *)
Definition Qltb (a b : Q) : bool := negb (Qle_bool b a).

(** [abs(n)]. *)
Definition abs (n : Z) : Z := Z.abs n.

(** The integer nearest to [q], ties to the even one. *)
Definition round_half_even (q : Q) : Z :=
  let f := Qfloor q in
  let r := (q - inject_Z f)%Q in
  match (r ?= 1 # 2)%Q with
  | Lt => f
  | Gt => f + 1
  | Eq => if Z.even f then f else f + 1
  end.

(** [floor (log2 q)] of a positive rational. *)
Definition ilog2 (q : Q) : Z :=
  let g := Z.log2 (Qnum q) - Z.log2 (Z.pos (Qden q)) in
  if Qle_bool (2 ^ g) q then g else g - 1.

(** The binary64 value nearest to [q], ties to the even significand:
    53 significant bits, the unit in the last place no smaller than the
    subnormal [2^-1074].  The exponent is not bounded above: a quotient
    of [2^1024] or more is outside the model. *)
Definition fl (q : Q) : Q :=
  let a := Qabs q in
  let e := Z.max (ilog2 a - 52) (-1074) in
  let m := round_half_even (a / 2 ^ e) in
  Qred (inject_Z (Z.sgn (Qnum q) * m) * 2 ^ e).

(** [a / b] on integers: true division, correctly rounded to a float. *)
Definition truediv (a b : Z) : result Q :=
  if b =? 0 then raise ZeroDivisionError
  else ret (fl (inject_Z a / inject_Z b)).

(** [round(x, nd)] on a float, [nd >= 0]: the binary value of [x] is
    rounded to [nd] decimal places, ties to even, and the float nearest
    to that decimal is returned. *)
Definition round (x : Q) (nd : Z) : Q :=
  fl (inject_Z (round_half_even (fl x * inject_Z (10 ^ nd))) / inject_Z (10 ^ nd)).

End Py.

Notation "x <- m ;; k" := (Py.bind m (fun x => k))
  (at level 61, m at next level, right associativity).

(* ================================================================== *)
(** * layout_configuration.py *)
(* ================================================================== *)

Record LayoutConfiguration : Type := mkLayout {
  num_corridors : Z;
  tables_per_corridor : list Z;
  positions_per_table : Z
}.

Module Layout.

(** The [for num_tables in tables_per_corridor] check of [__init__]. *)
Fixpoint check_tables (l : list Z) : Py.result unit :=
  match l with
  | [] => Py.ret tt
  | num_tables :: l' =>
      if num_tables <=? 0
      then Py.raise (Py.ValueError "Cada corredor deve ter ao menos uma mesa.")
      else check_tables l'
  end.

(** [LayoutConfiguration.__init__]. *)
Definition init (num_corridors : Z) (tables_per_corridor : list Z)
    (positions_per_table : Z) : Py.result LayoutConfiguration :=
  if num_corridors <=? 0 then
    Py.raise (Py.ValueError "O número de corredores deve ser um inteiro positivo.")
  else if positions_per_table <=? 0 then
    Py.raise (Py.ValueError "O número de posições por mesa deve ser um inteiro positivo.")
  else if negb (Z.of_nat (List.length tables_per_corridor) =? num_corridors) then
    Py.raise (Py.ValueError "O tamanho de tables_per_corridor deve ser igual a num_corridors.")
  else
    _ <- check_tables tables_per_corridor ;;
    Py.ret (mkLayout num_corridors tables_per_corridor positions_per_table).

(** The inputs the constructor accepts. *)
Definition valid (n : Z) (tpc : list Z) (ppt : Z) : Prop :=
  0 < n /\ 0 < ppt /\ Z.of_nat (List.length tpc) = n /\ Forall (fun t => 0 < t) tpc.

Definition invalid (n : Z) (tpc : list Z) (ppt : Z) : Prop :=
  n <= 0 \/ ppt <= 0 \/ Z.of_nat (List.length tpc) <> n \/ Exists (fun t => t <= 0) tpc.

Definition well_formed (l : LayoutConfiguration) : Prop :=
  valid (num_corridors l) (tables_per_corridor l) (positions_per_table l).

End Layout.

(* ================================================================== *)
(** * preferencias_dias.py, cadastro_times_sinergias.py *)
(* ================================================================== *)

Definition DIAS_UTEIS : list string :=
  ["Segunda"; "Terça"; "Quarta"; "Quinta"; "Sexta"].

Record Time : Type := mkTime {
  nome : string;
  qtde_integrantes : Z;
  sinergias : list string
}.

Module Cadastro.

(** [Time.__init__]. *)
Definition Time_init (nome : string) (qtde_integrantes : Z)
    (sinergias : option (list string)) : Py.result Time :=
  if qtde_integrantes <=? 0 then
    Py.raise (Py.ValueError "A quantidade de integrantes deve ser maior que zero.")
  else
    Py.ret (mkTime nome qtde_integrantes
              (match sinergias with Some l => l | None => [] end)).

(** [CadastroTimesSinergias.times]: team name to team. *)
Definition CadastroTimesSinergias : Type := Py.dict string Time.

(** [CadastroTimesSinergias.adicionar_time]. *)
Definition adicionar_time (cad : CadastroTimesSinergias) (time : Time)
  : Py.result CadastroTimesSinergias :=
  match Py.dict_get String.eqb (nome time) cad with
  | Some _ =>
      Py.raise (Py.ValueError ("O time '" ++ nome time ++ "' já está cadastrado."))
  | None => Py.ret (Py.dict_set String.eqb (nome time) time cad)
  end.

End Cadastro.

(* ================================================================== *)
(** * configuracao_modelo_restricoes.py *)
(* ================================================================== *)

Record ConfiguracaoModelo : Type := mkConfig {
  funcao_objetivo : string;
  pesos_restricoes : Py.dict string Q;
  limite_sobrealocacao : Q;
  folga_minima : Z;
  peso_distancia : Q;
  dias_obrigatorios_range : list Z;
  restricoes_realocacao : Py.dict string bool
}.

Module Config.

Definition OBJETIVOS_VALIDOS : list string :=
  ["max_ocupacao_media"; "max_satisfacao"; "min_desalocacao"].

(** The [for nome, peso in pesos_restricoes.items()] check. *)
Fixpoint check_pesos (l : Py.dict string Q) : Py.result unit :=
  match l with
  | [] => Py.ret tt
  | (nome, peso) :: l' =>
      if Py.Qltb peso 0 then
        Py.raise (Py.ValueError
          ("O peso da restrição '" ++ nome ++ "' não pode ser negativo."))
      else check_pesos l'
  end.

(** [if dias_obrigatorios_range is None or len(dias_obrigatorios_range) == 0:
    dias_obrigatorios_range = [2]]. *)
Definition cenarios_pedidos (dias_obrigatorios_range : option (list Z)) : list Z :=
  match dias_obrigatorios_range with
  | None => [2]
  | Some [] => [2]
  | Some l => l
  end.

(** [ConfiguracaoModelo.__init__].  The first message interpolates the
    set of valid objectives, whose print order is unspecified; the model
    keeps the fixed part. *)
Definition init (funcao_objetivo : string) (pesos_restricoes : Py.dict string Q)
    (limite_sobrealocacao : Q) (folga_minima : Z) (peso_distancia : Q)
    (dias_obrigatorios_range : option (list Z))
    (restricoes_realocacao : option (Py.dict string bool))
  : Py.result ConfiguracaoModelo :=
  if negb (existsb (String.eqb funcao_objetivo) OBJETIVOS_VALIDOS) then
    Py.raise (Py.ValueError "Tipo de função objetivo inválido.")
  else if Py.Qltb limite_sobrealocacao 0 then
    Py.raise (Py.ValueError "O limite de sobrealocação não pode ser negativo.")
  else
    _ <- check_pesos pesos_restricoes ;;
    if folga_minima <? 0 then
      Py.raise (Py.ValueError "A folga mínima não pode ser negativa.")
    else if Py.Qltb peso_distancia 0 then
      Py.raise (Py.ValueError "O peso de distância deve ser não negativo.")
    else
      let dias_obrigatorios_range := cenarios_pedidos dias_obrigatorios_range in
      Py.ret (mkConfig funcao_objetivo pesos_restricoes limite_sobrealocacao
                folga_minima peso_distancia
                (Py.sorted (Py.set_of dias_obrigatorios_range))
                (match restricoes_realocacao with
                 | Some ((_ :: _) as r) => r
                 | _ => []
                 end)).

End Config.

(* ================================================================== *)
(** * The solver boundary (PuLP) *)
(* ================================================================== *)

Module Lp.

(** Solver status codes and their names ([pl.LpStatus]). *)
Inductive LpStatusCode : Type :=
| LpStatusOptimal
| LpStatusNotSolved
| LpStatusInfeasible
| LpStatusUnbounded
| LpStatusUndefined.

Definition code (s : LpStatusCode) : Z :=
  match s with
  | LpStatusOptimal => 1
  | LpStatusNotSolved => 0
  | LpStatusInfeasible => -1
  | LpStatusUnbounded => -2
  | LpStatusUndefined => -3
  end.

Definition LpStatus (s : LpStatusCode) : string :=
  match s with
  | LpStatusOptimal => "Optimal"
  | LpStatusNotSolved => "Not Solved"
  | LpStatusInfeasible => "Infeasible"
  | LpStatusUnbounded => "Unbounded"
  | LpStatusUndefined => "Undefined"
  end.

Definition status_eqb (a b : LpStatusCode) : bool := code a =? code b.

(** The four families of binary decision variables, identified by the
    key under which the formulation stores them. *)
Inductive Var : Type :=
| X (team pos dia : string)
| Y (team mesa dia : string)
| Zv (team m1 m2 dia : string)
| Pres (team dia : string).

(** Affine expressions: terms with integer coefficients and a constant. *)
Record LinExpr : Type := mkExpr {
  terms : list (Z * Var);
  const : Z
}.

Definition var (v : Var) : LinExpr := mkExpr [(1, v)] 0.
Definition num (c : Z) : LinExpr := mkExpr [] c.

(** [c * e]: multiplying by zero leaves no term. *)
Definition scale (c : Z) (e : LinExpr) : LinExpr :=
  if c =? 0 then mkExpr [] 0
  else mkExpr (map (fun cv => (c * fst cv, snd cv)) (terms e)) (c * const e).

Definition add (e1 e2 : LinExpr) : LinExpr :=
  mkExpr (terms e1 ++ terms e2)%list (const e1 + const e2).

Definition sub (e1 e2 : LinExpr) : LinExpr := add e1 (scale (-1) e2).

Definition lpSum (l : list LinExpr) : LinExpr := fold_right add (num 0) l.

Inductive Sense : Type := LE | EQ | GE.

Record LpConstraint : Type := mkConstraint {
  lhs : LinExpr;
  sense : Sense;
  rhs : LinExpr
}.

(** The objective [lpSum(gain) - weight * lpSum(penalty)]; the weight is
    a float in the source. *)
Record Objective : Type := mkObjective {
  gain : LinExpr;
  weight : Q;
  penalty : LinExpr
}.

Record LpProblem : Type := mkProblem {
  name : string;
  objective : Objective;
  constraints : list LpConstraint
}.

Definition vars_of (e : LinExpr) : list Var := map snd (terms e).

(** [prob.variables()]: the variables of the objective and of the
    constraints. *)
Definition variables (p : LpProblem) : list Var :=
  (vars_of (gain (objective p))
   ++ (if Qeq_bool (weight (objective p)) 0 then []
       else vars_of (penalty (objective p)))
   ++ flat_map (fun c => vars_of (lhs c) ++ vars_of (rhs c)) (constraints p))%list.

(** ** Meaning of a problem under an assignment *)

Definition assignment : Type := Var -> Z.

Definition eval (a : assignment) (e : LinExpr) : Z :=
  fold_right (fun cv acc => fst cv * a (snd cv) + acc) (const e) (terms e).

Definition holds (a : assignment) (c : LpConstraint) : Prop :=
  match sense c with
  | LE => eval a (lhs c) <= eval a (rhs c)
  | EQ => eval a (lhs c) = eval a (rhs c)
  | GE => eval a (lhs c) >= eval a (rhs c)
  end.

Definition holdsb (a : assignment) (c : LpConstraint) : bool :=
  match sense c with
  | LE => eval a (lhs c) <=? eval a (rhs c)
  | EQ => eval a (lhs c) =? eval a (rhs c)
  | GE => eval a (rhs c) <=? eval a (lhs c)
  end.

(** The sum of the values of a list of variables. *)
Definition total (a : assignment) (vs : list Var) : Z :=
  fold_right Z.add 0 (map a vs).

(** Every variable of the formulation has category [Binary]. *)
Definition binary (a : assignment) (p : LpProblem) : Prop :=
  forall v, In v (variables p) -> a v = 0 \/ a v = 1.

Definition binaryb (a : assignment) (p : LpProblem) : bool :=
  forallb (fun v => (a v =? 0) || (a v =? 1)) (variables p).

(** A solution of the problem: binary and satisfying every constraint. *)
Definition feasible (a : assignment) (p : LpProblem) : Prop :=
  binary a p /\ Forall (holds a) (constraints p).

Definition feasibleb (a : assignment) (p : LpProblem) : bool :=
  binaryb a p && forallb (holdsb a) (constraints p).

(** ** What a call of [prob.solve] leaves behind

    The solver is a black box.  After the call the problem carries a
    status, every variable carries a value or [None], and the caller has
    measured the time the call took, [time.perf_counter() - t0]. *)
Record SolverResult : Type := mkSolverResult {
  sr_status : LpStatusCode;
  sr_value : Var -> option Z;
  sr_runtime : Q
}.

Definition Solver : Type := LpProblem -> SolverResult.

(** The solved problem as the engine keeps it. *)
Record SolvedModel : Type := mkSolved {
  sm_prob : LpProblem;
  sm_result : SolverResult
}.

(** [v.value()]. *)
Definition value (m : SolvedModel) (v : Var) : option Z :=
  sr_value (sm_result m) v.

Definition has_value (r : SolverResult) (v : Var) : bool :=
  match sr_value r v with Some _ => true | None => false end.

(** The solver loads the values of all variables of a problem together:
    once it reports an optimum, or once any variable has a value, every
    variable of the problem has one. *)
Definition loads_together (r : SolverResult) (p : LpProblem) : Prop :=
  (sr_status r = LpStatusOptimal \/
   existsb (has_value r) (variables p) = true) ->
  forall v, In v (variables p) -> sr_value r v <> None.

(** The values the solver reports solve the problem. *)
Definition reports_solution (r : SolverResult) (p : LpProblem) : Prop :=
  exists a : assignment,
    feasible a p /\ forall v, In v (variables p) -> sr_value r v = Some (a v).

End Lp.

(* ================================================================== *)
(** * execucao_modelo.py *)
(* ================================================================== *)

(** The engine object.  [mesas] maps a table identifier to its corridor
    name and its index in the corridor, [posicoes] a seat identifier to
    its table and corridor, [dist] a pair of tables to their distance.
    The preference registry the constructor also stores is never read. *)
Record ExecucaoModelo : Type := mkExec {
  layout : LayoutConfiguration;
  cad_times : Cadastro.CadastroTimesSinergias;
  cfg : ConfiguracaoModelo;
  mesas : Py.dict string (string * Z);
  posicoes : Py.dict string (string * string);
  dist : Py.dict (string * string) Z;
  cap_total : Z
}.

(** A mesa of the readable allocation: table number, corridor and the
    teams seated there. *)
Record MesaDict : Type := mkMesa {
  mesa : Z;
  corredor : string;
  md_posicoes : list string
}.

Definition Aloc : Type := Py.dict string (list MesaDict).

Definition XKey : Type := (string * string * string)%type.
Definition XVars : Type := Py.dict XKey Lp.Var.

(** The dictionary [_solve_for_k] returns: the status alone, or the
    status with the metrics, the solved model and the [x] variables. *)
Inductive SolveResult : Type :=
| StatusOnly (status : string)
| Solved (status : string) (ocup_total : Z) (taxa_semanal : Q)
         (tempo_execucao : Q) (model : Lp.SolvedModel) (x_vars : XVars).

Record Metrics : Type := mkMetrics {
  m_ocup_total : Z;
  m_taxa_semanal : Q;
  m_tempo_execucao : Q
}.

(** The dictionary [executar] returns. *)
Record SweepResult : Type := mkSweep {
  cenarios : Py.dict Z Metrics;
  alocacoes : Py.dict Z Aloc;
  model_dict : Py.dict Z Lp.SolvedModel;
  vars_dict : Py.dict Z XVars;
  inviaveis : Py.dict Z string;
  mensagem : string
}.

Module Exec.

Import Lp.

Definition pair_eqb (a b : string * string) : bool :=
  String.eqb (fst a) (fst b) && String.eqb (snd a) (snd b).

Definition xkey_eqb (a b : XKey) : bool :=
  pair_eqb (fst a) (fst b) && String.eqb (snd a) (snd b).

Definition corredor_nome (c : Z) : string := "Corredor " ++ Py.str c.
Definition mesa_id (cor : string) (m : Z) : string := cor ++ "_M" ++ Py.str m.
Definition posicao_id (mesa_id : string) (p : Z) : string :=
  mesa_id ++ "_P" ++ Py.str p.

(** [_lista_mesas]. *)
Definition _lista_mesas (l : LayoutConfiguration)
  : Py.result (Py.dict string (string * Z)) :=
  Py.for_each (Py.range 1 (num_corridors l + 1))
    (fun mesas c =>
       let cor := corredor_nome c in
       n <- Py.index (tables_per_corridor l) (c - 1) ;;
       Py.ret (fold_left
                 (fun mesas m =>
                    Py.dict_set String.eqb (mesa_id cor m) (cor, m) mesas)
                 (Py.range 1 (n + 1)) mesas))
    [].

(** [_lista_posicoes]. *)
Definition _lista_posicoes (l : LayoutConfiguration)
    (mesas : Py.dict string (string * Z)) : Py.dict string (string * string) :=
  fold_left
    (fun pos item =>
       let mesa_id := fst item in
       let cor := fst (snd item) in
       fold_left
         (fun pos p =>
            Py.dict_set String.eqb (posicao_id mesa_id p) (mesa_id, cor) pos)
         (Py.range 1 (positions_per_table l + 1)) pos)
    mesas [].

(** The value [_dist_mesas] stores for a pair of tables. *)
Definition dist_value (m1 : string) (c1 : string) (idx1 : Z)
    (m2 : string) (c2 : string) (idx2 : Z) : Z :=
  if String.eqb m1 m2 then 0
  else if String.eqb c1 c2 then Py.abs (idx1 - idx2)
  else 5 + Py.abs (idx1 - idx2).

(** [_dist_mesas]: [m1 >= m2] on strings is [String.leb m2 m1]. *)
Definition _dist_mesas (mesas : Py.dict string (string * Z))
  : Py.dict (string * string) Z :=
  fold_left
    (fun dist item1 =>
       let '(m1, (c1, idx1)) := item1 in
       fold_left
         (fun dist item2 =>
            let '(m2, (c2, idx2)) := item2 in
            if String.leb m2 m1 then dist
            else Py.dict_set pair_eqb (m1, m2)
                   (dist_value m1 c1 idx1 m2 c2 idx2) dist)
         mesas dist)
    mesas [].

(** The three loops above written as comprehensions; the properties
    part shows that each loop builds the dictionary of its comprehension. *)
Definition mesas_table (l : LayoutConfiguration) : list (string * (string * Z)) :=
  flat_map
    (fun c =>
       map (fun m => (mesa_id (corredor_nome c) m, (corredor_nome c, m)))
           (Py.range 1 (nth (Z.to_nat (c - 1)) (tables_per_corridor l) 0 + 1)))
    (Py.range 1 (num_corridors l + 1)).

Definition posicoes_table (l : LayoutConfiguration)
    (mesas : Py.dict string (string * Z)) : list (string * (string * string)) :=
  flat_map
    (fun item =>
       map (fun p => (posicao_id (fst item) p, (fst item, fst (snd item))))
           (Py.range 1 (positions_per_table l + 1)))
    mesas.

Definition dist_table (mesas : Py.dict string (string * Z))
  : list ((string * string) * Z) :=
  flat_map
    (fun item1 =>
       flat_map
         (fun item2 =>
            if String.leb (fst item2) (fst item1) then []
            else [((fst item1, fst item2),
                   dist_value (fst item1) (fst (snd item1)) (snd (snd item1))
                              (fst item2) (fst (snd item2)) (snd (snd item2)))])
         mesas)
    mesas.

(** Corridor [c] has a table of index [i]. *)
Definition is_table (l : LayoutConfiguration) (c i : Z) : Prop :=
  1 <= c <= num_corridors l /\
  1 <= i <= nth (Z.to_nat (c - 1)) (tables_per_corridor l) 0.

(** [ExecucaoModelo.__init__]. *)
Definition init (layout_config : LayoutConfiguration)
    (cadastro_times : Cadastro.CadastroTimesSinergias)
    (configuracao_modelo : ConfiguracaoModelo) : Py.result ExecucaoModelo :=
  mesas <- _lista_mesas layout_config ;;
  let posicoes := _lista_posicoes layout_config mesas in
  let dist := _dist_mesas mesas in
  Py.ret (mkExec layout_config cadastro_times configuracao_modelo
            mesas posicoes dist (Z.of_nat (List.length posicoes))).

Section Engine.

Variable self : ExecucaoModelo.

(** [self.dist.get((m1, m2))]. *)
Definition distancia (m1 m2 : string) : option Z :=
  Py.dict_get pair_eqb (m1, m2) (dist self).

Definition times : list Time := Py.dict_values (cad_times self).

(** [_upper_bound_feasible]: [pessoas * dias_obrig / len(DIAS_UTEIS)] is
    a true division, compared with an integer.  The quotient is kept
    exact: for a head count that is not negative its float compares
    with the integer in the same way while the integer is below
    [2^50]. *)
Definition pessoas : Z := fold_left Z.add (map qtde_integrantes times) 0.

Definition demanda_dia (dias_obrig : Z) : Q :=
  (inject_Z (pessoas * dias_obrig) / inject_Z (Z.of_nat (List.length DIAS_UTEIS)))%Q.

Definition _upper_bound_feasible (dias_obrig : Z) : bool :=
  Qle_bool (demanda_dia dias_obrig)
           (inject_Z (cap_total self - folga_minima (cfg self))).

(** ** The formulation of one scenario *)

Definition dias : list string := DIAS_UTEIS.

Definition x_vars_of : XVars :=
  Py.dict_of_list xkey_eqb
    (flat_map (fun t =>
       flat_map (fun p =>
         map (fun d => ((nome t, p, d), X (nome t) p d)) dias)
         (Py.dict_keys (posicoes self)))
       times).

(** [pos_mesa = [p for p, (mm, _) in self.posicoes.items() if mm == m]]. *)
Definition pos_mesa (m : string) : list string :=
  map fst (filter (fun item => String.eqb (fst (snd item)) m) (posicoes self)).

Definition objective_of : Objective :=
  mkObjective
    (lpSum (map var (Py.dict_values x_vars_of)))
    (peso_distancia (cfg self))
    (lpSum (flat_map (fun t =>
       flat_map (fun e =>
         map (fun d => scale (snd e) (var (Zv (nome t) (fst (fst e)) (snd (fst e)) d)))
             dias)
         (dist self))
       times)).

(** Seat exclusivity. *)
Definition c_assento : list LpConstraint :=
  flat_map (fun p =>
    map (fun d =>
      mkConstraint (lpSum (map (fun t => var (X (nome t) p d)) times)) LE (num 1))
      dias)
    (Py.dict_keys (posicoes self)).

(** Footprint linkage of [x] and [y]. *)
Definition c_mesa : list LpConstraint :=
  let cap := positions_per_table (layout self) in
  flat_map (fun t =>
    flat_map (fun m =>
      let pm := pos_mesa m in
      flat_map (fun d =>
        mkConstraint (lpSum (map (fun p => var (X (nome t) p d)) pm)) LE
                     (scale cap (var (Y (nome t) m d)))
        :: map (fun p =>
                  mkConstraint (var (X (nome t) p d)) LE (var (Y (nome t) m d)))
               pm)
        dias)
      (Py.dict_keys (mesas self)))
    times.

(** Split detection. *)
Definition c_divisao : list LpConstraint :=
  flat_map (fun t =>
    flat_map (fun e =>
      let m1 := fst (fst e) in
      let m2 := snd (fst e) in
      map (fun d =>
        mkConstraint (var (Zv (nome t) m1 m2 d)) GE
          (sub (add (var (Y (nome t) m1 d)) (var (Y (nome t) m2 d))) (num 1)))
        dias)
      (dist self))
    times.

(** All-or-nothing daily attendance. *)
Definition c_presenca : list LpConstraint :=
  flat_map (fun t =>
    map (fun d =>
      mkConstraint
        (lpSum (map (fun p => var (X (nome t) p d)) (Py.dict_keys (posicoes self))))
        EQ
        (scale (qtde_integrantes t) (var (Pres (nome t) d))))
      dias)
    times.

(** Exact number of required days. *)
Definition c_dias (dias_obrig : Z) : list LpConstraint :=
  map (fun t =>
    mkConstraint (lpSum (map (fun d => var (Pres (nome t) d)) dias)) EQ
                 (num dias_obrig))
    times.

(** Daily global slack. *)
Definition c_folga : list LpConstraint :=
  map (fun d =>
    mkConstraint
      (lpSum (flat_map (fun t =>
         map (fun p => var (X (nome t) p d)) (Py.dict_keys (posicoes self)))
         times))
      LE
      (num (cap_total self - folga_minima (cfg self))))
    dias.

Definition formulate (dias_obrig : Z) : LpProblem :=
  mkProblem ("Alocacao_k" ++ Py.str dias_obrig) objective_of
    (c_assento ++ c_mesa ++ c_divisao ++ c_presenca
     ++ c_dias dias_obrig ++ c_folga)%list.

(** ** Solving one scenario *)

Definition VIABLE_STATI : list LpStatusCode := [LpStatusOptimal].
Definition INFEASIBLE_STATI : list LpStatusCode :=
  [LpStatusInfeasible; LpStatusUnbounded; LpStatusUndefined].
Definition MAYBE_STATI : list LpStatusCode := [LpStatusNotSolved].

Definition status_in (s : LpStatusCode) (l : list LpStatusCode) : bool :=
  existsb (status_eqb s) l.

(** The metrics block of [_solve_for_k]. *)
Definition metricas (status : string) (prob : LpProblem) (r : SolverResult)
  : Py.result SolveResult :=
  let ND := Z.of_nat (List.length DIAS_UTEIS) in
  ocup_total <- Py.sum (map (sr_value r) (Py.dict_values x_vars_of)) ;;
  taxa_semanal <- Py.truediv ocup_total (ND * cap_total self) ;;
  Py.ret (Solved status ocup_total (Py.round taxa_semanal 3)
            (Py.round (sr_runtime r) 2) (mkSolved prob r) x_vars_of).

(** The status handling of [_solve_for_k], after [prob.solve]. *)
Definition trata_status (prob : LpProblem) (r : SolverResult)
  : Py.result SolveResult :=
  let status := LpStatus (sr_status r) in
  if status_in (sr_status r) INFEASIBLE_STATI then Py.ret (StatusOnly status)
  else if status_in (sr_status r) MAYBE_STATI then
    if existsb (has_value r) (variables prob)
    then metricas "Feasible" prob r
    else Py.ret (StatusOnly status)
  else metricas status prob r.

Variable solver : Solver.

(** [_solve_for_k].  The second component is the log of the problems
    handed to the solver, extended by each call of [prob.solve]. *)
Definition _solve_for_k (dias_obrig : Z) (log : list LpProblem)
  : Py.result SolveResult * list LpProblem :=
  if negb (_upper_bound_feasible dias_obrig) then
    (Py.ret (StatusOnly "EarlyInfeasible"), log)
  else
    let prob := formulate dias_obrig in
    let r := solver prob in
    (trata_status prob r, (log ++ [prob])%list).

End Engine.

(** ** The readable allocation and the sweep over the scenarios *)

Section Sweep.

Variable self : ExecucaoModelo.
Variable solver : Solver.

Definition chave (k : Z) (dia corredor : string) : string :=
  Py.str k ++ "d | " ++ dia ++ " · " ++ corredor.

(** [next((m for m in lst if m["mesa"] == mesa_num), None)]. *)
Definition find_mesa (mesa_num : Z) (lst : list MesaDict) : option MesaDict :=
  find (fun m => mesa m =? mesa_num) lst.

(** [mesa_dict["posicoes"].append(team)]: the mesa found is the object
    held by the list, so the list sees the new team. *)
Fixpoint append_team (mesa_num : Z) (team : string) (lst : list MesaDict)
  : list MesaDict :=
  match lst with
  | [] => []
  | m :: rest =>
      if mesa m =? mesa_num
      then mkMesa (mesa m) (corredor m) (md_posicoes m ++ [team])%list :: rest
      else m :: append_team mesa_num team rest
  end.

(** [aloc.setdefault(chave, [])]. *)
Definition setdefault (chave : string) (aloc : Aloc) : Aloc * list MesaDict :=
  match Py.dict_get String.eqb chave aloc with
  | Some lst => (aloc, lst)
  | None => (Py.dict_set String.eqb chave [] aloc, [])
  end.

(** [var.value() != 1]. *)
Definition value_is_not_1 (v : option Z) : bool :=
  match v with
  | Some n => negb (n =? 1)
  | None => true
  end.

(** One turn of the loop over [res["x_vars"].items()]. *)
Definition extract_step (k : Z) (model : SolvedModel) (aloc : Aloc)
    (item : XKey * Var) : Py.result Aloc :=
  let '((team, pos, dia), v) := item in
  if value_is_not_1 (value model v) then Py.ret aloc
  else
    mc <- Py.dict_item String.eqb pos (posicoes self) ;;
    let '(mesa_id, corredor) := mc in
    s <- Py.index (Py.split "_M" mesa_id) 1 ;;
    mesa_num <- Py.int s ;;
    let chave := chave k dia corredor in
    let '(aloc, lst) := setdefault chave aloc in
    let lst :=
      match find_mesa mesa_num lst with
      | Some _ => lst
      | None => (lst ++ [mkMesa mesa_num corredor []])%list
      end in
    Py.ret (Py.dict_set String.eqb chave (append_team mesa_num team lst) aloc).

(** The extraction: a fresh [aloc], filled from the [x] variables. *)
Definition extract (k : Z) (model : SolvedModel) (x_vars : XVars)
  : Py.result Aloc :=
  Py.for_each x_vars (extract_step k model) [].

(** The extraction followed by [alocacoes[k] = aloc]. *)
Definition registra_alocacao (k : Z) (model : SolvedModel) (x_vars : XVars)
    (alocacoes : Py.dict Z Aloc) : Py.result (Py.dict Z Aloc) :=
  aloc <- extract k model x_vars ;;
  Py.ret (Py.dict_set Z.eqb k aloc alocacoes).

(** The five dictionaries [executar] fills. *)
Record Sweep : Type := mkState {
  s_viaveis : Py.dict Z Metrics;
  s_inviaveis : Py.dict Z string;
  s_alocacoes : Py.dict Z Aloc;
  s_model_dict : Py.dict Z SolvedModel;
  s_var_dict : Py.dict Z XVars
}.

Definition vazio : Sweep := mkState [] [] [] [] [].

Definition status_of (res : SolveResult) : string :=
  match res with
  | StatusOnly status => status
  | Solved status _ _ _ _ _ => status
  end.

(** [res.get("status") in {"Optimal", "Feasible"}]. *)
Definition aceito (res : SolveResult) : bool :=
  existsb (String.eqb (status_of res)) ["Optimal"; "Feasible"].

(** The three outcomes of a scenario, read off the result the way
    [executar] does: a status in the accepted set keeps the scenario, the
    status of the pre-check marks an early rejection, any other status a
    rejection recorded with its text. *)
Inductive Outcome : Type :=
| Accepted (status : string)
| Rejected (status : string)
| EarlyRejected.

Definition outcome (res : SolveResult) : Outcome :=
  if aceito res then Accepted (status_of res)
  else if String.eqb (status_of res) "EarlyInfeasible" then EarlyRejected
  else Rejected (status_of res).

(** What the loop body does with the result of [_solve_for_k]. *)
Definition registra (st : Sweep) (k : Z) (res : SolveResult) : Py.result Sweep :=
  if aceito res then
    match res with
    | Solved _ ocup_total taxa_semanal tempo_execucao model x_vars =>
        alocacoes <- registra_alocacao k model x_vars (s_alocacoes st) ;;
        Py.ret (mkState
                  (Py.dict_set Z.eqb k
                     (mkMetrics ocup_total taxa_semanal tempo_execucao)
                     (s_viaveis st))
                  (s_inviaveis st)
                  alocacoes
                  (Py.dict_set Z.eqb k model (s_model_dict st))
                  (Py.dict_set Z.eqb k x_vars (s_var_dict st)))
    | StatusOnly _ => Py.raise Py.KeyError
    end
  else
    Py.ret (mkState (s_viaveis st)
              (Py.dict_set Z.eqb k (status_of res) (s_inviaveis st))
              (s_alocacoes st) (s_model_dict st) (s_var_dict st)).

(** The loop [for k in self.cfg.dias_obrigatorios_range]. *)
Fixpoint laco (ks : list Z) (st : Sweep) (log : list LpProblem)
  : Py.result Sweep * list LpProblem :=
  match ks with
  | [] => (Py.ret st, log)
  | k :: ks' =>
      match _solve_for_k self solver k log with
      | (inl e, log') => (inl e, log')
      | (inr res, log') =>
          match registra st k res with
          | inl e => (inl e, log')
          | inr st' => laco ks' st' log'
          end
      end
  end.

(** The result of the scenario of [k] required days, and whether the
    sweep keeps it. *)
Definition resultado (k : Z) : Py.result SolveResult :=
  fst (_solve_for_k self solver k []).

Definition scenario_accepted (k : Z) : Prop :=
  exists res, resultado k = inr res /\ aceito res = true.

Definition scenario_rejected (k : Z) : Prop :=
  exists res, resultado k = inr res /\ aceito res = false.

(** [executar]. *)
Definition executar (log : list LpProblem)
  : Py.result SweepResult * list LpProblem :=
  match laco (dias_obrigatorios_range (cfg self)) vazio log with
  | (inl e, log') => (inl e, log')
  | (inr st, log') =>
      match s_viaveis st with
      | [] =>
          (Py.raise (Py.RuntimeError
             "Todos os cenários foram classificados como inviáveis."), log')
      | _ :: _ =>
          (Py.ret (mkSweep (s_viaveis st) (s_alocacoes st) (s_model_dict st)
                     (s_var_dict st) (s_inviaveis st) "Processo concluído."),
           log')
      end
  end.

End Sweep.

End Exec.

(* ================================================================== *)
(** * Example venues and scenarios *)
(* ================================================================== *)

Module Exemplo.

(** Scenario A: one corridor, two tables of four seats, teams Alpha and
    Beta of three people, two required days, no slack, no distance
    weight. *)
Definition layoutA : LayoutConfiguration := mkLayout 1 [2] 4.
Definition alpha : Time := mkTime "Alpha" 3 [].
Definition beta : Time := mkTime "Beta" 3 [].
Definition cadA : Cadastro.CadastroTimesSinergias :=
  [("Alpha", alpha); ("Beta", beta)].
Definition cfgA : ConfiguracaoModelo :=
  mkConfig "max_ocupacao_media" [] 0 0 0 [2] [].
Definition execA : ExecucaoModelo :=
  mkExec layoutA cadA cfgA
    (Exec.mesas_table layoutA)
    (Exec._lista_posicoes layoutA (Exec.mesas_table layoutA))
    (Exec._dist_mesas (Exec.mesas_table layoutA))
    8.

(** A solution of scenario A: on Monday and Tuesday Alpha sits at the
    first three seats of table 1 and Beta at those of table 2. *)
Definition segunda_ou_terca (d : string) : bool :=
  String.eqb d "Segunda" || String.eqb d "Terça".

Definition tres_primeiras (m p : string) : bool :=
  existsb (String.eqb p) (map (Exec.posicao_id m) [1; 2; 3]).

Definition mesa_de (t : string) : string :=
  if String.eqb t "Alpha" then "Corredor 1_M1"
  else if String.eqb t "Beta" then "Corredor 1_M2"
  else EmptyString.

Definition solA : Lp.assignment :=
  fun v =>
    match v with
    | Lp.X t p d =>
        if segunda_ou_terca d && tres_primeiras (mesa_de t) p then 1 else 0
    | Lp.Y t m d =>
        if segunda_ou_terca d && negb (String.eqb m EmptyString)
           && String.eqb m (mesa_de t)
        then 1 else 0
    | Lp.Zv _ _ _ _ => 0
    | Lp.Pres t d =>
        if segunda_ou_terca d && negb (String.eqb (mesa_de t) EmptyString)
        then 1 else 0
    end.

(** A solver that answers every problem with that solution, proved
    optimal, in a quarter of a second. *)
Definition solverA : Lp.Solver :=
  fun _ => Lp.mkSolverResult Lp.LpStatusOptimal (fun v => Some (solA v)) (1 # 4).

(** A venue of one table of three seats and a team of one person that
    comes on one day. *)
Definition layoutS : LayoutConfiguration := mkLayout 1 [1] 3.
Definition solo : Time := mkTime "Solo" 1 [].
Definition cadS : Cadastro.CadastroTimesSinergias := [("Solo", solo)].
Definition cfgS : ConfiguracaoModelo :=
  mkConfig "max_ocupacao_media" [] 0 0 0 [1] [].
Definition execS : ExecucaoModelo :=
  mkExec layoutS cadS cfgS
    (Exec.mesas_table layoutS)
    (Exec._lista_posicoes layoutS (Exec.mesas_table layoutS))
    (Exec._dist_mesas (Exec.mesas_table layoutS))
    3.

Definition solS : Lp.assignment :=
  fun v =>
    match v with
    | Lp.X t p d =>
        if String.eqb t "Solo" && String.eqb p "Corredor 1_M1_P1"
           && String.eqb d "Segunda"
        then 1 else 0
    | Lp.Y t m d =>
        if String.eqb t "Solo" && String.eqb m "Corredor 1_M1"
           && String.eqb d "Segunda"
        then 1 else 0
    | Lp.Zv _ _ _ _ => 0
    | Lp.Pres t d =>
        if String.eqb t "Solo" && String.eqb d "Segunda" then 1 else 0
    end.

Definition solverS : Lp.Solver :=
  fun _ => Lp.mkSolverResult Lp.LpStatusOptimal (fun v => Some (solS v)) (1 # 10).

(** The venue of scenario A with one team of nine people required on
    all five days: more people than seats every day. *)
Definition gamma : Time := mkTime "Gamma" 9 [].
Definition cadG : Cadastro.CadastroTimesSinergias := [("Gamma", gamma)].
Definition cfgG : ConfiguracaoModelo :=
  mkConfig "max_ocupacao_media" [] 0 0 0 [5] [].
Definition execG : ExecucaoModelo :=
  mkExec layoutA cadG cfgG
    (Exec.mesas_table layoutA)
    (Exec._lista_posicoes layoutA (Exec.mesas_table layoutA))
    (Exec._dist_mesas (Exec.mesas_table layoutA))
    8.

(** A solver that stops without a proof and leaves values on the
    presence variables only. *)
Definition solverP : Lp.Solver :=
  fun _ =>
    Lp.mkSolverResult Lp.LpStatusNotSolved
      (fun v => match v with Lp.Pres _ _ => Some 0 | _ => None end) (1 # 4).

(** A solver that reports an optimum and leaves every variable without
    a value. *)
Definition solverV : Lp.Solver :=
  fun _ => Lp.mkSolverResult Lp.LpStatusOptimal (fun _ => None) (1 # 4).

(** A wide venue: one corridor, four tables of four seats, with the
    team of one person that comes on one day. *)
Definition layoutW : LayoutConfiguration := mkLayout 1 [4] 4.
Definition execW : ExecucaoModelo :=
  mkExec layoutW cadS cfgS
    (Exec.mesas_table layoutW)
    (Exec._lista_posicoes layoutW (Exec.mesas_table layoutW))
    (Exec._dist_mesas (Exec.mesas_table layoutW))
    16.

(** A narrow venue: one corridor, two tables of one seat. *)
Definition layoutN : LayoutConfiguration := mkLayout 1 [2] 1.
Definition execN : ExecucaoModelo :=
  mkExec layoutN [] cfgA
    (Exec.mesas_table layoutN)
    (Exec._lista_posicoes layoutN (Exec.mesas_table layoutN))
    (Exec._dist_mesas (Exec.mesas_table layoutN))
    2.

End Exemplo.

(* ================================================================== *)
(** * main.py: the seat capacity shown to the user *)
(* ================================================================== *)

Module Main.

(** [max_seats = sum(cfg.tables_per_corridor) * cfg.positions_per_table],
    the seat capacity the team page shows. *)
Definition max_seats (cfg : LayoutConfiguration) : Z :=
  fold_left Z.add (tables_per_corridor cfg) 0 * positions_per_table cfg.

End Main.

(* ================================================================== *)
(** * Measures of a readable allocation *)
(* ================================================================== *)

Module Leitura.

(** The team entries listed under the mesas of one key, and in the whole
    structure. *)
Definition entradas_lista (lst : list MesaDict) : Z :=
  fold_right Z.add 0 (map (fun m => Z.of_nat (List.length (md_posicoes m))) lst).

Definition entradas (aloc : Aloc) : Z :=
  fold_right Z.add 0 (map (fun kv => entradas_lista (snd kv)) aloc).

(** The [x] variables whose value is 1. *)
Definition ocupadas (model : Lp.SolvedModel) (xv : XVars) : Z :=
  fold_right Z.add 0
    (map (fun item =>
            if Exec.value_is_not_1 (Lp.value model (snd item)) then 0 else 1)
         xv).

(** Under one key every mesa number appears once and every mesa lists a
    team; no key is repeated or left without a mesa. *)
Definition agrupada (aloc : Aloc) : Prop :=
  NoDup (Py.dict_keys aloc) /\
  Forall (fun kv =>
            snd kv <> [] /\
            NoDup (map mesa (snd kv)) /\
            Forall (fun m => md_posicoes m <> []) (snd kv))
         aloc.

(** [pl.value(model.objective)] under the values [a]: the gain less the
    weight times the penalty. *)
Definition valor_objetivo (a : Lp.assignment) (o : Lp.Objective) : Q :=
  (inject_Z (Lp.eval a (Lp.gain o))
   - Lp.weight o * inject_Z (Lp.eval a (Lp.penalty o)))%Q.

End Leitura.

(* ================================================================== *)
(** * cadastro_times_sinergias.py: synergies, removal, validation *)
(* ================================================================== *)

(** Each team owns its list of synergies, as the lists the team page
    passes at registration do: a change made through one team is seen
    through that team only.  A change of a registered team is written
    back under its key, which keeps its place in the register. *)

Module CadastroTimes.

(** [x in l] on a list of names. *)
Definition contem (x : string) (l : list string) : bool :=
  existsb (String.eqb x) l.

(** [n in self.times]. *)
Definition registado (n : string) (cad : Cadastro.CadastroTimesSinergias) : bool :=
  match Py.dict_get String.eqb n cad with
  | Some _ => true
  | None => false
  end.

Definition com_sinergias (t : Time) (s : list string) : Time :=
  mkTime (nome t) (qtde_integrantes t) s.

(** [Time.add_sinergia]. *)
Definition Time_add_sinergia (t : Time) (outro_time : string) : Time :=
  if negb (contem outro_time (sinergias t)) && negb (String.eqb outro_time (nome t))
  then com_sinergias t (sinergias t ++ [outro_time])
  else t.

(** [l.remove(x)], called where [x in l] holds: the first occurrence
    goes. *)
Fixpoint list_remove (x : string) (l : list string) : list string :=
  match l with
  | [] => []
  | y :: l' => if String.eqb x y then l' else y :: list_remove x l'
  end.

(** [self.times.pop(k, None)]. *)
Fixpoint dict_pop (k : string) (d : Cadastro.CadastroTimesSinergias)
  : Cadastro.CadastroTimesSinergias :=
  match d with
  | [] => []
  | (k', v) :: d' => if String.eqb k k' then d' else (k', v) :: dict_pop k d'
  end.

(** The body of the loop of [remover_time] on one team. *)
Definition sem_referencia (nome_time : string) (t : Time) : Time :=
  if contem nome_time (sinergias t)
  then com_sinergias t (list_remove nome_time (sinergias t))
  else t.

(** [CadastroTimesSinergias.remover_time]. *)
Definition remover_time (cad : Cadastro.CadastroTimesSinergias) (nome_time : string)
  : Cadastro.CadastroTimesSinergias :=
  map (fun kt => (fst kt, sem_referencia nome_time (snd kt))) (dict_pop nome_time cad).

(** [CadastroTimesSinergias.add_sinergia]. *)
Definition add_sinergia (cad : Cadastro.CadastroTimesSinergias) (time1 time2 : string)
  : Py.result Cadastro.CadastroTimesSinergias :=
  if negb (registado time1 cad) || negb (registado time2 cad) then
    Py.raise (Py.ValueError
      "Ambos os times precisam estar cadastrados antes de criar sinergia.")
  else
    t1 <- Py.dict_item String.eqb time1 cad ;;
    let cad1 := Py.dict_set String.eqb time1 (Time_add_sinergia t1 time2) cad in
    t2 <- Py.dict_item String.eqb time2 cad1 ;;
    Py.ret (Py.dict_set String.eqb time2 (Time_add_sinergia t2 time1) cad1).

(** [CadastroTimesSinergias.validar_cadastro]. *)
Definition validar_cadastro (cad : Cadastro.CadastroTimesSinergias) : Py.result bool :=
  _ <- Py.for_each (Py.dict_values cad)
         (fun _ time =>
            Py.for_each (sinergias time)
              (fun _ t_sin =>
                 if negb (registado t_sin cad) then
                   Py.raise (Py.ValueError
                     ("Sinergia inválida: o time '" ++ t_sin
                      ++ "' não está cadastrado (referenciado em '"
                      ++ nome time ++ "')."))
                 else Py.ret tt)
              tt)
         tt ;;
  Py.ret true.

(** [CadastroTimesSinergias.listar_times]. *)
Definition listar_times (cad : Cadastro.CadastroTimesSinergias) : list string :=
  Py.dict_keys cad.

(** [1 if (a == b or b in self.times[a].sinergias) else 0]. *)
Definition celula (cad : Cadastro.CadastroTimesSinergias) (a b : string)
  : Py.result Z :=
  if String.eqb a b then Py.ret 1
  else
    t <- Py.dict_item String.eqb a cad ;;
    Py.ret (if contem b (sinergias t) then 1 else 0).

(** [CadastroTimesSinergias.obter_matriz_sinergia]. *)
Definition obter_matriz_sinergia (cad : Cadastro.CadastroTimesSinergias)
  : Py.result (Py.dict string (Py.dict string Z)) :=
  let nomes := listar_times cad in
  Py.for_each nomes
    (fun matriz a =>
       linha <- Py.for_each nomes
                  (fun linha b =>
                     v <- celula cad a b ;;
                     Py.ret (Py.dict_set String.eqb b v linha))
                  [] ;;
       Py.ret (Py.dict_set String.eqb a linha matriz))
    [].

(** [matriz[a][b]]. *)
Definition entrada (matriz : Py.dict string (Py.dict string Z)) (a b : string)
  : Py.result Z :=
  linha <- Py.dict_item String.eqb a matriz ;;
  Py.dict_item String.eqb b linha.

(** The team page of [main.py], button "Salvar Times": a new register
    filled with one team for each buffered name and size. *)
Definition salvar_times (buf : list (string * Z))
  : Py.result Cadastro.CadastroTimesSinergias :=
  Py.for_each buf
    (fun cadastro t =>
       time <- Cadastro.Time_init (fst t) (snd t) (Some []) ;;
       Cadastro.adicionar_time cadastro time)
    [].

(** A register as the class keeps it when filled through its methods:
    keys are the names of their teams, no team lists itself or a name
    twice, and every name a team lists is registered and lists the team
    back. *)
Definition coerente (cad : Cadastro.CadastroTimesSinergias) : Prop :=
  NoDup (Py.dict_keys cad) /\
  forall a ta, Py.dict_get String.eqb a cad = Some ta ->
    nome ta = a /\ NoDup (sinergias ta) /\ ~ In a (sinergias ta) /\
    forall b, In b (sinergias ta) ->
      exists tb, Py.dict_get String.eqb b cad = Some tb /\ In a (sinergias tb).

End CadastroTimes.

(* ================================================================== *)
(** * preferencias_dias.py *)
(* ================================================================== *)

Module Preferencias.

Record PreferenciaDia : Type := mkPref {
  nome : string;
  dias_preferenciais : Py.dict string bool;
  dias_obrigatorios : Z;
  peso : Q
}.

(** The [for k in self.dias_preferenciais] check of [__init__]. *)
Fixpoint check_dias (ks : list string) : Py.result unit :=
  match ks with
  | [] => Py.ret tt
  | k :: ks' =>
      if negb (existsb (String.eqb k) DIAS_UTEIS)
      then Py.raise (Py.ValueError ("Dia inválido: " ++ k))
      else check_dias ks'
  end.

(** [dias_preferenciais or {d: False for d in DIAS_UTEIS}]. *)
Definition dias_ou_padrao (dias_preferenciais : option (Py.dict string bool))
  : Py.dict string bool :=
  match dias_preferenciais with
  | Some ((_ :: _) as d) => d
  | _ => Py.dict_of_list String.eqb (map (fun d => (d, false)) DIAS_UTEIS)
  end.

(** [PreferenciaDia.__init__]. *)
Definition init (nome : string) (dias_preferenciais : option (Py.dict string bool))
    (dias_obrigatorios : Z) (peso : Q) : Py.result PreferenciaDia :=
  if (dias_obrigatorios <? 0)
     || (Z.of_nat (List.length DIAS_UTEIS) <? dias_obrigatorios) then
    Py.raise (Py.ValueError "Dias obrigatórios fora do intervalo válido.")
  else
    let dias := dias_ou_padrao dias_preferenciais in
    _ <- check_dias (Py.dict_keys dias) ;;
    Py.ret (mkPref nome dias dias_obrigatorios peso).

(** [PreferenciaDia.contar_preferencias]: [sum] over booleans. *)
Definition contar_preferencias (p : PreferenciaDia) : Z :=
  fold_left (fun acc (v : bool) => acc + (if v then 1 else 0))
            (Py.dict_values (dias_preferenciais p)) 0.

(** [CadastroPreferenciasDias.preferencias]. *)
Definition CadastroPreferenciasDias : Type := Py.dict string PreferenciaDia.

(** [CadastroPreferenciasDias.adicionar_preferencia]. *)
Definition adicionar_preferencia (cad : CadastroPreferenciasDias) (pref : PreferenciaDia)
  : Py.result CadastroPreferenciasDias :=
  match Py.dict_get String.eqb (nome pref) cad with
  | Some _ =>
      Py.raise (Py.ValueError ("Preferência para '" ++ nome pref ++ "' já cadastrada."))
  | None => Py.ret (Py.dict_set String.eqb (nome pref) pref cad)
  end.

(** [CadastroPreferenciasDias.atualizar_preferencia]. *)
Definition atualizar_preferencia (cad : CadastroPreferenciasDias) (pref : PreferenciaDia)
  : Py.result CadastroPreferenciasDias :=
  match Py.dict_get String.eqb (nome pref) cad with
  | None => Py.raise (Py.ValueError "Preferência inexistente.")
  | Some _ => Py.ret (Py.dict_set String.eqb (nome pref) pref cad)
  end.

(** [CadastroPreferenciasDias.validar_preferencias]. *)
Definition validar_preferencias (cad : CadastroPreferenciasDias) : Py.result bool :=
  _ <- Py.for_each (Py.dict_values cad)
         (fun _ pref =>
            if Z.of_nat (List.length DIAS_UTEIS) <? dias_obrigatorios pref then
              Py.raise (Py.ValueError
                (nome pref ++ ": dias obrigatórios excedem número de dias úteis."))
            else Py.ret tt)
         tt ;;
  Py.ret true.

(** A preference the constructor returned. *)
Definition construida (p : PreferenciaDia) : Prop :=
  exists n dp d w, init n dp d w = inr p.

End Preferencias.

(* ================================================================== *)
(** * layout_configuration.py: preview and validation *)
(* ================================================================== *)

(** An entry [{"table_number": ..., "positions": ...}] of the preview. *)
Record TableConfig : Type := mkTableConfig {
  table_number : Z;
  positions : Z
}.

Module Previa.

(** [LayoutConfiguration.generate_layout_preview]. *)
Definition generate_layout_preview (self : LayoutConfiguration)
  : Py.result (Py.dict string (list TableConfig)) :=
  Py.for_each (Py.range 1 (num_corridors self + 1))
    (fun preview corridor_index =>
       num_tables <- Py.index (tables_per_corridor self) (corridor_index - 1) ;;
       let tables :=
         map (fun table_index =>
                mkTableConfig table_index (positions_per_table self))
             (Py.range 1 (num_tables + 1)) in
       Py.ret (Py.dict_set String.eqb ("Corredor " ++ Py.str corridor_index)
                 tables preview))
    [].

(** [validate_layout_configuration]. *)
Definition validate_layout_configuration (config : LayoutConfiguration)
  : Py.result bool :=
  if num_corridors config <=? 0 then
    Py.raise (Py.ValueError
      "Configuração inválida: o número de corredores deve ser maior que zero.")
  else if positions_per_table config <=? 0 then
    Py.raise (Py.ValueError
      "Configuração inválida: o número de posições por mesa deve ser maior que zero.")
  else if negb (Z.of_nat (List.length (tables_per_corridor config))
                =? num_corridors config) then
    Py.raise (Py.ValueError
      "Configuração inválida: o tamanho de tables_per_corridor deve ser igual ao número de corredores.")
  else Py.ret true.

(** The positions a preview shows, over all its tables. *)
Definition lugares (preview : Py.dict string (list TableConfig)) : Z :=
  fold_right Z.add 0
    (map (fun kv => fold_right Z.add 0 (map positions (snd kv))) preview).

End Previa.

(* ================================================================== *)
(** * String methods used by the result views *)
(* ================================================================== *)

Module Str.

(** [s.replace(c, r)] for a one-character [c] and an empty [r]. *)
Fixpoint remove (c : ascii) (s : string) : string :=
  match s with
  | EmptyString => EmptyString
  | String a s' => if Ascii.eqb a c then remove c s' else String a (remove c s')
  end.

(** [s[n:]]. *)
Fixpoint drop (n : nat) (s : string) : string :=
  match n, s with
  | O, _ => s
  | S _, EmptyString => EmptyString
  | S n', String _ s' => drop n' s'
  end.

(** [s.startswith(p)]. *)
Definition startswith (p s : string) : bool := String.prefix p s.

Fixpoint rev (s : string) : string :=
  match s with
  | EmptyString => EmptyString
  | String a s' => rev s' ++ String a EmptyString
  end.

Definition bytes (l : list nat) : string :=
  fold_right (fun n s => String (ascii_of_nat n) s) EmptyString l.

(** The characters [str.strip] removes, in UTF-8: U+0009 to U+000D,
    U+001C to U+0020, U+0085, U+00A0, U+1680, U+2000 to U+200A, U+2028,
    U+2029, U+202F, U+205F and U+3000. *)
Definition WHITESPACE : list string :=
  map bytes
    [[9]; [10]; [11]; [12]; [13]; [28]; [29]; [30]; [31]; [32];
     [194; 133]; [194; 160]; [225; 154; 128];
     [226; 128; 128]; [226; 128; 129]; [226; 128; 130]; [226; 128; 131];
     [226; 128; 132]; [226; 128; 133]; [226; 128; 134]; [226; 128; 135];
     [226; 128; 136]; [226; 128; 137]; [226; 128; 138];
     [226; 128; 168]; [226; 128; 169]; [226; 128; 175];
     [226; 129; 159]; [227; 128; 128]]%nat.

(** Dropping from the front every leading occurrence of a pattern of
    [ws]; [skip] counts the characters of a matched pattern still to be
    dropped. *)
Fixpoint lstrip_go (ws : list string) (skip : nat) (s : string) : string :=
  match s with
  | EmptyString => EmptyString
  | String _ s' =>
      match skip with
      | S n => lstrip_go ws n s'
      | O =>
          match find (fun w => String.prefix w s) ws with
          | Some w => lstrip_go ws (String.length w - 1) s'
          | None => s
          end
      end
  end.

(** [s.lstrip()], [s.rstrip()] and [s.strip()]. *)
Definition lstrip (s : string) : string := lstrip_go WHITESPACE O s.
Definition rstrip (s : string) : string :=
  rev (lstrip_go (map rev WHITESPACE) O (rev s)).
Definition strip (s : string) : string := rstrip (lstrip s).

(** The characters of a decimal numeral. *)
Definition numeral_char (c : ascii) : bool :=
  existsb (Ascii.eqb c)
    ["0"; "1"; "2"; "3"; "4"; "5"; "6"; "7"; "8"; "9"; "-"]%char.

End Str.

(* ================================================================== *)
(** * visualizacao_resultados.py: what does not go through pandas *)
(* ================================================================== *)

Module Visualizacao.

(** [cenarios_disponiveis]: [sorted(self.alocacoes)]. *)
Definition cenarios_disponiveis (alocacoes : Py.dict Z Aloc) : list Z :=
  Py.sorted (Py.dict_keys alocacoes).

(** Unpacking a list into two or three names. *)
Definition unpack_error {A} (n : nat) (got : nat) : Py.result A :=
  Py.raise (Py.ValueError
    (if Nat.ltb got n then "not enough values to unpack"
     else "too many values to unpack")).

(** The key parsing of [tabela_semana]:
    [_, resto = chave.split("|")] and
    [dia, corredor = [s.strip() for s in resto.split("·")]]. *)
Definition dia_e_corredor (chave : string) : Py.result (string * string) :=
  match Py.split "|" chave with
  | [_; resto] =>
      match map Str.strip (Py.split "·" resto) with
      | [dia; corredor] => Py.ret (dia, corredor)
      | l => unpack_error 2 (List.length l)
      end
  | l => unpack_error 2 (List.length l)
  end.

(** The labels of a row of [relatorio_sensibilidade], read from the key
    of a position: [pos.split("_")], the two [replace] and the two
    [int]. *)
Definition rotulos (pos : string) : Py.result (string * Z * Z) :=
  match Py.split "_" pos with
  | [corredor_lbl; mesa_lbl; pos_lbl] =>
      let mesa_num := Str.remove "M" mesa_lbl in
      let pos_num := Str.remove "P" pos_lbl in
      mesa <- Py.int mesa_num ;;
      posicao <- Py.int pos_num ;;
      Py.ret (corredor_lbl, mesa, posicao)
  | l => unpack_error 3 (List.length l)
  end.

(** [_tipo_rest], the classifier of constraint names nested in
    [relatorio_sensibilidade].  The numeral parser [int] is an argument:
    the classifier uses only the index it returns. *)
Definition _tipo_rest (int : string -> Py.result Z) (nome : string)
  : Py.result string :=
  if Str.startswith "_C" nome then
    idx <- int (Str.drop 2 nome) ;;
    Py.ret (if idx <=? 5 * 25 then "Capacidade Assento"
            else if idx <=? 2 * 5 * 5 then "Contiguidade Time×Mesa"
            else if idx <=? 3 * 5 * 5 then "Distância Intra-time"
            else "Outras")
  else if Str.startswith "pres_" nome then Py.ret "Obrigatoriedade de dias"
  else Py.ret "Capacidade Total".

End Visualizacao.

(* ================================================================== *)
(** * Further example data *)
(* ================================================================== *)

Module Casos.

(** The solved model of scenario A for two days, and the readable
    allocation read from it. *)
Definition modeloA : Lp.SolvedModel :=
  Lp.mkSolved (Exec.formulate Exemplo.execA 2)
    (Exemplo.solverA (Exec.formulate Exemplo.execA 2)).

(** Scenario A's register after a synergy between its two teams. *)
Definition cadAB : Cadastro.CadastroTimesSinergias :=
  [("Alpha", mkTime "Alpha" 3 ["Beta"]); ("Beta", mkTime "Beta" 3 ["Alpha"])].

Definition alocA : Aloc :=
  [("2d | Segunda · Corredor 1",
    [mkMesa 1 "Corredor 1" ["Alpha"; "Alpha"; "Alpha"];
     mkMesa 2 "Corredor 1" ["Beta"; "Beta"; "Beta"]]);
   ("2d | Terça · Corredor 1",
    [mkMesa 1 "Corredor 1" ["Alpha"; "Alpha"; "Alpha"];
     mkMesa 2 "Corredor 1" ["Beta"; "Beta"; "Beta"]])].

End Casos.

(* ================================================================== *)
(** * Properties *)
(* ================================================================== *)

(** ** The Python prelude *)

Section DictFacts.
Variables K V : Type.
Variable eqb : K -> K -> bool.
Hypothesis eqb_eq : forall a b, eqb a b = true <-> a = b.

Lemma eqb_refl_of a : eqb a a = true.
Proof. now apply eqb_eq. Qed.

Lemma eqb_neq_of a b : a <> b -> eqb a b = false.
Proof.
  intros Hab. destruct (eqb a b) eqn:E; [|reflexivity].
  now apply eqb_eq in E.
Qed.

Lemma dict_get_none (k : K) (d : Py.dict K V) :
  Py.dict_get eqb k d = None <-> ~ In k (Py.dict_keys d).
Proof.
  induction d as [|[k' v] d IH]; simpl.
  - tauto.
  - destruct (eqb k k') eqn:E.
    + apply eqb_eq in E. subst. split; [discriminate | tauto].
    + rewrite IH. split.
      * intros Hn [Hk | Hk]; [|tauto]. subst. rewrite eqb_refl_of in E. discriminate.
      * tauto.
Qed.

Lemma dict_get_in (k : K) (v : V) (d : Py.dict K V) :
  Py.dict_get eqb k d = Some v -> In (k, v) d.
Proof.
  induction d as [|[k' v'] d IH]; simpl; [discriminate|].
  destruct (eqb k k') eqn:E.
  - apply eqb_eq in E. intros [= ->]. subst. now left.
  - intros H. right. now apply IH.
Qed.

Lemma dict_in_get (k : K) (v : V) (d : Py.dict K V) :
  NoDup (Py.dict_keys d) -> In (k, v) d -> Py.dict_get eqb k d = Some v.
Proof.
  induction d as [|[k' v'] d IH]; simpl; [tauto|].
  intros Hnd [Heq | Hin].
  - injection Heq as -> ->. now rewrite eqb_refl_of.
  - inversion Hnd as [|? ? Hni Hnd']; subst.
    destruct (eqb k k') eqn:E.
    + apply eqb_eq in E. subst. exfalso. apply Hni.
      change k' with (fst (k', v)). now apply in_map.
    + now apply IH.
Qed.

Lemma dict_set_keys_new (k : K) (v : V) (d : Py.dict K V) :
  ~ In k (Py.dict_keys d) -> Py.dict_set eqb k v d = (d ++ [(k, v)])%list.
Proof.
  induction d as [|[k' v'] d IH]; simpl; [reflexivity|].
  intros Hni. rewrite eqb_neq_of by (intros ->; apply Hni; now left).
  rewrite IH; [reflexivity|]. intros Hk. apply Hni. now right.
Qed.

Lemma dict_set_keys (k : K) (v : V) (d : Py.dict K V) :
  Py.dict_keys (Py.dict_set eqb k v d) =
  if existsb (eqb k) (Py.dict_keys d) then Py.dict_keys d
  else (Py.dict_keys d ++ [k])%list.
Proof.
  induction d as [|[k' v'] d IH]; simpl; [reflexivity|].
  destruct (eqb k k') eqn:E; simpl; [reflexivity|].
  rewrite IH. now destruct (existsb (eqb k) (Py.dict_keys d)).
Qed.

Lemma dict_set_nodup (k : K) (v : V) (d : Py.dict K V) :
  NoDup (Py.dict_keys d) -> NoDup (Py.dict_keys (Py.dict_set eqb k v d)).
Proof.
  intros Hnd. rewrite dict_set_keys.
  destruct (existsb (eqb k) (Py.dict_keys d)) eqn:E; [assumption|].
  apply NoDup_app; [assumption | repeat constructor; simpl; tauto |].
  intros a Ha [Hk | []]. subst a.
  assert (existsb (eqb k) (Py.dict_keys d) = true); [|congruence].
  apply existsb_exists. exists k. split; [assumption | apply eqb_refl_of].
Qed.

Lemma dict_set_in (k k0 : K) (v v0 : V) (d : Py.dict K V) :
  In (k, v) (Py.dict_set eqb k0 v0 d) -> (k, v) = (k0, v0) \/ In (k, v) d.
Proof.
  induction d as [|[k' v'] d IH]; simpl.
  - intros [H | []]. now left.
  - destruct (eqb k0 k') eqn:E; simpl.
    + apply eqb_eq in E. subst. intros [H | H]; [left | right; right]; congruence.
    + intros [H | H]; [now right; left|]. destruct (IH H); [now left | now right; right].
Qed.

Lemma dict_set_get_same (k : K) (v : V) (d : Py.dict K V) :
  Py.dict_get eqb k (Py.dict_set eqb k v d) = Some v.
Proof.
  induction d as [|[k' v'] d IH]; simpl.
  - now rewrite eqb_refl_of.
  - destruct (eqb k k') eqn:E; simpl; now rewrite E.
Qed.

Lemma dict_set_twice (k : K) (v w : V) (d : Py.dict K V) :
  Py.dict_set eqb k v (Py.dict_set eqb k w d) = Py.dict_set eqb k v d.
Proof.
  induction d as [|[k' v'] d IH]; simpl.
  - now rewrite eqb_refl_of.
  - destruct (eqb k k') eqn:E; simpl; rewrite E; [reflexivity | now rewrite IH].
Qed.

Lemma dict_set_values_forall (P : V -> Prop) (k : K) (v : V) (d : Py.dict K V) :
  P v -> Forall P (Py.dict_values d) ->
  Forall P (Py.dict_values (Py.dict_set eqb k v d)).
Proof.
  intros Hv. induction d as [|[k' v'] d IH]; simpl; intros Hd.
  - now repeat constructor.
  - inversion Hd; subst. destruct (eqb k k'); simpl; constructor; auto.
Qed.

Lemma dict_set_items_forall (P : K * V -> Prop) (k : K) (v : V) (d : Py.dict K V) :
  P (k, v) -> Forall P d -> Forall P (Py.dict_set eqb k v d).
Proof.
  intros Hv. induction d as [|[k' v'] d IH]; simpl; intros Hd.
  - now repeat constructor.
  - inversion Hd; subst. destruct (eqb k k') eqn:E; simpl; constructor; auto.
    apply eqb_eq in E. now subst.
Qed.

(** Storing distinct new keys one after the other appends them. *)
Lemma fold_dict_set_app (l : list (K * V)) (d : Py.dict K V) :
  NoDup (Py.dict_keys d ++ Py.dict_keys l) ->
  fold_left (fun d kv => Py.dict_set eqb (fst kv) (snd kv) d) l d = (d ++ l)%list.
Proof.
  revert d. induction l as [|[k v] l IH]; intros d Hnd; simpl.
  - now rewrite app_nil_r.
  - simpl in Hnd. rewrite dict_set_keys_new.
    + rewrite IH.
      * now rewrite <- app_assoc.
      * unfold Py.dict_keys in *. rewrite map_app. simpl.
        rewrite <- app_assoc. simpl. assumption.
    + apply NoDup_remove_2 in Hnd. intros Hk. apply Hnd, in_or_app. now left.
Qed.

Lemma dict_of_list_nodup (l : list (K * V)) :
  NoDup (Py.dict_keys l) -> Py.dict_of_list eqb l = l.
Proof.
  intros Hnd. unfold Py.dict_of_list. now rewrite fold_dict_set_app.
Qed.
End DictFacts.

Lemma for_each_pure {A S} (l : list A) (body : S -> A -> Py.result S)
    (g : S -> A -> S) (s : S) :
  (forall s a, In a l -> body s a = Py.ret (g s a)) ->
  Py.for_each l body s = Py.ret (fold_left g l s).
Proof.
  revert s. induction l as [|a l IH]; intros s Hb; simpl; [reflexivity|].
  rewrite Hb by now left. simpl. apply IH. intros; apply Hb. now right.
Qed.

Lemma range_in (a b x : Z) : In x (Py.range a b) <-> a <= x < b.
Proof.
  unfold Py.range. rewrite in_map_iff. split.
  - intros [i [<- Hi]]. apply in_seq in Hi. lia.
  - intros Hx. exists (Z.to_nat (x - a)). split; [lia|]. apply in_seq. lia.
Qed.

Lemma range_nodup (a b : Z) : NoDup (Py.range a b).
Proof.
  unfold Py.range. apply Injective_map_NoDup; [|apply seq_NoDup].
  intros i j. lia.
Qed.

Lemma range_length (a b : Z) : List.length (Py.range a b) = Z.to_nat (b - a).
Proof. unfold Py.range. now rewrite length_map, length_seq. Qed.

(** ** Venue construction *)

Lemma check_tables_ok (l : list Z) :
  Forall (fun t => 0 < t) l -> Layout.check_tables l = inr tt.
Proof.
  induction 1 as [|t l Ht _ IH]; simpl; [reflexivity|].
  destruct (Z.leb_spec t 0); [lia | exact IH].
Qed.

Lemma check_tables_raises (l : list Z) :
  Exists (fun t => t <= 0) l ->
  exists msg, Layout.check_tables l = inl (Py.ValueError msg).
Proof.
  induction 1 as [t l Ht | t l _ IH]; simpl.
  - destruct (Z.leb_spec t 0); [eauto | lia].
  - destruct (t <=? 0); [eauto | exact IH].
Qed.

Lemma tables_positive_or_not (l : list Z) :
  Forall (fun t => 0 < t) l \/ Exists (fun t => t <= 0) l.
Proof.
  induction l as [|t l [IH | IH]]; [now left | |].
  - destruct (Z.leb_spec t 0); [right; now left | left; now constructor].
  - right. now right.
Qed.

Lemma layout_valid_or_invalid (n : Z) (tpc : list Z) (ppt : Z) :
  Layout.valid n tpc ppt \/ Layout.invalid n tpc ppt.
Proof.
  unfold Layout.valid, Layout.invalid.
  destruct (tables_positive_or_not tpc) as [H | H]; [|tauto].
  destruct (Z.eq_dec (Z.of_nat (List.length tpc)) n); [|tauto].
  destruct (Z_lt_le_dec 0 n); [|tauto].
  destruct (Z_lt_le_dec 0 ppt); tauto.
Qed.

Lemma layout_valid_not_invalid (n : Z) (tpc : list Z) (ppt : Z) :
  Layout.valid n tpc ppt -> Layout.invalid n tpc ppt -> False.
Proof.
  intros (Hn & Hp & Hl & Ht) [H | [H | [H | H]]]; try lia.
  apply Exists_exists in H. destruct H as (t & Hin & Hle).
  rewrite Forall_forall in Ht. specialize (Ht t Hin). lia.
Qed.

Lemma layout_init_valid (n : Z) (tpc : list Z) (ppt : Z) :
  Layout.valid n tpc ppt -> Layout.init n tpc ppt = inr (mkLayout n tpc ppt).
Proof.
  intros (Hn & Hp & Hl & Ht). unfold Layout.init.
  destruct (Z.leb_spec n 0); [lia|].
  destruct (Z.leb_spec ppt 0); [lia|].
  rewrite (proj2 (Z.eqb_eq _ _) Hl). simpl.
  now rewrite check_tables_ok.
Qed.

Lemma layout_init_invalid (n : Z) (tpc : list Z) (ppt : Z) :
  Layout.invalid n tpc ppt ->
  exists msg, Layout.init n tpc ppt = inl (Py.ValueError msg).
Proof.
  intros Hinv. unfold Layout.init.
  destruct (Z.leb_spec n 0); [eauto|].
  destruct (Z.leb_spec ppt 0); [eauto|].
  destruct (Z.eqb_spec (Z.of_nat (List.length tpc)) n); simpl; [|eauto].
  destruct Hinv as [H1 | [H1 | [H1 | H1]]]; try lia.
  destruct (check_tables_raises H1) as [msg ->]. simpl. eauto.
Qed.

Lemma layout_init_well_formed (n : Z) (tpc : list Z) (ppt : Z) (l : LayoutConfiguration) :
  Layout.init n tpc ppt = inr l ->
  l = mkLayout n tpc ppt /\ Layout.well_formed l.
Proof.
  intros Hinit.
  destruct (layout_valid_or_invalid n tpc ppt) as [Hv | Hi].
  - rewrite (layout_init_valid Hv) in Hinit. injection Hinit as <-. now split.
  - destruct (layout_init_invalid Hi) as [msg Hm]. congruence.
Qed.

(** ** Model configuration *)

Lemma set_of_in (l : list Z) (x : Z) : In x (Py.set_of l) <-> In x l.
Proof.
  induction l as [|a l IH]; simpl; [tauto|].
  destruct (existsb (Z.eqb a) l) eqn:E.
  - rewrite IH. split; [tauto|]. intros [<- | H]; [|assumption].
    apply existsb_exists in E. destruct E as (y & Hy & Heq).
    apply Z.eqb_eq in Heq. now subst.
  - simpl. now rewrite IH.
Qed.

Lemma set_of_nodup (l : list Z) : NoDup (Py.set_of l).
Proof.
  induction l as [|a l IH]; simpl; [constructor|].
  destruct (existsb (Z.eqb a) l) eqn:E; [assumption|].
  constructor; [|assumption]. rewrite set_of_in. intros Hin.
  assert (existsb (Z.eqb a) l = true); [|congruence].
  apply existsb_exists. exists a. split; [assumption | apply Z.eqb_refl].
Qed.

Lemma insert_sorted_in (a x : Z) (l : list Z) :
  In x (Py.insert_sorted a l) <-> x = a \/ In x l.
Proof.
  induction l as [|b l IH]; simpl; [intuition|].
  destruct (a <=? b); simpl; [intuition|]. rewrite IH. intuition.
Qed.

Lemma insert_sorted_lt (a : Z) (l : list Z) :
  ~ In a l -> Sorted Z.lt l -> Sorted Z.lt (Py.insert_sorted a l).
Proof.
  intros Hni Hs. induction Hs as [|b l Hs IH Hhd]; simpl.
  - repeat constructor.
  - destruct (Z.leb_spec a b) as [Hle | Hgt].
    + constructor; [now constructor|]. constructor.
      assert (a <> b) by (intros ->; apply Hni; now left). lia.
    + constructor.
      * apply IH. intros Hin. apply Hni. now right.
      * destruct l as [|c l]; simpl; [now constructor|].
        inversion Hhd; subst. destruct (a <=? c); now constructor.
Qed.

Lemma sorted_in (l : list Z) (x : Z) : In x (Py.sorted l) <-> In x l.
Proof.
  induction l as [|a l IH]; simpl; [tauto|].
  rewrite insert_sorted_in, IH. intuition.
Qed.

Lemma sorted_lt (l : list Z) : NoDup l -> Sorted Z.lt (Py.sorted l).
Proof.
  induction 1 as [|a l Hni _ IH]; simpl; [constructor|].
  apply insert_sorted_lt; [now rewrite sorted_in | assumption].
Qed.

Lemma sorted_set_strongly (l : list Z) : StronglySorted Z.lt (Py.sorted (Py.set_of l)).
Proof.
  apply Sorted_StronglySorted; [intros x y z; apply Z.lt_trans|].
  apply sorted_lt, set_of_nodup.
Qed.

Lemma strongly_sorted_lt_nodup (l : list Z) : StronglySorted Z.lt l -> NoDup l.
Proof.
  induction 1 as [|a l _ IH Hall]; constructor; [|assumption].
  intros Hin. rewrite Forall_forall in Hall. specialize (Hall a Hin). lia.
Qed.

Lemma config_init_range fo pesos lim folga pd r rr cfg :
  Config.init fo pesos lim folga pd r rr = inr cfg ->
  dias_obrigatorios_range cfg = Py.sorted (Py.set_of (Config.cenarios_pedidos r)).
Proof.
  unfold Config.init.
  destruct (negb _); [discriminate|].
  destruct (Py.Qltb lim 0); [discriminate|].
  destruct (Config.check_pesos pesos); [discriminate|]. simpl.
  destruct (folga <? 0); [discriminate|].
  destruct (Py.Qltb pd 0); [discriminate|].
  now intros [= <-].
Qed.

(** ** Decimal numerals and identifiers *)

Lemma occurs_append (c : ascii) (s1 s2 : string) :
  Py.occurs c (s1 ++ s2) = Py.occurs c s1 || Py.occurs c s2.
Proof.
  induction s1 as [|a s1 IH]; simpl; [reflexivity|].
  now rewrite IH, orb_assoc.
Qed.

Lemma uint_digits_free (d : Decimal.uint) :
  Py.occurs "_" (NilEmpty.string_of_uint d) = false.
Proof. induction d; simpl; auto. Qed.

Lemma str_free (n : Z) : Py.occurs "_" (Py.str n) = false.
Proof.
  unfold Py.str. destruct (Z.to_int n) as [d | d]; simpl.
  - destruct d; simpl; auto using uint_digits_free.
  - destruct d; simpl; auto using uint_digits_free.
Qed.

Lemma int_str (n : Z) : Py.int (Py.str n) = inr n.
Proof.
  unfold Py.int, Py.str. rewrite NilZero.isi.
  - now rewrite DecimalZ.of_to.
  - destruct n; simpl; try discriminate.
    intros [= H]. now apply (DecimalPos.Unsigned.to_uint_nonnil p).
  - destruct n; simpl; try discriminate.
    intros [= H]. now apply (DecimalPos.Unsigned.to_uint_nonnil p).
Qed.

Lemma str_inj (a b : Z) : Py.str a = Py.str b -> a = b.
Proof.
  intros H. assert (E : Py.int (Py.str a) = Py.int (Py.str b)) by now rewrite H.
  rewrite !int_str in E. congruence.
Qed.

(** Two strings free of a character that agree up to its first
    occurrence agree before and after it. *)
Lemma cut_at_first (c : ascii) (s1 s2 r1 r2 : string) :
  Py.occurs c s1 = false -> Py.occurs c s2 = false ->
  s1 ++ String c r1 = s2 ++ String c r2 -> s1 = s2 /\ r1 = r2.
Proof.
  revert s2. induction s1 as [|a s1 IH]; intros [|b s2]; simpl.
  - intros _ _ [= ->]. now split.
  - intros _ H [= <- _]. rewrite Ascii.eqb_refl in H. discriminate.
  - intros H _ [= -> _]. rewrite Ascii.eqb_refl in H. discriminate.
  - intros H1 H2 [= -> E]. apply orb_false_iff in H1, H2.
    destruct (IH s2 (proj2 H1) (proj2 H2) E) as [-> ->]. now split.
Qed.

Lemma corredor_nome_free (c : Z) : Py.occurs "_" (Exec.corredor_nome c) = false.
Proof. unfold Exec.corredor_nome. rewrite occurs_append, str_free. reflexivity. Qed.

Lemma corredor_nome_inj (a b : Z) :
  Exec.corredor_nome a = Exec.corredor_nome b -> a = b.
Proof. unfold Exec.corredor_nome. simpl. intros [= H]. now apply str_inj. Qed.

Lemma mesa_id_inj (c1 c2 m1 m2 : Z) :
  Exec.mesa_id (Exec.corredor_nome c1) m1 = Exec.mesa_id (Exec.corredor_nome c2) m2 ->
  c1 = c2 /\ m1 = m2.
Proof.
  unfold Exec.mesa_id. intros H.
  apply cut_at_first in H; try apply corredor_nome_free.
  destruct H as [Hc [= Hm]]. split; [now apply corredor_nome_inj | now apply str_inj].
Qed.

Lemma append_empty_r (s : string) : s ++ EmptyString = s.
Proof. induction s; simpl; congruence. Qed.

Lemma append_assoc_str (s1 s2 s3 : string) : (s1 ++ s2) ++ s3 = s1 ++ (s2 ++ s3).
Proof. induction s1; simpl; congruence. Qed.

Lemma split_go_cons (sep cur : string) (c : ascii) (s : string) :
  Py.split_go sep 0 cur (String c s) =
  if String.prefix sep (String c s)
  then cur :: Py.split_go sep (String.length sep - 1) EmptyString s
  else Py.split_go sep 0 (cur ++ String c EmptyString) s.
Proof. reflexivity. Qed.

Lemma prefix_M_other (a : ascii) (s : string) :
  Ascii.eqb a "_" = false -> String.prefix "_M" (String a s) = false.
Proof.
  intros H.
  change (String.prefix "_M" (String a s))
    with (match Ascii.ascii_dec "_" a with
          | left _ => String.prefix "M" s
          | right _ => false
          end).
  destruct (Ascii.ascii_dec "_" a) as [<- | _]; [discriminate H | reflexivity].
Qed.

Lemma split_go_sep (cur s : string) :
  Py.split_go "_M" 0 cur ("_M" ++ s) = cur :: Py.split_go "_M" 0 EmptyString s.
Proof. destruct s; reflexivity. Qed.

(** A text without underscore is a single piece for [split("_M")]. *)
Lemma split_go_free (cur s : string) :
  Py.occurs "_" s = false -> Py.split_go "_M" 0 cur s = [cur ++ s].
Proof.
  revert cur. induction s as [|a s IH]; intros cur H.
  - simpl. now rewrite append_empty_r.
  - cbn [Py.occurs] in H. apply orb_false_iff in H. destruct H as [Ha Hs].
    rewrite split_go_cons, prefix_M_other by assumption.
    rewrite IH by assumption. now rewrite append_assoc_str.
Qed.

Lemma split_go_mesa_id (cur cor : string) (m : Z) :
  Py.occurs "_" cor = false ->
  Py.split_go "_M" 0 cur (Exec.mesa_id cor m) = [cur ++ cor; Py.str m].
Proof.
  unfold Exec.mesa_id. revert cur.
  induction cor as [|a cor IH]; intros cur H.
  - rewrite append_empty_r.
    change (Py.split_go "_M" 0 cur ("_M" ++ Py.str m) = [cur; Py.str m]).
    rewrite split_go_sep.
    f_equal. apply (split_go_free EmptyString), str_free.
  - cbn [Py.occurs] in H. apply orb_false_iff in H. destruct H as [Ha Hs].
    cbn [String.append].
    rewrite split_go_cons, prefix_M_other by assumption.
    rewrite IH by assumption. now rewrite append_assoc_str.
Qed.

Lemma split_mesa_id (cor : string) (m : Z) :
  Py.occurs "_" cor = false ->
  Py.split "_M" (Exec.mesa_id cor m) = [cor; Py.str m].
Proof. intros H. unfold Py.split. now rewrite split_go_mesa_id. Qed.

(** The table number read back from an identifier. *)
Lemma mesa_num_of_id (c m : Z) :
  (s <- Py.index (Py.split "_M" (Exec.mesa_id (Exec.corredor_nome c) m)) 1 ;; Py.int s)
  = inr m.
Proof.
  rewrite split_mesa_id by apply corredor_nome_free. simpl. apply int_str.
Qed.

(** ** The venue tables *)

Lemma fold_left_flat_map {A B S} (f : S -> B -> S) (h : A -> list B)
    (l : list A) (s : S) :
  fold_left f (flat_map h l) s = fold_left (fun s a => fold_left f (h a) s) l s.
Proof.
  revert s. induction l as [|a l IH]; intros s; simpl; [reflexivity|].
  now rewrite fold_left_app, IH.
Qed.

Lemma fold_left_map_in {A B S} (f : S -> B -> S) (h : A -> B) (l : list A) (s : S) :
  fold_left f (map h l) s = fold_left (fun s a => f s (h a)) l s.
Proof. revert s. induction l as [|a l IH]; intros s; simpl; auto. Qed.

Lemma fold_left_same {A S} (f g : S -> A -> S) (l : list A) (s : S) :
  (forall s a, In a l -> f s a = g s a) -> fold_left f l s = fold_left g l s.
Proof.
  revert s. induction l as [|a l IH]; intros s H; simpl; [reflexivity|].
  rewrite H by now left. apply IH. intros; apply H. now right.
Qed.

Lemma string_eqb_eq (a b : string) : String.eqb a b = true <-> a = b.
Proof. apply String.eqb_eq. Qed.

Lemma pair_eqb_eq (a b : string * string) : Exec.pair_eqb a b = true <-> a = b.
Proof.
  destruct a as [a1 a2], b as [b1 b2]. unfold Exec.pair_eqb. simpl.
  rewrite andb_true_iff, !String.eqb_eq. split; [intros [-> ->] | intros [= -> ->]]; auto.
Qed.

Lemma xkey_eqb_eq (a b : XKey) : Exec.xkey_eqb a b = true <-> a = b.
Proof.
  destruct a as [a1 a2], b as [b1 b2]. unfold Exec.xkey_eqb. simpl.
  rewrite andb_true_iff, pair_eqb_eq, String.eqb_eq.
  split; [intros [-> ->] | intros [= -> ->]]; auto.
Qed.

Lemma lista_posicoes_comprehension (l : LayoutConfiguration)
    (mesas : Py.dict string (string * Z)) :
  Exec._lista_posicoes l mesas =
  Py.dict_of_list String.eqb (Exec.posicoes_table l mesas).
Proof.
  unfold Exec._lista_posicoes, Py.dict_of_list, Exec.posicoes_table.
  rewrite fold_left_flat_map. apply fold_left_same. intros s a _.
  now rewrite fold_left_map_in.
Qed.

Lemma dist_mesas_comprehension (mesas : Py.dict string (string * Z)) :
  Exec._dist_mesas mesas = Py.dict_of_list Exec.pair_eqb (Exec.dist_table mesas).
Proof.
  unfold Exec._dist_mesas, Py.dict_of_list, Exec.dist_table.
  rewrite fold_left_flat_map. apply fold_left_same.
  intros s [m1 [c1 i1]] _. rewrite fold_left_flat_map.
  apply fold_left_same. intros s' [m2 [c2 i2]] _. simpl.
  now destruct (String.leb m2 m1).
Qed.

Lemma index_nth (l : list Z) (i : Z) :
  0 <= i < Z.of_nat (List.length l) ->
  Py.index l i = inr (nth (Z.to_nat i) l 0).
Proof.
  intros Hi. unfold Py.index. destruct (Z.ltb_spec i 0); [lia|].
  destruct (nth_error l (Z.to_nat i)) eqn:E.
  - now rewrite (nth_error_nth _ _ _ E).
  - apply nth_error_None in E. lia.
Qed.

Lemma lista_mesas_comprehension (l : LayoutConfiguration) :
  Z.of_nat (List.length (tables_per_corridor l)) = num_corridors l ->
  Exec._lista_mesas l = inr (Py.dict_of_list String.eqb (Exec.mesas_table l)).
Proof.
  intros Hlen. unfold Exec._lista_mesas.
  rewrite for_each_pure with
    (g := fun mesas c =>
            fold_left (fun mesas m =>
                         Py.dict_set String.eqb
                           (Exec.mesa_id (Exec.corredor_nome c) m)
                           (Exec.corredor_nome c, m) mesas)
              (Py.range 1 (nth (Z.to_nat (c - 1)) (tables_per_corridor l) 0 + 1))
              mesas).
  - unfold Py.ret, Py.dict_of_list, Exec.mesas_table. f_equal.
    rewrite fold_left_flat_map. apply fold_left_same. intros s a _.
    now rewrite fold_left_map_in.
  - intros s c Hc. apply range_in in Hc.
    rewrite index_nth by lia. reflexivity.
Qed.

Lemma nodup_flat_map {A B} (f : A -> list B) (l : list A) :
  NoDup l ->
  (forall a, In a l -> NoDup (f a)) ->
  (forall a b y, In a l -> In b l -> In y (f a) -> In y (f b) -> a = b) ->
  NoDup (flat_map f l).
Proof.
  induction 1 as [|a l Hni Hnd IH]; intros Hf Hdisj; simpl; [constructor|].
  apply NoDup_app.
  - apply Hf. now left.
  - apply IH; [intros; apply Hf; now right|].
    intros x y z Hx Hy. apply Hdisj; now right.
  - intros y Hy Hin. apply in_flat_map in Hin. destruct Hin as (b & Hb & Hyb).
    assert (a = b) by (apply (Hdisj a b y); auto; [now left | now right]).
    subst. contradiction.
Qed.

Lemma keys_flat_map {A K V} (h : A -> list (K * V)) (l : list A) :
  Py.dict_keys (flat_map h l) = flat_map (fun a => Py.dict_keys (h a)) l.
Proof.
  unfold Py.dict_keys. induction l as [|a l IH]; simpl; [reflexivity|].
  now rewrite map_app, IH.
Qed.

Lemma mesas_table_keys_nodup (l : LayoutConfiguration) :
  NoDup (Py.dict_keys (Exec.mesas_table l)).
Proof.
  unfold Exec.mesas_table. rewrite keys_flat_map. apply nodup_flat_map.
  - apply range_nodup.
  - intros c _. unfold Py.dict_keys. rewrite map_map. simpl.
    apply Injective_map_NoDup_in; [|apply range_nodup].
    intros x y _ _ H. now apply mesa_id_inj in H.
  - intros a b y _ _. unfold Py.dict_keys. rewrite !map_map. simpl.
    rewrite !in_map_iff. intros (m1 & <- & _) (m2 & H & _).
    symmetry in H. now apply mesa_id_inj in H.
Qed.

Lemma lista_mesas_table (l : LayoutConfiguration) :
  Z.of_nat (List.length (tables_per_corridor l)) = num_corridors l ->
  Exec._lista_mesas l = inr (Exec.mesas_table l).
Proof.
  intros H. rewrite lista_mesas_comprehension by assumption.
  rewrite (dict_of_list_nodup String.eqb string_eqb_eq); [reflexivity|].
  apply mesas_table_keys_nodup.
Qed.

Lemma dict_of_list_keys_nodup {K V} (eqb : K -> K -> bool)
    (eqb_eq : forall a b, eqb a b = true <-> a = b) (l : list (K * V)) :
  NoDup (Py.dict_keys (Py.dict_of_list eqb l)).
Proof.
  unfold Py.dict_of_list.
  assert (H : forall d, NoDup (Py.dict_keys d) ->
            NoDup (Py.dict_keys
              (fold_left (fun d kv => Py.dict_set eqb (fst kv) (snd kv) d) l d))).
  { induction l as [|kv l IH]; intros d Hd; simpl; [assumption|].
    apply IH. now apply (dict_set_nodup eqb eqb_eq). }
  apply H. constructor.
Qed.

Lemma dict_of_list_incl {K V} (eqb : K -> K -> bool)
    (eqb_eq : forall a b, eqb a b = true <-> a = b) (l : list (K * V)) kv :
  In kv (Py.dict_of_list eqb l) -> In kv l.
Proof.
  unfold Py.dict_of_list.
  assert (H : forall d,
            In kv (fold_left (fun d kv => Py.dict_set eqb (fst kv) (snd kv) d) l d) ->
            In kv d \/ In kv l).
  { induction l as [|[k v] l IH]; intros d Hd; simpl in *; [now left|].
    apply IH in Hd. destruct Hd as [Hd | Hd]; [|now right; right].
    destruct kv as [k' v'].
    apply (dict_set_in eqb eqb_eq) in Hd. destruct Hd as [Hd | Hd]; [right; left | left]; auto. }
  intros Hin. apply H in Hin. destruct Hin as [[] | Hin]. assumption.
Qed.

Lemma items_same_key {K V} (d : Py.dict K V) (a b : K * V) :
  NoDup (Py.dict_keys d) -> In a d -> In b d -> fst a = fst b -> a = b.
Proof.
  induction d as [|x d IH]; simpl; [tauto|].
  intros Hnd Ha Hb Hab. inversion Hnd as [|? ? Hni Hnd']; subst.
  destruct Ha as [-> | Ha], Hb as [-> | Hb]; auto.
  - exfalso. apply Hni. rewrite Hab. now apply in_map.
  - exfalso. apply Hni. rewrite <- Hab. now apply in_map.
Qed.

Lemma in_dist_table (mesas : Py.dict string (string * Z)) (k : string * string) (v : Z) :
  In (k, v) (Exec.dist_table mesas) <->
  exists item1 item2,
    In item1 mesas /\ In item2 mesas /\
    String.leb (fst item2) (fst item1) = false /\
    k = (fst item1, fst item2) /\
    v = Exec.dist_value (fst item1) (fst (snd item1)) (snd (snd item1))
                        (fst item2) (fst (snd item2)) (snd (snd item2)).
Proof.
  unfold Exec.dist_table. rewrite in_flat_map. split.
  - intros (item1 & H1 & H). apply in_flat_map in H. destruct H as (item2 & H2 & H).
    destruct (String.leb (fst item2) (fst item1)) eqn:E; [destruct H|].
    destruct H as [[= <- <-] | []]. exists item1, item2. auto.
  - intros (item1 & item2 & H1 & H2 & E & -> & ->).
    exists item1. split; [assumption|]. apply in_flat_map.
    exists item2. split; [assumption|]. rewrite E. now left.
Qed.

Lemma dist_table_keys_nodup (mesas : Py.dict string (string * Z)) :
  NoDup (Py.dict_keys mesas) -> NoDup (Py.dict_keys (Exec.dist_table mesas)).
Proof.
  intros Hnd. assert (Hl : NoDup mesas) by (eapply NoDup_map_inv; exact Hnd).
  unfold Exec.dist_table. rewrite keys_flat_map. apply nodup_flat_map; [assumption | |].
  - intros item1 _. rewrite keys_flat_map. apply nodup_flat_map; [assumption | |].
    + intros item2 _. destruct (String.leb _ _); simpl; repeat constructor. simpl. tauto.
    + intros a b y Ha Hb. destruct (String.leb (fst a) _); simpl; [tauto|].
      destruct (String.leb (fst b) _); simpl; [tauto|].
      intros [<- | []] [[= H] | []]. now apply (items_same_key mesas).
  - intros a b y Ha Hb. cbv beta.
    unfold Py.dict_keys. rewrite !in_map_iff.
    intros ([k1 v1] & <- & H1) ([k2 v2] & E & H2). simpl in E.
    apply in_flat_map in H1, H2.
    destruct H1 as (x1 & _ & H1), H2 as (x2 & _ & H2).
    destruct (String.leb (fst x1) (fst a)); [destruct H1|].
    destruct (String.leb (fst x2) (fst b)); [destruct H2|].
    destruct H1 as [[= <- _] | []], H2 as [[= <- _] | []].
    injection E as E _. symmetry in E. now apply (items_same_key mesas).
Qed.

Lemma ltb_leb_swap (a b : string) : String.leb b a = negb (String.ltb a b).
Proof.
  unfold String.leb, String.ltb. rewrite (String.compare_antisym a b).
  now destruct (String.compare b a).
Qed.

Lemma ltb_irrefl (a : string) : String.ltb a a = false.
Proof.
  unfold String.ltb. destruct (String.compare a a) eqn:E; try reflexivity.
  pose proof (String.compare_antisym a a) as H. rewrite E in H. discriminate.
Qed.

(** What [_dist_mesas] stores for two tables of the venue. *)
Lemma dist_mesas_get (mesas : Py.dict string (string * Z))
    (m1 c1 : string) (i1 : Z) (m2 c2 : string) (i2 : Z) :
  NoDup (Py.dict_keys mesas) ->
  In (m1, (c1, i1)) mesas -> In (m2, (c2, i2)) mesas ->
  Py.dict_get Exec.pair_eqb (m1, m2) (Exec._dist_mesas mesas) =
  if String.ltb m1 m2
  then Some (if String.eqb c1 c2 then Z.abs (i1 - i2) else 5 + Z.abs (i1 - i2))
  else None.
Proof.
  intros Hnd H1 H2. rewrite dist_mesas_comprehension.
  rewrite (dict_of_list_nodup Exec.pair_eqb pair_eqb_eq)
    by now apply dist_table_keys_nodup.
  destruct (String.ltb m1 m2) eqn:E.
  - apply (dict_in_get Exec.pair_eqb pair_eqb_eq); [now apply dist_table_keys_nodup|].
    apply in_dist_table. exists (m1, (c1, i1)), (m2, (c2, i2)). simpl.
    repeat split; auto.
    + now rewrite ltb_leb_swap, E.
    + unfold Exec.dist_value, Py.abs. destruct (String.eqb_spec m1 m2) as [-> | _].
      * now rewrite ltb_irrefl in E.
      * reflexivity.
  - apply (dict_get_none Exec.pair_eqb pair_eqb_eq). unfold Py.dict_keys.
    rewrite in_map_iff. intros ([k v] & Hk & Hin). simpl in Hk. subst k.
    apply in_dist_table in Hin.
    destruct Hin as (x1 & x2 & _ & _ & Hle & [= -> ->] & _).
    rewrite ltb_leb_swap, E in Hle. discriminate.
Qed.

Lemma in_mesas_table (l : LayoutConfiguration) (c i : Z) :
  Exec.is_table l c i ->
  In (Exec.mesa_id (Exec.corredor_nome c) i, (Exec.corredor_nome c, i))
     (Exec.mesas_table l).
Proof.
  intros [Hc Hi]. unfold Exec.mesas_table. apply in_flat_map.
  exists c. split; [apply range_in; lia|].
  apply in_map_iff. exists i. split; [reflexivity | apply range_in; lia].
Qed.

Lemma mesas_table_in (l : LayoutConfiguration) (m c : string) (i : Z) :
  In (m, (c, i)) (Exec.mesas_table l) ->
  exists n, Exec.is_table l n i /\ c = Exec.corredor_nome n /\ m = Exec.mesa_id c i.
Proof.
  unfold Exec.mesas_table. rewrite in_flat_map. intros (n & Hn & H).
  apply in_map_iff in H. destruct H as (j & [= <- <- <-] & Hj).
  apply range_in in Hn, Hj. exists n. unfold Exec.is_table. repeat split; lia.
Qed.

(** The engine a well-formed layout gives. *)
Lemma exec_init_well_formed (l : LayoutConfiguration)
    (cad : Cadastro.CadastroTimesSinergias) (c : ConfiguracaoModelo) :
  Layout.well_formed l ->
  let posicoes := Exec._lista_posicoes l (Exec.mesas_table l) in
  Exec.init l cad c =
  inr (mkExec l cad c (Exec.mesas_table l) posicoes
         (Exec._dist_mesas (Exec.mesas_table l))
         (Z.of_nat (List.length posicoes))).
Proof.
  intros (_ & _ & Hlen & _). unfold Exec.init.
  now rewrite lista_mesas_table by assumption.
Qed.

(** ** The venue and the configuration: main statements *)

(** C9.  Constructing the venue layout raises a configuration error
    ([ValueError]) exactly when an input is invalid: a corridor count
    that is not positive, a number of positions per table that is not
    positive, a list of table counts whose length is not the corridor
    count, or a table count that is not positive.  On valid inputs the
    construction succeeds and stores the three inputs unchanged; and the
    engine built on a constructed layout is built without error, so the
    validation happens at construction and not while solving. *)
Theorem layout_construction_fails_iff_invalid (n : Z) (tpc : list Z) (ppt : Z) :
  ((exists msg, Layout.init n tpc ppt = inl (Py.ValueError msg))
     <-> Layout.invalid n tpc ppt) /\
  (Layout.init n tpc ppt = inr (mkLayout n tpc ppt) <-> Layout.valid n tpc ppt) /\
  (forall l cad c, Layout.init n tpc ppt = inr l ->
     exists em, Exec.init l cad c = inr em /\ layout em = mkLayout n tpc ppt).
Proof.
  split; [|split].
  - split; [|apply layout_init_invalid].
    intros [msg Hm]. destruct (layout_valid_or_invalid n tpc ppt) as [Hv | Hi]; [|assumption].
    rewrite (layout_init_valid Hv) in Hm. discriminate.
  - split; [|apply layout_init_valid].
    intros Hm. destruct (layout_valid_or_invalid n tpc ppt) as [Hv | Hi]; [assumption|].
    destruct (layout_init_invalid Hi) as [msg Hmsg]. congruence.
  - intros l cad c Hl. apply layout_init_well_formed in Hl. destruct Hl as [-> Hwf].
    eexists. split; [apply exec_init_well_formed; assumption | reflexivity].
Qed.

(** C10.  The scenario list the configuration stores, which the sweep
    iterates, is the sorted deduplication of the configured list of
    required days when that list is not empty.  A missing or empty list
    makes the constructor behave exactly as for the list [2], so it does
    not fail for that reason; the stored list is never empty, is strictly
    increasing and has no repeated value. *)
Theorem scenario_set_sorted_dedup (fo : string) (pesos : Py.dict string Q)
    (lim : Q) (folga : Z) (pd : Q) (r : option (list Z))
    (rr : option (Py.dict string bool)) (cfg : ConfiguracaoModelo) :
  Config.init fo pesos lim folga pd r rr = inr cfg ->
  let ks := dias_obrigatorios_range cfg in
  ks = Py.sorted (Py.set_of (Config.cenarios_pedidos r)) /\
  (forall k, In k ks <-> In k (Config.cenarios_pedidos r)) /\
  StronglySorted Z.lt ks /\ NoDup ks /\ ks <> [] /\
  (r = None \/ r = Some [] -> ks = [2]) /\
  Config.init fo pesos lim folga pd None rr
    = Config.init fo pesos lim folga pd (Some [2]) rr /\
  Config.init fo pesos lim folga pd (Some []) rr
    = Config.init fo pesos lim folga pd (Some [2]) rr.
Proof.
  intros Hinit ks. pose proof (config_init_range _ _ _ _ _ _ _ Hinit) as Hks.
  fold ks in Hks.
  assert (Hin : forall k, In k ks <-> In k (Config.cenarios_pedidos r)).
  { intros k. rewrite Hks, sorted_in, set_of_in. reflexivity. }
  assert (Hs : StronglySorted Z.lt ks) by (rewrite Hks; apply sorted_set_strongly).
  repeat split; auto; try apply Hin.
  - now apply strongly_sorted_lt_nodup.
  - intros E. assert (H : In (hd 2 (Config.cenarios_pedidos r)) ks).
    { apply Hin. destruct r as [[|a l]|]; simpl; auto. }
    rewrite E in H. destruct H.
  - intros [-> | ->]; rewrite Hks; reflexivity.
Qed.

Lemma scenario_set_sorted_dedup_witness :
  Config.init "max_ocupacao_media" [] 0 0 0 (Some [3; 1; 3; 2; 1]) None
    = inr (mkConfig "max_ocupacao_media" [] 0 0 0 [1; 2; 3] []) /\
  [1; 2; 3] = Py.sorted (Py.set_of [3; 1; 3; 2; 1]).
Proof.
  split; [reflexivity|].
  exact (proj1 (scenario_set_sorted_dedup "max_ocupacao_media" [] 0 0 0
                  (Some [3; 1; 3; 2; 1]) None eq_refl)).
Defined.

(** C6, as the code has it.  The distance table built once per venue
    holds one entry for each unordered pair of distinct tables, under the
    key whose first table identifier is smaller in string order; the
    value is the absolute difference of the indices in the corridor for
    two tables of one corridor, and 5 plus that difference for tables of
    different corridors.  There is no entry for a table paired with
    itself and none for the reverse orientation of a stored pair. *)
Theorem distance_table_ordered_pairs (l : LayoutConfiguration)
    (cad : Cadastro.CadastroTimesSinergias) (c : ConfiguracaoModelo)
    (em : ExecucaoModelo) (c1 i1 c2 i2 : Z) :
  Layout.well_formed l -> Exec.init l cad c = inr em ->
  Exec.is_table l c1 i1 -> Exec.is_table l c2 i2 ->
  let m1 := Exec.mesa_id (Exec.corredor_nome c1) i1 in
  let m2 := Exec.mesa_id (Exec.corredor_nome c2) i2 in
  Exec.distancia em m1 m2 =
    (if String.ltb m1 m2
     then Some (if c1 =? c2 then Z.abs (i1 - i2) else 5 + Z.abs (i1 - i2))
     else None) /\
  Exec.distancia em m1 m1 = None /\
  ((c1, i1) <> (c2, i2) ->
   (String.ltb m1 m2 = true /\ Exec.distancia em m2 m1 = None) \/
   (String.ltb m2 m1 = true /\ Exec.distancia em m1 m2 = None)).
Proof.
  intros Hwf Hinit H1 H2 m1 m2. subst m1 m2.
  rewrite (exec_init_well_formed cad c Hwf) in Hinit. injection Hinit as <-.
  unfold Exec.distancia. simpl dist.
  pose proof (mesas_table_keys_nodup l) as Hnd.
  pose proof (in_mesas_table H1) as Hin1. pose proof (in_mesas_table H2) as Hin2.
  assert (Hget : forall a b ca ia cb ib,
             In (a, (Exec.corredor_nome ca, ia)) (Exec.mesas_table l) ->
             In (b, (Exec.corredor_nome cb, ib)) (Exec.mesas_table l) ->
             Py.dict_get Exec.pair_eqb (a, b) (Exec._dist_mesas (Exec.mesas_table l)) =
             if String.ltb a b
             then Some (if ca =? cb then Z.abs (ia - ib) else 5 + Z.abs (ia - ib))
             else None).
  { intros a b ca ia cb ib Ha Hb. rewrite (@dist_mesas_get _ _ _ _ _ _ _ Hnd Ha Hb).
    destruct (String.ltb a b); [|reflexivity]. f_equal.
    destruct (String.eqb_spec (Exec.corredor_nome ca) (Exec.corredor_nome cb)) as [E | E].
    - apply corredor_nome_inj in E. subst. now rewrite Z.eqb_refl.
    - destruct (Z.eqb_spec ca cb); [subst; contradiction | reflexivity]. }
  split; [now apply Hget|]. split.
  - rewrite (Hget _ _ _ _ _ _ Hin1 Hin1). now rewrite ltb_irrefl.
  - intros Hneq.
    rewrite (Hget _ _ _ _ _ _ Hin2 Hin1), (Hget _ _ _ _ _ _ Hin1 Hin2).
    unfold String.ltb.
    rewrite (String.compare_antisym (Exec.mesa_id (Exec.corredor_nome c1) i1)
               (Exec.mesa_id (Exec.corredor_nome c2) i2)).
    destruct (String.compare (Exec.mesa_id (Exec.corredor_nome c2) i2)
                (Exec.mesa_id (Exec.corredor_nome c1) i1)) eqn:E; simpl.
    + apply String.compare_eq_iff in E. symmetry in E.
      apply mesa_id_inj in E. destruct E; subst. contradiction.
    + right. now split.
    + left. now split.
Qed.

Lemma distance_table_ordered_pairs_witness :
  Exec.distancia Exemplo.execA "Corredor 1_M1" "Corredor 1_M2" = Some 1 /\
  Exec.distancia Exemplo.execA "Corredor 1_M1" "Corredor 1_M1" = None.
Proof.
  assert (Hwf : Layout.well_formed Exemplo.layoutA).
  { unfold Layout.well_formed, Layout.valid. simpl.
    repeat split; try lia. repeat constructor. }
  assert (H1 : Exec.is_table Exemplo.layoutA 1 1) by (unfold Exec.is_table; simpl; lia).
  assert (H2 : Exec.is_table Exemplo.layoutA 1 2) by (unfold Exec.is_table; simpl; lia).
  pose proof (@distance_table_ordered_pairs Exemplo.layoutA Exemplo.cadA Exemplo.cfgA
                Exemplo.execA 1 1 1 2 Hwf eq_refl H1 H2) as H.
  split; [exact (proj1 H) | exact (proj1 (proj2 H))].
Defined.

(** C6 as stated fails: in the venue of one corridor with two tables the
    table holds the pair (M1, M2) at distance 1, and holds neither
    (M1, M1), so a table is not at distance zero of itself, nor (M2, M1),
    so the table is not symmetric. *)
Lemma distance_not_symmetric_nor_zero_on_self :
  Exec.init Exemplo.layoutN [] Exemplo.cfgA = inr Exemplo.execN /\
  Exec.distancia Exemplo.execN "Corredor 1_M1" "Corredor 1_M2" = Some 1 /\
  Exec.distancia Exemplo.execN "Corredor 1_M2" "Corredor 1_M1" = None /\
  Exec.distancia Exemplo.execN "Corredor 1_M1" "Corredor 1_M1" <> Some 0.
Proof. repeat split. discriminate. Qed.

(** ** The formulation *)

Unset Implicit Arguments.

Lemma eval_terms_shift (a : Lp.assignment) (l : list (Z * Lp.Var)) (c x : Z) :
  fold_right (fun cv acc => fst cv * a (snd cv) + acc) (c + x) l =
  c + fold_right (fun cv acc => fst cv * a (snd cv) + acc) x l.
Proof. induction l as [|cv l IH]; simpl; [reflexivity|]. rewrite IH. lia. Qed.

Lemma eval_add (a : Lp.assignment) (e1 e2 : Lp.LinExpr) :
  Lp.eval a (Lp.add e1 e2) = Lp.eval a e1 + Lp.eval a e2.
Proof.
  unfold Lp.eval, Lp.add. simpl. rewrite fold_right_app, eval_terms_shift.
  induction (Lp.terms e1) as [|cv l IH]; simpl; lia.
Qed.

Lemma eval_var (a : Lp.assignment) (v : Lp.Var) : Lp.eval a (Lp.var v) = a v.
Proof. unfold Lp.eval, Lp.var. cbn [Lp.terms Lp.const fold_right fst snd]. lia. Qed.

Lemma eval_num (a : Lp.assignment) (c : Z) : Lp.eval a (Lp.num c) = c.
Proof. reflexivity. Qed.

Lemma eval_scale (a : Lp.assignment) (c : Z) (e : Lp.LinExpr) :
  Lp.eval a (Lp.scale c e) = c * Lp.eval a e.
Proof.
  unfold Lp.scale. destruct (Z.eqb_spec c 0) as [-> | _]; [reflexivity|].
  unfold Lp.eval. simpl. induction (Lp.terms e) as [|cv l IH]; simpl; [reflexivity|].
  rewrite IH. lia.
Qed.

Lemma eval_lpSum (a : Lp.assignment) (l : list Lp.LinExpr) :
  Lp.eval a (Lp.lpSum l) = fold_right Z.add 0 (map (Lp.eval a) l).
Proof.
  induction l as [|e l IH]; simpl; [reflexivity|]. now rewrite eval_add, IH.
Qed.

Lemma eval_lpSum_vars {A} (a : Lp.assignment) (f : A -> Lp.Var) (l : list A) :
  Lp.eval a (Lp.lpSum (map (fun x => Lp.var (f x)) l)) = Lp.total a (map f l).
Proof.
  rewrite eval_lpSum. unfold Lp.total. rewrite !map_map.
  f_equal. apply map_ext. intros x. apply eval_var.
Qed.

Lemma vars_of_lpSum_vars {A} (f : A -> Lp.Var) (l : list A) :
  Lp.vars_of (Lp.lpSum (map (fun x => Lp.var (f x)) l)) = map f l.
Proof.
  unfold Lp.vars_of. induction l as [|x l IH]; simpl; [reflexivity|].
  now rewrite IH.
Qed.

Lemma holdsb_holds (a : Lp.assignment) (c : Lp.LpConstraint) :
  Lp.holdsb a c = true -> Lp.holds a c.
Proof.
  unfold Lp.holdsb, Lp.holds. destruct (Lp.sense c); intros H.
  - now apply Z.leb_le.
  - now apply Z.eqb_eq.
  - apply Z.leb_le in H. lia.
Qed.

Lemma feasibleb_feasible (a : Lp.assignment) (p : Lp.LpProblem) :
  Lp.feasibleb a p = true -> Lp.feasible a p.
Proof.
  unfold Lp.feasibleb, Lp.feasible, Lp.binaryb, Lp.binary.
  rewrite andb_true_iff, !forallb_forall. intros [Hb Hc]. split.
  - intros v Hv. specialize (Hb v Hv). apply orb_true_iff in Hb.
    destruct Hb as [Hb | Hb]; apply Z.eqb_eq in Hb; auto.
  - apply Forall_forall. intros c Hin. apply holdsb_holds. now apply Hc.
Qed.

Section Formulation.

Variable self : ExecucaoModelo.
Variable k : Z.
Variable a : Lp.assignment.
Hypothesis Hfeasible : Lp.feasible a (Exec.formulate self k).

Lemma formulation_holds (c : Lp.LpConstraint) :
  In c (Lp.constraints (Exec.formulate self k)) -> Lp.holds a c.
Proof.
  destruct Hfeasible as [_ Hc]. rewrite Forall_forall in Hc. apply Hc.
Qed.

Lemma in_c_presenca (t : Time) (d : string) :
  In t (Exec.times self) -> In d DIAS_UTEIS ->
  In (Lp.mkConstraint
        (Lp.lpSum (map (fun p => Lp.var (Lp.X (nome t) p d))
                       (Py.dict_keys (posicoes self))))
        Lp.EQ
        (Lp.scale (qtde_integrantes t) (Lp.var (Lp.Pres (nome t) d))))
     (Lp.constraints (Exec.formulate self k)).
Proof.
  intros Ht Hd. simpl. do 3 (apply in_or_app; right). apply in_or_app; left.
  unfold Exec.c_presenca. apply in_flat_map. exists t. split; [assumption|].
  apply in_map_iff. exists d. split; [reflexivity | assumption].
Qed.

Lemma in_c_dias (t : Time) :
  In t (Exec.times self) ->
  In (Lp.mkConstraint
        (Lp.lpSum (map (fun d => Lp.var (Lp.Pres (nome t) d)) Exec.dias))
        Lp.EQ (Lp.num k))
     (Lp.constraints (Exec.formulate self k)).
Proof.
  intros Ht. simpl. do 4 (apply in_or_app; right). apply in_or_app; left.
  unfold Exec.c_dias. apply in_map_iff. exists t. split; [reflexivity | assumption].
Qed.

Lemma pres_is_variable (t : Time) (d : string) :
  In t (Exec.times self) -> In d DIAS_UTEIS ->
  In (Lp.Pres (nome t) d) (Lp.variables (Exec.formulate self k)).
Proof.
  intros Ht Hd. unfold Lp.variables. do 2 (apply in_or_app; right).
  apply in_flat_map. eexists. split; [apply (in_c_dias t Ht)|].
  apply in_or_app; left. cbn [Lp.lhs].
  rewrite (vars_of_lpSum_vars (fun d => Lp.Pres (nome t) d)).
  apply in_map_iff. exists d. split; [reflexivity | assumption].
Qed.

Lemma presence_binary (t : Time) (d : string) :
  In t (Exec.times self) -> In d DIAS_UTEIS ->
  a (Lp.Pres (nome t) d) = 0 \/ a (Lp.Pres (nome t) d) = 1.
Proof.
  intros Ht Hd. destruct Hfeasible as [Hb _]. apply Hb. now apply pres_is_variable.
Qed.

Lemma seats_of_team_day (t : Time) (d : string) :
  In t (Exec.times self) -> In d DIAS_UTEIS ->
  Lp.total a (map (fun p => Lp.X (nome t) p d) (Py.dict_keys (posicoes self)))
  = qtde_integrantes t * a (Lp.Pres (nome t) d).
Proof.
  intros Ht Hd. pose proof (formulation_holds _ (in_c_presenca t d Ht Hd)) as H.
  unfold Lp.holds in H. cbn [Lp.sense Lp.lhs Lp.rhs] in H.
  rewrite (eval_lpSum_vars a (fun p => Lp.X (nome t) p d)) in H.
  now rewrite eval_scale, eval_var in H.
Qed.

Lemma days_of_team (t : Time) :
  In t (Exec.times self) ->
  Lp.total a (map (fun d => Lp.Pres (nome t) d) DIAS_UTEIS) = k.
Proof.
  intros Ht. pose proof (formulation_holds _ (in_c_dias t Ht)) as H.
  unfold Lp.holds in H. cbn [Lp.sense Lp.lhs Lp.rhs] in H.
  now rewrite (eval_lpSum_vars a (fun d => Lp.Pres (nome t) d)) in H.
Qed.

End Formulation.

(** C4.  In every solution of the constraints formulated for a scenario,
    the seats a team occupies on a working day number exactly the team
    size times the team's binary presence indicator of that day: none,
    or the full team, never a part of it. *)
Theorem all_or_nothing_attendance (self : ExecucaoModelo) (k : Z)
    (a : Lp.assignment) (t : Time) (d : string) :
  Lp.feasible a (Exec.formulate self k) ->
  In t (Exec.times self) -> In d DIAS_UTEIS ->
  let ocupados :=
    Lp.total a (map (fun p => Lp.X (nome t) p d) (Py.dict_keys (posicoes self))) in
  ocupados = qtde_integrantes t * a (Lp.Pres (nome t) d) /\
  (a (Lp.Pres (nome t) d) = 0 \/ a (Lp.Pres (nome t) d) = 1) /\
  (ocupados = 0 \/ ocupados = qtde_integrantes t).
Proof.
  intros Hf Ht Hd ocupados.
  pose proof (seats_of_team_day self k a Hf t d Ht Hd) as Hs. fold ocupados in Hs.
  pose proof (presence_binary self k a Hf t d Ht Hd) as Hb.
  split; [assumption|]. split; [assumption|].
  destruct Hb as [Hb | Hb]; rewrite Hb in Hs; [left | right]; lia.
Qed.

Lemma all_or_nothing_attendance_witness :
  Lp.total Exemplo.solA
    (map (fun p => Lp.X "Alpha" p "Segunda") (Py.dict_keys (posicoes Exemplo.execA)))
  = 3 * Exemplo.solA (Lp.Pres "Alpha" "Segunda").
Proof.
  assert (Hf : Lp.feasible Exemplo.solA (Exec.formulate Exemplo.execA 2))
    by (apply feasibleb_feasible; vm_compute; reflexivity).
  assert (Ht : In Exemplo.alpha (Exec.times Exemplo.execA)) by (simpl; auto).
  assert (Hd : In "Segunda" DIAS_UTEIS) by (simpl; auto).
  exact (proj1 (all_or_nothing_attendance Exemplo.execA 2 Exemplo.solA
                  Exemplo.alpha "Segunda" Hf Ht Hd)).
Defined.

(** C5.  In every solution of the constraints formulated for the
    scenario of [k] required days, the presence indicators of a team
    over the five working days add up to [k] exactly. *)
Theorem exact_required_days (self : ExecucaoModelo) (k : Z)
    (a : Lp.assignment) (t : Time) :
  Lp.feasible a (Exec.formulate self k) ->
  In t (Exec.times self) ->
  Lp.total a (map (fun d => Lp.Pres (nome t) d) DIAS_UTEIS) = k /\
  List.length DIAS_UTEIS = 5%nat /\
  (forall d, In d DIAS_UTEIS ->
     a (Lp.Pres (nome t) d) = 0 \/ a (Lp.Pres (nome t) d) = 1).
Proof.
  intros Hf Ht. split; [now apply (days_of_team self k a Hf)|]. split; [reflexivity|].
  intros d Hd. now apply (presence_binary self k a Hf).
Qed.

Lemma exact_required_days_witness :
  Lp.total Exemplo.solA (map (fun d => Lp.Pres "Beta" d) DIAS_UTEIS) = 2.
Proof.
  assert (Hf : Lp.feasible Exemplo.solA (Exec.formulate Exemplo.execA 2))
    by (apply feasibleb_feasible; vm_compute; reflexivity).
  assert (Ht : In Exemplo.beta (Exec.times Exemplo.execA)) by (simpl; auto).
  exact (proj1 (exact_required_days Exemplo.execA 2 Exemplo.solA Exemplo.beta Hf Ht)).
Defined.

(** ** Floats and their rounding *)

Lemma round_half_even_near (q : Q) :
  (Qabs (inject_Z (Py.round_half_even q) - q) <= 1 # 2)%Q.
Proof.
  unfold Py.round_half_even.
  pose proof (Qfloor_le q) as Hlo. pose proof (Qlt_floor q) as Hhi.
  rewrite inject_Z_plus in Hhi. change (inject_Z 1) with 1%Q in Hhi.
  apply Qabs_Qle_condition.
  destruct (q - inject_Z (Qfloor q) ?= 1 # 2)%Q eqn:E.
  - apply Qeq_alt in E.
    destruct (Z.even (Qfloor q)); [|rewrite inject_Z_plus; change (inject_Z 1) with 1%Q]; lra.
  - apply Qlt_alt in E. lra.
  - apply Qgt_alt in E. rewrite inject_Z_plus. change (inject_Z 1) with 1%Q. lra.
Qed.

Lemma two_power_pos (z : Z) : (0 < 2 ^ z)%Q.
Proof. apply Qpower_0_lt. reflexivity. Qed.

Lemma two_power_succ (z : Z) : (2 ^ (z + 1) == 2 * 2 ^ z)%Q.
Proof. rewrite Qpower_plus by discriminate. rewrite Qpower_1_r. ring. Qed.

Lemma two_power_log2 (n : Z) :
  0 < n -> (2 ^ Z.log2 n <= inject_Z n /\ inject_Z n < 2 * 2 ^ Z.log2 n)%Q.
Proof.
  intros Hn. destruct (Z.log2_spec n Hn) as [Hlo Hhi].
  pose proof (Z.log2_nonneg n) as H0.
  rewrite <- two_power_succ.
  change 2%Q with (inject_Z 2).
  rewrite <- !Zpower_Qpower by lia.
  rewrite <- Zle_Qle, <- Zlt_Qlt. unfold Z.succ in Hhi. split; assumption.
Qed.

Lemma quotient_between (pa pb n d : Q) :
  (0 < pa -> 0 < pb -> pa <= n -> n < 2 * pa -> pb <= d -> d < 2 * pb ->
   pa / (2 * pb) <= n / d /\ n / d < 2 * pa / pb)%Q.
Proof.
  intros Ha Hb Hn1 Hn2 Hd1 Hd2.
  assert (Hd : (0 < d)%Q) by lra.
  split.
  - apply Qle_shift_div_r; [lra|].
    setoid_replace (n / d * (2 * pb))%Q with (n * (2 * pb) / d)%Q
      by (field; lra).
    apply Qle_shift_div_l; [assumption|]. nra.
  - apply Qlt_shift_div_r; [assumption|].
    setoid_replace (2 * pa / pb * d)%Q with (2 * pa * d / pb)%Q
      by (field; lra).
    apply Qlt_shift_div_l; [assumption|]. nra.
Qed.

(** [ilog2] is the floor of the binary logarithm. *)
Lemma ilog2_spec (q : Q) :
  (0 < q)%Q -> (2 ^ Py.ilog2 q <= q /\ q < 2 ^ (Py.ilog2 q + 1))%Q.
Proof.
  intros Hq. unfold Py.ilog2.
  destruct q as [n d]. cbn [Qnum Qden].
  assert (Hn : 0 < n) by (unfold Qlt in Hq; cbn in Hq; lia).
  destruct (two_power_log2 n Hn) as [Hn1 Hn2].
  destruct (two_power_log2 (Z.pos d) eq_refl) as [Hd1 Hd2].
  set (A := Z.log2 n) in *. set (B := Z.log2 (Z.pos d)) in *.
  pose proof (two_power_pos A) as HA. pose proof (two_power_pos B) as HB.
  assert (Hg : (2 ^ (A - B) == 2 ^ A / 2 ^ B)%Q) by (apply Qpower_minus; discriminate).
  assert (E1 : (2 ^ (A - B - 1) == 2 ^ A / (2 * 2 ^ B))%Q).
  { replace (A - B - 1) with (A - (B + 1)) by lia.
    rewrite Qpower_minus by discriminate. now rewrite two_power_succ. }
  assert (E2 : (2 ^ (A - B + 1) == 2 * 2 ^ A / 2 ^ B)%Q).
  { rewrite two_power_succ, Hg. unfold Qdiv. ring. }
  destruct (quotient_between _ _ _ _ HA HB Hn1 Hn2 Hd1 Hd2) as [Hlow Hup].
  rewrite <- E1, <- Qmake_Qdiv in Hlow. rewrite <- E2, <- Qmake_Qdiv in Hup.
  destruct (Qle_bool (2 ^ (A - B)) (n # d)) eqn:E.
  - apply Qle_bool_iff in E. split; assumption.
  - split; [assumption|]. replace (A - B - 1 + 1) with (A - B) by lia.
    apply Qnot_le_lt. intros H. apply Qle_bool_iff in H. congruence.
Qed.

Lemma sgn_abs_q (q : Q) : (q == inject_Z (Z.sgn (Qnum q)) * Qabs q)%Q.
Proof.
  destruct q as [n d]. unfold Qeq, Qabs, Qmult, inject_Z. cbn [Qnum Qden].
  rewrite Pos.mul_1_l. f_equal. rewrite Z.mul_comm. symmetry. apply Z.abs_sgn.
Qed.

Lemma sgn_bound (n : Z) : (Qabs (inject_Z (Z.sgn n)) <= 1)%Q.
Proof. destruct n; cbn; unfold Qle; cbn; lia. Qed.

Lemma round_half_even_comp (x y : Q) :
  (x == y)%Q -> Py.round_half_even x = Py.round_half_even y.
Proof.
  intros H. unfold Py.round_half_even.
  rewrite (Qfloor_comp x y H).
  assert (E : (x - inject_Z (Qfloor y) ?= 1 # 2)%Q = (y - inject_Z (Qfloor y) ?= 1 # 2)%Q)
    by now rewrite H.
  now rewrite E.
Qed.

(** The unit in the last place of the float of [q]. *)
Lemma ulp_bound (a : Q) :
  (0 < a)%Q ->
  (2 ^ Z.max (Py.ilog2 a - 52) (-1074) <= a * 2 ^ (-52) + 2 ^ (-1074))%Q.
Proof.
  intros Ha. destruct (ilog2_spec a Ha) as [Hlo _].
  pose proof (two_power_pos (-1074)) as H1. pose proof (two_power_pos (-52)) as H2.
  destruct (Z.max_spec (Py.ilog2 a - 52) (-1074)) as [[_ ->] | [_ ->]].
  - revert H1 H2. generalize (2 ^ (-1074))%Q (2 ^ (-52))%Q. intros. nra.
  - replace (Py.ilog2 a - 52) with (Py.ilog2 a + (-52)) by lia.
    rewrite Qpower_plus by discriminate.
    revert Hlo H1 H2. generalize (2 ^ Py.ilog2 a)%Q (2 ^ (-1074))%Q (2 ^ (-52))%Q.
    intros. nra.
Qed.

(** [fl q] is a nearest float: it is off [q] by half a unit in the last
    place at most. *)
Lemma fl_near (q : Q) :
  (Qabs (Py.fl q - q) <= Qabs q * 2 ^ (-53) + 2 ^ (-1075))%Q.
Proof.
  unfold Py.fl. rewrite Qred_correct.
  set (a := Qabs q). set (e := Z.max (Py.ilog2 a - 52) (-1074)).
  set (m := Py.round_half_even (a / 2 ^ e)).
  pose proof (two_power_pos e) as He.
  pose proof (round_half_even_near (a / 2 ^ e)) as Hm. fold m in Hm.
  pose proof (Qabs_nonneg q) as Ha. fold a in Ha.
  assert (Hme : (Qabs (inject_Z m * 2 ^ e - a) <= 2 ^ e * (1 # 2))%Q).
  { setoid_replace (inject_Z m * 2 ^ e - a)%Q
      with ((inject_Z m - a / 2 ^ e) * 2 ^ e)%Q by (field; lra).
    rewrite Qabs_Qmult, (Qabs_pos (2 ^ e)) by lra.
    rewrite (Qmult_comm (2 ^ e)). apply Qmult_le_compat_r; lra. }
  assert (Hs : (Qabs (inject_Z (Z.sgn (Qnum q) * m) * 2 ^ e - q)
                <= Qabs (inject_Z m * 2 ^ e - a))%Q).
  { rewrite (sgn_abs_q q) at 2. fold a. rewrite inject_Z_mult.
    setoid_replace (inject_Z (Z.sgn (Qnum q)) * inject_Z m * 2 ^ e
                    - inject_Z (Z.sgn (Qnum q)) * a)%Q
      with (inject_Z (Z.sgn (Qnum q)) * (inject_Z m * 2 ^ e - a))%Q by ring.
    rewrite Qabs_Qmult.
    pose proof (sgn_bound (Qnum q)) as Hsg.
    pose proof (Qabs_nonneg (inject_Z m * 2 ^ e - a)) as Hn.
    pose proof (Qabs_nonneg (inject_Z (Z.sgn (Qnum q)))) as Hn'.
    nra. }
  assert (H53 : (2 ^ (-53) == 2 ^ (-52) * (1 # 2))%Q) by reflexivity.
  assert (H1075 : (2 ^ (-1075) == 2 ^ (-1074) * (1 # 2))%Q) by reflexivity.
  destruct (Qlt_le_dec 0 a) as [Hpos | Hzero].
  - pose proof (ulp_bound a Hpos) as Hu. fold e in Hu.
    rewrite H53, H1075.
    revert Hu He Hme Hs.
    generalize (2 ^ e)%Q (2 ^ (-52))%Q (2 ^ (-1074))%Q
      (Qabs (inject_Z (Z.sgn (Qnum q) * m) * 2 ^ e - q))
      (Qabs (inject_Z m * 2 ^ e - a)).
    intros. nra.
  - assert (Ha0 : (a == 0)%Q) by lra.
    assert (Hm0 : m = 0).
    { unfold m. rewrite (round_half_even_comp (a / 2 ^ e) 0); [reflexivity|].
      rewrite Ha0. unfold Qdiv. ring. }
    assert (Hz : (inject_Z m * 2 ^ e - a == 0)%Q).
    { rewrite Hm0, Ha0. change (inject_Z 0) with 0%Q. ring. }
    rewrite Hz in Hs. change (Qabs 0) with 0%Q in Hs.
    pose proof (two_power_pos (-53)) as H3. pose proof (two_power_pos (-1075)) as H4.
    revert Hs H3 H4.
    generalize (2 ^ (-53))%Q (2 ^ (-1075))%Q
      (Qabs (inject_Z (Z.sgn (Qnum q) * m) * 2 ^ e - q)).
    intros. nra.
Qed.

Lemma round_half_even_Z (n : Z) : Py.round_half_even (inject_Z n) = n.
Proof.
  unfold Py.round_half_even. rewrite Qfloor_Z.
  assert (E : (inject_Z n - inject_Z n ?= 1 # 2)%Q = Lt).
  { apply (proj1 (Qlt_alt _ _)). generalize (inject_Z n). intros q. lra. }
  now rewrite E.
Qed.

Lemma round_half_even_nonneg (x : Q) : (0 <= x)%Q -> 0 <= Py.round_half_even x.
Proof.
  intros Hx. pose proof (round_half_even_near x) as H.
  apply Qabs_Qle_condition in H.
  assert (Hq : (-1 < inject_Z (Py.round_half_even x))%Q) by lra.
  change (-1)%Q with (inject_Z (-1)) in Hq. rewrite <- Zlt_Qlt in Hq. lia.
Qed.

(** The significand of a float has 53 bits at most. *)
Lemma significand_bound (a : Q) :
  let e := Z.max (Py.ilog2 a - 52) (-1074) in
  (0 < a)%Q -> Py.round_half_even (a / 2 ^ e) <= 2 ^ 53.
Proof.
  intros e Ha. destruct (ilog2_spec a Ha) as [_ Hup].
  pose proof (two_power_pos e) as He.
  assert (Hle : (2 ^ (Py.ilog2 a + 1) <= 2 ^ (e + 53))%Q)
    by (apply Qpower_le_compat_l; [unfold e; lia | lra]).
  rewrite (Qpower_plus 2 e 53) in Hle by discriminate.
  assert (Hx : (a / 2 ^ e < 2 ^ 53)%Q).
  { apply Qlt_shift_div_r; [assumption|].
    apply (Qlt_le_trans _ _ _ Hup). now rewrite Qmult_comm. }
  pose proof (round_half_even_near (a / 2 ^ e)) as H.
  apply Qabs_Qle_condition in H.
  assert (Hq : (inject_Z (Py.round_half_even (a / 2 ^ e)) < inject_Z (2 ^ 53 + 1))%Q).
  { rewrite inject_Z_plus. change (inject_Z (2 ^ 53)) with (2 ^ 53)%Q.
    change (inject_Z 1) with 1%Q. lra. }
  rewrite <- Zlt_Qlt in Hq. lia.
Qed.

Lemma two_power_Z (n : Z) : 0 <= n -> (2 ^ n == inject_Z (2 ^ n))%Q.
Proof. intros Hn. now rewrite Zpower_Qpower. Qed.

(** A rational with a significand of 53 bits at most and an exponent of
    [-1074] at least is rounded to itself. *)
Lemma significand_exact (a : Q) (M E : Z) :
  0 < M <= 2 ^ 53 -> -1074 <= E -> (a == inject_Z M * 2 ^ E)%Q ->
  let e := Z.max (Py.ilog2 a - 52) (-1074) in
  (inject_Z (Py.round_half_even (a / 2 ^ e)) * 2 ^ e == a)%Q.
Proof.
  intros [HM1 HM2] HE Ha e.
  pose proof (two_power_pos E) as HpE. pose proof (two_power_pos e) as Hpe.
  assert (HMq : (0 < inject_Z M)%Q) by (change 0%Q with (inject_Z 0); now rewrite <- Zlt_Qlt).
  assert (HMq2 : (inject_Z M <= 2 ^ 53)%Q).
  { change (2 ^ 53)%Q with (inject_Z (2 ^ 53)). now rewrite <- Zle_Qle. }
  assert (Hpos : (0 < a)%Q) by (rewrite Ha; nra).
  destruct (ilog2_spec a Hpos) as [Hlo _].
  assert (HL : Py.ilog2 a <= E + 53).
  { apply (Qpower_le_compat_l_inv 2); [|reflexivity].
    apply (Qle_trans _ _ _ Hlo). rewrite Ha, Qpower_plus by discriminate.
    rewrite (Qmult_comm (2 ^ E)). apply Qmult_le_compat_r; lra. }
  destruct (Z_le_gt_dec e E) as [Hle | Hgt].
  - assert (Hx : (a / 2 ^ e == inject_Z (M * 2 ^ (E - e)))%Q).
    { rewrite inject_Z_mult, <- two_power_Z by lia.
      rewrite Qpower_minus by discriminate. rewrite Ha. field. lra. }
    rewrite (round_half_even_comp _ _ Hx), round_half_even_Z, <- Hx. field. lra.
  - assert (He : e = E + 1) by (unfold e in *; lia).
    assert (HLe : Py.ilog2 a = E + 53) by (unfold e in *; lia).
    assert (HM : M = 2 ^ 53).
    { rewrite HLe, Ha, Qpower_plus in Hlo by discriminate.
      assert (Hq : (2 ^ 53 <= inject_Z M)%Q).
      { apply (Qmult_le_l _ _ (2 ^ E)); [assumption|]. lra. }
      change (2 ^ 53)%Q with (inject_Z (2 ^ 53)) in Hq. rewrite <- Zle_Qle in Hq. lia. }
    assert (Hx : (a / 2 ^ e == inject_Z (2 ^ 52))%Q).
    { rewrite Ha, HM, He, Qpower_plus by discriminate.
      change (inject_Z (2 ^ 53)) with (2 * inject_Z (2 ^ 52))%Q.
      rewrite Qpower_1_r. field. lra. }
    rewrite (round_half_even_comp _ _ Hx), round_half_even_Z, <- Hx. field. lra.
Qed.

Lemma fl_zero (q : Q) : (q == 0)%Q -> (Py.fl q == 0)%Q.
Proof.
  intros Hq. unfold Py.fl. rewrite Qred_correct.
  assert (Hn : Qnum q = 0).
  { unfold Qeq in Hq. cbn in Hq. lia. }
  rewrite Hn. cbn [Z.sgn Z.mul]. change (inject_Z 0) with 0%Q. ring.
Qed.

(** A float is rounded to itself. *)
Lemma fl_exact (q : Q) (M E : Z) :
  0 <= M <= 2 ^ 53 -> -1074 <= E -> (Qabs q == inject_Z M * 2 ^ E)%Q ->
  (Py.fl q == q)%Q.
Proof.
  intros HM HE Hq.
  destruct (Z.eq_dec M 0) as [-> | HM0].
  - assert (Hz : (q == 0)%Q).
    { change (inject_Z 0) with 0%Q in Hq. rewrite Qmult_0_l in Hq.
      pose proof (Qabs_Qle_condition q 0) as [Hc _].
      assert (Hle : (Qabs q <= 0)%Q) by (rewrite Hq; apply Qle_refl).
      specialize (Hc Hle). change (- 0)%Q with 0%Q in Hc. lra. }
    rewrite (fl_zero q Hz). now symmetry.
  - unfold Py.fl. rewrite Qred_correct, inject_Z_mult, <- Qmult_assoc.
    rewrite (significand_exact (Qabs q) M E) by (try lia; assumption).
    symmetry. apply sgn_abs_q.
Qed.

(** The float of a rational is a float: a significand of 53 bits at most
    times a power of two no smaller than [2^-1074]. *)
Lemma fl_is_float (q : Q) :
  exists M E, 0 <= M <= 2 ^ 53 /\ -1074 <= E /\
    (Qabs (Py.fl q) == inject_Z M * 2 ^ E)%Q.
Proof.
  set (a := Qabs q). set (e := Z.max (Py.ilog2 a - 52) (-1074)).
  set (m := Py.round_half_even (a / 2 ^ e)).
  pose proof (two_power_pos e) as He.
  pose proof (Qabs_nonneg q) as Ha. fold a in Ha.
  assert (Hm0 : 0 <= m).
  { apply round_half_even_nonneg. apply Qle_shift_div_l; [assumption|]. lra. }
  destruct (Qlt_le_dec 0 a) as [Hpos | Hzero].
  - exists m, e. split; [split; [assumption | now apply significand_bound]|].
    split; [unfold e; lia|].
    unfold Py.fl. fold a e m. rewrite Qred_correct, inject_Z_mult.
    rewrite !Qabs_Qmult, (Qabs_pos (2 ^ e)) by lra.
    rewrite (Qabs_pos (inject_Z m))
      by (change 0%Q with (inject_Z 0); now rewrite <- Zle_Qle).
    assert (Hs : (Qabs (inject_Z (Z.sgn (Qnum q))) == 1)%Q).
    { assert (Hn : Qnum q <> 0).
      { intros Hn. unfold a, Qabs in Hpos. destruct q as [n d]. cbn in *. subst.
        unfold Qlt in Hpos. cbn in Hpos. lia. }
      destruct (Qnum q); [congruence | reflexivity | reflexivity]. }
    rewrite Hs. ring.
  - exists 0, 0. split; [lia|]. split; [lia|].
    assert (Hq : (q == 0)%Q).
    { pose proof (Qabs_Qle_condition q 0) as [Hc _].
      specialize (Hc Hzero). change (- 0)%Q with 0%Q in Hc. lra. }
    rewrite (Qabs_wd _ _ (fl_zero q Hq)). reflexivity.
Qed.

Lemma fl_reduced (q : Q) : Qred (Py.fl q) = Py.fl q.
Proof. unfold Py.fl. apply Qred_complete, Qred_correct. Qed.

Lemma fl_idempotent (q : Q) : Py.fl (Py.fl q) = Py.fl q.
Proof.
  destruct (fl_is_float q) as (M & E & HM & HE & Hq).
  pose proof (fl_exact (Py.fl q) M E HM HE Hq) as H.
  apply Qred_complete in H. now rewrite !fl_reduced in H.
Qed.

(** [round(x, nd)] is the float of a decimal of [nd] places that is half
    a unit of its last place off the float [x] at most. *)
Lemma round_near (x : Q) (nd : Z) :
  0 <= nd ->
  exists m : Z,
    Py.round x nd = Py.fl (inject_Z m / inject_Z (10 ^ nd)) /\
    (Qabs (inject_Z m / inject_Z (10 ^ nd) - Py.fl x) <= (1 # 2) / inject_Z (10 ^ nd))%Q.
Proof.
  intros Hnd. exists (Py.round_half_even (Py.fl x * inject_Z (10 ^ nd))).
  split; [reflexivity|].
  assert (Ht : (0 < inject_Z (10 ^ nd))%Q).
  { change 0%Q with (inject_Z 0). rewrite <- Zlt_Qlt. now apply Z.pow_pos_nonneg. }
  pose proof (round_half_even_near (Py.fl x * inject_Z (10 ^ nd))) as H.
  revert Ht H. generalize (inject_Z (10 ^ nd)) (Py.fl x).
  intros t y Ht H.
  set (m := inject_Z (Py.round_half_even (y * t))) in *.
  setoid_replace (m / t - y)%Q with ((m - y * t) / t)%Q by (field; lra).
  unfold Qdiv. rewrite Qabs_Qmult, (Qabs_pos (/ t)).
  - apply Qmult_le_compat_r; [assumption|]. apply Qlt_le_weak, Qinv_lt_0_compat, Ht.
  - apply Qlt_le_weak, Qinv_lt_0_compat, Ht.
Qed.

Lemma round_of_float (q : Q) (nd : Z) : Py.round (Py.fl q) nd = Py.round q nd.
Proof. unfold Py.round. now rewrite fl_idempotent. Qed.

(** The rounded float quotient against the exact quotient: half a unit
    of the last decimal, and the rounding of the division and of the
    decimal. *)
Lemma round_quotient_near (q : Q) (nd : Z) :
  0 <= nd ->
  (Qabs (Py.round (Py.fl q) nd - q)
   <= (1 # 2) / inject_Z (10 ^ nd) + (Qabs q + 1) * 2 ^ (-51))%Q.
Proof.
  intros Hnd. rewrite round_of_float.
  destruct (round_near q nd Hnd) as (m & -> & H1).
  assert (Ht : (0 < inject_Z (10 ^ nd))%Q).
  { change 0%Q with (inject_Z 0). rewrite <- Zlt_Qlt. now apply Z.pow_pos_nonneg. }
  assert (Hh : ((1 # 2) / inject_Z (10 ^ nd) <= 1 # 2)%Q).
  { apply Qle_shift_div_r; [assumption|].
    assert (H10 : (1 <= inject_Z (10 ^ nd))%Q).
    { change 1%Q with (inject_Z 1). rewrite <- Zle_Qle.
      pose proof (Z.pow_pos_nonneg 10 nd eq_refl Hnd). lia. }
    lra. }
  pose proof (fl_near q) as H2.
  pose proof (fl_near (inject_Z m / inject_Z (10 ^ nd))) as H3.
  revert H1 H2 H3 Hh.
  generalize (Py.fl (inject_Z m / inject_Z (10 ^ nd)))
             (inject_Z m / inject_Z (10 ^ nd))%Q (Py.fl q)
             ((1 # 2) / inject_Z (10 ^ nd))%Q.
  intros r d f h H1 H2 H3 Hh.
  assert (E53 : (2 ^ (-53) == (1 # 4) * 2 ^ (-51))%Q) by reflexivity.
  assert (E1075 : (2 ^ (-1075) <= (1 # 8) * 2 ^ (-51))%Q) by discriminate.
  assert (H51 : (0 < 2 ^ (-51))%Q) by reflexivity.
  assert (U51 : (2 ^ (-51) <= 1 # 8)%Q) by discriminate.
  revert H2 H3 E53 E1075 H51 U51.
  generalize (2 ^ (-53))%Q (2 ^ (-1075))%Q (2 ^ (-51))%Q. intros u v w H2 H3 E53 E1075 H51 U51.
  apply Qabs_Qle_condition in H1. apply Qabs_Qle_condition in H2.
  apply Qabs_Qle_condition in H3. apply Qabs_Qle_condition.
  revert H2 H3. apply (Qabs_case q); intros Hq; apply (Qabs_case d); intros Hd H2 H3;
    split; nra.
Qed.

(** The quotient of the pre-check as a float: below [2^50] the float
    compares with an integer the way the exact quotient does. *)
Lemma float_fifths_compare (p n : Z) :
  0 <= p -> n < 2 ^ 50 ->
  Qle_bool (Py.fl (inject_Z p / inject_Z 5)) (inject_Z n)
  = Qle_bool (inject_Z p / inject_Z 5) (inject_Z n).
Proof.
  intros Hp Hn.
  set (x := (inject_Z p / inject_Z 5)%Q).
  pose proof (fl_near x) as Hnear. apply Qabs_Qle_condition in Hnear.
  assert (Hx0 : (0 <= x)%Q).
  { unfold x. apply Qle_shift_div_l; [reflexivity|].
    rewrite Qmult_0_l. change 0%Q with (inject_Z 0). now rewrite <- Zle_Qle. }
  rewrite (Qabs_pos x Hx0) in Hnear.
  assert (Ht : (2 ^ (-1075) <= 2 ^ (-53))%Q)
    by (apply Qpower_le_compat_l; [lia | discriminate]).
  assert (H53 : (2 ^ (-53) * inject_Z (2 ^ 53) == 1)%Q) by reflexivity.
  assert (H0 : (0 < 2 ^ (-53))%Q) by reflexivity.
  assert (H1 : (0 < 2 ^ (-1075))%Q) by reflexivity.
  destruct (Z_le_gt_dec p (5 * n)) as [Hle | Hgt].
  - assert (E : Qle_bool x (inject_Z n) = true).
    { apply Qle_bool_iff. unfold x. apply Qle_shift_div_r; [reflexivity|].
      rewrite <- inject_Z_mult, <- Zle_Qle. lia. }
    rewrite E. apply Qle_bool_iff.
    destruct (Z.eq_dec p (5 * n)) as [-> | Hne].
    + assert (Hxn : (x == inject_Z n)%Q).
      { unfold x. rewrite inject_Z_mult. field. }
      rewrite (fl_exact x n 0); [rewrite Hxn; apply Qle_refl | lia | lia |].
      rewrite (Qabs_pos x Hx0), Hxn. change (2 ^ 0)%Q with 1%Q. ring.
    + assert (Hx1 : (x <= inject_Z n - (1 # 5))%Q).
      { unfold x. apply Qle_shift_div_r; [reflexivity|].
        assert (Hz : 5 * n - 1 = 5 * n + -1) by lia.
        setoid_replace ((inject_Z n - (1 # 5)) * inject_Z 5)%Q with (inject_Z (5 * n - 1))%Q
          by (rewrite Hz, inject_Z_plus, inject_Z_mult; change (inject_Z 5) with 5%Q;
              change (inject_Z (-1)) with (-1)%Q; ring).
        rewrite <- Zle_Qle. lia. }
      assert (Hn' : (inject_Z n <= inject_Z (2 ^ 50))%Q) by (rewrite <- Zle_Qle; lia).
      assert (H50 : (inject_Z (2 ^ 50) * 2 ^ (-53) == 1 # 8)%Q) by reflexivity.
      assert (Hu : (2 ^ (-53) <= 1 # 100)%Q) by discriminate.
      assert (Hyu : (x * 2 ^ (-53) <= inject_Z (2 ^ 50) * 2 ^ (-53))%Q)
        by (apply Qmult_le_compat_r; lra).
      revert Hnear Hx0 Hx1 Hn' H50 Ht H0 H1 Hu Hyu.
      generalize (Py.fl x) x (inject_Z n) (inject_Z (2 ^ 50)) (2 ^ (-53))%Q (2 ^ (-1075))%Q.
      intros f y nq c u v. generalize (y * u)%Q (c * u)%Q. intros. lra.
  - assert (E : Qle_bool x (inject_Z n) = false).
    { destruct (Qle_bool x (inject_Z n)) eqn:E'; [|reflexivity].
      apply Qle_bool_iff in E'. unfold x in E'.
      apply (Qmult_le_compat_r _ _ (inject_Z 5)) in E'; [|discriminate].
      assert (Hx : (inject_Z p / inject_Z 5 * inject_Z 5 == inject_Z p)%Q) by (field; discriminate).
      rewrite Hx, <- inject_Z_mult, <- Zle_Qle in E'. lia. }
    rewrite E.
    destruct (Qle_bool (Py.fl x) (inject_Z n)) eqn:E'; [|reflexivity].
    apply Qle_bool_iff in E'. exfalso.
    assert (Hx1 : (inject_Z n + (1 # 5) <= x)%Q).
    { unfold x. apply Qle_shift_div_l; [reflexivity|].
      setoid_replace ((inject_Z n + (1 # 5)) * inject_Z 5)%Q with (inject_Z (5 * n + 1))%Q
        by (rewrite inject_Z_plus, inject_Z_mult; change (inject_Z 5) with 5%Q;
            change (inject_Z 1) with 1%Q; ring).
      rewrite <- Zle_Qle. lia. }
    assert (Hn' : (inject_Z n <= inject_Z (2 ^ 50))%Q) by (rewrite <- Zle_Qle; lia).
    assert (H50 : (inject_Z (2 ^ 50) * 2 ^ (-53) == 1 # 8)%Q) by reflexivity.
    assert (Hu : (2 ^ (-53) <= 1 # 100)%Q) by discriminate.
    revert Hnear Hx0 Hx1 Hn' H50 Ht H0 H1 E' Hu.
    generalize (Py.fl x) x (inject_Z n) (inject_Z (2 ^ 50)) (2 ^ (-53))%Q (2 ^ (-1075))%Q.
    intros f y nq c u v. intros. nra.
Qed.

(** ** Solving one scenario *)

Lemma dict_of_list_keys_in {K V} (eqb : K -> K -> bool)
    (eqb_eq : forall a b, eqb a b = true <-> a = b) (l : list (K * V)) (k : K) :
  In k (Py.dict_keys l) -> In k (Py.dict_keys (Py.dict_of_list eqb l)).
Proof.
  unfold Py.dict_of_list.
  assert (H : forall d, In k (Py.dict_keys d) \/ In k (Py.dict_keys l) ->
            In k (Py.dict_keys
                    (fold_left (fun d kv => Py.dict_set eqb (fst kv) (snd kv) d) l d))).
  { induction l as [|[k0 v0] l IH]; intros d Hk; simpl.
    - destruct Hk as [Hk | []]. assumption.
    - apply IH. rewrite dict_set_keys. simpl.
      destruct (existsb (eqb k0) (Py.dict_keys d)) eqn:E.
      + destruct Hk as [Hk | [Hk | Hk]]; auto. left. simpl in Hk. subst k0.
        apply existsb_exists in E. destruct E as (x & Hx & Hkx).
        apply eqb_eq in Hkx. now subst.
      + destruct Hk as [Hk | [Hk | Hk]]; auto.
        * left. apply in_or_app. now left.
        * left. apply in_or_app. right. simpl in Hk. now left. }
  intros Hk. apply H. now right.
Qed.

Lemma well_formed_first_table (l : LayoutConfiguration) :
  Layout.well_formed l -> Exec.is_table l 1 1.
Proof.
  intros (Hn & _ & Hlen & Hpos). unfold Exec.is_table. split; [lia|].
  change (Z.to_nat (1 - 1)) with 0%nat.
  destruct (tables_per_corridor l) as [|t0 ts]; simpl in *; [lia|].
  inversion Hpos; subst. lia.
Qed.

Lemma cap_total_positive (l : LayoutConfiguration)
    (cad : Cadastro.CadastroTimesSinergias) (c : ConfiguracaoModelo)
    (self : ExecucaoModelo) :
  Layout.well_formed l -> Exec.init l cad c = inr self -> 0 < cap_total self.
Proof.
  intros Hwf Hinit. rewrite (exec_init_well_formed cad c Hwf) in Hinit.
  injection Hinit as <-. simpl.
  assert (Hin : In (Exec.posicao_id (Exec.mesa_id (Exec.corredor_nome 1) 1) 1)
                  (Py.dict_keys (Exec._lista_posicoes l (Exec.mesas_table l)))).
  { rewrite lista_posicoes_comprehension.
    apply (dict_of_list_keys_in String.eqb string_eqb_eq).
    unfold Py.dict_keys. apply in_map_iff.
    exists (Exec.posicao_id (Exec.mesa_id (Exec.corredor_nome 1) 1) 1,
            (Exec.mesa_id (Exec.corredor_nome 1) 1, Exec.corredor_nome 1)).
    split; [reflexivity|]. unfold Exec.posicoes_table. apply in_flat_map.
    eexists. split; [apply (in_mesas_table (well_formed_first_table l Hwf))|].
    apply in_map_iff. exists 1. split; [reflexivity|].
    apply range_in. destruct Hwf as (_ & Hp & _). lia. }
  destruct (Exec._lista_posicoes l (Exec.mesas_table l)); [destruct Hin | simpl; lia].
Qed.

Lemma sum_from_values (f : Lp.Var -> option Z) (a : Lp.assignment)
    (l : list Lp.Var) (acc : Z) :
  (forall v, In v l -> f v = Some (a v)) ->
  Py.sum_from acc (map f l) = inr (acc + Lp.total a l).
Proof.
  revert acc. induction l as [|v l IH]; intros acc H; simpl.
  - unfold Py.ret. f_equal. unfold Lp.total. simpl. lia.
  - rewrite (H v) by now left. rewrite IH by (intros; apply H; now right).
    f_equal. unfold Lp.total. simpl. lia.
Qed.

Lemma sum_values (f : Lp.Var -> option Z) (a : Lp.assignment) (l : list Lp.Var) :
  (forall v, In v l -> f v = Some (a v)) ->
  Py.sum (map f l) = inr (Lp.total a l).
Proof. intros H. unfold Py.sum. now rewrite (sum_from_values f a l 0 H). Qed.

Lemma sum_from_inv (f : Lp.Var -> option Z) (l : list Lp.Var) (acc o : Z) :
  Py.sum_from acc (map f l) = inr o ->
  exists a, (forall v, In v l -> f v = Some (a v)) /\ o = acc + Lp.total a l.
Proof.
  intros H. exists (fun v => match f v with Some z => z | None => 0 end).
  revert acc H. induction l as [|v l IH]; intros acc H; simpl in *.
  - injection H as <-. split; [tauto | unfold Lp.total; simpl; lia].
  - destruct (f v) as [z|] eqn:E; [|discriminate].
    destruct (IH _ H) as [Hall ->]. split.
    + intros w [<- | Hw]; [now rewrite E | now apply Hall].
    + unfold Lp.total. simpl. rewrite E. lia.
Qed.

Lemma x_values_are_variables (self : ExecucaoModelo) (k : Z) (v : Lp.Var) :
  In v (Py.dict_values (Exec.x_vars_of self)) ->
  In v (Lp.variables (Exec.formulate self k)).
Proof.
  intros Hv. unfold Lp.variables. apply in_or_app. left.
  cbn [Exec.formulate Lp.objective Exec.objective_of Lp.gain].
  rewrite (vars_of_lpSum_vars (fun v => v)). now rewrite map_id.
Qed.

Section SolveOne.

Variable self : ExecucaoModelo.
Variable solver : Lp.Solver.

Lemma qle_bool_false (x y : Q) : Qle_bool x y = false <-> (y < x)%Q.
Proof.
  split.
  - intros H. apply Qnot_le_lt. intros Hle. apply Qle_bool_iff in Hle. congruence.
  - intros H. destruct (Qle_bool x y) eqn:E; [|reflexivity].
    apply Qle_bool_iff in E. exfalso. now apply (Qlt_not_le _ _ H).
Qed.

Lemma trata_status_never_early (prob : Lp.LpProblem) (r : Lp.SolverResult) :
  Exec.trata_status self prob r <> inr (StatusOnly "EarlyInfeasible").
Proof.
  unfold Exec.trata_status, Exec.metricas.
  destruct (Lp.sr_status r); cbn; try discriminate;
    repeat match goal with
           | |- context [existsb ?f ?l] => destruct (existsb f l)
           | |- context [Py.sum ?l] => destruct (Py.sum l); cbn
           | |- context [Py.truediv ?a ?b] => destruct (Py.truediv a b); cbn
           end; discriminate.
Qed.

End SolveOne.

Lemma fold_left_add (l : list Z) (acc : Z) :
  fold_left Z.add l acc = acc + fold_right Z.add 0 l.
Proof.
  revert acc. induction l as [|x l IH]; intros acc; simpl; [lia|]. rewrite IH. lia.
Qed.

(** The head count of the pre-check is the sum of the sizes of the
    registered teams. *)
Lemma pessoas_soma (self : ExecucaoModelo) :
  Exec.pessoas self
  = fold_right Z.add 0 (map (fun kv => qtde_integrantes (snd kv)) (cad_times self)).
Proof.
  unfold Exec.pessoas, Exec.times, Py.dict_values.
  rewrite fold_left_add, map_map. lia.
Qed.

Lemma demanda_excede (p e : Z) :
  (inject_Z e < inject_Z p / inject_Z 5)%Q <-> 5 * e < p.
Proof.
  unfold Qlt, Qdiv, Qmult, Qinv, inject_Z. cbn [Qnum Qden Pos.mul].
  change (Z.pos (1 * 5)) with 5. lia.
Qed.

(** C2.  A scenario of [k] required days is rejected early, with status
    "EarlyInfeasible" and without a problem being formulated or handed
    to the solver, exactly when the average daily demand, the sum of the
    sizes of all registered teams times [k] over the five working days,
    exceeds the seat capacity less the configured minimum slack.  When
    the demand is at most that effective capacity the problem is
    formulated and handed to the solver once, and the result is the
    interpretation of the solver's answer.  The quotient is compared
    exactly; the float the interpreter divides to compares the same way
    while the effective capacity is below [2^50]. *)
Theorem early_rejection_iff_demand_exceeds (self : ExecucaoModelo)
    (solver : Lp.Solver) (k : Z) (log : list Lp.LpProblem) :
  let tamanhos := map (fun kv => qtde_integrantes (snd kv)) (cad_times self) in
  let soma := fold_right Z.add 0 tamanhos in
  let demanda := (inject_Z (soma * k) / inject_Z 5)%Q in
  let efetiva := cap_total self - folga_minima (cfg self) in
  let prob := Exec.formulate self k in
  (fst (Exec._solve_for_k self solver k log) = inr (StatusOnly "EarlyInfeasible")
     <-> (inject_Z efetiva < demanda)%Q) /\
  ((inject_Z efetiva < demanda)%Q <-> 5 * efetiva < soma * k) /\
  ((inject_Z efetiva < demanda)%Q ->
     Exec._solve_for_k self solver k log = (inr (StatusOnly "EarlyInfeasible"), log)) /\
  ((demanda <= inject_Z efetiva)%Q ->
     Exec._solve_for_k self solver k log =
     (Exec.trata_status self prob (solver prob), (log ++ [prob])%list)) /\
  (0 <= soma * k -> efetiva < 2 ^ 50 ->
   Qle_bool (Py.fl demanda) (inject_Z efetiva) = Qle_bool demanda (inject_Z efetiva)).
Proof.
  intros tamanhos soma demanda efetiva prob.
  assert (Hsoma : Exec.pessoas self = soma) by apply pessoas_soma.
  assert (Hpre : Exec._upper_bound_feasible self k = Qle_bool demanda (inject_Z efetiva)).
  { unfold Exec._upper_bound_feasible, Exec.demanda_dia. now rewrite Hsoma. }
  unfold Exec._solve_for_k. rewrite Hpre. fold prob.
  split; [|split; [|split; [|split]]].
  - destruct (Qle_bool demanda (inject_Z efetiva)) eqn:E; cbn [negb fst].
    + split.
      * intros H. exfalso. now apply (trata_status_never_early self prob (solver prob)).
      * intros H. apply qle_bool_false in H. congruence.
    + split; [intros _; now apply qle_bool_false | reflexivity].
  - apply demanda_excede.
  - intros H. apply qle_bool_false in H. now rewrite H.
  - intros H. apply Qle_bool_iff in H. now rewrite H.
  - apply float_fifths_compare.
Qed.

(** What [sum] makes of the values of a list of variables. *)
Lemma sum_from_read (f : Lp.Var -> option Z) (l : list Lp.Var) (acc : Z) :
  Py.sum_from acc (map f l) =
  if forallb (fun v => match f v with Some _ => true | None => false end) l
  then inr (acc + Lp.total (fun v => match f v with Some n => n | None => 0 end) l)
  else inl Py.TypeError.
Proof.
  revert acc. induction l as [|v l IH]; intros acc; simpl.
  - unfold Py.ret, Lp.total. simpl. f_equal. lia.
  - destruct (f v) as [n|] eqn:E; simpl; [|reflexivity].
    rewrite IH. destruct (forallb _ l); [|reflexivity].
    unfold Lp.total. simpl. rewrite E. f_equal. lia.
Qed.

(** The metrics of a solved problem: read when every [x] variable has a
    value, a [TypeError] of [sum] otherwise. *)
Lemma metricas_read (self : ExecucaoModelo) (status : string)
    (prob : Lp.LpProblem) (r : Lp.SolverResult) :
  cap_total self <> 0 ->
  Exec.metricas self status prob r =
  if forallb (Lp.has_value r) (Py.dict_values (Exec.x_vars_of self)) then
    let o := Lp.total (fun v => match Lp.sr_value r v with Some n => n | None => 0 end)
               (Py.dict_values (Exec.x_vars_of self)) in
    inr (Solved status o
           (Py.round (Py.fl (inject_Z o / inject_Z (5 * cap_total self))) 3)
           (Py.round (Lp.sr_runtime r) 2) (Lp.mkSolved prob r) (Exec.x_vars_of self))
  else inl Py.TypeError.
Proof.
  intros Hcap. unfold Exec.metricas, Py.sum. rewrite sum_from_read.
  fold (Lp.has_value r).
  change (fun v => match Lp.sr_value r v with Some _ => true | None => false end)
    with (Lp.has_value r).
  destruct (forallb (Lp.has_value r) _); cbn [Py.bind]; [|reflexivity].
  unfold Py.truediv. change (Z.of_nat (List.length DIAS_UTEIS)) with 5.
  destruct (Z.eqb_spec (5 * cap_total self) 0) as [E | E]; [lia|]. reflexivity.
Qed.

(** C1, as the code has it.  Once the pre-check has passed the problem
    is handed to the solver once and its status is read three ways.
    Optimal: the metrics are read and the scenario is accepted with
    status "Optimal".  Infeasible, Unbounded or Undefined: it is rejected
    and the status text is recorded as it is.  Not Solved: when some
    variable of the problem has a value the metrics are read and the
    scenario is accepted with status "Feasible", and when none has it is
    rejected with status "Not Solved".  Reading the metrics gives the
    sum of the values of the [x] variables, the weekly rate and the run
    time when every [x] variable has a value, and raises [TypeError]
    when one has none; with a solver that loads the values of the
    variables of a problem together the reading never raises.  The
    engine is the one of a valid layout. *)
Theorem solve_status_three_way (l : LayoutConfiguration)
    (cad : Cadastro.CadastroTimesSinergias) (c : ConfiguracaoModelo)
    (self : ExecucaoModelo) (solver : Lp.Solver) (k : Z)
    (log : list Lp.LpProblem) :
  Layout.well_formed l -> Exec.init l cad c = inr self ->
  Exec._upper_bound_feasible self k = true ->
  let prob := Exec.formulate self k in
  let r := solver prob in
  let xs := Py.dict_values (Exec.x_vars_of self) in
  let lido (status : string) : Py.result SolveResult :=
    if forallb (Lp.has_value r) xs then
      let o := Lp.total (fun v => match Lp.sr_value r v with Some n => n | None => 0 end) xs in
      inr (Solved status o
             (Py.round (Py.fl (inject_Z o / inject_Z (5 * cap_total self))) 3)
             (Py.round (Lp.sr_runtime r) 2) (Lp.mkSolved prob r) (Exec.x_vars_of self))
    else inl Py.TypeError in
  let algum := existsb (Lp.has_value r) (Lp.variables prob) in
  let saida :=
    match Lp.sr_status r with
    | Lp.LpStatusOptimal => lido "Optimal"
    | Lp.LpStatusInfeasible => inr (StatusOnly "Infeasible")
    | Lp.LpStatusUnbounded => inr (StatusOnly "Unbounded")
    | Lp.LpStatusUndefined => inr (StatusOnly "Undefined")
    | Lp.LpStatusNotSolved =>
        if algum then lido "Feasible" else inr (StatusOnly "Not Solved")
    end in
  Exec._solve_for_k self solver k log = (saida, (log ++ [prob])%list) /\
  (forall res, saida = inr res ->
     Exec.outcome res =
     match Lp.sr_status r with
     | Lp.LpStatusOptimal => Exec.Accepted "Optimal"
     | Lp.LpStatusInfeasible => Exec.Rejected "Infeasible"
     | Lp.LpStatusUnbounded => Exec.Rejected "Unbounded"
     | Lp.LpStatusUndefined => Exec.Rejected "Undefined"
     | Lp.LpStatusNotSolved =>
         if algum then Exec.Accepted "Feasible" else Exec.Rejected "Not Solved"
     end) /\
  (Lp.loads_together r prob -> exists res, saida = inr res).
Proof.
  intros Hwf Hinit Hpre prob r xs lido algum saida.
  pose proof (cap_total_positive l cad c self Hwf Hinit) as Hcap.
  assert (Hlido : forall status, Exec.metricas self status prob r = lido status).
  { intros status. apply metricas_read. lia. }
  assert (Hac : forall status res,
             existsb (String.eqb status) ["Optimal"; "Feasible"] = true ->
             lido status = inr res -> Exec.outcome res = Exec.Accepted status).
  { intros status res Hst. unfold lido. destruct (forallb (Lp.has_value r) xs); [|discriminate].
    intros [= <-]. unfold Exec.outcome, Exec.aceito. cbn [Exec.status_of].
    now rewrite Hst. }
  assert (Hld : forall status,
             (forall v, In v (Lp.variables prob) -> Lp.sr_value r v <> None) ->
             exists res, lido status = inr res).
  { intros status Hall. unfold lido.
    assert (Hx : forallb (Lp.has_value r) xs = true).
    { apply forallb_forall. intros v Hv. unfold Lp.has_value.
      pose proof (Hall v (x_values_are_variables self k v Hv)) as Hn.
      now destruct (Lp.sr_value r v). }
    rewrite Hx. eauto. }
  split; [|split].
  - unfold Exec._solve_for_k. rewrite Hpre. cbn [negb]. fold prob. fold r.
    f_equal. unfold Exec.trata_status, saida, algum.
    destruct (Lp.sr_status r); cbn; try reflexivity; try apply Hlido.
    destruct (existsb (Lp.has_value r) (Lp.variables prob)); [apply Hlido | reflexivity].
  - intros res. unfold saida, algum.
    destruct (Lp.sr_status r).
    + now apply Hac.
    + destruct (existsb (Lp.has_value r) (Lp.variables prob));
        [now apply Hac | now intros [= <-]].
    + now intros [= <-].
    + now intros [= <-].
    + now intros [= <-].
  - intros Hload. unfold saida, algum.
    destruct (Lp.sr_status r) eqn:Est.
    + apply Hld, Hload. now left.
    + destruct (existsb (Lp.has_value r) (Lp.variables prob)) eqn:Eal.
      * apply Hld, Hload. now right.
      * now eexists.
    + now eexists.
    + now eexists.
    + now eexists.
Qed.

Lemma layoutA_well_formed : Layout.well_formed Exemplo.layoutA.
Proof.
  unfold Layout.well_formed, Layout.valid. simpl.
  repeat split; try lia. repeat constructor.
Qed.

Lemma solA_feasible : Lp.feasible Exemplo.solA (Exec.formulate Exemplo.execA 2).
Proof. apply feasibleb_feasible. vm_compute. reflexivity. Qed.

Lemma solve_status_three_way_witness :
  Exec._solve_for_k Exemplo.execA Exemplo.solverA 2 []
  = (inr (Solved "Optimal" 12 (Py.fl (3 # 10)) (1 # 4)
            (Lp.mkSolved (Exec.formulate Exemplo.execA 2)
               (Exemplo.solverA (Exec.formulate Exemplo.execA 2)))
            (Exec.x_vars_of Exemplo.execA)),
     [Exec.formulate Exemplo.execA 2]).
Proof.
  exact (proj1 (solve_status_three_way Exemplo.layoutA Exemplo.cadA Exemplo.cfgA
                  Exemplo.execA Exemplo.solverA 2 [] layoutA_well_formed eq_refl
                  eq_refl)).
Defined.

(** C1 as stated fails where the solver leaves an [x] variable without a
    value.  In scenario A a solver that stops without a proof, with
    values on the presence variables only, has a variable with a value,
    and the scenario is not accepted with status "Feasible": reading the
    total raises [TypeError].  So does an answer marked optimal that
    carries no value. *)
Lemma partial_values_solve_raises :
  Layout.well_formed Exemplo.layoutA /\
  Exec.init Exemplo.layoutA Exemplo.cadA Exemplo.cfgA = inr Exemplo.execA /\
  Exec._upper_bound_feasible Exemplo.execA 2 = true /\
  Lp.sr_status (Exemplo.solverP (Exec.formulate Exemplo.execA 2)) = Lp.LpStatusNotSolved /\
  existsb (Lp.has_value (Exemplo.solverP (Exec.formulate Exemplo.execA 2)))
    (Lp.variables (Exec.formulate Exemplo.execA 2)) = true /\
  Exec._solve_for_k Exemplo.execA Exemplo.solverP 2 []
    = (inl Py.TypeError, [Exec.formulate Exemplo.execA 2]) /\
  ~ (exists res,
       fst (Exec._solve_for_k Exemplo.execA Exemplo.solverP 2 []) = inr res /\
       Exec.outcome res = Exec.Accepted "Feasible") /\
  Lp.sr_status (Exemplo.solverV (Exec.formulate Exemplo.execA 2)) = Lp.LpStatusOptimal /\
  Exec._solve_for_k Exemplo.execA Exemplo.solverV 2 []
    = (inl Py.TypeError, [Exec.formulate Exemplo.execA 2]) /\
  ~ (exists res,
       fst (Exec._solve_for_k Exemplo.execA Exemplo.solverV 2 []) = inr res /\
       Exec.outcome res = Exec.Accepted "Optimal").
Proof.
  assert (HP : Exec._solve_for_k Exemplo.execA Exemplo.solverP 2 []
               = (inl Py.TypeError, [Exec.formulate Exemplo.execA 2]))
    by (vm_compute; reflexivity).
  assert (HV : Exec._solve_for_k Exemplo.execA Exemplo.solverV 2 []
               = (inl Py.TypeError, [Exec.formulate Exemplo.execA 2]))
    by (vm_compute; reflexivity).
  split; [exact layoutA_well_formed|].
  split; [reflexivity|]. split; [reflexivity|]. split; [reflexivity|].
  split; [vm_compute; reflexivity|]. split; [exact HP|].
  split; [rewrite HP; intros (res & H & _); discriminate|].
  split; [reflexivity|]. split; [exact HV|].
  rewrite HV. intros (res & H & _). discriminate.
Qed.

(** That solver does not load the values of the variables together. *)
Lemma partial_values_not_loaded_together :
  Lp.loads_together (Exemplo.solverP (Exec.formulate Exemplo.execA 2))
                    (Exec.formulate Exemplo.execA 2) -> False.
Proof.
  intros H.
  assert (Hx : In (Lp.X "Alpha" "Corredor 1_M1_P1" "Segunda")
                 (Lp.variables (Exec.formulate Exemplo.execA 2))).
  { apply x_values_are_variables. vm_compute. now left. }
  apply (H (or_intror eq_refl) _ Hx). reflexivity.
Qed.

(** ** Total occupancy of a solution *)

Lemma nodup_map_injective {A B} (f : A -> B) (l : list A) (x y : A) :
  NoDup (map f l) -> In x l -> In y l -> f x = f y -> x = y.
Proof.
  induction l as [|z l IH]; simpl; [tauto|].
  intros Hnd Hx Hy Hxy. inversion Hnd as [|? ? Hni Hnd']; subst.
  destruct Hx as [-> | Hx], Hy as [-> | Hy]; auto.
  - exfalso. apply Hni. rewrite Hxy. now apply in_map.
  - exfalso. apply Hni. rewrite <- Hxy. now apply in_map.
Qed.

Lemma dias_nodup : NoDup DIAS_UTEIS.
Proof.
  unfold DIAS_UTEIS. repeat constructor; simpl; intuition discriminate.
Qed.

Lemma total_app (a : Lp.assignment) (l1 l2 : list Lp.Var) :
  Lp.total a (l1 ++ l2) = Lp.total a l1 + Lp.total a l2.
Proof.
  unfold Lp.total. induction l1 as [|v l1 IH]; simpl; [reflexivity|].
  rewrite IH. lia.
Qed.

Lemma total_flat_map {A} (a : Lp.assignment) (f : A -> list Lp.Var) (l : list A) :
  Lp.total a (flat_map f l) = fold_right Z.add 0 (map (fun x => Lp.total a (f x)) l).
Proof.
  induction l as [|x l IH]; simpl; [reflexivity|]. now rewrite total_app, IH.
Qed.

Lemma sum_map_ext_in {A} (f g : A -> Z) (l : list A) :
  (forall x, In x l -> f x = g x) ->
  fold_right Z.add 0 (map f l) = fold_right Z.add 0 (map g l).
Proof.
  intros H. induction l as [|x l IH]; simpl; [reflexivity|].
  rewrite H by now left. rewrite IH; [reflexivity|]. intros; apply H. now right.
Qed.

Lemma sum_map_add {A} (f g : A -> Z) (l : list A) :
  fold_right Z.add 0 (map (fun x => f x + g x) l) =
  fold_right Z.add 0 (map f l) + fold_right Z.add 0 (map g l).
Proof. induction l as [|x l IH]; simpl; [reflexivity|]. rewrite IH. lia. Qed.

Lemma sum_map_scale {A} (c : Z) (f : A -> Z) (l : list A) :
  fold_right Z.add 0 (map (fun x => c * f x) l) = c * fold_right Z.add 0 (map f l).
Proof. induction l as [|x l IH]; simpl; [lia|]. rewrite IH. lia. Qed.

(** Summing over seats then days is summing over days then seats. *)
Lemma sum_swap {A B} (g : A -> B -> Z) (la : list A) (lb : list B) :
  fold_right Z.add 0 (map (fun x => fold_right Z.add 0 (map (g x) lb)) la) =
  fold_right Z.add 0 (map (fun y => fold_right Z.add 0 (map (fun x => g x y) la)) lb).
Proof.
  induction la as [|x la IH]; simpl.
  - induction lb as [|y lb IHb]; simpl; [reflexivity|]. now rewrite <- IHb.
  - rewrite IH. now rewrite <- sum_map_add.
Qed.

Lemma values_flat_map {A K V} (h : A -> list (K * V)) (l : list A) :
  Py.dict_values (flat_map h l) = flat_map (fun a => Py.dict_values (h a)) l.
Proof.
  unfold Py.dict_values. induction l as [|a l IH]; simpl; [reflexivity|].
  now rewrite map_app, IH.
Qed.

Section TotalOccupancy.

Variable self : ExecucaoModelo.
Hypothesis Hnomes : NoDup (map nome (Exec.times self)).
Hypothesis Hpos : NoDup (Py.dict_keys (posicoes self)).

Lemma x_vars_keys_nodup :
  NoDup (Py.dict_keys
    (flat_map (fun t =>
       flat_map (fun p =>
         map (fun d => ((nome t, p, d), Lp.X (nome t) p d)) Exec.dias)
         (Py.dict_keys (posicoes self)))
       (Exec.times self))).
Proof.
  rewrite keys_flat_map. apply nodup_flat_map.
  - eapply NoDup_map_inv. exact Hnomes.
  - intros t _. rewrite keys_flat_map. apply nodup_flat_map; [exact Hpos | |].
    + intros p _. unfold Py.dict_keys. rewrite map_map.
      apply Injective_map_NoDup_in; [|apply dias_nodup].
      intros x y _ _ H. cbn [fst] in H. now injection H.
    + intros p q y _ _. unfold Py.dict_keys. rewrite !map_map.
      rewrite !in_map_iff. intros (d1 & <- & _) (d2 & H & _).
      cbn [fst] in H. injection H as H _. now symmetry.
  - intros t u y Ht Hu. rewrite !keys_flat_map, !in_flat_map.
    intros (p1 & _ & H1) (p2 & _ & H2). unfold Py.dict_keys in H1, H2.
    rewrite map_map in H1, H2.
    apply in_map_iff in H1, H2.
    destruct H1 as (d1 & <- & _), H2 as (d2 & H & _).
    cbn [fst] in H. injection H as H _ _.
    symmetry in H. now apply (nodup_map_injective nome (Exec.times self)).
Qed.

Lemma x_vars_values :
  Py.dict_values (Exec.x_vars_of self) =
  flat_map (fun t =>
    flat_map (fun p => map (fun d => Lp.X (nome t) p d) Exec.dias)
             (Py.dict_keys (posicoes self)))
    (Exec.times self).
Proof.
  unfold Exec.x_vars_of.
  rewrite (dict_of_list_nodup Exec.xkey_eqb xkey_eqb_eq) by apply x_vars_keys_nodup.
  rewrite values_flat_map. apply flat_map_ext. intros t.
  rewrite values_flat_map. apply flat_map_ext. intros p.
  unfold Py.dict_values. now rewrite map_map.
Qed.

Variable k : Z.
Variable a : Lp.assignment.
Hypothesis Hfeasible : Lp.feasible a (Exec.formulate self k).

Lemma seats_of_team_week (t : Time) :
  In t (Exec.times self) ->
  Lp.total a (flat_map (fun p => map (fun d => Lp.X (nome t) p d) Exec.dias)
                       (Py.dict_keys (posicoes self)))
  = qtde_integrantes t * k.
Proof.
  intros Ht. rewrite total_flat_map.
  rewrite (sum_map_ext_in _
             (fun p => fold_right Z.add 0
                         (map (fun d => a (Lp.X (nome t) p d)) Exec.dias)))
    by (intros p _; unfold Lp.total; now rewrite map_map).
  rewrite (sum_swap (fun p d => a (Lp.X (nome t) p d))).
  rewrite (sum_map_ext_in _ (fun d => qtde_integrantes t * a (Lp.Pres (nome t) d))).
  - rewrite sum_map_scale. f_equal.
    rewrite <- (days_of_team self k a Hfeasible t Ht).
    unfold Lp.total. now rewrite map_map.
  - intros d Hd. rewrite <- (seats_of_team_day self k a Hfeasible t d Ht Hd).
    unfold Lp.total. now rewrite map_map.
Qed.

(** Every solution seats each team in full on exactly [k] days: the
    seats occupied over the week are [k] times the head count. *)
Lemma total_occupancy :
  Lp.total a (Py.dict_values (Exec.x_vars_of self)) = Exec.pessoas self * k.
Proof.
  rewrite x_vars_values, total_flat_map.
  rewrite (sum_map_ext_in _ (fun t => k * qtde_integrantes t))
    by (intros t Ht; rewrite (seats_of_team_week t Ht); lia).
  rewrite sum_map_scale. unfold Exec.pessoas. rewrite fold_left_add. lia.
Qed.

End TotalOccupancy.

(** ** The metrics of an accepted scenario *)

Lemma metricas_inv (self : ExecucaoModelo) (status : string)
    (prob : Lp.LpProblem) (r : Lp.SolverResult) (res : SolveResult) :
  Exec.metricas self status prob r = inr res ->
  exists o,
    Py.sum (map (Lp.sr_value r) (Py.dict_values (Exec.x_vars_of self))) = inr o /\
    cap_total self <> 0 /\
    res = Solved status o
            (Py.round (Py.fl (inject_Z o / inject_Z (5 * cap_total self))) 3)
            (Py.round (Lp.sr_runtime r) 2) (Lp.mkSolved prob r) (Exec.x_vars_of self).
Proof.
  unfold Exec.metricas.
  destruct (Py.sum (map (Lp.sr_value r) (Py.dict_values (Exec.x_vars_of self))))
    as [e | o]; cbn [Py.bind]; [discriminate|].
  unfold Py.truediv. change (Z.of_nat (List.length DIAS_UTEIS)) with 5.
  destruct (Z.eqb_spec (5 * cap_total self) 0) as [E | E]; cbn [Py.bind Py.ret Py.raise];
    [discriminate|].
  intros [= <-]. exists o. repeat split. lia.
Qed.

Lemma solve_for_k_accepted_inv (self : ExecucaoModelo) (solver : Lp.Solver)
    (k : Z) (log : list Lp.LpProblem) (res : SolveResult) :
  fst (Exec._solve_for_k self solver k log) = inr res ->
  Exec.aceito res = true ->
  exists st, (st = "Optimal" \/ st = "Feasible") /\
    Exec.metricas self st (Exec.formulate self k) (solver (Exec.formulate self k))
    = inr res.
Proof.
  unfold Exec._solve_for_k.
  destruct (Exec._upper_bound_feasible self k); cbn [negb fst].
  - unfold Exec.trata_status.
    destruct (Lp.sr_status (solver (Exec.formulate self k))); cbn.
    + intros H _. exists "Optimal". auto.
    + destruct (existsb _ _).
      * intros H _. exists "Feasible". auto.
      * intros [= <-]. discriminate.
    + intros [= <-]. discriminate.
    + intros [= <-]. discriminate.
    + intros [= <-]. discriminate.
  - intros [= <-]. discriminate.
Qed.

Lemma solve_optimal_result (self : ExecucaoModelo) (solver : Lp.Solver)
    (k : Z) (log : list Lp.LpProblem) (a : Lp.assignment) :
  Exec._upper_bound_feasible self k = true ->
  Lp.sr_status (solver (Exec.formulate self k)) = Lp.LpStatusOptimal ->
  (forall v, In v (Py.dict_values (Exec.x_vars_of self)) ->
     Lp.sr_value (solver (Exec.formulate self k)) v = Some (a v)) ->
  cap_total self <> 0 ->
  let o := Lp.total a (Py.dict_values (Exec.x_vars_of self)) in
  fst (Exec._solve_for_k self solver k log) =
  inr (Solved "Optimal" o
         (Py.round (Py.fl (inject_Z o / inject_Z (5 * cap_total self))) 3)
         (Py.round (Lp.sr_runtime (solver (Exec.formulate self k))) 2)
         (Lp.mkSolved (Exec.formulate self k) (solver (Exec.formulate self k)))
         (Exec.x_vars_of self)).
Proof.
  intros Hpre Hst Hval Hcap o. unfold Exec._solve_for_k. rewrite Hpre.
  cbn [negb fst]. unfold Exec.trata_status. rewrite Hst. cbn.
  unfold Exec.metricas. rewrite (sum_values _ a _ Hval). cbn [Py.bind].
  unfold Py.truediv. change (Z.of_nat (List.length DIAS_UTEIS)) with 5.
  destruct (Z.eqb_spec (5 * cap_total self) 0) as [E | E]; [lia|]. reflexivity.
Qed.

Lemma execA_posicoes_nodup : NoDup (Py.dict_keys (posicoes Exemplo.execA)).
Proof.
  unfold Exemplo.execA. cbn [posicoes]. rewrite lista_posicoes_comprehension.
  apply (dict_of_list_keys_nodup String.eqb string_eqb_eq).
Qed.

Lemma execA_nomes_nodup : NoDup (map nome (Exec.times Exemplo.execA)).
Proof. repeat constructor; simpl; intuition discriminate. Qed.

Lemma execW_posicoes_nodup : NoDup (Py.dict_keys (posicoes Exemplo.execW)).
Proof.
  unfold Exemplo.execW. cbn [posicoes]. rewrite lista_posicoes_comprehension.
  apply (dict_of_list_keys_nodup String.eqb string_eqb_eq).
Qed.

Lemma execW_nomes_nodup : NoDup (map nome (Exec.times Exemplo.execW)).
Proof. repeat constructor; simpl; intuition discriminate. Qed.

Lemma solS_feasible_wide : Lp.feasible Exemplo.solS (Exec.formulate Exemplo.execW 1).
Proof. apply feasibleb_feasible. vm_compute. reflexivity. Qed.

(** The quotients of the examples as floats.  The double of [1/80] lies
    above 0.0125 and that of [3/80] below 0.0375, so that their three
    decimals are the floats 0.013 and 0.037, where the exact quotients,
    both ties, would give 0.012 and 0.038. *)
Lemma float_quotients :
  Py.fl (1 # 80) = 3602879701896397 # 288230376151711744 /\
  Py.round (Py.fl (1 # 80)) 3 = Py.fl (13 # 1000) /\
  Py.fl (3 # 80) = 5404319552844595 # 144115188075855872 /\
  Py.round (Py.fl (3 # 80)) 3 = Py.fl (37 # 1000) /\
  Py.fl (3 # 10) = 5404319552844595 # 18014398509481984 /\
  Py.round (Py.fl (3 # 10)) 3 = Py.fl (3 # 10) /\
  Py.fl (1 # 4) = 1 # 4 /\
  Py.round (1 # 4) 2 = 1 # 4 /\
  Py.round (1 # 8) 2 = Py.fl (3 # 25).
Proof. repeat split; vm_compute; reflexivity. Qed.

(** C7, as the code has it.  For an accepted scenario the reported total
    is the sum of the values of all [x] variables, and the reported
    weekly rate is the floating-point quotient of that total by five
    times the seat capacity, rounded to three decimals the way [round]
    does; it is within half a thousandth of the exact quotient, up to
    the rounding of the division and of the decimal.  In scenario A (one
    corridor, two tables of four seats, teams Alpha and Beta of three,
    two required days, no slack, no distance weight) every solver answer
    proved optimal that solves the problem gives an accepted scenario
    with total 12 and the float 0.3 as rate.  With sixteen seats and one
    person present on one day the total is 1 and the rate is the float
    0.013. *)
Theorem occupancy_metrics_rounded :
  (forall (self : ExecucaoModelo) (solver : Lp.Solver) (k : Z)
          (log : list Lp.LpProblem) (res : SolveResult),
     fst (Exec._solve_for_k self solver k log) = inr res ->
     Exec.aceito res = true ->
     let r := solver (Exec.formulate self k) in
     exists (a : Lp.assignment) (st : string),
       (forall v, In v (Py.dict_values (Exec.x_vars_of self)) ->
          Lp.sr_value r v = Some (a v)) /\
       cap_total self <> 0 /\
       let total := Lp.total a (Py.dict_values (Exec.x_vars_of self)) in
       let quociente := (inject_Z total / inject_Z (5 * cap_total self))%Q in
       let taxa := Py.round (Py.fl quociente) 3 in
       res = Solved st total taxa
               (Py.round (Lp.sr_runtime r) 2) (Lp.mkSolved (Exec.formulate self k) r)
               (Exec.x_vars_of self) /\
       (Qabs (taxa - quociente) <= (1 # 2000) + (Qabs quociente + 1) * 2 ^ (-51))%Q) /\
  (Exec.init Exemplo.layoutA Exemplo.cadA Exemplo.cfgA = inr Exemplo.execA /\
   cap_total Exemplo.execA = 8 /\
   forall (solver : Lp.Solver) (log : list Lp.LpProblem),
     let prob := Exec.formulate Exemplo.execA 2 in
     Lp.sr_status (solver prob) = Lp.LpStatusOptimal ->
     Lp.reports_solution (solver prob) prob ->
     exists res,
       fst (Exec._solve_for_k Exemplo.execA solver 2 log) = inr res /\
       Exec.outcome res = Exec.Accepted "Optimal" /\
       exists tm m xv, res = Solved "Optimal" 12 (Py.fl (3 # 10)) tm m xv) /\
  (Exec.init Exemplo.layoutW Exemplo.cadS Exemplo.cfgS = inr Exemplo.execW /\
   cap_total Exemplo.execW = 16 /\
   forall (solver : Lp.Solver) (log : list Lp.LpProblem),
     let prob := Exec.formulate Exemplo.execW 1 in
     Lp.sr_status (solver prob) = Lp.LpStatusOptimal ->
     Lp.reports_solution (solver prob) prob ->
     exists res,
       fst (Exec._solve_for_k Exemplo.execW solver 1 log) = inr res /\
       Exec.outcome res = Exec.Accepted "Optimal" /\
       exists tm m xv, res = Solved "Optimal" 1 (Py.fl (13 # 1000)) tm m xv).
Proof.
  split; [|split].
  - intros self solver k log res Hres Hac r.
    destruct (solve_for_k_accepted_inv self solver k log res Hres Hac) as (st & _ & Hm).
    destruct (metricas_inv self st _ _ res Hm) as (o & Hsum & Hcap & ->).
    unfold Py.sum in Hsum. apply sum_from_inv in Hsum.
    destruct Hsum as (a & Ha & ->). exists a, st.
    split; [assumption|]. split; [assumption|]. split; [reflexivity|].
    apply (round_quotient_near _ 3). lia.
  - split; [reflexivity|]. split; [reflexivity|].
    intros solver log prob Hst (a & Hfeas & Hval).
    assert (Hx : forall v, In v (Py.dict_values (Exec.x_vars_of Exemplo.execA)) ->
                   Lp.sr_value (solver prob) v = Some (a v)).
    { intros v Hv. apply Hval. now apply x_values_are_variables. }
    assert (Hcap : cap_total Exemplo.execA <> 0) by discriminate.
    pose proof (solve_optimal_result Exemplo.execA solver 2 log a eq_refl Hst Hx Hcap) as H.
    cbv zeta in H.
    rewrite (total_occupancy Exemplo.execA execA_nomes_nodup execA_posicoes_nodup 2 a Hfeas) in H.
    eexists. split; [exact H|]. split; [reflexivity|].
    eexists _, _, _. reflexivity.
  - split; [reflexivity|]. split; [reflexivity|].
    intros solver log prob Hst (a & Hfeas & Hval).
    assert (Hx : forall v, In v (Py.dict_values (Exec.x_vars_of Exemplo.execW)) ->
                   Lp.sr_value (solver prob) v = Some (a v)).
    { intros v Hv. apply Hval. now apply x_values_are_variables. }
    assert (Hcap : cap_total Exemplo.execW <> 0) by discriminate.
    pose proof (solve_optimal_result Exemplo.execW solver 1 log a eq_refl Hst Hx Hcap) as H.
    cbv zeta in H.
    rewrite (total_occupancy Exemplo.execW execW_nomes_nodup execW_posicoes_nodup 1 a Hfeas) in H.
    eexists. split; [exact H|]. split; [reflexivity|].
    eexists _, _, _. reflexivity.
Qed.

Lemma occupancy_metrics_rounded_witness :
  exists res,
    fst (Exec._solve_for_k Exemplo.execW Exemplo.solverS 1 []) = inr res /\
    Exec.outcome res = Exec.Accepted "Optimal" /\
    exists tm m xv, res = Solved "Optimal" 1 (Py.fl (13 # 1000)) tm m xv.
Proof.
  assert (Hrep : Lp.reports_solution
                   (Exemplo.solverS (Exec.formulate Exemplo.execW 1))
                   (Exec.formulate Exemplo.execW 1)).
  { exists Exemplo.solS. split; [exact solS_feasible_wide | reflexivity]. }
  exact (proj2 (proj2 (proj2 (proj2 occupancy_metrics_rounded)))
           Exemplo.solverS [] eq_refl Hrep).
Defined.

(** C7 as stated fails: with three seats and one person present on one
    day the total is 1 and the reported rate is the float 0.067, which
    is not 1 / (5 * 3), as a rational or as the float of that
    quotient. *)
Lemma occupancy_rate_not_exact_quotient :
  Exec.init Exemplo.layoutS Exemplo.cadS Exemplo.cfgS = inr Exemplo.execS /\
  Lp.feasible Exemplo.solS (Exec.formulate Exemplo.execS 1) /\
  exists tm m xv,
    fst (Exec._solve_for_k Exemplo.execS Exemplo.solverS 1 [])
      = inr (Solved "Optimal" 1 (Py.fl (67 # 1000)) tm m xv) /\
    ~ (Py.fl (67 # 1000) == inject_Z 1 / inject_Z (5 * cap_total Exemplo.execS))%Q /\
    ~ (Py.fl (67 # 1000) == Py.fl (inject_Z 1 / inject_Z (5 * cap_total Exemplo.execS)))%Q.
Proof.
  split; [reflexivity|]. split.
  - apply feasibleb_feasible. vm_compute. reflexivity.
  - eexists _, _, _. split; [vm_compute; reflexivity|].
    split; intros H; vm_compute in H; discriminate.
Qed.

(** ** The sweep over the scenarios *)

Lemma for_each_error {A S} (P : Py.exn -> Prop) (l : list A)
    (body : S -> A -> Py.result S) (s : S) (e : Py.exn) :
  (forall s a e, In a l -> body s a = inl e -> P e) ->
  Py.for_each l body s = inl e -> P e.
Proof.
  revert s. induction l as [|a l IH]; intros s Hb; simpl; [discriminate|].
  destruct (body s a) as [e' | s'] eqn:E; simpl.
  - intros [= <-]. apply (Hb s a e'); [now left | assumption].
  - apply IH. intros s0 a0 e0 Hin. apply Hb. now right.
Qed.

Lemma for_each_ok {A S} (l : list A) (body : S -> A -> Py.result S) (s : S) :
  (forall s a, In a l -> exists s', body s a = inr s') ->
  exists s', Py.for_each l body s = inr s'.
Proof.
  revert s. induction l as [|a l IH]; intros s Hb; simpl; [now exists s|].
  destruct (Hb s a (or_introl eq_refl)) as [s' ->]. simpl.
  apply IH. intros s0 a0 Hin. apply Hb. now right.
Qed.

(** An exception other than the one [executar] raises itself. *)
Lemma sum_from_error (l : list (option Z)) (acc : Z) (e : Py.exn) :
  Py.sum_from acc l = inl e -> e = Py.TypeError.
Proof.
  revert acc. induction l as [|[v|] l IH]; intros acc; simpl.
  - discriminate.
  - apply IH.
  - now intros [= <-].
Qed.

Lemma metricas_error (self : ExecucaoModelo) (status : string)
    (prob : Lp.LpProblem) (r : Lp.SolverResult) (e : Py.exn) :
  Exec.metricas self status prob r = inl e ->
  e = Py.TypeError \/ e = Py.ZeroDivisionError.
Proof.
  unfold Exec.metricas, Py.sum.
  destruct (Py.sum_from 0 _) as [e' | o] eqn:E; cbn [Py.bind].
  - intros [= <-]. left. exact (sum_from_error _ 0 _ E).
  - unfold Py.truediv. destruct (_ =? 0); cbn; [|discriminate].
    intros [= <-]. now right.
Qed.

Lemma solve_for_k_error (self : ExecucaoModelo) (solver : Lp.Solver) (k : Z)
    (log : list Lp.LpProblem) (e : Py.exn) :
  fst (Exec._solve_for_k self solver k log) = inl e ->
  e = Py.TypeError \/ e = Py.ZeroDivisionError.
Proof.
  unfold Exec._solve_for_k.
  destruct (Exec._upper_bound_feasible self k); cbn [negb fst]; [|discriminate].
  unfold Exec.trata_status.
  destruct (Lp.sr_status _); cbn; try discriminate; try apply metricas_error.
  destruct (existsb _ _); [apply metricas_error | discriminate].
Qed.

Lemma extract_step_error (self : ExecucaoModelo) (k : Z) (model : Lp.SolvedModel)
    (aloc : Aloc) (item : XKey * Lp.Var) (e : Py.exn) :
  Exec.extract_step self k model aloc item = inl e ->
  forall msg, e <> Py.RuntimeError msg.
Proof.
  destruct item as [[[team pos] dia] v]. unfold Exec.extract_step.
  destruct (Exec.value_is_not_1 _); [discriminate|].
  unfold Py.dict_item. destruct (Py.dict_get _ _ _) as [[mesa_id corredor]|];
    cbn [Py.bind Py.ret Py.raise]; [|intros [= <-]; discriminate].
  unfold Py.index. cbn [Z.ltb Z.compare].
  destruct (nth_error _ _) as [s|]; cbn [Py.bind Py.ret Py.raise];
    [|intros [= <-]; discriminate].
  unfold Py.int. destruct (NilZero.int_of_string s); cbn [Py.bind Py.ret Py.raise].
  - destruct (Exec.setdefault _ _). discriminate.
  - intros [= <-]. discriminate.
Qed.

Lemma registra_error (self : ExecucaoModelo) (st : Exec.Sweep) (k : Z)
    (res : SolveResult) (e : Py.exn) :
  Exec.registra self st k res = inl e ->
  Exec.aceito res = true /\ forall msg, e <> Py.RuntimeError msg.
Proof.
  unfold Exec.registra. destruct (Exec.aceito res); [|discriminate].
  destruct res as [s | s o t tm m xv].
  - intros [= <-]. split; [reflexivity | discriminate].
  - unfold Exec.registra_alocacao.
    destruct (Exec.extract self k m xv) as [e' | aloc] eqn:E; cbn; [|discriminate].
    intros [= <-]. split; [reflexivity|].
    unfold Exec.extract in E.
    apply (for_each_error (fun e => forall msg, e <> Py.RuntimeError msg)
             xv (Exec.extract_step self k m) [] e'); [|exact E].
    intros s0 a0 e0 _. apply extract_step_error.
Qed.

Lemma solve_for_k_log_irrelevant (self : ExecucaoModelo) (solver : Lp.Solver)
    (k : Z) (log log' : list Lp.LpProblem) :
  fst (Exec._solve_for_k self solver k log) = fst (Exec._solve_for_k self solver k log').
Proof.
  unfold Exec._solve_for_k. now destruct (Exec._upper_bound_feasible self k).
Qed.



Section SweepFacts.

Variable self : ExecucaoModelo.
Variable solver : Lp.Solver.

Lemma registra_viaveis (st st' : Exec.Sweep) (k : Z) (res : SolveResult) :
  Exec.registra self st k res = inr st' ->
  if Exec.aceito res
  then Exec.s_viaveis st' <> [] /\
       forall j, In j (Py.dict_keys (Exec.s_viaveis st')) ->
                 j = k \/ In j (Py.dict_keys (Exec.s_viaveis st))
  else Exec.s_viaveis st' = Exec.s_viaveis st.
Proof.
  unfold Exec.registra. destruct (Exec.aceito res).
  - destruct res as [s | s o t tm m xv]; [discriminate|].
    destruct (Exec.registra_alocacao self k m xv (Exec.s_alocacoes st)); cbn;
      [discriminate|].
    intros [= <-]. cbn [Exec.s_viaveis]. split.
    + destruct (Exec.s_viaveis st) as [|[k0 m0] rest]; simpl; [discriminate|].
      destruct (k =? k0); discriminate.
    + intros j. rewrite dict_set_keys.
      destruct (existsb _ _); [now right|].
      intros Hj. apply in_app_or in Hj. destruct Hj as [Hj | [<- | []]]; auto.
  - now intros [= <-].
Qed.

Lemma laco_inv (ks : list Z) (st : Exec.Sweep) (log : list Lp.LpProblem) :
  match fst (Exec.laco self solver ks st log) with
  | inr st' =>
      (forall j, In j (Py.dict_keys (Exec.s_viaveis st')) ->
         In j (Py.dict_keys (Exec.s_viaveis st)) \/ (In j ks /\ Exec.scenario_accepted self solver j)) /\
      ((forall j, In j ks -> Exec.scenario_rejected self solver j) ->
         Exec.s_viaveis st' = Exec.s_viaveis st) /\
      (Exec.s_viaveis st' = [] ->
         Exec.s_viaveis st = [] /\ forall j, In j ks -> Exec.scenario_rejected self solver j)
  | inl e =>
      (forall msg, e <> Py.RuntimeError msg) /\
      ~ (forall j, In j ks -> Exec.scenario_rejected self solver j)
  end.
Proof.
  revert st log. induction ks as [|k ks IH]; intros st log; simpl.
  - repeat split; auto. intros j [].
  - destruct (Exec._solve_for_k self solver k log) as [[e | res] log'] eqn:Es.
    + simpl. split.
      * pose proof (solve_for_k_error self solver k log e) as He.
        rewrite Es in He. destruct (He eq_refl) as [-> | ->]; discriminate.
      * intros Hall. destruct (Hall k (or_introl eq_refl)) as (res & Hr & _).
        unfold Exec.resultado in Hr.
        rewrite (solve_for_k_log_irrelevant self solver k [] log), Es in Hr.
        discriminate.
    + assert (Hres : Exec.resultado self solver k = inr res).
      { unfold Exec.resultado.
        now rewrite (solve_for_k_log_irrelevant self solver k [] log), Es. }
      destruct (Exec.registra self st k res) as [e | st1] eqn:Er.
      * simpl. destruct (registra_error self st k res e Er) as [Hac Hne].
        split; [assumption|]. intros Hall.
        destruct (Hall k (or_introl eq_refl)) as (res' & Hr & Hrej).
        rewrite Hres in Hr. injection Hr as <-. congruence.
      * pose proof (registra_viaveis st st1 k res Er) as Hv.
        specialize (IH st1 log').
        destruct (fst (Exec.laco self solver ks st1 log')) as [e | st'].
        -- destruct IH as [Hne Hnot]. split; [assumption|].
           intros Hall. apply Hnot. intros j Hj. apply Hall. now right.
        -- destruct IH as (HA & HB & HC).
           destruct (Exec.aceito res) eqn:Hac.
           ++ destruct Hv as [Hne Hkeys]. split; [|split].
              ** intros j Hj. destruct (HA j Hj) as [Hj1 | [Hj1 Hj2]].
                 --- destruct (Hkeys j Hj1) as [-> | Hj3]; [|now left].
                     right. split; [now left|]. now exists res.
                 --- right. split; [now right | assumption].
              ** intros Hall. destruct (Hall k (or_introl eq_refl)) as (res' & Hr & Hrej).
                 rewrite Hres in Hr. injection Hr as <-. congruence.
              ** intros Hnil. destruct (HC Hnil) as [Hnil1 _]. contradiction.
           ++ rewrite Hv in *. split; [|split].
              ** intros j Hj. destruct (HA j Hj) as [Hj1 | [Hj1 Hj2]]; [now left|].
                 right. split; [now right | assumption].
              ** intros Hall. apply HB. intros j Hj. apply Hall. now right.
              ** intros Hnil. destruct (HC Hnil) as [Hnil1 Hrej].
                 split; [assumption|]. intros j [<- | Hj]; [now exists res|].
                 now apply Hrej.
Qed.

Lemma executar_spec (log : list Lp.LpProblem) :
  let ks := dias_obrigatorios_range (cfg self) in
  ((exists msg, fst (Exec.executar self solver log) = inl (Py.RuntimeError msg))
     <-> forall k, In k ks -> Exec.scenario_rejected self solver k) /\
  (forall r, fst (Exec.executar self solver log) = inr r ->
     cenarios r <> [] /\
     forall k, In k (Py.dict_keys (cenarios r)) -> In k ks /\ Exec.scenario_accepted self solver k).
Proof.
  intros ks. unfold Exec.executar. fold ks.
  pose proof (laco_inv ks Exec.vazio log) as Hinv.
  destruct (Exec.laco self solver ks Exec.vazio log) as [[e | st] log'];
    cbn [fst] in *.
  - destruct Hinv as [Hne Hnot]. split.
    + split; [|tauto]. intros [msg [= ->]]. now destruct (Hne msg).
    + discriminate.
  - destruct Hinv as (HA & HB & HC). cbn [Exec.s_viaveis Exec.vazio] in *.
    destruct (Exec.s_viaveis st) as [|kv d] eqn:Ev; cbn [fst].
    + split.
      * split; [intros _; now apply HC | eauto].
      * discriminate.
    + split.
      * split; [intros [msg [=]] | intros Hall; now specialize (HB Hall)].
      * intros r [= <-]. cbn [cenarios]. split; [discriminate|].
        intros k Hk. destruct (HA k Hk) as [[] | H]. exact H.
Qed.

End SweepFacts.


(** ** The readable allocation *)

Section Extraction.

Variable l : LayoutConfiguration.
Variable cad : Cadastro.CadastroTimesSinergias.
Variable c : ConfiguracaoModelo.
Variable self : ExecucaoModelo.
Hypothesis Hwf : Layout.well_formed l.
Hypothesis Hinit : Exec.init l cad c = inr self.

Lemma posicoes_of_init :
  posicoes self = Exec._lista_posicoes l (Exec.mesas_table l).
Proof.
  rewrite (exec_init_well_formed cad c Hwf) in Hinit. now injection Hinit as <-.
Qed.

Lemma posicao_lookup (pos : string) :
  In pos (Py.dict_keys (posicoes self)) ->
  exists n i,
    Py.dict_item String.eqb pos (posicoes self) =
    inr (Exec.mesa_id (Exec.corredor_nome n) i, Exec.corredor_nome n).
Proof.
  intros Hpos. unfold Py.dict_item.
  destruct (Py.dict_get String.eqb pos (posicoes self)) as [[mid cor]|] eqn:E.
  - apply (dict_get_in String.eqb string_eqb_eq) in E.
    rewrite posicoes_of_init, lista_posicoes_comprehension in E.
    apply (dict_of_list_incl String.eqb string_eqb_eq) in E.
    unfold Exec.posicoes_table in E. apply in_flat_map in E.
    destruct E as ([m [cn i]] & Hm & Hp). apply in_map_iff in Hp.
    destruct Hp as (p & [= _ <- <-] & _). cbn [fst snd].
    apply mesas_table_in in Hm. destruct Hm as (n & _ & -> & ->).
    now exists n, i.
  - apply (dict_get_none String.eqb string_eqb_eq) in E. contradiction.
Qed.

Lemma x_item_position (team pos dia : string) (v : Lp.Var) :
  In ((team, pos, dia), v) (Exec.x_vars_of self) ->
  In pos (Py.dict_keys (posicoes self)).
Proof.
  intros Hin. apply (dict_of_list_incl Exec.xkey_eqb xkey_eqb_eq) in Hin.
  apply in_flat_map in Hin. destruct Hin as (t & _ & Hin).
  apply in_flat_map in Hin. destruct Hin as (p & Hp & Hin).
  apply in_map_iff in Hin. destruct Hin as (d & [= _ <- _ _] & _). exact Hp.
Qed.

Lemma extract_step_ok (k : Z) (model : Lp.SolvedModel) (aloc : Aloc)
    (item : XKey * Lp.Var) :
  In item (Exec.x_vars_of self) ->
  exists aloc', Exec.extract_step self k model aloc item = inr aloc'.
Proof.
  destruct item as [[[team pos] dia] v]. intros Hin. unfold Exec.extract_step.
  destruct (Exec.value_is_not_1 _); [now exists aloc|].
  destruct (posicao_lookup pos (x_item_position team pos dia v Hin)) as (n & i & ->).
  cbn [Py.bind]. rewrite split_mesa_id by apply corredor_nome_free.
  change (Py.index [Exec.corredor_nome n; Py.str i] 1) with (@inr Py.exn _ (Py.str i)).
  cbn [Py.bind]. rewrite int_str. cbn [Py.bind].
  destruct (Exec.setdefault _ _). eexists. reflexivity.
Qed.

Lemma extract_ok (k : Z) (model : Lp.SolvedModel) :
  exists aloc, Exec.extract self k model (Exec.x_vars_of self) = inr aloc.
Proof.
  unfold Exec.extract. apply for_each_ok. intros s a Ha. now apply extract_step_ok.
Qed.

End Extraction.

(** C8.  On the engine of a valid layout the extraction of the readable
    allocation from a solved model and its [x] variables returns a
    structure, the same one each time it runs: it starts from an empty
    structure and only reads the values.  Recording it a second time
    under its scenario leaves the recorded allocations as the first
    recording left them. *)
Theorem extraction_idempotent (l : LayoutConfiguration)
    (cad : Cadastro.CadastroTimesSinergias) (c : ConfiguracaoModelo)
    (self : ExecucaoModelo) (k : Z) (model : Lp.SolvedModel)
    (alocs : Py.dict Z Aloc) :
  Layout.well_formed l -> Exec.init l cad c = inr self ->
  let xv := Exec.x_vars_of self in
  exists aloc,
    Exec.extract self k model xv = inr aloc /\
    (forall aloc', Exec.extract self k model xv = inr aloc' -> aloc' = aloc) /\
    Exec.registra_alocacao self k model xv alocs
      = inr (Py.dict_set Z.eqb k aloc alocs) /\
    (a1 <- Exec.registra_alocacao self k model xv alocs ;;
     Exec.registra_alocacao self k model xv a1)
      = Exec.registra_alocacao self k model xv alocs.
Proof.
  intros Hwf Hinit xv.
  destruct (extract_ok l cad c self Hwf Hinit k model) as [aloc Hex].
  fold xv in Hex. exists aloc. unfold Exec.registra_alocacao. rewrite Hex.
  cbn [Py.bind Py.ret]. repeat split.
  - congruence.
  - now rewrite (dict_set_twice Z.eqb Z.eqb_eq).
Qed.

Lemma extraction_idempotent_witness :
  let model := Lp.mkSolved (Exec.formulate Exemplo.execA 2)
                 (Exemplo.solverA (Exec.formulate Exemplo.execA 2)) in
  let xv := Exec.x_vars_of Exemplo.execA in
  exists aloc,
    Exec.extract Exemplo.execA 2 model xv = inr aloc /\
    (forall aloc', Exec.extract Exemplo.execA 2 model xv = inr aloc' -> aloc' = aloc) /\
    Exec.registra_alocacao Exemplo.execA 2 model xv []
      = inr (Py.dict_set Z.eqb 2 aloc []) /\
    (a1 <- Exec.registra_alocacao Exemplo.execA 2 model xv [] ;;
     Exec.registra_alocacao Exemplo.execA 2 model xv a1)
      = Exec.registra_alocacao Exemplo.execA 2 model xv [].
Proof.
  exact (extraction_idempotent Exemplo.layoutA Exemplo.cadA Exemplo.cfgA
           Exemplo.execA 2 _ [] layoutA_well_formed eq_refl).
Defined.

(** ** The sweep on the examples *)

(** With nine people required on five days and eight seats, the only
    scenario fails the pre-check, the solver is never called, and the
    sweep raises. *)
Lemma sweep_example_all_rejected (solver : Lp.Solver) :
  Exec.init Exemplo.layoutA Exemplo.cadG Exemplo.cfgG = inr Exemplo.execG /\
  Exec.executar Exemplo.execG solver [] =
  (inl (Py.RuntimeError "Todos os cenários foram classificados como inviáveis."),
   []).
Proof. split; reflexivity. Qed.

(** In scenario A the sweep returns the scenario of two days with its
    metrics and the tables of Monday and Tuesday. *)
Lemma sweep_example_accepted :
  exists r,
    fst (Exec.executar Exemplo.execA Exemplo.solverA []) = inr r /\
    cenarios r = [(2, mkMetrics 12 (Py.fl (3 # 10)) (1 # 4))] /\
    inviaveis r = [] /\
    Py.dict_get Z.eqb 2 (alocacoes r) =
    Some [("2d | Segunda · Corredor 1",
           [mkMesa 1 "Corredor 1" ["Alpha"; "Alpha"; "Alpha"];
            mkMesa 2 "Corredor 1" ["Beta"; "Beta"; "Beta"]]);
          ("2d | Terça · Corredor 1",
           [mkMesa 1 "Corredor 1" ["Alpha"; "Alpha"; "Alpha"];
            mkMesa 2 "Corredor 1" ["Beta"; "Beta"; "Beta"]])].
Proof. eexists. split; [vm_compute; reflexivity|]. repeat split. Qed.

(* ================================================================== *)
(** * Further properties of the code *)
(* ================================================================== *)

(** ** Further consequences of the formulation *)

Lemma total_nonneg_pair {A} (f : A -> Z) (l : list A) (x y : A) :
  (forall z, In z l -> 0 <= f z) -> In x l -> In y l -> x <> y ->
  f x + f y <= fold_right Z.add 0 (map f l).
Proof.
  intros Hpos. induction l as [|z l IH]; simpl; [tauto|].
  assert (Hl : forall w, In w l -> 0 <= f w) by (intros; apply Hpos; now right).
  assert (Hz : 0 <= f z) by (apply Hpos; now left).
  assert (Hsum : 0 <= fold_right Z.add 0 (map f l)).
  { clear IH. induction l as [|w l IHl]; simpl; [lia|].
    assert (0 <= f w) by (apply Hl; now left).
    assert (0 <= fold_right Z.add 0 (map f l))
      by (apply IHl; intros; [apply Hpos | apply Hl]; simpl in *; tauto).
    lia. }
  assert (Hone : forall w, In w l -> f w <= fold_right Z.add 0 (map f l)).
  { clear IH Hsum. induction l as [|u l IHl]; simpl; [tauto|].
    intros w [<- | Hw].
    - assert (0 <= fold_right Z.add 0 (map f l)).
      { clear IHl. induction l as [|v l IHv]; simpl; [lia|].
        assert (0 <= f v) by (apply Hl; simpl; tauto).
        assert (0 <= fold_right Z.add 0 (map f l))
          by (apply IHv; intros; [apply Hpos | apply Hl]; simpl in *; tauto).
        lia. }
      lia.
    - assert (0 <= f u) by (apply Hl; now left).
      assert (f w <= fold_right Z.add 0 (map f l)).
      { apply IHl; auto; intros; [apply Hpos | apply Hl]; simpl in *; tauto. }
      lia. }
  intros [-> | Hx] [-> | Hy] Hxy.
  - contradiction.
  - specialize (Hone y Hy). lia.
  - specialize (Hone x Hx). lia.
  - specialize (IH Hl Hx Hy Hxy). lia.
Qed.

Section FormulationMore.

Variable self : ExecucaoModelo.
Variable k : Z.
Variable a : Lp.assignment.
Hypothesis Hfeasible : Lp.feasible a (Exec.formulate self k).

Lemma in_c_assento (p d : string) :
  In p (Py.dict_keys (posicoes self)) -> In d DIAS_UTEIS ->
  In (Lp.mkConstraint
        (Lp.lpSum (map (fun t => Lp.var (Lp.X (nome t) p d)) (Exec.times self)))
        Lp.LE (Lp.num 1))
     (Lp.constraints (Exec.formulate self k)).
Proof.
  intros Hp Hd. simpl. apply in_or_app; left.
  unfold Exec.c_assento. apply in_flat_map. exists p. split; [assumption|].
  apply in_map_iff. exists d. split; [reflexivity | assumption].
Qed.

Lemma in_c_mesa_soma (t : Time) (m d : string) :
  In t (Exec.times self) -> In m (Py.dict_keys (mesas self)) -> In d DIAS_UTEIS ->
  In (Lp.mkConstraint
        (Lp.lpSum (map (fun p => Lp.var (Lp.X (nome t) p d)) (Exec.pos_mesa self m)))
        Lp.LE
        (Lp.scale (positions_per_table (layout self)) (Lp.var (Lp.Y (nome t) m d))))
     (Lp.constraints (Exec.formulate self k)).
Proof.
  intros Ht Hm Hd. simpl. apply in_or_app; right. apply in_or_app; left.
  unfold Exec.c_mesa. apply in_flat_map. exists t. split; [assumption|].
  apply in_flat_map. exists m. split; [assumption|].
  apply in_flat_map. exists d. split; [assumption|]. now left.
Qed.

Lemma in_c_mesa_assento (t : Time) (m p d : string) :
  In t (Exec.times self) -> In m (Py.dict_keys (mesas self)) ->
  In p (Exec.pos_mesa self m) -> In d DIAS_UTEIS ->
  In (Lp.mkConstraint (Lp.var (Lp.X (nome t) p d)) Lp.LE (Lp.var (Lp.Y (nome t) m d)))
     (Lp.constraints (Exec.formulate self k)).
Proof.
  intros Ht Hm Hp Hd. simpl. apply in_or_app; right. apply in_or_app; left.
  unfold Exec.c_mesa. apply in_flat_map. exists t. split; [assumption|].
  apply in_flat_map. exists m. split; [assumption|].
  apply in_flat_map. exists d. split; [assumption|]. right.
  apply in_map_iff. exists p. split; [reflexivity | assumption].
Qed.

Lemma in_c_divisao (t : Time) (m1 m2 : string) (dd : Z) (d : string) :
  In t (Exec.times self) -> In ((m1, m2), dd) (dist self) -> In d DIAS_UTEIS ->
  In (Lp.mkConstraint (Lp.var (Lp.Zv (nome t) m1 m2 d)) Lp.GE
        (Lp.sub (Lp.add (Lp.var (Lp.Y (nome t) m1 d)) (Lp.var (Lp.Y (nome t) m2 d)))
                (Lp.num 1)))
     (Lp.constraints (Exec.formulate self k)).
Proof.
  intros Ht Hm Hd. simpl. do 2 (apply in_or_app; right). apply in_or_app; left.
  unfold Exec.c_divisao. apply in_flat_map. exists t. split; [assumption|].
  apply in_flat_map. exists ((m1, m2), dd). split; [assumption|].
  apply in_map_iff. exists d. split; [reflexivity | assumption].
Qed.

Lemma in_c_folga (d : string) :
  In d DIAS_UTEIS ->
  In (Lp.mkConstraint
        (Lp.lpSum (flat_map (fun t =>
           map (fun p => Lp.var (Lp.X (nome t) p d)) (Py.dict_keys (posicoes self)))
           (Exec.times self)))
        Lp.LE
        (Lp.num (cap_total self - folga_minima (cfg self))))
     (Lp.constraints (Exec.formulate self k)).
Proof.
  intros Hd. simpl. do 5 (apply in_or_app; right).
  unfold Exec.c_folga. apply in_map_iff. exists d. split; [reflexivity | assumption].
Qed.

Lemma constraint_vars_are_variables (c : Lp.LpConstraint) (v : Lp.Var) :
  In c (Lp.constraints (Exec.formulate self k)) ->
  In v (Lp.vars_of (Lp.lhs c) ++ Lp.vars_of (Lp.rhs c))%list ->
  In v (Lp.variables (Exec.formulate self k)).
Proof.
  intros Hc Hv. unfold Lp.variables. do 2 (apply in_or_app; right).
  apply in_flat_map. exists c. now split.
Qed.

Lemma x_binary (t : Time) (p d : string) :
  In t (Exec.times self) -> In p (Py.dict_keys (posicoes self)) -> In d DIAS_UTEIS ->
  a (Lp.X (nome t) p d) = 0 \/ a (Lp.X (nome t) p d) = 1.
Proof.
  intros Ht Hp Hd. destruct Hfeasible as [Hb _]. apply Hb.
  apply (constraint_vars_are_variables _ _ (in_c_assento p d Hp Hd)).
  apply in_or_app; left. cbn [Lp.lhs].
  rewrite (vars_of_lpSum_vars (fun t => Lp.X (nome t) p d)).
  now apply (in_map (fun t => Lp.X (nome t) p d)).
Qed.

Lemma seat_total (p d : string) :
  In p (Py.dict_keys (posicoes self)) -> In d DIAS_UTEIS ->
  Lp.total a (map (fun t => Lp.X (nome t) p d) (Exec.times self)) <= 1.
Proof.
  intros Hp Hd. pose proof (formulation_holds self k a Hfeasible _ (in_c_assento p d Hp Hd)) as H.
  unfold Lp.holds in H. cbn [Lp.sense Lp.lhs Lp.rhs] in H.
  now rewrite (eval_lpSum_vars a (fun t => Lp.X (nome t) p d)), eval_num in H.
Qed.

Lemma day_total (d : string) :
  In d DIAS_UTEIS ->
  Lp.total a (flat_map (fun t =>
               map (fun p => Lp.X (nome t) p d) (Py.dict_keys (posicoes self)))
               (Exec.times self))
  <= cap_total self - folga_minima (cfg self).
Proof.
  intros Hd. pose proof (formulation_holds self k a Hfeasible _ (in_c_folga d Hd)) as H.
  unfold Lp.holds in H. cbn [Lp.sense Lp.lhs Lp.rhs] in H.
  rewrite eval_num in H.
  assert (E : flat_map (fun t =>
                map (fun p => Lp.var (Lp.X (nome t) p d)) (Py.dict_keys (posicoes self)))
                (Exec.times self)
              = map (fun v => Lp.var v)
                  (flat_map (fun t =>
                     map (fun p => Lp.X (nome t) p d) (Py.dict_keys (posicoes self)))
                     (Exec.times self))).
  { clear H. induction (Exec.times self) as [|t l IH]; simpl; [reflexivity|].
    rewrite map_app, <- IH, map_map. reflexivity. }
  rewrite E, (eval_lpSum_vars a (fun v => v)), map_id in H. exact H.
Qed.

End FormulationMore.

(** X1.  Seat exclusivity: in every solution of a scenario, the teams
    seated at one seat on one day number at most one; a seat taken by a
    team is taken by no team of another name. *)
Theorem seat_exclusivity (self : ExecucaoModelo) (k : Z) (a : Lp.assignment)
    (p d : string) :
  Lp.feasible a (Exec.formulate self k) ->
  In p (Py.dict_keys (posicoes self)) -> In d DIAS_UTEIS ->
  Lp.total a (map (fun t => Lp.X (nome t) p d) (Exec.times self)) <= 1 /\
  (forall t1 t2, In t1 (Exec.times self) -> In t2 (Exec.times self) ->
     nome t1 <> nome t2 ->
     a (Lp.X (nome t1) p d) = 1 -> a (Lp.X (nome t2) p d) = 0).
Proof.
  intros Hf Hp Hd. pose proof (seat_total self k a Hf p d Hp Hd) as Hsum.
  split; [assumption|]. intros t1 t2 H1 H2 Hne Hx1.
  assert (Hpair : a (Lp.X (nome t1) p d) + a (Lp.X (nome t2) p d) <= 1).
  { eapply Z.le_trans; [|exact Hsum]. unfold Lp.total. rewrite map_map.
    apply (total_nonneg_pair (fun t => a (Lp.X (nome t) p d))); auto.
    - intros t Ht. destruct (x_binary self k a Hf t p d Ht Hp Hd); lia.
    - intros ->. now apply Hne. }
  destruct (x_binary self k a Hf t2 p d H2 Hp Hd); lia.
Qed.

Lemma seat_exclusivity_witness :
  Lp.total Exemplo.solA
    (map (fun t => Lp.X (nome t) "Corredor 1_M1_P1" "Segunda")
         (Exec.times Exemplo.execA)) <= 1.
Proof.
  assert (Hp : In "Corredor 1_M1_P1" (Py.dict_keys (posicoes Exemplo.execA)))
    by (vm_compute; auto).
  assert (Hd : In "Segunda" DIAS_UTEIS) by (simpl; auto).
  exact (proj1 (seat_exclusivity Exemplo.execA 2 Exemplo.solA _ _
                  solA_feasible Hp Hd)).
Defined.

(** X2.  Daily slack: in every solution of a scenario the seats occupied
    on a working day, over all teams, number at most the seat capacity
    less the configured minimum slack. *)
Theorem daily_occupancy_within_capacity (self : ExecucaoModelo) (k : Z)
    (a : Lp.assignment) (d : string) :
  Lp.feasible a (Exec.formulate self k) -> In d DIAS_UTEIS ->
  Lp.total a (flat_map (fun t =>
               map (fun p => Lp.X (nome t) p d) (Py.dict_keys (posicoes self)))
               (Exec.times self))
  <= cap_total self - folga_minima (cfg self).
Proof. intros Hf Hd. now apply (day_total self k a Hf). Qed.

Lemma daily_occupancy_within_capacity_witness :
  Lp.total Exemplo.solA
    (flat_map (fun t =>
       map (fun p => Lp.X (nome t) p "Terça") (Py.dict_keys (posicoes Exemplo.execA)))
       (Exec.times Exemplo.execA))
  <= cap_total Exemplo.execA - folga_minima (cfg Exemplo.execA).
Proof.
  assert (Hd : In "Terça" DIAS_UTEIS) by (simpl; auto).
  exact (daily_occupancy_within_capacity Exemplo.execA 2 Exemplo.solA _
           solA_feasible Hd).
Defined.

Lemma pos_mesa_in_posicoes (self : ExecucaoModelo) (m p : string) :
  In p (Exec.pos_mesa self m) -> In p (Py.dict_keys (posicoes self)).
Proof.
  unfold Exec.pos_mesa, Py.dict_keys. rewrite !in_map_iff.
  intros (item & <- & Hin). apply filter_In in Hin. exists item. tauto.
Qed.

(** X3.  Footprint of a team on a table: in every solution a team seated
    at a seat of a table on a day has its table indicator set for that
    table and day, the seats it takes at the table are at most the seats
    of a table, and without the indicator it takes none. *)
Theorem table_footprint (self : ExecucaoModelo) (k : Z) (a : Lp.assignment)
    (t : Time) (m d : string) :
  Lp.feasible a (Exec.formulate self k) ->
  In t (Exec.times self) -> In m (Py.dict_keys (mesas self)) -> In d DIAS_UTEIS ->
  (forall p, In p (Exec.pos_mesa self m) ->
     a (Lp.X (nome t) p d) <= a (Lp.Y (nome t) m d)) /\
  Lp.total a (map (fun p => Lp.X (nome t) p d) (Exec.pos_mesa self m))
    <= positions_per_table (layout self) * a (Lp.Y (nome t) m d) /\
  (a (Lp.Y (nome t) m d) = 0 ->
   forall p, In p (Exec.pos_mesa self m) -> a (Lp.X (nome t) p d) = 0).
Proof.
  intros Hf Ht Hm Hd.
  assert (Hle : forall p, In p (Exec.pos_mesa self m) ->
            a (Lp.X (nome t) p d) <= a (Lp.Y (nome t) m d)).
  { intros p Hp.
    pose proof (formulation_holds self k a Hf _
                  (in_c_mesa_assento self k t m p d Ht Hm Hp Hd)) as H.
    unfold Lp.holds in H. cbn [Lp.sense Lp.lhs Lp.rhs] in H.
    now rewrite !eval_var in H. }
  split; [assumption|]. split.
  - pose proof (formulation_holds self k a Hf _
                  (in_c_mesa_soma self k t m d Ht Hm Hd)) as H.
    unfold Lp.holds in H. cbn [Lp.sense Lp.lhs Lp.rhs] in H.
    now rewrite (eval_lpSum_vars a (fun p => Lp.X (nome t) p d)), eval_scale, eval_var in H.
  - intros Hy p Hp. specialize (Hle p Hp).
    destruct (x_binary self k a Hf t p d Ht (pos_mesa_in_posicoes self m p Hp) Hd); lia.
Qed.

Lemma table_footprint_witness :
  Lp.total Exemplo.solA
    (map (fun p => Lp.X "Alpha" p "Segunda")
         (Exec.pos_mesa Exemplo.execA "Corredor 1_M1"))
  <= 4 * Exemplo.solA (Lp.Y "Alpha" "Corredor 1_M1" "Segunda").
Proof.
  assert (Ht : In Exemplo.alpha (Exec.times Exemplo.execA)) by (simpl; auto).
  assert (Hm : In "Corredor 1_M1" (Py.dict_keys (mesas Exemplo.execA)))
    by (vm_compute; auto).
  assert (Hd : In "Segunda" DIAS_UTEIS) by (simpl; auto).
  exact (proj1 (proj2 (table_footprint Exemplo.execA 2 Exemplo.solA Exemplo.alpha
                         _ _ solA_feasible Ht Hm Hd))).
Defined.

(** X4.  Split detection: in every solution, a team whose table
    indicators are set on both tables of a stored pair on one day has
    the split indicator of that pair set. *)
Theorem split_detected (self : ExecucaoModelo) (k : Z) (a : Lp.assignment)
    (t : Time) (m1 m2 : string) (dd : Z) (d : string) :
  Lp.feasible a (Exec.formulate self k) ->
  In t (Exec.times self) -> In ((m1, m2), dd) (dist self) -> In d DIAS_UTEIS ->
  a (Lp.Y (nome t) m1 d) + a (Lp.Y (nome t) m2 d) - 1 <= a (Lp.Zv (nome t) m1 m2 d) /\
  (a (Lp.Y (nome t) m1 d) = 1 -> a (Lp.Y (nome t) m2 d) = 1 ->
   a (Lp.Zv (nome t) m1 m2 d) = 1).
Proof.
  intros Hf Ht Hm Hd.
  pose proof (in_c_divisao self k t m1 m2 dd d Ht Hm Hd) as Hin.
  pose proof (formulation_holds self k a Hf _ Hin) as H.
  unfold Lp.holds, Lp.sub in H. cbn [Lp.sense Lp.lhs Lp.rhs] in H.
  rewrite !eval_add, eval_scale, !eval_var, eval_num in H.
  split; [lia|]. intros H1 H2.
  assert (Hz : a (Lp.Zv (nome t) m1 m2 d) = 0 \/ a (Lp.Zv (nome t) m1 m2 d) = 1).
  { destruct Hf as [Hb _]. apply Hb.
    apply (constraint_vars_are_variables self k _ _ Hin).
    apply in_or_app; left. now left. }
  lia.
Qed.

Lemma split_detected_witness :
  Exemplo.solA (Lp.Y "Alpha" "Corredor 1_M1" "Segunda")
  + Exemplo.solA (Lp.Y "Alpha" "Corredor 1_M2" "Segunda") - 1
  <= Exemplo.solA (Lp.Zv "Alpha" "Corredor 1_M1" "Corredor 1_M2" "Segunda").
Proof.
  assert (Ht : In Exemplo.alpha (Exec.times Exemplo.execA)) by (simpl; auto).
  assert (Hm : In (("Corredor 1_M1", "Corredor 1_M2"), 1) (dist Exemplo.execA))
    by (vm_compute; auto).
  assert (Hd : In "Segunda" DIAS_UTEIS) by (simpl; auto).
  exact (proj1 (split_detected Exemplo.execA 2 Exemplo.solA Exemplo.alpha
                  _ _ _ _ solA_feasible Ht Hm Hd)).
Defined.

Lemma sum_map_le_const {A} (f : A -> Z) (c : Z) (l : list A) :
  (forall x, In x l -> f x <= c) ->
  fold_right Z.add 0 (map f l) <= Z.of_nat (List.length l) * c.
Proof.
  induction l as [|x l IH]; intros H; [simpl; lia|].
  cbn [map fold_right List.length]. rewrite Nat2Z.inj_succ.
  assert (f x <= c) by (apply H; now left).
  assert (fold_right Z.add 0 (map f l) <= Z.of_nat (List.length l) * c)
    by (apply IH; intros; apply H; now right).
  lia.
Qed.

Lemma init_posicoes_nodup (l : LayoutConfiguration)
    (cad : Cadastro.CadastroTimesSinergias) (c : ConfiguracaoModelo)
    (self : ExecucaoModelo) :
  Exec.init l cad c = inr self -> NoDup (Py.dict_keys (posicoes self)).
Proof.
  unfold Exec.init. destruct (Exec._lista_mesas l) as [e | ms]; cbn; [discriminate|].
  intros [= <-]. cbn [posicoes]. rewrite lista_posicoes_comprehension.
  apply (dict_of_list_keys_nodup String.eqb string_eqb_eq).
Qed.

Lemma init_fields (l : LayoutConfiguration)
    (cad : Cadastro.CadastroTimesSinergias) (c : ConfiguracaoModelo)
    (self : ExecucaoModelo) :
  Exec.init l cad c = inr self ->
  layout self = l /\ cad_times self = cad /\ cfg self = c /\
  cap_total self = Z.of_nat (List.length (posicoes self)) /\
  posicoes self = Exec._lista_posicoes l (mesas self) /\
  dist self = Exec._dist_mesas (mesas self).
Proof.
  unfold Exec.init. destruct (Exec._lista_mesas l) as [e | ms]; cbn; [discriminate|].
  intros [= <-]. cbn. repeat split.
Qed.

(** The seats occupied over the week, counted day by day. *)
Lemma weekly_total_by_day (self : ExecucaoModelo) (a : Lp.assignment) :
  NoDup (map nome (Exec.times self)) ->
  NoDup (Py.dict_keys (posicoes self)) ->
  Lp.total a (Py.dict_values (Exec.x_vars_of self)) =
  fold_right Z.add 0
    (map (fun d =>
            Lp.total a (flat_map (fun t =>
              map (fun p => Lp.X (nome t) p d) (Py.dict_keys (posicoes self)))
              (Exec.times self)))
         DIAS_UTEIS).
Proof.
  intros Hn Hp. rewrite (x_vars_values self Hn Hp), total_flat_map.
  rewrite (sum_map_ext_in _
             (fun t => fold_right Z.add 0
                (map (fun d => fold_right Z.add 0
                    (map (fun p => a (Lp.X (nome t) p d)) (Py.dict_keys (posicoes self))))
                   Exec.dias))).
  - rewrite (sum_swap
               (fun t d => fold_right Z.add 0
                  (map (fun p => a (Lp.X (nome t) p d)) (Py.dict_keys (posicoes self))))).
    apply sum_map_ext_in. intros d _. rewrite total_flat_map.
    apply sum_map_ext_in. intros t _. unfold Lp.total. now rewrite map_map.
  - intros t _. rewrite total_flat_map.
    rewrite (sum_map_ext_in _
               (fun p => fold_right Z.add 0
                           (map (fun d => a (Lp.X (nome t) p d)) Exec.dias)))
      by (intros p _; unfold Lp.total; now rewrite map_map).
    apply (sum_swap (fun p d => a (Lp.X (nome t) p d))).
Qed.

(** X5.  The pre-check is a necessary condition: a scenario that has a
    solution passes it, so a scenario rejected early has none.  The teams
    have distinct names and the engine is one the constructor built. *)
Theorem precheck_necessary (l : LayoutConfiguration)
    (cad : Cadastro.CadastroTimesSinergias) (c : ConfiguracaoModelo)
    (self : ExecucaoModelo) (k : Z) (a : Lp.assignment) :
  Exec.init l cad c = inr self ->
  NoDup (map nome (Exec.times self)) ->
  Lp.feasible a (Exec.formulate self k) ->
  Exec._upper_bound_feasible self k = true /\
  Exec.pessoas self * k <= 5 * (cap_total self - folga_minima (cfg self)).
Proof.
  intros Hinit Hn Hf. pose proof (init_posicoes_nodup l cad c self Hinit) as Hp.
  assert (Hle : Exec.pessoas self * k <= 5 * (cap_total self - folga_minima (cfg self))).
  { rewrite <- (total_occupancy self Hn Hp k a Hf), (weekly_total_by_day self a Hn Hp).
    change 5 with (Z.of_nat (List.length DIAS_UTEIS)).
    apply sum_map_le_const. intros d Hd. now apply (day_total self k a Hf). }
  split; [|assumption].
  unfold Exec._upper_bound_feasible, Exec.demanda_dia.
  destruct (Qle_bool _ _) eqn:E; [reflexivity|].
  apply qle_bool_false in E.
  change (inject_Z (Z.of_nat (List.length DIAS_UTEIS))) with (inject_Z 5) in E.
  apply demanda_excede in E. lia.
Qed.

Lemma precheck_necessary_witness :
  Exec._upper_bound_feasible Exemplo.execA 2 = true.
Proof.
  exact (proj1 (precheck_necessary Exemplo.layoutA Exemplo.cadA Exemplo.cfgA
                  Exemplo.execA 2 Exemplo.solA eq_refl execA_nomes_nodup
                  solA_feasible)).
Defined.

(** ** Seats, tables and corridors of the venue *)

Lemma posicao_id_inj (c1 c2 m1 m2 p1 p2 : Z) :
  Exec.posicao_id (Exec.mesa_id (Exec.corredor_nome c1) m1) p1 =
  Exec.posicao_id (Exec.mesa_id (Exec.corredor_nome c2) m2) p2 ->
  c1 = c2 /\ m1 = m2 /\ p1 = p2.
Proof.
  unfold Exec.posicao_id, Exec.mesa_id. rewrite !append_assoc_str. intros H.
  apply cut_at_first in H; try apply corredor_nome_free.
  destruct H as [Hc H]. apply corredor_nome_inj in Hc.
  cbn [String.append] in H. injection H as H.
  apply cut_at_first in H; try apply str_free.
  destruct H as [Hm [= Hp]].
  repeat split; [assumption | now apply str_inj | now apply str_inj].
Qed.

Lemma posicoes_table_keys_nodup (l : LayoutConfiguration) :
  NoDup (Py.dict_keys (Exec.posicoes_table l (Exec.mesas_table l))).
Proof.
  unfold Exec.posicoes_table. rewrite keys_flat_map. apply nodup_flat_map.
  - eapply NoDup_map_inv. apply (mesas_table_keys_nodup l).
  - intros item _. unfold Py.dict_keys. rewrite map_map.
    apply Injective_map_NoDup_in; [|apply range_nodup].
    intros x y _ _ H. cbn [fst] in H. unfold Exec.posicao_id in H.
    assert (E : String.length (fst item ++ "_P" ++ Py.str x)
                = String.length (fst item ++ "_P" ++ Py.str y)) by now rewrite H.
    clear E. revert H. generalize (fst item) as s.
    induction s as [|ch s IH]; cbn [String.append]; intros H.
    + injection H as H. now apply str_inj.
    + injection H as H. now apply IH.
  - intros [ma [ca ia]] [mb [cb ib]] y Ha Hb. unfold Py.dict_keys.
    rewrite !map_map, !in_map_iff. cbn [fst snd].
    intros (p1 & <- & _) (p2 & H & _).
    apply mesas_table_in in Ha, Hb.
    destruct Ha as (na & _ & -> & ->), Hb as (nb & _ & -> & ->).
    apply posicao_id_inj in H. destruct H as (-> & -> & _). reflexivity.
Qed.

Lemma lista_posicoes_table (l : LayoutConfiguration) :
  Exec._lista_posicoes l (Exec.mesas_table l) =
  Exec.posicoes_table l (Exec.mesas_table l).
Proof.
  rewrite lista_posicoes_comprehension.
  apply (dict_of_list_nodup String.eqb string_eqb_eq), posicoes_table_keys_nodup.
Qed.

Lemma nth_seq_all {A} (l : list A) (d : A) :
  map (fun i => nth i l d) (seq 0 (List.length l)) = l.
Proof.
  induction l as [|x l IH]; [reflexivity|].
  cbn [List.length seq map nth]. f_equal.
  rewrite <- seq_shift, map_map. exact IH.
Qed.

Lemma length_flat_map_sum {A B} (f : A -> list B) (l : list A) :
  Z.of_nat (List.length (flat_map f l)) =
  fold_right Z.add 0 (map (fun x => Z.of_nat (List.length (f x))) l).
Proof.
  induction l as [|x l IH]; [reflexivity|].
  cbn [flat_map map fold_right]. rewrite length_app, Nat2Z.inj_add, IH. reflexivity.
Qed.

Lemma mesas_table_length (l : LayoutConfiguration) :
  Layout.well_formed l ->
  Z.of_nat (List.length (Exec.mesas_table l)) =
  fold_right Z.add 0 (tables_per_corridor l).
Proof.
  intros (Hn & _ & Hlen & Hpos). unfold Exec.mesas_table.
  rewrite length_flat_map_sum. unfold Py.range at 2.
  replace (Z.to_nat (num_corridors l + 1 - 1))
    with (List.length (tables_per_corridor l)) by lia.
  rewrite map_map.
  transitivity (fold_right Z.add 0
                  (map (fun i => nth i (tables_per_corridor l) 0)
                       (seq 0 (List.length (tables_per_corridor l)))));
    [|now rewrite nth_seq_all].
  f_equal. apply map_ext_in. intros i Hi. apply in_seq in Hi.
  rewrite length_map, range_length.
  replace (Z.to_nat (1 + Z.of_nat i - 1)) with i by lia.
  assert (Hnth : 0 < nth i (tables_per_corridor l) 0).
  { rewrite Forall_forall in Hpos. apply Hpos, nth_In. lia. }
  lia.
Qed.

Lemma fold_left_add_zero (l : list Z) :
  fold_left Z.add l 0 = fold_right Z.add 0 l.
Proof. rewrite fold_left_add. lia. Qed.

Lemma posicoes_table_length (l : LayoutConfiguration) (ms : Py.dict string (string * Z)) :
  0 <= positions_per_table l ->
  Z.of_nat (List.length (Exec.posicoes_table l ms)) =
  Z.of_nat (List.length ms) * positions_per_table l.
Proof.
  intros Hp. unfold Exec.posicoes_table. rewrite length_flat_map_sum.
  rewrite (sum_map_ext_in _ (fun _ => positions_per_table l * 1)).
  - rewrite sum_map_scale. clear Hp.
    induction ms as [|x ms IH]; cbn [map fold_right List.length]; [lia|].
    rewrite Nat2Z.inj_succ. lia.
  - intros x _. rewrite length_map, range_length. lia.
Qed.

Lemma init_capacity (l : LayoutConfiguration)
    (cad : Cadastro.CadastroTimesSinergias) (c : ConfiguracaoModelo)
    (self : ExecucaoModelo) :
  Layout.well_formed l -> Exec.init l cad c = inr self ->
  cap_total self = Main.max_seats l /\
  Z.of_nat (List.length (mesas self)) = fold_left Z.add (tables_per_corridor l) 0 /\
  cap_total self = Z.of_nat (List.length (mesas self)) * positions_per_table l /\
  0 < cap_total self.
Proof.
  intros Hwf Hinit. pose proof (cap_total_positive l cad c self Hwf Hinit) as Hpos.
  rewrite (exec_init_well_formed cad c Hwf) in Hinit. injection Hinit as <-.
  cbn [cap_total mesas] in *. rewrite lista_posicoes_table in *.
  assert (Hp : 0 <= positions_per_table l) by (destruct Hwf as (_ & Hp & _); lia).
  rewrite (posicoes_table_length l _ Hp), (mesas_table_length l Hwf) in *.
  unfold Main.max_seats. rewrite fold_left_add_zero. repeat split; auto.
Qed.

(** X6.  The seat capacity of the engine of a valid layout is the number
    of tables times the seats per table, the figure the team page
    computes from the layout; the tables number the sum of the table
    counts of the corridors. *)
Theorem capacity_is_tables_times_seats (l : LayoutConfiguration)
    (cad : Cadastro.CadastroTimesSinergias) (c : ConfiguracaoModelo)
    (self : ExecucaoModelo) :
  Layout.well_formed l -> Exec.init l cad c = inr self ->
  cap_total self = Main.max_seats l /\
  Z.of_nat (List.length (mesas self)) = fold_left Z.add (tables_per_corridor l) 0 /\
  cap_total self = Z.of_nat (List.length (mesas self)) * positions_per_table l /\
  0 < cap_total self.
Proof. exact (init_capacity l cad c self). Qed.

Lemma capacity_is_tables_times_seats_witness :
  cap_total Exemplo.execA = Main.max_seats Exemplo.layoutA.
Proof.
  exact (proj1 (capacity_is_tables_times_seats Exemplo.layoutA Exemplo.cadA
                  Exemplo.cfgA Exemplo.execA layoutA_well_formed eq_refl)).
Defined.

Lemma in_posicoes_table (l : LayoutConfiguration) (c i p : Z) :
  Exec.is_table l c i -> 1 <= p <= positions_per_table l ->
  In (Exec.posicao_id (Exec.mesa_id (Exec.corredor_nome c) i) p,
      (Exec.mesa_id (Exec.corredor_nome c) i, Exec.corredor_nome c))
     (Exec.posicoes_table l (Exec.mesas_table l)).
Proof.
  intros Ht Hp. unfold Exec.posicoes_table. apply in_flat_map.
  eexists. split; [apply (in_mesas_table Ht)|].
  apply in_map_iff. exists p. split; [reflexivity | apply range_in; lia].
Qed.

Lemma filter_row (m m0 c0 : string) (ps : list Z) :
  filter (fun item : string * (string * string) => String.eqb (fst (snd item)) m)
         (map (fun p => (Exec.posicao_id m0 p, (m0, c0))) ps)
  = if String.eqb m0 m then map (fun p => (Exec.posicao_id m0 p, (m0, c0))) ps else [].
Proof.
  induction ps as [|p ps IH]; cbn [map filter fst snd].
  - now destruct (String.eqb m0 m).
  - rewrite IH. now destruct (String.eqb m0 m).
Qed.

Lemma pos_mesa_of_table (l : LayoutConfiguration) (ms : Py.dict string (string * Z))
    (m : string) (v : string * Z) :
  NoDup (Py.dict_keys ms) -> In (m, v) ms ->
  map fst (filter (fun item : string * (string * string) =>
                     String.eqb (fst (snd item)) m)
                  (Exec.posicoes_table l ms))
  = map (Exec.posicao_id m) (Py.range 1 (positions_per_table l + 1)).
Proof.
  unfold Exec.posicoes_table.
  induction ms as [|[m0 v0] ms IH]; intros Hnd Hin; [destruct Hin|].
  cbn [flat_map fst snd]. rewrite filter_app, map_app, filter_row.
  inversion Hnd as [|? ? Hni Hnd']; subst.
  destruct Hin as [[= -> ->] | Hin].
  - rewrite String.eqb_refl, map_map. cbn [fst].
    assert (E : filter (fun item : string * (string * string) =>
                          String.eqb (fst (snd item)) m)
                  (flat_map (fun item : string * (string * Z) =>
                     map (fun p => (Exec.posicao_id (fst item) p, (fst item, fst (snd item))))
                         (Py.range 1 (positions_per_table l + 1))) ms) = []).
    { clear IH Hnd Hnd'. induction ms as [|[m1 v1] ms IH1]; [reflexivity|].
      cbn [flat_map fst snd]. rewrite filter_app, filter_row.
      destruct (String.eqb_spec m1 m) as [-> | _].
      - exfalso. apply Hni. now left.
      - apply IH1. intros H. apply Hni. now right. }
    rewrite E. cbn [map]. now rewrite app_nil_r.
  - destruct (String.eqb_spec m0 m) as [-> | _].
    + exfalso. apply Hni. change m with (fst (m, v)). now apply in_map.
    + cbn [map app]. now apply IH.
Qed.

(** X7.  Every seat belongs to one table and every table to one
    corridor: on the engine of a valid layout the identifier of table
    [i] of corridor [c] looks up that corridor and index, the identifier
    of its seat [p] looks up that table and corridor, and the seats of
    the table, as the formulation lists them, are its seats 1 to the
    number of positions per table, in order. *)
Theorem venue_lookup (l : LayoutConfiguration)
    (cad : Cadastro.CadastroTimesSinergias) (cf : ConfiguracaoModelo)
    (self : ExecucaoModelo) (c i p : Z) :
  Layout.well_formed l -> Exec.init l cad cf = inr self ->
  Exec.is_table l c i -> 1 <= p <= positions_per_table l ->
  let cor := Exec.corredor_nome c in
  let m := Exec.mesa_id cor i in
  Py.dict_get String.eqb m (mesas self) = Some (cor, i) /\
  Py.dict_get String.eqb (Exec.posicao_id m p) (posicoes self) = Some (m, cor) /\
  Exec.pos_mesa self m =
    map (Exec.posicao_id m) (Py.range 1 (positions_per_table l + 1)).
Proof.
  intros Hwf Hinit Ht Hp cor m.
  rewrite (exec_init_well_formed cad cf Hwf) in Hinit. injection Hinit as <-.
  unfold Exec.pos_mesa. cbn [mesas posicoes]. rewrite lista_posicoes_table.
  split; [|split].
  - apply (dict_in_get String.eqb string_eqb_eq); [apply mesas_table_keys_nodup|].
    now apply in_mesas_table.
  - apply (dict_in_get String.eqb string_eqb_eq); [apply posicoes_table_keys_nodup|].
    now apply in_posicoes_table.
  - apply (pos_mesa_of_table l _ m (cor, i)); [apply mesas_table_keys_nodup|].
    now apply in_mesas_table.
Qed.

Lemma venue_lookup_witness :
  Py.dict_get String.eqb "Corredor 1_M2" (mesas Exemplo.execA) = Some ("Corredor 1", 2) /\
  Py.dict_get String.eqb "Corredor 1_M2_P3" (posicoes Exemplo.execA)
    = Some ("Corredor 1_M2", "Corredor 1").
Proof.
  assert (Ht : Exec.is_table Exemplo.layoutA 1 2) by (unfold Exec.is_table; simpl; lia).
  assert (Hp : 1 <= 3 <= positions_per_table Exemplo.layoutA) by (simpl; lia).
  pose proof (venue_lookup Exemplo.layoutA Exemplo.cadA Exemplo.cfgA Exemplo.execA
                1 2 3 layoutA_well_formed eq_refl Ht Hp) as H.
  split; [exact (proj1 H) | exact (proj1 (proj2 H))].
Defined.

(** ** What the sweep records *)

Lemma dict_set_keys_in {K V} (eqb : K -> K -> bool)
    (eqb_eq : forall a b, eqb a b = true <-> a = b)
    (k j : K) (v : V) (d : Py.dict K V) :
  In j (Py.dict_keys (Py.dict_set eqb k v d)) <-> j = k \/ In j (Py.dict_keys d).
Proof.
  rewrite dict_set_keys. destruct (existsb (eqb k) (Py.dict_keys d)) eqn:E.
  - split; [tauto|]. intros [-> | H]; [|assumption].
    apply existsb_exists in E. destruct E as (x & Hx & Hkx).
    apply eqb_eq in Hkx. now subst.
  - rewrite in_app_iff. simpl. intuition.
Qed.

Lemma dict_set_keys_same {K V W} (eqb : K -> K -> bool) (k : K) (v : V) (w : W)
    (d1 : Py.dict K V) (d2 : Py.dict K W) :
  Py.dict_keys d1 = Py.dict_keys d2 ->
  Py.dict_keys (Py.dict_set eqb k v d1) = Py.dict_keys (Py.dict_set eqb k w d2).
Proof. intros H. rewrite !dict_set_keys, H. reflexivity. Qed.

Lemma dict_set_get {K V} (eqb : K -> K -> bool)
    (eqb_eq : forall a b, eqb a b = true <-> a = b)
    (k j : K) (v : V) (d : Py.dict K V) :
  Py.dict_get eqb j (Py.dict_set eqb k v d) =
  if eqb j k then Some v else Py.dict_get eqb j d.
Proof.
  induction d as [|[k' v'] d IH]; simpl.
  - reflexivity.
  - destruct (eqb k k') eqn:E; simpl.
    + apply eqb_eq in E. subst k'. now destruct (eqb j k).
    + rewrite IH. destruct (eqb j k') eqn:E1; [|reflexivity].
      destruct (eqb j k) eqn:E2; [|reflexivity].
      apply eqb_eq in E1, E2. subst. rewrite (proj2 (eqb_eq k' k') eq_refl) in E.
      discriminate.
Qed.

Lemma solve_for_k_log (self : ExecucaoModelo) (solver : Lp.Solver) (k : Z)
    (log : list Lp.LpProblem) :
  snd (Exec._solve_for_k self solver k log) =
  if Exec._upper_bound_feasible self k
  then (log ++ [Exec.formulate self k])%list else log.
Proof.
  unfold Exec._solve_for_k. now destruct (Exec._upper_bound_feasible self k).
Qed.

Section SweepRecords.

Variable self : ExecucaoModelo.
Variable solver : Lp.Solver.

Lemma laco_log (ks : list Z) (st : Exec.Sweep) (log : list Lp.LpProblem) :
  (exists st', fst (Exec.laco self solver ks st log) = inr st') ->
  snd (Exec.laco self solver ks st log) =
  (log ++ map (Exec.formulate self) (filter (Exec._upper_bound_feasible self) ks))%list.
Proof.
  revert st log. induction ks as [|k ks IH]; intros st log; simpl.
  - intros _. now rewrite app_nil_r.
  - pose proof (solve_for_k_log self solver k log) as Hlog.
    destruct (Exec._solve_for_k self solver k log) as [[e | res] log'];
      cbn [fst snd] in *; [intros [st' H]; discriminate|].
    destruct (Exec.registra self st k res) as [e | st1];
      cbn [fst snd]; [intros [st' H]; discriminate|].
    intros H. rewrite (IH st1 log' H), Hlog.
    destruct (Exec._upper_bound_feasible self k); [|reflexivity].
    cbn [map]. now rewrite <- app_assoc.
Qed.

Lemma executar_laco (log : list Lp.LpProblem) :
  (exists r, fst (Exec.executar self solver log) = inr r) \/
  (exists msg, fst (Exec.executar self solver log) = inl (Py.RuntimeError msg)) ->
  (exists st', fst (Exec.laco self solver (dias_obrigatorios_range (cfg self))
                      Exec.vazio log) = inr st') /\
  snd (Exec.executar self solver log) =
  snd (Exec.laco self solver (dias_obrigatorios_range (cfg self)) Exec.vazio log).
Proof.
  unfold Exec.executar.
  pose proof (laco_inv self solver (dias_obrigatorios_range (cfg self)) Exec.vazio log)
    as Hinv.
  destruct (Exec.laco self solver _ Exec.vazio log) as [[e | st] log']; cbn [fst snd] in *.
  - destruct Hinv as [Hne _]. intros [[r H] | [msg H]]; [discriminate|].
    injection H as ->. now destruct (Hne msg).
  - intros _. split; [eauto|]. now destruct (Exec.s_viaveis st).
Qed.

Lemma registra_cases (st st1 : Exec.Sweep) (k : Z) (res : SolveResult) :
  Exec.registra self st k res = inr st1 ->
  (Exec.aceito res = true /\
   exists s o t tm m xv aloc,
     res = Solved s o t tm m xv /\
     Exec.s_viaveis st1 = Py.dict_set Z.eqb k (mkMetrics o t tm) (Exec.s_viaveis st) /\
     Exec.s_inviaveis st1 = Exec.s_inviaveis st /\
     Exec.s_alocacoes st1 = Py.dict_set Z.eqb k aloc (Exec.s_alocacoes st) /\
     Exec.s_model_dict st1 = Py.dict_set Z.eqb k m (Exec.s_model_dict st) /\
     Exec.s_var_dict st1 = Py.dict_set Z.eqb k xv (Exec.s_var_dict st)) \/
  (Exec.aceito res = false /\
   Exec.s_viaveis st1 = Exec.s_viaveis st /\
   Exec.s_inviaveis st1 =
     Py.dict_set Z.eqb k (Exec.status_of res) (Exec.s_inviaveis st) /\
   Exec.s_alocacoes st1 = Exec.s_alocacoes st /\
   Exec.s_model_dict st1 = Exec.s_model_dict st /\
   Exec.s_var_dict st1 = Exec.s_var_dict st).
Proof.
  unfold Exec.registra. destruct (Exec.aceito res).
  - destruct res as [s | s o t tm m xv]; [discriminate|].
    unfold Exec.registra_alocacao.
    destruct (Exec.extract self k m xv) as [e | aloc]; cbn; [discriminate|].
    intros [= <-]. left. split; [reflexivity|].
    exists s, o, t, tm, m, xv, aloc. cbn. repeat split.
  - intros [= <-]. right. cbn. repeat split.
Qed.

Lemma laco_records (ks : list Z) (st st' : Exec.Sweep) (log : list Lp.LpProblem) :
  fst (Exec.laco self solver ks st log) = inr st' ->
  (forall j, In j (Py.dict_keys (Exec.s_viaveis st')) <->
     In j (Py.dict_keys (Exec.s_viaveis st)) \/
     (In j ks /\ Exec.scenario_accepted self solver j)) /\
  (forall j, In j (Py.dict_keys (Exec.s_inviaveis st')) <->
     In j (Py.dict_keys (Exec.s_inviaveis st)) \/
     (In j ks /\ Exec.scenario_rejected self solver j)) /\
  (forall j, In j ks ->
     Exec.scenario_accepted self solver j \/ Exec.scenario_rejected self solver j) /\
  (Py.dict_keys (Exec.s_alocacoes st) = Py.dict_keys (Exec.s_viaveis st) ->
   Py.dict_keys (Exec.s_alocacoes st') = Py.dict_keys (Exec.s_viaveis st')) /\
  (Py.dict_keys (Exec.s_model_dict st) = Py.dict_keys (Exec.s_viaveis st) ->
   Py.dict_keys (Exec.s_model_dict st') = Py.dict_keys (Exec.s_viaveis st')) /\
  (Py.dict_keys (Exec.s_var_dict st) = Py.dict_keys (Exec.s_viaveis st) ->
   Py.dict_keys (Exec.s_var_dict st') = Py.dict_keys (Exec.s_viaveis st')) /\
  (forall j s, Py.dict_get Z.eqb j (Exec.s_inviaveis st') = Some s ->
     Py.dict_get Z.eqb j (Exec.s_inviaveis st) = Some s \/
     exists res, Exec.resultado self solver j = inr res /\
                 Exec.aceito res = false /\ Exec.status_of res = s) /\
  (forall j m, Py.dict_get Z.eqb j (Exec.s_viaveis st') = Some m ->
     Py.dict_get Z.eqb j (Exec.s_viaveis st) = Some m \/
     exists s o t tm md xv,
       Exec.resultado self solver j = inr (Solved s o t tm md xv) /\
       m = mkMetrics o t tm).
Proof.
  revert st log. induction ks as [|k ks IH]; intros st log; simpl.
  - intros [= <-]. repeat split; try tauto; auto.
  - destruct (Exec._solve_for_k self solver k log) as [[e | res] log'] eqn:Es;
      [discriminate|].
    assert (Hres : Exec.resultado self solver k = inr res).
    { unfold Exec.resultado.
      now rewrite (solve_for_k_log_irrelevant self solver k [] log), Es. }
    destruct (Exec.registra self st k res) as [e | st1] eqn:Er; [discriminate|].
    intros Hl. destruct (IH st1 log' Hl) as (K1 & K2 & K0 & K3 & K4 & K5 & K6 & K7).
    clear IH.
    destruct (registra_cases st st1 k res Er)
      as [(Hac & s & o & t & tm & m & xv & aloc & -> & Ev & Ei & Ea & Em & Ex)
         | (Hac & Ev & Ei & Ea & Em & Ex)].
    + assert (Hk : Exec.scenario_accepted self solver k) by (eexists; eauto).
      rewrite Ev, Ei, Ea, Em, Ex in *. split; [|split; [|split; [|split; [|split; [|split; [|split]]]]]].
      * intros j. rewrite K1, (dict_set_keys_in Z.eqb Z.eqb_eq).
        split.
        -- intros [[-> | H] | [H1 H2]]; auto.
        -- intros [H | [[<- | H1] H2]]; auto.
      * intros j. rewrite K2. split.
        -- intros [H | [H1 H2]]; auto.
        -- intros [H | [[<- | H1] H2]]; auto.
           destruct Hk as (r1 & Hr1 & Ha1), H2 as (r2 & Hr2 & Ha2). congruence.
      * intros j [<- | Hj]; auto.
      * intros H. apply K3. now apply dict_set_keys_same.
      * intros H. apply K4. now apply dict_set_keys_same.
      * intros H. apply K5. now apply dict_set_keys_same.
      * intros j s0 H. destruct (K6 j s0 H) as [H1 | H1]; auto.
      * intros j m0 H. destruct (K7 j m0 H) as [H1 | H1]; auto.
        rewrite (dict_set_get Z.eqb Z.eqb_eq) in H1.
        destruct (Z.eqb_spec j k) as [-> | _]; auto.
        injection H1 as <-. right. exists s, o, t, tm, m, xv. auto.
    + assert (Hk : Exec.scenario_rejected self solver k) by (eexists; eauto).
      rewrite Ev, Ei, Ea, Em, Ex in *. split; [|split; [|split; [|split; [|split; [|split; [|split]]]]]].
      * intros j. rewrite K1. split.
        -- intros [H | [H1 H2]]; auto.
        -- intros [H | [[<- | H1] H2]]; auto.
           destruct Hk as (r1 & Hr1 & Ha1), H2 as (r2 & Hr2 & Ha2). congruence.
      * intros j. rewrite K2, (dict_set_keys_in Z.eqb Z.eqb_eq). split.
        -- intros [[-> | H] | [H1 H2]]; auto.
        -- intros [H | [[<- | H1] H2]]; auto.
      * intros j [<- | Hj]; auto.
      * assumption.
      * assumption.
      * assumption.
      * intros j s0 H. destruct (K6 j s0 H) as [H1 | H1]; auto.
        rewrite (dict_set_get Z.eqb Z.eqb_eq) in H1.
        destruct (Z.eqb_spec j k) as [-> | _]; auto.
        injection H1 as <-. right. exists res. auto.
      * intros j m0 H. destruct (K7 j m0 H) as [H1 | H1]; auto.
Qed.

End SweepRecords.

Lemma executar_records (self : ExecucaoModelo) (solver : Lp.Solver)
    (log : list Lp.LpProblem) (r : SweepResult) :
  fst (Exec.executar self solver log) = inr r ->
  let ks := dias_obrigatorios_range (cfg self) in
  (forall k, In k (Py.dict_keys (cenarios r)) <->
     In k ks /\ Exec.scenario_accepted self solver k) /\
  (forall k, In k (Py.dict_keys (inviaveis r)) <->
     In k ks /\ Exec.scenario_rejected self solver k) /\
  (forall k, In k ks ->
     In k (Py.dict_keys (cenarios r)) \/ In k (Py.dict_keys (inviaveis r))) /\
  (forall k, In k (Py.dict_keys (cenarios r)) ->
     In k (Py.dict_keys (inviaveis r)) -> False) /\
  Py.dict_keys (alocacoes r) = Py.dict_keys (cenarios r) /\
  Py.dict_keys (model_dict r) = Py.dict_keys (cenarios r) /\
  Py.dict_keys (vars_dict r) = Py.dict_keys (cenarios r) /\
  (forall k s, Py.dict_get Z.eqb k (inviaveis r) = Some s ->
     exists res, Exec.resultado self solver k = inr res /\
                 Exec.aceito res = false /\ Exec.status_of res = s) /\
  (forall k m, Py.dict_get Z.eqb k (cenarios r) = Some m ->
     exists s o t tm md xv,
       Exec.resultado self solver k = inr (Solved s o t tm md xv) /\
       m = mkMetrics o t tm).
Proof.
  intros Hr ks. unfold Exec.executar in Hr. fold ks in Hr.
  pose proof (laco_records self solver ks Exec.vazio) as Hrec.
  destruct (Exec.laco self solver ks Exec.vazio log) as [[e | st] log'] eqn:El;
    cbn [fst] in Hr; [discriminate|].
  specialize (Hrec st log). rewrite El in Hrec.
  destruct (Hrec eq_refl) as (K1 & K2 & K0 & K3 & K4 & K5 & K6 & K7). clear Hrec.
  destruct (Exec.s_viaveis st) as [|kv d] eqn:Ev; cbn [fst] in Hr; [discriminate|].
  injection Hr as <-. cbn [cenarios inviaveis alocacoes model_dict vars_dict].
  cbn [Exec.vazio Exec.s_viaveis Exec.s_inviaveis Exec.s_alocacoes
       Exec.s_model_dict Exec.s_var_dict Py.dict_keys map Py.dict_get] in *.
  assert (A1 : forall k, In k (Py.dict_keys (kv :: d)) <->
                 In k ks /\ Exec.scenario_accepted self solver k).
  { intros k. rewrite K1. simpl. tauto. }
  assert (A2 : forall k, In k (Py.dict_keys (Exec.s_inviaveis st)) <->
                 In k ks /\ Exec.scenario_rejected self solver k).
  { intros k. rewrite K2. simpl. tauto. }
  split; [exact A1|]. split; [exact A2|]. split; [|split].
  - intros k Hk. destruct (K0 k Hk); [left; apply A1 | right; apply A2]; auto.
  - intros k H1 H2. apply A1 in H1. apply A2 in H2.
    destruct H1 as [_ (r1 & Hr1 & Ha1)], H2 as [_ (r2 & Hr2 & Ha2)]. congruence.
  - split; [now apply K3|]. split; [now apply K4|]. split; [now apply K5|]. split.
    + intros k s H. destruct (K6 k s H) as [H1 | H1]; [discriminate | assumption].
    + intros k m H. destruct (K7 k m H) as [H1 | H1]; [discriminate | assumption].
Qed.

Lemma laco_nodup (self : ExecucaoModelo) (solver : Lp.Solver) (ks : list Z)
    (st st' : Exec.Sweep) (log : list Lp.LpProblem) :
  fst (Exec.laco self solver ks st log) = inr st' ->
  NoDup (Py.dict_keys (Exec.s_viaveis st)) ->
  NoDup (Py.dict_keys (Exec.s_viaveis st')).
Proof.
  revert st log. induction ks as [|k ks IH]; intros st log; simpl.
  - now intros [= <-].
  - destruct (Exec._solve_for_k self solver k log) as [[e | res] log'];
      [discriminate|].
    destruct (Exec.registra self st k res) as [e | st1] eqn:Er; [discriminate|].
    intros Hl Hnd. apply (IH st1 log' Hl).
    destruct (registra_cases self st st1 k res Er)
      as [(_ & s & o & t & tm & m & xv & aloc & _ & Ev & _) | (_ & Ev & _)];
      rewrite Ev; [now apply (dict_set_nodup Z.eqb Z.eqb_eq) | assumption].
Qed.

Lemma executar_nodup (self : ExecucaoModelo) (solver : Lp.Solver)
    (log : list Lp.LpProblem) (r : SweepResult) :
  fst (Exec.executar self solver log) = inr r ->
  NoDup (Py.dict_keys (cenarios r)).
Proof.
  intros Hr. unfold Exec.executar in Hr.
  pose proof (laco_nodup self solver (dias_obrigatorios_range (cfg self)) Exec.vazio)
    as Hnd.
  destruct (Exec.laco self solver _ Exec.vazio log) as [[e | st] log'] eqn:El;
    cbn [fst] in Hr; [discriminate|].
  specialize (Hnd st log). rewrite El in Hnd. specialize (Hnd eq_refl (NoDup_nil _)).
  destruct (Exec.s_viaveis st) as [|kv d] eqn:Ev; cbn [fst] in Hr; [discriminate|].
  now injection Hr as <-.
Qed.

(** X8.  What a completed sweep records: the accepted scenarios are the
    keys of the metrics, of the allocations, of the solved models and of
    the variable maps; the rejected ones are the keys of the rejections,
    each with the status text of its result; every configured scenario
    is in exactly one of the two groups. *)
Theorem sweep_records_every_scenario (self : ExecucaoModelo) (solver : Lp.Solver)
    (log : list Lp.LpProblem) (r : SweepResult) :
  fst (Exec.executar self solver log) = inr r ->
  let ks := dias_obrigatorios_range (cfg self) in
  (forall k, In k (Py.dict_keys (cenarios r)) <->
     In k ks /\ Exec.scenario_accepted self solver k) /\
  (forall k, In k (Py.dict_keys (inviaveis r)) <->
     In k ks /\ Exec.scenario_rejected self solver k) /\
  (forall k, In k ks ->
     In k (Py.dict_keys (cenarios r)) \/ In k (Py.dict_keys (inviaveis r))) /\
  (forall k, In k (Py.dict_keys (cenarios r)) ->
     In k (Py.dict_keys (inviaveis r)) -> False) /\
  Py.dict_keys (alocacoes r) = Py.dict_keys (cenarios r) /\
  Py.dict_keys (model_dict r) = Py.dict_keys (cenarios r) /\
  Py.dict_keys (vars_dict r) = Py.dict_keys (cenarios r) /\
  (forall k s, Py.dict_get Z.eqb k (inviaveis r) = Some s ->
     exists res, Exec.resultado self solver k = inr res /\
                 Exec.aceito res = false /\ Exec.status_of res = s) /\
  (forall k m, Py.dict_get Z.eqb k (cenarios r) = Some m ->
     exists s o t tm md xv,
       Exec.resultado self solver k = inr (Solved s o t tm md xv) /\
       m = mkMetrics o t tm).
Proof. exact (executar_records self solver log r). Qed.

Lemma sweep_records_every_scenario_witness :
  exists r,
    fst (Exec.executar Exemplo.execA Exemplo.solverA []) = inr r /\
    Py.dict_keys (alocacoes r) = Py.dict_keys (cenarios r).
Proof.
  destruct sweep_example_accepted as (r & Hr & _).
  exists r. split; [exact Hr|].
  exact (proj1 (proj2 (proj2 (proj2 (proj2
           (sweep_records_every_scenario Exemplo.execA Exemplo.solverA [] r Hr)))))).
Defined.

(** X9.  Whenever the sweep runs through all the scenarios, returning or
    raising its own error, the problems handed to the solver are those
    of the scenarios that pass the pre-check, one call each, in the order
    of the configured list; no call is made for a scenario rejected
    early. *)
Theorem solver_called_once_per_passing_scenario (self : ExecucaoModelo)
    (solver : Lp.Solver) (log : list Lp.LpProblem) :
  (exists r, fst (Exec.executar self solver log) = inr r) \/
  (exists msg, fst (Exec.executar self solver log) = inl (Py.RuntimeError msg)) ->
  snd (Exec.executar self solver log) =
  (log ++ map (Exec.formulate self)
            (filter (Exec._upper_bound_feasible self)
                    (dias_obrigatorios_range (cfg self))))%list.
Proof.
  intros H. destruct (executar_laco self solver log H) as [Hst ->].
  now apply laco_log.
Qed.

Lemma solver_called_once_per_passing_scenario_witness :
  snd (Exec.executar Exemplo.execA Exemplo.solverA []) =
  [Exec.formulate Exemplo.execA 2].
Proof.
  assert (H : (exists r, fst (Exec.executar Exemplo.execA Exemplo.solverA []) = inr r) \/
              (exists msg, fst (Exec.executar Exemplo.execA Exemplo.solverA [])
                           = inl (Py.RuntimeError msg))).
  { left. destruct sweep_example_accepted as (r & Hr & _). now exists r. }
  exact (solver_called_once_per_passing_scenario Exemplo.execA Exemplo.solverA [] H).
Defined.

(** ** What the readable allocation lists *)

Lemma for_each_measure {A S} (mu : S -> Z) (w : A -> Z) (l : list A)
    (body : S -> A -> Py.result S) (s s' : S) :
  (forall s a s', In a l -> body s a = inr s' -> mu s' = mu s + w a) ->
  Py.for_each l body s = inr s' ->
  mu s' = mu s + fold_right Z.add 0 (map w l).
Proof.
  revert s. induction l as [|a l IH]; intros s Hb; simpl.
  - intros [= <-]. lia.
  - destruct (body s a) as [e | s1] eqn:E; simpl; [discriminate|].
    intros H. rewrite (IH s1); [|intros; eapply Hb; eauto; now right | exact H].
    rewrite (Hb s a s1 (or_introl eq_refl) E). lia.
Qed.

Lemma for_each_invariant {A S} (P : S -> Prop) (l : list A)
    (body : S -> A -> Py.result S) (s s' : S) :
  (forall s a s', In a l -> P s -> body s a = inr s' -> P s') ->
  P s -> Py.for_each l body s = inr s' -> P s'.
Proof.
  revert s. induction l as [|a l IH]; intros s Hb Hs; simpl.
  - now intros [= <-].
  - destruct (body s a) as [e | s1] eqn:E; simpl; [discriminate|].
    apply IH; [intros; eapply Hb; eauto; now right|].
    eapply Hb; eauto. now left.
Qed.

Lemma entradas_lista_app (l1 l2 : list MesaDict) :
  Leitura.entradas_lista (l1 ++ l2)%list =
  Leitura.entradas_lista l1 + Leitura.entradas_lista l2.
Proof.
  unfold Leitura.entradas_lista. induction l1 as [|m l1 IH]; [reflexivity|].
  cbn [app map fold_right]. rewrite IH. lia.
Qed.

Lemma entradas_app (a1 a2 : Aloc) :
  Leitura.entradas (a1 ++ a2)%list = Leitura.entradas a1 + Leitura.entradas a2.
Proof.
  unfold Leitura.entradas. induction a1 as [|kv a1 IH]; [reflexivity|].
  cbn [app map fold_right]. rewrite IH. lia.
Qed.

Lemma append_team_found (n : Z) (team : string) (lst : list MesaDict) :
  Exec.find_mesa n lst <> None ->
  Leitura.entradas_lista (Exec.append_team n team lst) =
  Leitura.entradas_lista lst + 1.
Proof.
  unfold Exec.find_mesa, Leitura.entradas_lista.
  induction lst as [|m lst IH]; simpl; [congruence|].
  destruct (mesa m =? n); simpl.
  - intros _. rewrite length_app. simpl. lia.
  - intros H. rewrite (IH H). lia.
Qed.

Lemma append_team_mesas (n : Z) (team : string) (lst : list MesaDict) :
  map mesa (Exec.append_team n team lst) = map mesa lst.
Proof.
  induction lst as [|m lst IH]; simpl; [reflexivity|].
  destruct (mesa m =? n); simpl; [reflexivity | now rewrite IH].
Qed.

Lemma find_mesa_none (n : Z) (lst : list MesaDict) :
  Exec.find_mesa n lst = None <-> ~ In n (map mesa lst).
Proof.
  unfold Exec.find_mesa. induction lst as [|m lst IH]; simpl; [tauto|].
  destruct (Z.eqb_spec (mesa m) n) as [E | E].
  - split; [discriminate | tauto].
  - rewrite IH. tauto.
Qed.

Lemma find_mesa_new (n : Z) (c : string) (lst : list MesaDict) :
  Exec.find_mesa n (lst ++ [mkMesa n c []])%list <> None.
Proof.
  intros H. apply find_mesa_none in H. apply H.
  rewrite map_app. apply in_or_app. right. now left.
Qed.

Lemma append_team_lists_team (n : Z) (team : string) (lst : list MesaDict) :
  NoDup (map mesa lst) ->
  Forall (fun m => mesa m <> n -> md_posicoes m <> []) lst ->
  Forall (fun m => md_posicoes m <> []) (Exec.append_team n team lst) \/
  ~ In n (map mesa lst).
Proof.
  induction lst as [|m lst IH]; intros Hnd H; simpl; [now right|].
  inversion H as [|? ? Hm Hl]; subst. inversion Hnd as [|? ? Hni Hnd']; subst.
  destruct (Z.eqb_spec (mesa m) n) as [E | E].
  - left. constructor.
    + simpl. now destruct (md_posicoes m).
    + rewrite Forall_forall in *. intros x Hx. apply Hl; [assumption|].
      intros Hxn. apply Hni. rewrite E, <- Hxn. now apply in_map.
  - destruct (IH Hnd' Hl) as [IH1 | IH1]; [left | right].
    + constructor; auto.
    + simpl. tauto.
Qed.

Lemma setdefault_spec (chave : string) (aloc aloc1 : Aloc) (lst : list MesaDict) :
  Exec.setdefault chave aloc = (aloc1, lst) ->
  Py.dict_get String.eqb chave aloc1 = Some lst /\
  Leitura.entradas aloc1 = Leitura.entradas aloc /\
  ((aloc1 = aloc /\ In (chave, lst) aloc) \/
   (lst = [] /\ aloc1 = (aloc ++ [(chave, [])])%list /\
    ~ In chave (Py.dict_keys aloc))).
Proof.
  unfold Exec.setdefault.
  destruct (Py.dict_get String.eqb chave aloc) as [l0|] eqn:E.
  - intros [= <- <-]. repeat split; auto. left. split; [reflexivity|].
    now apply (dict_get_in String.eqb string_eqb_eq).
  - intros [= <- <-].
    apply (dict_get_none String.eqb string_eqb_eq) in E.
    rewrite (dict_set_keys_new String.eqb string_eqb_eq _ _ _ E).
    split; [|split].
    + rewrite <- (dict_set_keys_new String.eqb string_eqb_eq _ _ _ E).
      apply (dict_set_get_same String.eqb string_eqb_eq).
    + rewrite entradas_app. unfold Leitura.entradas, Leitura.entradas_lista. simpl. lia.
    + right. auto.
Qed.

Lemma dict_set_entradas (chave : string) (lst L : list MesaDict) (d : Aloc) :
  Py.dict_get String.eqb chave d = Some lst ->
  Leitura.entradas (Py.dict_set String.eqb chave L d) + Leitura.entradas_lista lst
  = Leitura.entradas d + Leitura.entradas_lista L.
Proof.
  unfold Leitura.entradas. induction d as [|[k0 v0] d IH]; simpl; [discriminate|].
  destruct (String.eqb chave k0); simpl.
  - intros [= ->]. lia.
  - intros H. specialize (IH H). lia.
Qed.

Section ExtractFacts.

Variable self : ExecucaoModelo.
Variable k : Z.
Variable model : Lp.SolvedModel.

(** What a turn of the loop does when it does not raise. *)
Lemma extract_step_inv (aloc aloc' : Aloc) (item : XKey * Lp.Var) :
  Exec.extract_step self k model aloc item = inr aloc' ->
  (Exec.value_is_not_1 (Lp.value model (snd item)) = true /\ aloc' = aloc) \/
  (Exec.value_is_not_1 (Lp.value model (snd item)) = false /\
   exists chave n cor aloc1 lst,
     Exec.setdefault chave aloc = (aloc1, lst) /\
     aloc' = Py.dict_set String.eqb chave
               (Exec.append_team n (fst (fst (fst item)))
                  match Exec.find_mesa n lst with
                  | Some _ => lst
                  | None => (lst ++ [mkMesa n cor []])%list
                  end) aloc1).
Proof.
  destruct item as [[[team pos] dia] v]. unfold Exec.extract_step. cbn [fst snd].
  destruct (Exec.value_is_not_1 _).
  - intros [= <-]. now left.
  - destruct (Py.dict_item _ _ _) as [e | [mid cor]]; cbn [Py.bind]; [discriminate|].
    destruct (Py.index _ _) as [e | s]; cbn [Py.bind]; [discriminate|].
    destruct (Py.int s) as [e | n]; cbn [Py.bind]; [discriminate|].
    destruct (Exec.setdefault _ _) as [aloc1 lst] eqn:Es.
    intros [= <-]. right. split; [reflexivity|].
    exists (Exec.chave k dia cor), n, cor, aloc1, lst. now split.
Qed.

Lemma extract_step_entradas (aloc aloc' : Aloc) (item : XKey * Lp.Var) :
  Exec.extract_step self k model aloc item = inr aloc' ->
  Leitura.entradas aloc' =
  Leitura.entradas aloc +
  (if Exec.value_is_not_1 (Lp.value model (snd item)) then 0 else 1).
Proof.
  intros H. destruct (extract_step_inv _ _ _ H)
    as [[-> ->] | (-> & chave & n & cor & aloc1 & lst & Hs & ->)]; [lia|].
  destruct (setdefault_spec _ _ _ _ Hs) as (Hget & Hent & _).
  pose proof (dict_set_entradas chave lst
                (Exec.append_team n (fst (fst (fst item)))
                   match Exec.find_mesa n lst with
                   | Some _ => lst
                   | None => (lst ++ [mkMesa n cor []])%list
                   end) aloc1 Hget) as Hd.
  rewrite append_team_found in Hd.
  - destruct (Exec.find_mesa n lst).
    + lia.
    + rewrite entradas_lista_app in Hd.
      unfold Leitura.entradas_lista at 3 in Hd. simpl in Hd. lia.
  - destruct (Exec.find_mesa n lst) eqn:E; [congruence | apply find_mesa_new].
Qed.

Lemma extract_step_agrupada (aloc aloc' : Aloc) (item : XKey * Lp.Var) :
  Leitura.agrupada aloc ->
  Exec.extract_step self k model aloc item = inr aloc' ->
  Leitura.agrupada aloc'.
Proof.
  intros [Hnd Hall] H. destruct (extract_step_inv _ _ _ H)
    as [[_ ->] | (_ & chave & n & cor & aloc1 & lst & Hs & ->)]; [now split|].
  destruct (setdefault_spec _ _ _ _ Hs) as (Hget & _ & Hcase).
  set (team := fst (fst (fst item))).
  assert (Hlst : NoDup (map mesa lst) /\ Forall (fun m => md_posicoes m <> []) lst).
  { destruct Hcase as [[-> Hin] | (-> & _ & _)]; [|split; constructor].
    rewrite Forall_forall in Hall. now destruct (Hall _ Hin) as (_ & H1 & H2). }
  destruct Hlst as [Hl1 Hl2].
  assert (Hnew : let L := Exec.append_team n team
                            match Exec.find_mesa n lst with
                            | Some _ => lst
                            | None => (lst ++ [mkMesa n cor []])%list
                            end in
                 L <> [] /\ NoDup (map mesa L) /\ Forall (fun m => md_posicoes m <> []) L).
  { cbv zeta. rewrite append_team_mesas.
    destruct (Exec.find_mesa n lst) eqn:E.
    - assert (Hin : In n (map mesa lst)).
      { destruct (ListDec.In_dec Z.eq_dec n (map mesa lst)) as [Hi | Hi]; [assumption|].
        apply find_mesa_none in Hi. congruence. }
      split; [|split; [assumption|]].
      + intros Hnil. apply (f_equal (map mesa)) in Hnil.
        rewrite append_team_mesas in Hnil. rewrite Hnil in Hin. destruct Hin.
      + destruct (append_team_lists_team n team lst Hl1) as [Hok | Hno]; auto.
        * eapply Forall_impl; [|exact Hl2]. auto.
        * contradiction.
    - apply find_mesa_none in E. split; [|split].
      + intros Hnil. apply (f_equal (map mesa)) in Hnil.
        rewrite append_team_mesas, map_app in Hnil.
        destruct (map mesa lst); discriminate.
      + rewrite map_app. apply NoDup_app; [assumption | repeat constructor; simpl; tauto|].
        intros x Hx [<- | []]. contradiction.
      + destruct (append_team_lists_team n team (lst ++ [mkMesa n cor []])%list) as [Hok | Hno].
        * rewrite map_app. apply NoDup_app; [assumption | repeat constructor; simpl; tauto|].
          intros x Hx [<- | []]. contradiction.
        * apply Forall_app. split.
          -- eapply Forall_impl; [|exact Hl2]. auto.
          -- constructor; [|constructor]. simpl. congruence.
        * assumption.
        * exfalso. apply Hno. rewrite map_app. apply in_or_app. right. now left. }
  cbv zeta in Hnew. fold team.
  assert (H1 : Leitura.agrupada aloc1 \/
               (aloc1 = (aloc ++ [(chave, [])])%list /\ ~ In chave (Py.dict_keys aloc))).
  { destruct Hcase as [[-> _] | (_ & -> & Hni)]; [left; now split | right; now split]. }
  split.
  - apply (dict_set_nodup String.eqb string_eqb_eq).
    destruct H1 as [[H1 _] | [-> Hni]]; [assumption|].
    unfold Py.dict_keys. rewrite map_app. apply NoDup_app; [exact Hnd | repeat constructor; simpl; tauto|].
    intros x Hx [<- | []]. contradiction.
  - destruct H1 as [[_ H1] | [-> Hni]].
    + apply (dict_set_items_forall String.eqb string_eqb_eq); [exact Hnew | exact H1].
    + rewrite <- (dict_set_keys_new String.eqb string_eqb_eq chave [] aloc Hni).
      rewrite (dict_set_twice String.eqb string_eqb_eq).
      apply (dict_set_items_forall String.eqb string_eqb_eq); [exact Hnew | exact Hall].
Qed.

End ExtractFacts.

Lemma extract_counts (self : ExecucaoModelo) (k : Z)
    (model : Lp.SolvedModel) (xv : XVars) (aloc : Aloc) :
  Exec.extract self k model xv = inr aloc ->
  Leitura.entradas aloc = Leitura.ocupadas model xv /\ Leitura.agrupada aloc.
Proof.
  intros H. unfold Exec.extract in H. split.
  - apply (for_each_measure Leitura.entradas
             (fun item => if Exec.value_is_not_1 (Lp.value model (snd item))
                          then 0 else 1)) in H.
    + exact H.
    + intros s a s' _. apply extract_step_entradas.
  - apply (for_each_invariant Leitura.agrupada) in H; [exact H | |].
    + intros s a s' _. apply extract_step_agrupada.
    + split; constructor.
Qed.

(** X10.  The readable allocation lists one team entry for each [x]
    variable whose value is 1, no more and no fewer; each of its keys is
    there once, with at least one mesa, each mesa number once under its
    key and each mesa with at least one team. *)
Theorem allocation_lists_every_occupied_seat (self : ExecucaoModelo) (k : Z)
    (model : Lp.SolvedModel) (xv : XVars) (aloc : Aloc) :
  Exec.extract self k model xv = inr aloc ->
  Leitura.entradas aloc = Leitura.ocupadas model xv /\ Leitura.agrupada aloc.
Proof. exact (extract_counts self k model xv aloc). Qed.

Lemma allocation_lists_every_occupied_seat_witness :
  Exec.extract Exemplo.execA 2 Casos.modeloA (Exec.x_vars_of Exemplo.execA)
    = inr Casos.alocA /\
  Leitura.entradas Casos.alocA
    = Leitura.ocupadas Casos.modeloA (Exec.x_vars_of Exemplo.execA) /\
  Leitura.agrupada Casos.alocA.
Proof.
  split; [vm_compute; reflexivity|].
  apply (allocation_lists_every_occupied_seat Exemplo.execA 2).
  vm_compute; reflexivity.
Defined.

Lemma solve_for_k_solved_inv (self : ExecucaoModelo) (solver : Lp.Solver)
    (k : Z) (log : list Lp.LpProblem) (s : string) (o : Z) (t tm : Q)
    (m : Lp.SolvedModel) (xv : XVars) :
  fst (Exec._solve_for_k self solver k log) = inr (Solved s o t tm m xv) ->
  Exec._upper_bound_feasible self k = true /\
  (s = "Optimal" \/ s = "Feasible") /\
  Exec.metricas self s (Exec.formulate self k) (solver (Exec.formulate self k))
  = inr (Solved s o t tm m xv).
Proof.
  unfold Exec._solve_for_k.
  destruct (Exec._upper_bound_feasible self k); cbn [negb fst]; [|discriminate].
  unfold Exec.trata_status.
  destruct (Lp.sr_status (solver (Exec.formulate self k))); cbn; try discriminate.
  - intros H. pose proof H as H'. apply metricas_inv in H'.
    destruct H' as (o' & _ & _ & [= -> _ _ _ _ _]). repeat split; auto.
  - destruct (existsb _ _); [|discriminate].
    intros H. pose proof H as H'. apply metricas_inv in H'.
    destruct H' as (o' & _ & _ & [= -> _ _ _ _ _]). repeat split; auto.
Qed.

Lemma sum_from_binary (f : Lp.Var -> option Z) (l : list Lp.Var) (acc o : Z) :
  (forall v, In v l -> f v = Some 0 \/ f v = Some 1) ->
  Py.sum_from acc (map f l) = inr o ->
  o = acc + fold_right Z.add 0
              (map (fun v => if Exec.value_is_not_1 (f v) then 0 else 1) l).
Proof.
  revert acc. induction l as [|v l IH]; intros acc Hb H.
  - cbn in H. injection H as <-. cbn. lia.
  - assert (Hl : forall w, In w l -> f w = Some 0 \/ f w = Some 1)
      by (intros w Hw; apply Hb; now right).
    cbn [map Py.sum_from fold_right] in *.
    destruct (Hb v (or_introl eq_refl)) as [E | E]; rewrite E in H |- *;
      apply (IH _ Hl) in H; rewrite H; cbn [Exec.value_is_not_1].
    + change (negb (0 =? 1)) with true. cbv iota. lia.
    + change (negb (1 =? 1)) with false. cbv iota. lia.
Qed.

(** X11.  When the solver reports 0 or 1 for every [x] variable, the
    team entries of the readable allocation of an accepted scenario
    number the reported total of occupied seats. *)
Theorem allocation_matches_reported_total (self : ExecucaoModelo)
    (solver : Lp.Solver) (k : Z) (log : list Lp.LpProblem) (s : string) (o : Z)
    (t tm : Q) (m : Lp.SolvedModel) (xv : XVars) (aloc : Aloc) :
  fst (Exec._solve_for_k self solver k log) = inr (Solved s o t tm m xv) ->
  (forall v, In v (Py.dict_values xv) ->
     Lp.value m v = Some 0 \/ Lp.value m v = Some 1) ->
  Exec.extract self k m xv = inr aloc ->
  Leitura.entradas aloc = o.
Proof.
  intros Hs Hb He.
  destruct (solve_for_k_solved_inv self solver k log s o t tm m xv Hs) as (_ & _ & Hm).
  destruct (metricas_inv self s _ _ _ Hm) as (o' & Hsum & _ & [= -> _ _ -> ->]).
  rewrite (proj1 (extract_counts self k _ _ aloc He)).
  unfold Py.sum in Hsum. apply sum_from_binary in Hsum; [|exact Hb].
  rewrite Hsum. unfold Leitura.ocupadas, Py.dict_values, Lp.value. cbn [Lp.sm_result].
  rewrite map_map. lia.
Qed.

Lemma allocation_matches_reported_total_witness :
  Exec.extract Exemplo.execA 2 Casos.modeloA (Exec.x_vars_of Exemplo.execA)
    = inr Casos.alocA /\
  Leitura.entradas Casos.alocA = 12.
Proof.
  split; [vm_compute; reflexivity|].
  apply (allocation_matches_reported_total Exemplo.execA Exemplo.solverA 2 []
           "Optimal" 12 (Py.fl (3 # 10)) (1 # 4) Casos.modeloA
           (Exec.x_vars_of Exemplo.execA) Casos.alocA);
    [vm_compute; reflexivity | | vm_compute; reflexivity].
  intros v Hv. unfold Lp.value, Casos.modeloA. cbn [Lp.sm_result].
  destruct solA_feasible as [Hbin _].
  unfold Exemplo.solverA. cbn [Lp.sr_value].
  destruct (Hbin v (x_values_are_variables Exemplo.execA 2 v Hv)) as [-> | ->]; auto.
Defined.

(** ** The reported occupancy *)

(** X12.  When the solver reports a solution of the scenario, the
    occupancy an accepted scenario of [k] days reports is the sum of the
    sizes of all teams times [k], whatever the seats chosen, and the weekly
    rate is the floating-point quotient of that figure by five times the
    capacity, rounded to three decimals the way [round] does.  The teams
    have distinct names and the engine is one the constructor built. *)
Theorem reported_occupancy_is_headcount_times_days (l : LayoutConfiguration)
    (cad : Cadastro.CadastroTimesSinergias) (c : ConfiguracaoModelo)
    (self : ExecucaoModelo) (solver : Lp.Solver) (k : Z)
    (log : list Lp.LpProblem) (res : SolveResult) :
  Exec.init l cad c = inr self ->
  NoDup (map nome (Exec.times self)) ->
  Lp.reports_solution (solver (Exec.formulate self k)) (Exec.formulate self k) ->
  fst (Exec._solve_for_k self solver k log) = inr res ->
  Exec.aceito res = true ->
  let soma := fold_right Z.add 0
                (map (fun kv => qtde_integrantes (snd kv)) (cad_times self)) in
  exists st tm m xv,
    res = Solved st (soma * k)
            (Py.round (Py.fl (inject_Z (soma * k) / inject_Z (5 * cap_total self))) 3)
            tm m xv.
Proof.
  intros Hinit Hn (a & Hf & Hval) Hs Hac soma.
  pose proof (init_posicoes_nodup l cad c self Hinit) as Hp.
  destruct (solve_for_k_accepted_inv self solver k log res Hs Hac) as (st & _ & Hm).
  destruct (metricas_inv self st _ _ _ Hm) as (o & Hsum & _ & ->).
  rewrite (sum_values _ a) in Hsum
    by (intros v Hv; apply Hval, (x_values_are_variables self k v Hv)).
  injection Hsum as <-.
  rewrite (total_occupancy self Hn Hp k a Hf), (pessoas_soma self). fold soma. eauto.
Qed.

Lemma reported_occupancy_is_headcount_times_days_witness :
  exists st tm m xv,
    Solved "Optimal" 1 (Py.fl (13 # 1000)) (Py.fl (1 # 10))
      (Lp.mkSolved (Exec.formulate Exemplo.execW 1)
         (Exemplo.solverS (Exec.formulate Exemplo.execW 1)))
      (Exec.x_vars_of Exemplo.execW)
    = Solved st (1 * 1)
        (Py.round (Py.fl (inject_Z (1 * 1) / inject_Z (5 * 16))) 3)
        tm m xv.
Proof.
  apply (reported_occupancy_is_headcount_times_days Exemplo.layoutW Exemplo.cadS
           Exemplo.cfgS Exemplo.execW Exemplo.solverS 1 []);
    [reflexivity | exact execW_nomes_nodup | | vm_compute; reflexivity | reflexivity].
  exists Exemplo.solS. split; [exact solS_feasible_wide | reflexivity].
Defined.

(** ** The register of teams *)

Lemma contem_in (x : string) (l : list string) :
  CadastroTimes.contem x l = true <-> In x l.
Proof.
  unfold CadastroTimes.contem. rewrite existsb_exists. split.
  - intros (y & Hy & E). apply String.eqb_eq in E. now subst.
  - intros H. exists x. split; [assumption | apply String.eqb_refl].
Qed.

Lemma contem_not_in (x : string) (l : list string) :
  CadastroTimes.contem x l = false <-> ~ In x l.
Proof.
  rewrite <- contem_in. destruct (CadastroTimes.contem x l); split; congruence.
Qed.

Lemma registado_get (n : string) (cad : Cadastro.CadastroTimesSinergias) :
  CadastroTimes.registado n cad = true <->
  exists t, Py.dict_get String.eqb n cad = Some t.
Proof.
  unfold CadastroTimes.registado. destruct (Py.dict_get String.eqb n cad) as [t|].
  - split; eauto.
  - split; [discriminate | intros [t H]; discriminate].
Qed.

Lemma registado_in (n : string) (cad : Cadastro.CadastroTimesSinergias) :
  CadastroTimes.registado n cad = true <-> In n (Py.dict_keys cad).
Proof.
  unfold CadastroTimes.registado.
  destruct (Py.dict_get String.eqb n cad) as [t|] eqn:E.
  - split; [intros _ | reflexivity].
    apply (dict_get_in String.eqb string_eqb_eq) in E.
    unfold Py.dict_keys. apply in_map_iff. now exists (n, t).
  - apply (dict_get_none String.eqb string_eqb_eq) in E. split; [discriminate | tauto].
Qed.

Lemma dict_set_same {K V} (eqb : K -> K -> bool)
    (eqb_eq : forall a b, eqb a b = true <-> a = b)
    (k : K) (v : V) (d : Py.dict K V) :
  Py.dict_get eqb k d = Some v -> Py.dict_set eqb k v d = d.
Proof.
  induction d as [|[k' v'] d IH]; simpl; [discriminate|].
  destruct (eqb k k') eqn:E.
  - now intros [= ->].
  - intros H. now rewrite IH.
Qed.

Lemma in_keys_get {K V} (eqb : K -> K -> bool)
    (eqb_eq : forall a b, eqb a b = true <-> a = b)
    (k : K) (d : Py.dict K V) :
  In k (Py.dict_keys d) <-> exists v, Py.dict_get eqb k d = Some v.
Proof.
  destruct (Py.dict_get eqb k d) as [v|] eqn:E.
  - split; [eauto|]. intros _. apply (dict_get_in eqb eqb_eq) in E.
    unfold Py.dict_keys. apply in_map_iff. now exists (k, v).
  - apply (dict_get_none eqb eqb_eq) in E. split; [tauto|]. intros [v H]. discriminate.
Qed.

(** *** Registration *)

Lemma salvar_times_go (buf : list (string * Z)) (acc : Cadastro.CadastroTimesSinergias) :
  match Py.for_each buf
          (fun cadastro t =>
             time <- Cadastro.Time_init (fst t) (snd t) (Some []) ;;
             Cadastro.adicionar_time cadastro time) acc with
  | inr cad =>
      Forall (fun t => 0 < snd t) buf /\
      NoDup (map fst buf) /\
      (forall n, In n (map fst buf) -> ~ In n (Py.dict_keys acc)) /\
      cad = (acc ++ map (fun t => (fst t, mkTime (fst t) (snd t) [])) buf)%list
  | inl e =>
      (exists msg, e = Py.ValueError msg) /\
      ~ (Forall (fun t => 0 < snd t) buf /\ NoDup (map fst buf) /\
         forall n, In n (map fst buf) -> ~ In n (Py.dict_keys acc))
  end.
Proof.
  revert acc. induction buf as [|[n q] buf IH]; intros acc.
  - simpl. rewrite app_nil_r. repeat split; auto; constructor.
  - cbn [Py.for_each fst snd]. unfold Cadastro.Time_init.
    destruct (Z.leb_spec q 0) as [Hq | Hq].
    + cbn. split; [eauto|]. intros (Hall & _). inversion Hall; subst. simpl in *. lia.
    + cbn [Py.bind Py.ret]. unfold Cadastro.adicionar_time. cbn [nome].
      destruct (Py.dict_get String.eqb n acc) as [t0|] eqn:E.
      * cbn. split; [eauto|]. intros (_ & _ & Hni).
        apply (Hni n); [now left|].
        apply (in_keys_get String.eqb string_eqb_eq). eauto.
      * cbn [Py.bind Py.ret].
        apply (dict_get_none String.eqb string_eqb_eq) in E.
        rewrite (dict_set_keys_new String.eqb string_eqb_eq) by exact E.
        specialize (IH (acc ++ [(n, mkTime n q [])])%list).
        destruct (Py.for_each buf _ _) as [e | cad].
        -- destruct IH as [He Hnot]. split; [exact He|].
           intros (Hall & Hnd & Hni). apply Hnot.
           inversion Hall; subst. inversion Hnd; subst. repeat split; auto.
           intros m Hm. unfold Py.dict_keys. rewrite map_app, in_app_iff.
           intros [Hk | [<- | []]].
           ++ apply (Hni m); [now right | exact Hk].
           ++ contradiction.
        -- destruct IH as (Hall & Hnd & Hni & ->). repeat split.
           ++ constructor; [exact Hq | exact Hall].
           ++ cbn [map fst]. constructor; [|exact Hnd].
              intros Hn. apply (Hni n Hn). unfold Py.dict_keys.
              rewrite map_app, in_app_iff. right. now left.
           ++ intros m [<- | Hm]; [exact E|].
              intros Hk. apply (Hni m Hm). unfold Py.dict_keys.
              rewrite map_app, in_app_iff. now left.
           ++ now rewrite <- app_assoc.
Qed.

Lemma coerente_sem_sinergias (buf : list (string * Z)) :
  NoDup (map fst buf) ->
  CadastroTimes.coerente (map (fun t => (fst t, mkTime (fst t) (snd t) [])) buf).
Proof.
  intros Hnd. split.
  - unfold Py.dict_keys. rewrite map_map. exact Hnd.
  - intros a ta Hg. apply (dict_get_in String.eqb string_eqb_eq) in Hg.
    apply in_map_iff in Hg. destruct Hg as ([n q] & [= <- <-] & _).
    cbn. repeat split; [constructor | tauto | intros b []].
Qed.

(** X13.  Saving the teams of the team page yields a register exactly
    when every size is positive and no name is repeated, and fails with
    a [ValueError] otherwise; the register then holds the teams in the
    order given, each under its name and with no synergies. *)
Theorem team_registration (buf : list (string * Z)) :
  ((exists cad, CadastroTimes.salvar_times buf = inr cad) <->
     Forall (fun t => 0 < snd t) buf /\ NoDup (map fst buf)) /\
  (forall cad, CadastroTimes.salvar_times buf = inr cad ->
     cad = map (fun t => (fst t, mkTime (fst t) (snd t) [])) buf /\
     CadastroTimes.listar_times cad = map fst buf /\
     CadastroTimes.coerente cad) /\
  (forall e, CadastroTimes.salvar_times buf = inl e -> exists msg, e = Py.ValueError msg).
Proof.
  pose proof (salvar_times_go buf []) as H. unfold CadastroTimes.salvar_times.
  destruct (Py.for_each buf _ _) as [e | cad].
  - destruct H as [He Hnot]. split; [|split].
    + split; [intros [cad H]; discriminate|].
      intros [Hall Hnd]. exfalso. apply Hnot. repeat split; auto.
    + discriminate.
    + now intros e' [= <-].
  - destruct H as (Hall & Hnd & _ & ->). cbn [app]. split; [|split].
    + split; [auto | eauto].
    + intros cad' [= <-]. split; [reflexivity|]. split.
      * unfold CadastroTimes.listar_times, Py.dict_keys. now rewrite map_map.
      * now apply coerente_sem_sinergias.
    + discriminate.
Qed.

(** *** Synergies *)

Lemma add_sinergia_nome (t : Time) (o : string) :
  nome (CadastroTimes.Time_add_sinergia t o) = nome t /\
  qtde_integrantes (CadastroTimes.Time_add_sinergia t o) = qtde_integrantes t.
Proof.
  unfold CadastroTimes.Time_add_sinergia.
  destruct (negb _ && negb _); split; reflexivity.
Qed.

Lemma add_sinergia_in (t : Time) (o s : string) :
  In s (sinergias (CadastroTimes.Time_add_sinergia t o)) <->
  In s (sinergias t) \/ (s = o /\ o <> nome t).
Proof.
  unfold CadastroTimes.Time_add_sinergia.
  destruct (CadastroTimes.contem o (sinergias t)) eqn:E1;
    destruct (String.eqb_spec o (nome t)) as [E2 | E2]; cbn [negb andb sinergias].
  - tauto.
  - apply contem_in in E1. split; [tauto|]. intros [H | [-> _]]; assumption.
  - tauto.
  - unfold CadastroTimes.com_sinergias. cbn [sinergias]. rewrite in_app_iff. simpl.
    split; [intros [H | [<- | []]]; auto | intros [H | [-> _]]; auto].
Qed.

Lemma add_sinergia_nodup (t : Time) (o : string) :
  NoDup (sinergias t) -> NoDup (sinergias (CadastroTimes.Time_add_sinergia t o)).
Proof.
  intros Hnd. unfold CadastroTimes.Time_add_sinergia.
  destruct (CadastroTimes.contem o (sinergias t)) eqn:E1;
    destruct (String.eqb o (nome t)); cbn [negb andb]; try assumption.
  unfold CadastroTimes.com_sinergias. cbn [sinergias].
  apply contem_not_in in E1. apply NoDup_app; [assumption | repeat constructor; simpl; tauto|].
  intros x Hx [<- | []]. contradiction.
Qed.

Lemma add_sinergia_noop (t : Time) (o : string) :
  In o (sinergias t) \/ o = nome t -> CadastroTimes.Time_add_sinergia t o = t.
Proof.
  unfold CadastroTimes.Time_add_sinergia. intros [H | H].
  - apply contem_in in H. now rewrite H.
  - subst. rewrite String.eqb_refl. now rewrite andb_false_r.
Qed.

Lemma dict_set_keys_existing {K V} (eqb : K -> K -> bool)
    (eqb_eq : forall a b, eqb a b = true <-> a = b)
    (k : K) (v : V) (d : Py.dict K V) :
  In k (Py.dict_keys d) -> Py.dict_keys (Py.dict_set eqb k v d) = Py.dict_keys d.
Proof.
  intros H. rewrite dict_set_keys.
  replace (existsb (eqb k) (Py.dict_keys d)) with true; [reflexivity|].
  symmetry. apply existsb_exists. exists k. split; [assumption | now apply eqb_eq].
Qed.

Lemma add_sinergia_unfold (cad : Cadastro.CadastroTimesSinergias) (a b : string)
    (ta tb : Time) :
  Py.dict_get String.eqb a cad = Some ta ->
  Py.dict_get String.eqb b cad = Some tb ->
  CadastroTimes.add_sinergia cad a b =
  inr (Py.dict_set String.eqb b
         (CadastroTimes.Time_add_sinergia
            (if String.eqb b a then CadastroTimes.Time_add_sinergia ta b else tb) a)
         (Py.dict_set String.eqb a (CadastroTimes.Time_add_sinergia ta b) cad)).
Proof.
  intros Ha Hb. unfold CadastroTimes.add_sinergia, CadastroTimes.registado, Py.dict_item.
  rewrite Ha, Hb. cbn [negb orb Py.bind Py.ret].
  rewrite (dict_set_get String.eqb string_eqb_eq).
  destruct (String.eqb b a); [reflexivity|]. now rewrite Hb.
Qed.

Lemma add_sinergia_error (cad : Cadastro.CadastroTimesSinergias) (a b : string) :
  match CadastroTimes.add_sinergia cad a b with
  | inl e => (exists msg, e = Py.ValueError msg) /\
             (CadastroTimes.registado a cad = false \/ CadastroTimes.registado b cad = false)
  | inr _ => CadastroTimes.registado a cad = true /\ CadastroTimes.registado b cad = true
  end.
Proof.
  destruct (Py.dict_get String.eqb a cad) as [ta|] eqn:Ha.
  - destruct (Py.dict_get String.eqb b cad) as [tb|] eqn:Hb.
    + rewrite (add_sinergia_unfold cad a b ta tb Ha Hb).
      unfold CadastroTimes.registado. now rewrite Ha, Hb.
    + unfold CadastroTimes.add_sinergia, CadastroTimes.registado. rewrite Ha, Hb.
      cbn. split; eauto.
  - unfold CadastroTimes.add_sinergia, CadastroTimes.registado. rewrite Ha.
    cbn. split; eauto.
Qed.

Section AddSinergia.

Variable cad : Cadastro.CadastroTimesSinergias.
Variables a b : string.
Variables ta tb : Time.
Hypothesis Hco : CadastroTimes.coerente cad.
Hypothesis Ha : Py.dict_get String.eqb a cad = Some ta.
Hypothesis Hb : Py.dict_get String.eqb b cad = Some tb.

Lemma add_sinergia_same : a = b -> CadastroTimes.add_sinergia cad a b = inr cad.
Proof.
  intros <-. rewrite (add_sinergia_unfold cad a a ta tb Ha Hb), String.eqb_refl.
  destruct Hco as [_ Hall]. destruct (Hall a ta Ha) as (Hn & _).
  rewrite !(add_sinergia_noop ta a) by (right; now symmetry).
  now rewrite !(dict_set_same String.eqb string_eqb_eq a ta cad Ha).
Qed.

Hypothesis Hab : a <> b.

Lemma add_sinergia_distinct :
  CadastroTimes.add_sinergia cad a b =
  inr (Py.dict_set String.eqb b (CadastroTimes.Time_add_sinergia tb a)
         (Py.dict_set String.eqb a (CadastroTimes.Time_add_sinergia ta b) cad)).
Proof.
  rewrite (add_sinergia_unfold cad a b ta tb Ha Hb).
  destruct (String.eqb_spec b a) as [E | _]; [congruence | reflexivity].
Qed.

Lemma add_sinergia_get (x : string) :
  Py.dict_get String.eqb x
    (Py.dict_set String.eqb b (CadastroTimes.Time_add_sinergia tb a)
       (Py.dict_set String.eqb a (CadastroTimes.Time_add_sinergia ta b) cad)) =
  if String.eqb x b then Some (CadastroTimes.Time_add_sinergia tb a)
  else if String.eqb x a then Some (CadastroTimes.Time_add_sinergia ta b)
  else Py.dict_get String.eqb x cad.
Proof. now rewrite !(dict_set_get String.eqb string_eqb_eq). Qed.

(** Every team keeps what it listed and its key; [a] and [b] may list
    one name more. *)
Lemma add_sinergia_grows (x : string) (tx : Time) :
  Py.dict_get String.eqb x cad = Some tx ->
  exists tx',
    Py.dict_get String.eqb x
      (Py.dict_set String.eqb b (CadastroTimes.Time_add_sinergia tb a)
         (Py.dict_set String.eqb a (CadastroTimes.Time_add_sinergia ta b) cad)) = Some tx' /\
    nome tx' = nome tx /\ qtde_integrantes tx' = qtde_integrantes tx /\
    forall s, In s (sinergias tx') <->
              In s (sinergias tx) \/ (x = a /\ s = b) \/ (x = b /\ s = a).
Proof.
  intros Hx. rewrite add_sinergia_get.
  destruct Hco as [_ Hall].
  destruct (Hall a ta Ha) as (Hna & _). destruct (Hall b tb Hb) as (Hnb & _).
  destruct (String.eqb_spec x b) as [-> | Exb].
  - assert (tx = tb) by congruence. subst tx.
    exists (CadastroTimes.Time_add_sinergia tb a).
    split; [reflexivity|]. split; [apply add_sinergia_nome|]. split; [apply add_sinergia_nome|].
    intros s. rewrite add_sinergia_in. rewrite Hnb.
    split; [intros [H | [-> _]]; auto | intros [H | [[E _] | [_ ->]]]; auto].
    congruence.
  - destruct (String.eqb_spec x a) as [-> | Exa].
    + assert (tx = ta) by congruence. subst tx.
      exists (CadastroTimes.Time_add_sinergia ta b).
      split; [reflexivity|]. split; [apply add_sinergia_nome|]. split; [apply add_sinergia_nome|].
      intros s. rewrite add_sinergia_in. rewrite Hna.
      split; [intros [H | [-> _]]; auto | intros [H | [[_ ->] | [E _]]]; auto].
      congruence.
    + exists tx. repeat split; auto. intros [H | [[E _] | [E _]]]; [assumption | |]; congruence.
Qed.

Lemma add_sinergia_coerente :
  CadastroTimes.coerente
    (Py.dict_set String.eqb b (CadastroTimes.Time_add_sinergia tb a)
       (Py.dict_set String.eqb a (CadastroTimes.Time_add_sinergia ta b) cad)).
Proof.
  pose proof Hco as [Hnd Hall].
  assert (Hka : In a (Py.dict_keys cad))
    by (apply (in_keys_get String.eqb string_eqb_eq); eauto).
  assert (Hkb : In b (Py.dict_keys cad))
    by (apply (in_keys_get String.eqb string_eqb_eq); eauto).
  assert (Hkeys : Py.dict_keys
            (Py.dict_set String.eqb b (CadastroTimes.Time_add_sinergia tb a)
               (Py.dict_set String.eqb a (CadastroTimes.Time_add_sinergia ta b) cad))
          = Py.dict_keys cad).
  { rewrite (dict_set_keys_existing String.eqb string_eqb_eq);
      rewrite (dict_set_keys_existing String.eqb string_eqb_eq); auto. }
  split; [now rewrite Hkeys|].
  intros x tx' Hx'.
  assert (Hin : In x (Py.dict_keys cad)).
  { rewrite <- Hkeys. apply (in_keys_get String.eqb string_eqb_eq). eauto. }
  apply (in_keys_get String.eqb string_eqb_eq) in Hin. destruct Hin as [tx Hx].
  destruct (add_sinergia_grows x tx Hx) as (tx1 & Hx1 & Hn & _ & Hs).
  assert (tx1 = tx') by congruence. subst tx1.
  destruct (Hall x tx Hx) as (Hnx & Hndx & Hself & Hback).
  split; [congruence|]. split; [|split].
  - rewrite add_sinergia_get in Hx'.
    destruct (String.eqb_spec x b) as [-> | _].
    + injection Hx' as <-. apply add_sinergia_nodup.
      now destruct (Hall b tb Hb) as (_ & H & _).
    + destruct (String.eqb_spec x a) as [-> | _].
      * injection Hx' as <-. apply add_sinergia_nodup.
        now destruct (Hall a ta Ha) as (_ & H & _).
      * assert (tx' = tx) by congruence. now subst.
  - rewrite Hs. intros [H | [[-> ->] | [-> ->]]]; [contradiction | |]; congruence.
  - intros s Hs'. apply Hs in Hs'.
    destruct Hs' as [Hold | [[-> ->] | [-> ->]]].
    + destruct (Hback s Hold) as (ts & Hts & Hxs).
      destruct (add_sinergia_grows s ts Hts) as (ts' & Hts' & _ & _ & Hss).
      exists ts'. split; [exact Hts'|]. apply Hss. now left.
    + destruct (add_sinergia_grows b tb Hb) as (tb' & Htb' & _ & _ & Hss).
      exists tb'. split; [exact Htb'|]. apply Hss. right. right. now split.
    + destruct (add_sinergia_grows a ta Ha) as (ta' & Hta' & _ & _ & Hss).
      exists ta'. split; [exact Hta'|]. apply Hss. right. left. now split.
Qed.

End AddSinergia.

Lemma cadA_coerente : CadastroTimes.coerente Exemplo.cadA.
Proof. exact (coerente_sem_sinergias [("Alpha", 3); ("Beta", 3)] ltac:(repeat constructor; simpl; intuition discriminate)). Qed.

(** X14.  Declaring a synergy in a coherent register fails, with a
    [ValueError], exactly when one of the two names is not registered.
    Otherwise the register stays coherent with the same teams in the
    same order; for two different names each team now lists the other,
    for one name given twice nothing is listed; no other entry of any
    list changes, and declaring the same synergy again changes
    nothing. *)
Theorem synergy_is_mutual (cad : Cadastro.CadastroTimesSinergias) (a b : string) :
  CadastroTimes.coerente cad ->
  ((exists msg, CadastroTimes.add_sinergia cad a b = inl (Py.ValueError msg)) <->
     ~ In a (CadastroTimes.listar_times cad) \/ ~ In b (CadastroTimes.listar_times cad)) /\
  (forall cad', CadastroTimes.add_sinergia cad a b = inr cad' ->
     CadastroTimes.coerente cad' /\
     CadastroTimes.listar_times cad' = CadastroTimes.listar_times cad /\
     (forall x tx, Py.dict_get String.eqb x cad = Some tx ->
        exists tx', Py.dict_get String.eqb x cad' = Some tx' /\
          nome tx' = nome tx /\ qtde_integrantes tx' = qtde_integrantes tx /\
          forall s, In s (sinergias tx') <->
            In s (sinergias tx) \/
            (a <> b /\ ((x = a /\ s = b) \/ (x = b /\ s = a)))) /\
     CadastroTimes.add_sinergia cad' a b = inr cad').
Proof.
  intros Hco. unfold CadastroTimes.listar_times. split.
  - pose proof (add_sinergia_error cad a b) as He.
    rewrite <- !registado_in.
    destruct (CadastroTimes.add_sinergia cad a b) as [e | cad'].
    + destruct He as [[msg ->] Hr]. split; [intros _ | eauto].
      destruct Hr as [Hr | Hr]; rewrite Hr; [left | right]; discriminate.
    + destruct He as [H1 H2]. rewrite H1, H2. split; [intros [msg H]; discriminate|].
      intros [H | H]; now elim H.
  - intros cad' Hadd.
    pose proof (add_sinergia_error cad a b) as He. rewrite Hadd in He.
    destruct He as [H1 H2]. apply registado_get in H1, H2.
    destruct H1 as [ta Ha], H2 as [tb Hb].
    destruct (String.eqb_spec a b) as [Eab | Eab].
    + rewrite (add_sinergia_same cad a b ta tb Hco Ha Hb Eab) in Hadd.
      injection Hadd as <-. split; [exact Hco|]. split; [reflexivity|]. split.
      * intros x tx Hx. exists tx. repeat split; auto. tauto.
      * apply (add_sinergia_same cad a b ta tb Hco Ha Hb Eab).
    + rewrite (add_sinergia_distinct cad a b ta tb Ha Hb Eab) in Hadd.
      injection Hadd as <-.
      pose proof (add_sinergia_coerente cad a b ta tb Hco Ha Hb Eab) as Hco'.
      split; [exact Hco'|]. split; [|split].
      * rewrite (dict_set_keys_existing String.eqb string_eqb_eq);
          rewrite (dict_set_keys_existing String.eqb string_eqb_eq); auto;
          apply (in_keys_get String.eqb string_eqb_eq); eauto.
      * intros x tx Hx.
        destruct (add_sinergia_grows cad a b ta tb Hco Ha Hb Eab x tx Hx)
          as (tx' & Hx' & Hn & Hq & Hs).
        exists tx'. repeat split; auto.
        -- intros H. apply Hs in H. tauto.
        -- intros H. apply Hs. tauto.
      * destruct (add_sinergia_grows cad a b ta tb Hco Ha Hb Eab a ta Ha)
          as (ta' & Ha' & _ & _ & Hsa).
        destruct (add_sinergia_grows cad a b ta tb Hco Ha Hb Eab b tb Hb)
          as (tb' & Hb' & _ & _ & Hsb).
        rewrite (add_sinergia_distinct _ a b ta' tb' Ha' Hb' Eab).
        rewrite (add_sinergia_noop ta' b) by (left; apply Hsa; auto).
        rewrite (add_sinergia_noop tb' a) by (left; apply Hsb; auto).
        rewrite (dict_set_same String.eqb string_eqb_eq a ta' _ Ha').
        now rewrite (dict_set_same String.eqb string_eqb_eq b tb' _ Hb').
Qed.

Lemma synergy_is_mutual_witness :
  CadastroTimes.add_sinergia Exemplo.cadA "Alpha" "Beta" = inr Casos.cadAB /\
  CadastroTimes.coerente Casos.cadAB.
Proof.
  split; [reflexivity|].
  exact (proj1 (proj2 (synergy_is_mutual Exemplo.cadA "Alpha" "Beta" cadA_coerente)
                  _ eq_refl)).
Defined.

Lemma cadAB_coerente : CadastroTimes.coerente Casos.cadAB.
Proof.
  exact (add_sinergia_coerente Exemplo.cadA "Alpha" "Beta" Exemplo.alpha Exemplo.beta
           cadA_coerente eq_refl eq_refl ltac:(discriminate)).
Qed.

(** *** Removal *)

Lemma dict_pop_get (k x : string) (d : Cadastro.CadastroTimesSinergias) :
  NoDup (Py.dict_keys d) ->
  Py.dict_get String.eqb x (CadastroTimes.dict_pop k d) =
  if String.eqb x k then None else Py.dict_get String.eqb x d.
Proof.
  induction d as [|[k' v] d IH]; intros Hnd.
  - simpl. now destruct (String.eqb x k).
  - cbn [Py.dict_keys map fst] in Hnd. inversion Hnd as [|? ? Hni Hnd']; subst.
    cbn [CadastroTimes.dict_pop Py.dict_get].
    destruct (String.eqb_spec k k') as [<- | Ekk].
    + destruct (String.eqb_spec x k) as [-> | Exk]; [|reflexivity].
      now apply (dict_get_none String.eqb string_eqb_eq).
    + cbn [Py.dict_get]. destruct (String.eqb_spec x k') as [-> | Exk'].
      * destruct (String.eqb_spec k' k); [congruence | reflexivity].
      * now apply IH.
Qed.

Lemma dict_pop_keys (k : string) (d : Cadastro.CadastroTimesSinergias) :
  NoDup (Py.dict_keys d) ->
  Py.dict_keys (CadastroTimes.dict_pop k d) =
  filter (fun x => negb (String.eqb x k)) (Py.dict_keys d).
Proof.
  induction d as [|[k' v] d IH]; intros Hnd; [reflexivity|].
  cbn [Py.dict_keys map fst] in Hnd. inversion Hnd as [|? ? Hni Hnd']; subst.
  cbn [CadastroTimes.dict_pop Py.dict_keys map fst filter].
  destruct (String.eqb_spec k k') as [<- | Ekk].
  - rewrite String.eqb_refl. cbn [negb].
    symmetry. apply forallb_filter_id. apply forallb_forall. intros x Hx.
    destruct (String.eqb_spec x k) as [-> | _]; [contradiction | reflexivity].
  - destruct (String.eqb_spec k' k) as [E | _]; [congruence|]. cbn [negb map fst].
    f_equal. now apply IH.
Qed.

Lemma get_map_values {V W} (f : V -> W) (x : string) (d : Py.dict string V) :
  Py.dict_get String.eqb x (map (fun kt => (fst kt, f (snd kt))) d) =
  option_map f (Py.dict_get String.eqb x d).
Proof.
  induction d as [|[k v] d IH]; [reflexivity|].
  cbn [map fst snd Py.dict_get]. now destruct (String.eqb x k).
Qed.

Lemma keys_map_values {V W} (f : V -> W) (d : Py.dict string V) :
  Py.dict_keys (map (fun kt => (fst kt, f (snd kt))) d) = Py.dict_keys d.
Proof. unfold Py.dict_keys. rewrite map_map. reflexivity. Qed.

Lemma list_remove_in (n s : string) (l : list string) :
  NoDup l -> In s (CadastroTimes.list_remove n l) <-> In s l /\ s <> n.
Proof.
  induction l as [|y l IH]; intros Hnd; [simpl; tauto|].
  inversion Hnd as [|? ? Hni Hnd']; subst. cbn [CadastroTimes.list_remove].
  destruct (String.eqb_spec n y) as [<- | Eny].
  - simpl. split.
    + intros H. split; [now right|]. intros ->. contradiction.
    + intros [[-> | H] Hne]; [congruence | assumption].
  - simpl. rewrite (IH Hnd'). split.
    + intros [<- | [H Hne]]; split; auto.
    + intros [[<- | H] Hne]; auto.
Qed.

Lemma list_remove_nodup (n : string) (l : list string) :
  NoDup l -> NoDup (CadastroTimes.list_remove n l).
Proof.
  induction l as [|y l IH]; intros Hnd; [constructor|].
  inversion Hnd as [|? ? Hni Hnd']; subst. cbn [CadastroTimes.list_remove].
  destruct (String.eqb n y); [assumption|].
  constructor; [|now apply IH]. rewrite (list_remove_in n y l Hnd'). tauto.
Qed.

Lemma sem_referencia_spec (n : string) (t : Time) :
  NoDup (sinergias t) ->
  nome (CadastroTimes.sem_referencia n t) = nome t /\
  qtde_integrantes (CadastroTimes.sem_referencia n t) = qtde_integrantes t /\
  NoDup (sinergias (CadastroTimes.sem_referencia n t)) /\
  forall s, In s (sinergias (CadastroTimes.sem_referencia n t)) <->
            In s (sinergias t) /\ s <> n.
Proof.
  intros Hnd. unfold CadastroTimes.sem_referencia.
  destruct (CadastroTimes.contem n (sinergias t)) eqn:E.
  - unfold CadastroTimes.com_sinergias. cbn [nome qtde_integrantes sinergias].
    repeat split; try (now apply list_remove_nodup);
      try (now apply (list_remove_in n s (sinergias t) Hnd)).
  - apply contem_not_in in E. repeat split; auto; try tauto.
    intros ->. contradiction.
Qed.

Lemma sem_referencia_noop (n : string) (t : Time) :
  ~ In n (sinergias t) -> CadastroTimes.sem_referencia n t = t.
Proof.
  intros H. apply contem_not_in in H. unfold CadastroTimes.sem_referencia.
  now rewrite H.
Qed.

Lemma dict_pop_absent (k : string) (d : Cadastro.CadastroTimesSinergias) :
  ~ In k (Py.dict_keys d) -> CadastroTimes.dict_pop k d = d.
Proof.
  induction d as [|[k' v] d IH]; intros H; [reflexivity|].
  cbn [CadastroTimes.dict_pop]. cbn [Py.dict_keys map fst In] in H.
  destruct (String.eqb_spec k k') as [-> | _]; [tauto|].
  f_equal. apply IH. tauto.
Qed.

Lemma map_values_id {V} (f : V -> V) (d : Py.dict string V) :
  (forall k v, In (k, v) d -> f v = v) ->
  map (fun kt => (fst kt, f (snd kt))) d = d.
Proof.
  induction d as [|[k v] d IH]; intros H; [reflexivity|].
  cbn [map fst snd]. rewrite (H k v) by now left.
  f_equal. apply IH. intros k0 v0 Hin. apply (H k0). now right.
Qed.

Lemma remover_time_get (cad : Cadastro.CadastroTimesSinergias) (n x : string) :
  NoDup (Py.dict_keys cad) ->
  Py.dict_get String.eqb x (CadastroTimes.remover_time cad n) =
  if String.eqb x n then None
  else option_map (CadastroTimes.sem_referencia n) (Py.dict_get String.eqb x cad).
Proof.
  intros Hnd. unfold CadastroTimes.remover_time.
  rewrite get_map_values, (dict_pop_get n x cad Hnd).
  now destruct (String.eqb x n).
Qed.

(** X15.  Removing a name from a coherent register leaves a coherent
    register: the other teams stay, in their order, with their names and
    sizes; no team is registered under the name and no team lists it;
    every other entry of every list stays.  Removing a name that is not
    registered changes nothing. *)
Theorem removal_leaves_no_reference (cad : Cadastro.CadastroTimesSinergias)
    (n : string) :
  CadastroTimes.coerente cad ->
  let cad' := CadastroTimes.remover_time cad n in
  CadastroTimes.coerente cad' /\
  CadastroTimes.listar_times cad' =
    filter (fun x => negb (String.eqb x n)) (CadastroTimes.listar_times cad) /\
  Py.dict_get String.eqb n cad' = None /\
  (forall x tx, x <> n -> Py.dict_get String.eqb x cad = Some tx ->
     exists tx', Py.dict_get String.eqb x cad' = Some tx' /\
       nome tx' = nome tx /\ qtde_integrantes tx' = qtde_integrantes tx /\
       forall s, In s (sinergias tx') <-> In s (sinergias tx) /\ s <> n) /\
  (forall x tx', Py.dict_get String.eqb x cad' = Some tx' -> ~ In n (sinergias tx')) /\
  (~ In n (CadastroTimes.listar_times cad) -> cad' = cad).
Proof.
  intros Hco cad'. pose proof Hco as [Hnd Hall].
  assert (Hkeys : Py.dict_keys cad' =
                  filter (fun x => negb (String.eqb x n)) (Py.dict_keys cad)).
  { unfold cad', CadastroTimes.remover_time.
    rewrite keys_map_values. now apply dict_pop_keys. }
  assert (Hkeep : forall x tx, x <> n -> Py.dict_get String.eqb x cad = Some tx ->
            exists tx', Py.dict_get String.eqb x cad' = Some tx' /\
              nome tx' = nome tx /\ qtde_integrantes tx' = qtde_integrantes tx /\
              NoDup (sinergias tx') /\
              forall s, In s (sinergias tx') <-> In s (sinergias tx) /\ s <> n).
  { intros x tx Hxn Hx. exists (CadastroTimes.sem_referencia n tx).
    unfold cad'. rewrite (remover_time_get cad n x Hnd), Hx.
    destruct (String.eqb_spec x n) as [E | _]; [contradiction|].
    split; [reflexivity|].
    destruct (Hall x tx Hx) as (_ & Hndx & _).
    destruct (sem_referencia_spec n tx Hndx) as (H1 & H2 & H3 & H4). auto. }
  assert (Hfrom : forall x tx', Py.dict_get String.eqb x cad' = Some tx' ->
            x <> n /\ exists tx, Py.dict_get String.eqb x cad = Some tx).
  { intros x tx' Hx'. unfold cad' in Hx'. rewrite (remover_time_get cad n x Hnd) in Hx'.
    destruct (String.eqb_spec x n) as [E | E]; [discriminate|].
    split; [assumption|].
    destruct (Py.dict_get String.eqb x cad) as [tx|]; [eauto | discriminate]. }
  split; [|split; [|split; [|split; [|split]]]].
  - split.
    + rewrite Hkeys. now apply NoDup_filter.
    + intros x tx' Hx'. destruct (Hfrom x tx' Hx') as (Hxn & tx & Hx).
      destruct (Hkeep x tx Hxn Hx) as (tx1 & Hx1 & Hn & _ & Hndx & Hs).
      assert (tx1 = tx') by congruence. subst tx1.
      destruct (Hall x tx Hx) as (Hnx & _ & Hself & Hback).
      split; [congruence|]. split; [exact Hndx|]. split.
      * rewrite Hs. tauto.
      * intros s Hs'. apply Hs in Hs'. destruct Hs' as [Hin Hsn].
        destruct (Hback s Hin) as (ts & Hts & Hxs).
        destruct (Hkeep s ts Hsn Hts) as (ts' & Hts' & _ & _ & _ & Hss).
        exists ts'. split; [exact Hts'|]. apply Hss. now split.
  - exact Hkeys.
  - unfold cad'. rewrite (remover_time_get cad n n Hnd). now rewrite String.eqb_refl.
  - intros x tx Hxn Hx. destruct (Hkeep x tx Hxn Hx) as (tx' & H1 & H2 & H3 & _ & H5).
    exists tx'. auto.
  - intros x tx' Hx'. destruct (Hfrom x tx' Hx') as (Hxn & tx & Hx).
    destruct (Hkeep x tx Hxn Hx) as (tx1 & Hx1 & _ & _ & _ & Hs).
    assert (tx1 = tx') by congruence. subst tx1. rewrite Hs. tauto.
  - intros Hni. unfold cad', CadastroTimes.remover_time.
    rewrite (dict_pop_absent n cad Hni). apply map_values_id.
    intros k v Hin. apply sem_referencia_noop. intros Hn.
    apply (dict_in_get String.eqb string_eqb_eq _ _ _ Hnd) in Hin.
    destruct (Hall k v Hin) as (_ & _ & _ & Hback).
    destruct (Hback n Hn) as (tn & Htn & _).
    apply Hni. apply (in_keys_get String.eqb string_eqb_eq). eauto.
Qed.

Lemma removal_leaves_no_reference_witness :
  CadastroTimes.remover_time Casos.cadAB "Alpha" = [("Beta", mkTime "Beta" 3 [])] /\
  CadastroTimes.coerente [("Beta", mkTime "Beta" 3 [])].
Proof.
  split; [reflexivity|].
  exact (proj1 (removal_leaves_no_reference Casos.cadAB "Alpha" cadAB_coerente)).
Defined.

(** *** Validation and the synergy matrix *)

Lemma fold_set_tabulate {V} (f : string -> V) (l : list string)
    (acc : Py.dict string V) :
  NoDup (Py.dict_keys acc ++ l) ->
  fold_left (fun d b => Py.dict_set String.eqb b (f b) d) l acc =
  (acc ++ map (fun b => (b, f b)) l)%list.
Proof.
  revert acc. induction l as [|b l IH]; intros acc Hnd; simpl.
  - now rewrite app_nil_r.
  - rewrite (dict_set_keys_new String.eqb string_eqb_eq).
    + rewrite IH.
      * now rewrite <- app_assoc.
      * unfold Py.dict_keys. rewrite map_app, <- app_assoc. exact Hnd.
    + apply NoDup_remove_2 in Hnd. intros H. apply Hnd. apply in_or_app. now left.
Qed.

Lemma get_tabulate {V} (f : string -> V) (l : list string) (k : string) :
  In k l -> Py.dict_get String.eqb k (map (fun b => (b, f b)) l) = Some (f k).
Proof.
  induction l as [|b l IH]; [intros []|].
  intros H. cbn [map Py.dict_get].
  destruct (String.eqb_spec k b) as [-> | E]; [reflexivity|].
  apply IH. destruct H as [-> | H]; [congruence | assumption].
Qed.

Lemma celula_ok (cad : Cadastro.CadastroTimesSinergias) (a b : string) (ta : Time) :
  Py.dict_get String.eqb a cad = Some ta ->
  CadastroTimes.celula cad a b =
  inr (if String.eqb a b || CadastroTimes.contem b (sinergias ta) then 1 else 0).
Proof.
  intros Ha. unfold CadastroTimes.celula, Py.dict_item. rewrite Ha.
  now destruct (String.eqb a b).
Qed.

Lemma values_have_keys {V} (d : Py.dict string V) (v : V) :
  In v (Py.dict_values d) -> NoDup (Py.dict_keys d) ->
  exists k, Py.dict_get String.eqb k d = Some v.
Proof.
  intros Hv Hnd. unfold Py.dict_values in Hv. apply in_map_iff in Hv.
  destruct Hv as ([k v'] & <- & Hin). exists k.
  now apply (dict_in_get String.eqb string_eqb_eq).
Qed.

Lemma validar_coerente (cad : Cadastro.CadastroTimesSinergias) :
  CadastroTimes.coerente cad -> CadastroTimes.validar_cadastro cad = inr true.
Proof.
  intros [Hnd Hall]. unfold CadastroTimes.validar_cadastro.
  rewrite (for_each_pure _ _ (fun _ _ => tt)).
  - reflexivity.
  - intros [] time Htime. destruct (values_have_keys cad time Htime Hnd) as [k Hk].
    destruct (Hall k time Hk) as (_ & _ & _ & Hback).
    rewrite (for_each_pure _ _ (fun _ _ => tt)).
    + unfold Py.ret. f_equal. now destruct (fold_left _ _ _).
    + intros [] s Hs. destruct (Hback s Hs) as (ts & Hts & _).
      unfold CadastroTimes.registado. now rewrite Hts.
Qed.

Lemma matriz_coerente (cad : Cadastro.CadastroTimesSinergias) :
  NoDup (Py.dict_keys cad) ->
  CadastroTimes.obter_matriz_sinergia cad =
  inr (map (fun a =>
              (a, map (fun b =>
                         (b, match Py.dict_get String.eqb a cad with
                             | Some ta =>
                                 if String.eqb a b || CadastroTimes.contem b (sinergias ta)
                                 then 1 else 0
                             | None => 0
                             end))
                      (Py.dict_keys cad)))
           (Py.dict_keys cad)).
Proof.
  intros Hnd. unfold CadastroTimes.obter_matriz_sinergia, CadastroTimes.listar_times.
  set (val := fun a b => match Py.dict_get String.eqb a cad with
                         | Some ta =>
                             if String.eqb a b || CadastroTimes.contem b (sinergias ta)
                             then 1 else 0
                         | None => 0
                         end).
  rewrite (for_each_pure _ _
             (fun matriz a =>
                Py.dict_set String.eqb a
                  (map (fun b => (b, val a b)) (Py.dict_keys cad)) matriz)).
  - unfold Py.ret. f_equal.
    now rewrite (fold_set_tabulate
                   (fun a => map (fun b => (b, val a b)) (Py.dict_keys cad))).
  - intros matriz a Ha.
    apply (in_keys_get String.eqb string_eqb_eq) in Ha. destruct Ha as [ta Hta].
    rewrite (for_each_pure _ _
               (fun linha b => Py.dict_set String.eqb b (val a b) linha)).
    + cbn [Py.bind Py.ret]. unfold Py.ret. do 2 f_equal.
      now rewrite (fold_set_tabulate (val a)).
    + intros linha b _. rewrite (celula_ok cad a b ta Hta). cbn [Py.bind].
      unfold val. now rewrite Hta.
Qed.

(** X16.  A coherent register passes validation, and its synergy matrix
    has a row for each team, in the order of the register, with an entry
    for each pair of teams that is 1 on the diagonal and for the pairs in
    synergy, 0 elsewhere, the same in both directions. *)
Theorem coherent_register_validates (cad : Cadastro.CadastroTimesSinergias) :
  CadastroTimes.coerente cad ->
  CadastroTimes.validar_cadastro cad = inr true /\
  exists matriz,
    CadastroTimes.obter_matriz_sinergia cad = inr matriz /\
    Py.dict_keys matriz = CadastroTimes.listar_times cad /\
    forall a b,
      In a (CadastroTimes.listar_times cad) -> In b (CadastroTimes.listar_times cad) ->
      exists v,
        CadastroTimes.entrada matriz a b = inr v /\
        CadastroTimes.entrada matriz b a = inr v /\
        (v = 0 \/ v = 1) /\
        (v = 1 <->
         a = b \/ exists ta, Py.dict_get String.eqb a cad = Some ta /\ In b (sinergias ta)).
Proof.
  intros Hco. split; [now apply validar_coerente|].
  pose proof Hco as [Hnd Hall].
  eexists. split; [apply (matriz_coerente cad Hnd)|]. split.
  - unfold CadastroTimes.listar_times, Py.dict_keys at 1. rewrite map_map. apply map_id.
  - unfold CadastroTimes.listar_times. intros a b Ha Hb.
    pose proof Ha as Ha'. pose proof Hb as Hb'.
    apply (in_keys_get String.eqb string_eqb_eq) in Ha', Hb'.
    destruct Ha' as [ta Hta], Hb' as [tb Htb].
    exists (if String.eqb a b || CadastroTimes.contem b (sinergias ta) then 1 else 0).
    assert (Hent : forall x y tx, In x (Py.dict_keys cad) -> In y (Py.dict_keys cad) ->
              Py.dict_get String.eqb x cad = Some tx ->
              CadastroTimes.entrada
                (map (fun a0 =>
                   (a0, map (fun b0 =>
                      (b0, match Py.dict_get String.eqb a0 cad with
                           | Some ta0 =>
                               if String.eqb a0 b0 || CadastroTimes.contem b0 (sinergias ta0)
                               then 1 else 0
                           | None => 0
                           end)) (Py.dict_keys cad))) (Py.dict_keys cad)) x y
              = inr (if String.eqb x y || CadastroTimes.contem y (sinergias tx)
                     then 1 else 0)).
    { intros x y tx Hx Hy Htx. unfold CadastroTimes.entrada, Py.dict_item.
      rewrite (get_tabulate _ _ x Hx). cbn [Py.bind Py.ret].
      rewrite (get_tabulate _ _ y Hy). now rewrite Htx. }
    assert (Hsym : String.eqb a b || CadastroTimes.contem b (sinergias ta)
                   = String.eqb b a || CadastroTimes.contem a (sinergias tb)).
    { rewrite (String.eqb_sym b a).
      destruct (String.eqb_spec a b) as [E | E]; [reflexivity|]. cbn [orb].
      destruct (Hall a ta Hta) as (_ & _ & _ & Hba).
      destruct (Hall b tb Htb) as (_ & _ & _ & Hbb).
      destruct (CadastroTimes.contem b (sinergias ta)) eqn:E1;
        destruct (CadastroTimes.contem a (sinergias tb)) eqn:E2; try reflexivity.
      - apply contem_in in E1. destruct (Hba b E1) as (tb' & Htb' & Hin).
        assert (tb' = tb) by congruence. subst. apply contem_in in Hin. congruence.
      - apply contem_in in E2. destruct (Hbb a E2) as (ta' & Hta' & Hin).
        assert (ta' = ta) by congruence. subst. apply contem_in in Hin. congruence. }
    split; [now apply Hent|]. split; [rewrite Hsym; now apply Hent|]. split.
    + destruct (_ || _); auto.
    + destruct (String.eqb_spec a b) as [E | E]; cbn [orb].
      * split; auto.
      * destruct (CadastroTimes.contem b (sinergias ta)) eqn:E1.
        -- apply contem_in in E1. split; eauto.
        -- apply contem_not_in in E1. split; [discriminate|].
           intros [H | (ta' & Hta' & Hin)]; [contradiction|].
           assert (ta' = ta) by congruence. subst. contradiction.
Qed.

Lemma coherent_register_validates_witness :
  CadastroTimes.validar_cadastro Casos.cadAB = inr true.
Proof. exact (proj1 (coherent_register_validates Casos.cadAB cadAB_coerente)). Defined.

(** ** Day preferences *)

Lemma check_dias_spec (ks : list string) :
  match Preferencias.check_dias ks with
  | inr _ => Forall (fun k => In k DIAS_UTEIS) ks
  | inl e => (exists msg, e = Py.ValueError msg) /\
             ~ Forall (fun k => In k DIAS_UTEIS) ks
  end.
Proof.
  induction ks as [|k ks IH]; [constructor|].
  cbn [Preferencias.check_dias].
  destruct (existsb (String.eqb k) DIAS_UTEIS) eqn:E; cbn [negb].
  - assert (Hk : In k DIAS_UTEIS).
    { apply existsb_exists in E. destruct E as (x & Hx & Ex).
      apply String.eqb_eq in Ex. now subst. }
    destruct (Preferencias.check_dias ks) as [e | u].
    + destruct IH as [He Hn]. split; [exact He|]. intros H. inversion H; subst. auto.
    + now constructor.
  - split; [eauto|]. intros H. inversion H as [|? ? Hk _]; subst.
    assert (existsb (String.eqb k) DIAS_UTEIS = true); [|congruence].
    apply existsb_exists. exists k. split; [assumption | apply String.eqb_refl].
Qed.

Lemma pref_init_spec (n : string) (dp : option (Py.dict string bool)) (d : Z) (w : Q) :
  match Preferencias.init n dp d w with
  | inr p =>
      p = Preferencias.mkPref n (Preferencias.dias_ou_padrao dp) d w /\
      0 <= d <= 5 /\
      Forall (fun k => In k DIAS_UTEIS) (Py.dict_keys (Preferencias.dias_ou_padrao dp))
  | inl e =>
      (exists msg, e = Py.ValueError msg) /\
      ~ (0 <= d <= 5 /\
         Forall (fun k => In k DIAS_UTEIS)
                (Py.dict_keys (Preferencias.dias_ou_padrao dp)))
  end.
Proof.
  unfold Preferencias.init. change (Z.of_nat (List.length DIAS_UTEIS)) with 5.
  destruct (Z.ltb_spec d 0) as [H0 | H0]; cbn [orb].
  - split; [eauto | lia].
  - destruct (Z.ltb_spec 5 d) as [H5 | H5].
    + split; [eauto | lia].
    + pose proof (check_dias_spec (Py.dict_keys (Preferencias.dias_ou_padrao dp))) as Hc.
      destruct (Preferencias.check_dias _) as [e | u]; cbn [Py.bind Py.ret].
      * destruct Hc as [He Hn]. split; [exact He | tauto].
      * repeat split; auto.
Qed.

(** X17.  A day preference is constructed exactly when the required days
    lie between 0 and 5 and every day named is a working day; otherwise
    the constructor raises a [ValueError].  The object keeps the
    arguments; with no days given, or an empty dictionary, it marks every
    working day as not preferred. *)
Theorem preference_construction (n : string) (dp : option (Py.dict string bool))
    (d : Z) (w : Q) :
  let dias := Preferencias.dias_ou_padrao dp in
  (Preferencias.init n dp d w = inr (Preferencias.mkPref n dias d w) <->
     0 <= d <= 5 /\ Forall (fun k => In k DIAS_UTEIS) (Py.dict_keys dias)) /\
  ((exists msg, Preferencias.init n dp d w = inl (Py.ValueError msg)) <->
     ~ (0 <= d <= 5 /\ Forall (fun k => In k DIAS_UTEIS) (Py.dict_keys dias))) /\
  (forall p, Preferencias.init n dp d w = inr p -> p = Preferencias.mkPref n dias d w) /\
  (dp = None \/ dp = Some [] ->
   dias = [("Segunda", false); ("Terça", false); ("Quarta", false);
           ("Quinta", false); ("Sexta", false)]).
Proof.
  intros dias. pose proof (pref_init_spec n dp d w) as H.
  fold dias in H.
  destruct (Preferencias.init n dp d w) as [e | p].
  - destruct H as [[msg ->] Hn]. split; [|split; [|split]].
    + split; [discriminate | tauto].
    + split; [auto | eauto].
    + discriminate.
    + intros [-> | ->]; reflexivity.
  - destruct H as (-> & Hv). split; [|split; [|split]].
    + split; [auto | reflexivity].
    + split; [intros [msg H]; discriminate | tauto].
    + now intros p [= <-].
    + intros [-> | ->]; reflexivity.
Qed.

Lemma count_true_bounds (l : list bool) (acc : Z) :
  acc <= fold_left (fun a (v : bool) => a + (if v then 1 else 0)) l acc
      <= acc + Z.of_nat (List.length l).
Proof.
  revert acc. induction l as [|v l IH]; intros acc; cbn [fold_left List.length].
  - lia.
  - specialize (IH (acc + (if v then 1 else 0))). rewrite Nat2Z.inj_succ.
    destruct v; lia.
Qed.

(** X18.  A constructed preference whose dictionary names no day twice
    counts between 0 and 5 preferred days. *)
Theorem preference_count_bounded (p : Preferencias.PreferenciaDia) :
  Preferencias.construida p ->
  NoDup (Py.dict_keys (Preferencias.dias_preferenciais p)) ->
  0 <= Preferencias.contar_preferencias p <= 5 /\
  0 <= Preferencias.dias_obrigatorios p <= 5.
Proof.
  intros (n & dp & d & w & Hinit) Hnd.
  pose proof (pref_init_spec n dp d w) as H. rewrite Hinit in H.
  destruct H as (-> & Hd & Hk). cbn [Preferencias.dias_preferenciais
    Preferencias.dias_obrigatorios] in *. split; [|exact Hd].
  unfold Preferencias.contar_preferencias. cbn [Preferencias.dias_preferenciais].
  pose proof (count_true_bounds (Py.dict_values (Preferencias.dias_ou_padrao dp)) 0) as Hc.
  assert (Hlen : (List.length (Py.dict_values (Preferencias.dias_ou_padrao dp)) <= 5)%nat).
  { unfold Py.dict_values. rewrite length_map.
    rewrite <- (length_map fst). change 5%nat with (List.length DIAS_UTEIS).
    apply NoDup_incl_length; [exact Hnd|].
    intros k Hin. rewrite Forall_forall in Hk. now apply Hk. }
  lia.
Qed.

Lemma preference_count_bounded_witness :
  0 <= Preferencias.contar_preferencias
         (Preferencias.mkPref "Alpha" [("Segunda", true); ("Sexta", true)] 2 1) <= 5 /\
  0 <= 2 <= 5.
Proof.
  apply (preference_count_bounded
           (Preferencias.mkPref "Alpha" [("Segunda", true); ("Sexta", true)] 2 1)).
  - exists "Alpha", (Some [("Segunda", true); ("Sexta", true)]), 2, 1%Q. reflexivity.
  - repeat constructor; simpl; intuition discriminate.
Defined.

Lemma validar_preferencias_ok (cad : Preferencias.CadastroPreferenciasDias) :
  Forall Preferencias.construida (Py.dict_values cad) ->
  Preferencias.validar_preferencias cad = inr true.
Proof.
  intros Hall. unfold Preferencias.validar_preferencias.
  rewrite (for_each_pure _ _ (fun _ _ => tt)); [reflexivity|].
  intros [] pref Hp. rewrite Forall_forall in Hall.
  destruct (Hall pref Hp) as (n & dp & d & w & Hinit).
  pose proof (pref_init_spec n dp d w) as H. rewrite Hinit in H.
  destruct H as (-> & Hd & _). cbn [Preferencias.dias_obrigatorios].
  change (Z.of_nat (List.length DIAS_UTEIS)) with 5.
  destruct (Z.ltb_spec 5 d); [lia | reflexivity].
Qed.

(** X19.  A register of preferences whose entries were all constructed
    passes validation.  For a preference and a register, adding succeeds
    exactly when the name is new and updating exactly when it is
    registered, each failing with a [ValueError] otherwise; after either
    the name looks up the preference, every other name looks up what it
    did, and a register of constructed preferences stays one when the
    preference is constructed. *)
Theorem preference_register (cad : Preferencias.CadastroPreferenciasDias)
    (pref : Preferencias.PreferenciaDia) :
  (Forall Preferencias.construida (Py.dict_values cad) ->
   Preferencias.validar_preferencias cad = inr true) /\
  ((exists cad', Preferencias.adicionar_preferencia cad pref = inr cad') <->
     ~ In (Preferencias.nome pref) (Py.dict_keys cad)) /\
  ((exists cad', Preferencias.atualizar_preferencia cad pref = inr cad') <->
     In (Preferencias.nome pref) (Py.dict_keys cad)) /\
  (forall e, Preferencias.adicionar_preferencia cad pref = inl e \/
             Preferencias.atualizar_preferencia cad pref = inl e ->
     exists msg, e = Py.ValueError msg) /\
  (forall cad', Preferencias.adicionar_preferencia cad pref = inr cad' \/
                Preferencias.atualizar_preferencia cad pref = inr cad' ->
     Py.dict_get String.eqb (Preferencias.nome pref) cad' = Some pref /\
     (forall x, x <> Preferencias.nome pref ->
        Py.dict_get String.eqb x cad' = Py.dict_get String.eqb x cad) /\
     (Preferencias.construida pref ->
      Forall Preferencias.construida (Py.dict_values cad) ->
      Forall Preferencias.construida (Py.dict_values cad') /\
      Preferencias.validar_preferencias cad' = inr true)).
Proof.
  split; [apply validar_preferencias_ok|].
  unfold Preferencias.adicionar_preferencia, Preferencias.atualizar_preferencia.
  rewrite (in_keys_get String.eqb string_eqb_eq).
  destruct (Py.dict_get String.eqb (Preferencias.nome pref) cad) as [p0|] eqn:E.
  - split; [|split; [|split]].
    + split; [intros [c H]; discriminate | intros H; elim H; eauto].
    + split; eauto.
    + intros e [[= <-] | H]; [eauto | discriminate].
    + intros cad' [H | [= <-]]; [discriminate|].
      split; [apply dict_set_get_same, string_eqb_eq|]. split.
      * intros x Hx. rewrite (dict_set_get String.eqb string_eqb_eq).
        destruct (String.eqb_spec x (Preferencias.nome pref)); [contradiction | reflexivity].
      * intros Hc Hall.
        assert (Hall' : Forall Preferencias.construida
                  (Py.dict_values
                     (Py.dict_set String.eqb (Preferencias.nome pref) pref cad)))
          by now apply dict_set_values_forall.
        split; [exact Hall' | now apply validar_preferencias_ok].
  - split; [|split; [|split]].
    + split; [intros _ [v H]; discriminate | eauto].
    + split; [intros [c H]; discriminate | intros [v H]; discriminate].
    + intros e [H | [= <-]]; [discriminate | eauto].
    + intros cad' [[= <-] | H]; [|discriminate].
      split; [apply dict_set_get_same, string_eqb_eq|]. split.
      * intros x Hx. rewrite (dict_set_get String.eqb string_eqb_eq).
        destruct (String.eqb_spec x (Preferencias.nome pref)); [contradiction | reflexivity].
      * intros Hc Hall.
        assert (Hall' : Forall Preferencias.construida
                  (Py.dict_values
                     (Py.dict_set String.eqb (Preferencias.nome pref) pref cad)))
          by now apply dict_set_values_forall.
        split; [exact Hall' | now apply validar_preferencias_ok].
Qed.

(** ** The layout preview and its validation *)

Lemma fold_set_tabulate_key {A V} (key : A -> string) (f : A -> V) (l : list A)
    (acc : Py.dict string V) :
  NoDup (Py.dict_keys acc ++ map key l) ->
  fold_left (fun d c => Py.dict_set String.eqb (key c) (f c) d) l acc =
  (acc ++ map (fun c => (key c, f c)) l)%list.
Proof.
  revert acc. induction l as [|b l IH]; intros acc Hnd; simpl.
  - now rewrite app_nil_r.
  - simpl in Hnd. rewrite (dict_set_keys_new String.eqb string_eqb_eq).
    + rewrite IH.
      * now rewrite <- app_assoc.
      * unfold Py.dict_keys. rewrite map_app, <- app_assoc. exact Hnd.
    + apply NoDup_remove_2 in Hnd. intros H. apply Hnd. apply in_or_app. now left.
Qed.

Lemma corredores_nodup (n : Z) : NoDup (map Exec.corredor_nome (Py.range 1 (n + 1))).
Proof.
  apply Injective_map_NoDup; [|apply range_nodup].
  intros x y. apply corredor_nome_inj.
Qed.

Lemma preview_closed (l : LayoutConfiguration) :
  Z.of_nat (List.length (tables_per_corridor l)) = num_corridors l ->
  Previa.generate_layout_preview l =
  inr (map (fun c =>
              (Exec.corredor_nome c,
               map (fun i => mkTableConfig i (positions_per_table l))
                   (Py.range 1 (nth (Z.to_nat (c - 1)) (tables_per_corridor l) 0 + 1))))
           (Py.range 1 (num_corridors l + 1))).
Proof.
  intros Hlen. unfold Previa.generate_layout_preview.
  rewrite (for_each_pure _ _
             (fun preview c =>
                Py.dict_set String.eqb (Exec.corredor_nome c)
                  (map (fun i => mkTableConfig i (positions_per_table l))
                       (Py.range 1 (nth (Z.to_nat (c - 1)) (tables_per_corridor l) 0 + 1)))
                  preview)).
  - unfold Py.ret. f_equal.
    rewrite (fold_set_tabulate_key Exec.corredor_nome
               (fun c => map (fun i => mkTableConfig i (positions_per_table l))
                  (Py.range 1 (nth (Z.to_nat (c - 1)) (tables_per_corridor l) 0 + 1)))).
    + reflexivity.
    + apply corredores_nodup.
  - intros preview c Hc. apply range_in in Hc.
    rewrite index_nth by lia. reflexivity.
Qed.

Lemma lugares_tabulate (l : LayoutConfiguration) (cs : list Z) :
  Forall (fun c => 0 <= nth (Z.to_nat (c - 1)) (tables_per_corridor l) 0) cs ->
  Previa.lugares
    (map (fun c =>
            (Exec.corredor_nome c,
             map (fun i => mkTableConfig i (positions_per_table l))
                 (Py.range 1 (nth (Z.to_nat (c - 1)) (tables_per_corridor l) 0 + 1))))
         cs)
  = fold_right Z.add 0
      (map (fun c => nth (Z.to_nat (c - 1)) (tables_per_corridor l) 0) cs)
    * positions_per_table l.
Proof.
  unfold Previa.lugares. induction 1 as [|c cs Hc _ IH]; [reflexivity|].
  cbn [map fold_right snd]. rewrite IH.
  assert (E : forall r : list Z,
            fold_right Z.add 0
              (map positions (map (fun i => mkTableConfig i (positions_per_table l)) r))
            = Z.of_nat (List.length r) * positions_per_table l).
  { induction r as [|x r IHr]; cbn [map fold_right List.length positions]; [lia|].
    rewrite IHr, Nat2Z.inj_succ. lia. }
  rewrite E, range_length, Z2Nat.id by lia.
  replace (nth (Z.to_nat (c - 1)) (tables_per_corridor l) 0 + 1 - 1)
    with (nth (Z.to_nat (c - 1)) (tables_per_corridor l) 0) by lia.
  lia.
Qed.

Lemma sum_tables_by_corridor (l : LayoutConfiguration) :
  Z.of_nat (List.length (tables_per_corridor l)) = num_corridors l ->
  fold_right Z.add 0
    (map (fun c => nth (Z.to_nat (c - 1)) (tables_per_corridor l) 0)
         (Py.range 1 (num_corridors l + 1)))
  = fold_right Z.add 0 (tables_per_corridor l).
Proof.
  intros Hlen. unfold Py.range.
  replace (Z.to_nat (num_corridors l + 1 - 1))
    with (List.length (tables_per_corridor l)) by lia.
  rewrite map_map.
  transitivity (fold_right Z.add 0
                  (map (fun i => nth i (tables_per_corridor l) 0)
                       (seq 0 (List.length (tables_per_corridor l)))));
    [|now rewrite nth_seq_all].
  f_equal. apply map_ext. intros i.
  now replace (Z.to_nat (1 + Z.of_nat i - 1)) with i by lia.
Qed.

(** X20.  On a valid layout the preview is produced, with one key per
    corridor, in order, named as the engine names corridors; under a
    corridor it lists the tables 1 to the table count of the corridor,
    each with the positions per table.  The tables listed are the tables
    of the engine, and the positions listed add up to the engine's seat
    capacity. *)
Theorem preview_lists_the_venue (l : LayoutConfiguration)
    (cad : Cadastro.CadastroTimesSinergias) (c : ConfiguracaoModelo)
    (self : ExecucaoModelo) :
  Layout.well_formed l -> Exec.init l cad c = inr self ->
  exists preview,
    Previa.generate_layout_preview l = inr preview /\
    Py.dict_keys preview = map Exec.corredor_nome (Py.range 1 (num_corridors l + 1)) /\
    (forall n, 1 <= n <= num_corridors l ->
       Py.dict_get String.eqb (Exec.corredor_nome n) preview =
       Some (map (fun i => mkTableConfig i (positions_per_table l))
               (Py.range 1 (nth (Z.to_nat (n - 1)) (tables_per_corridor l) 0 + 1)))) /\
    (forall cor i,
       (exists tables, Py.dict_get String.eqb cor preview = Some tables /\
                       In (mkTableConfig i (positions_per_table l)) tables) <->
       Py.dict_get String.eqb (Exec.mesa_id cor i) (mesas self) = Some (cor, i)) /\
    Previa.lugares preview = cap_total self.
Proof.
  intros Hwf Hinit. pose proof Hwf as (Hn & Hp & Hlen & Hpos).
  eexists. split; [apply (preview_closed l Hlen)|].
  set (tables := fun n => map (fun i => mkTableConfig i (positions_per_table l))
                   (Py.range 1 (nth (Z.to_nat (n - 1)) (tables_per_corridor l) 0 + 1))).
  assert (Hkeys : Py.dict_keys
            (map (fun c0 => (Exec.corredor_nome c0, tables c0))
                 (Py.range 1 (num_corridors l + 1)))
          = map Exec.corredor_nome (Py.range 1 (num_corridors l + 1))).
  { unfold Py.dict_keys. now rewrite map_map. }
  assert (Hget : forall n, 1 <= n <= num_corridors l ->
            Py.dict_get String.eqb (Exec.corredor_nome n)
              (map (fun c0 => (Exec.corredor_nome c0, tables c0))
                   (Py.range 1 (num_corridors l + 1))) = Some (tables n)).
  { intros n Hr. apply (dict_in_get String.eqb string_eqb_eq).
    - rewrite Hkeys. apply corredores_nodup.
    - apply in_map_iff. exists n. split; [reflexivity | apply range_in; lia]. }
  assert (Hmesas : mesas self = Exec.mesas_table l).
  { rewrite (exec_init_well_formed cad c Hwf) in Hinit. now injection Hinit as <-. }
  split; [exact Hkeys|]. split; [exact Hget|]. split.
  - intros cor i. rewrite Hmesas. split.
    + intros (tb & Hg & Hin).
      apply (dict_get_in String.eqb string_eqb_eq) in Hg.
      apply in_map_iff in Hg. destruct Hg as (n & [= <- <-] & Hr).
      apply range_in in Hr. apply in_map_iff in Hin.
      destruct Hin as (j & [= ->] & Hj). apply range_in in Hj.
      apply (dict_in_get String.eqb string_eqb_eq); [apply mesas_table_keys_nodup|].
      apply in_mesas_table. unfold Exec.is_table. lia.
    + intros Hg. apply (dict_get_in String.eqb string_eqb_eq) in Hg.
      apply mesas_table_in in Hg. destruct Hg as (n & [Hr Hi] & -> & _).
      exists (tables n). split; [now apply Hget|].
      apply in_map_iff. exists i. split; [reflexivity | apply range_in; lia].
  - destruct (init_capacity l cad c self Hwf Hinit) as (-> & _).
    unfold tables. rewrite lugares_tabulate.
    + rewrite (sum_tables_by_corridor l Hlen). unfold Main.max_seats.
      now rewrite fold_left_add_zero.
    + apply Forall_forall. intros n Hr. apply range_in in Hr.
      rewrite Forall_forall in Hpos.
      assert (0 < nth (Z.to_nat (n - 1)) (tables_per_corridor l) 0); [|lia].
      apply Hpos, nth_In. lia.
Qed.

Lemma preview_lists_the_venue_witness :
  exists preview,
    Previa.generate_layout_preview Exemplo.layoutA = inr preview /\
    Previa.lugares preview = cap_total Exemplo.execA.
Proof.
  destruct (preview_lists_the_venue Exemplo.layoutA Exemplo.cadA Exemplo.cfgA
              Exemplo.execA layoutA_well_formed eq_refl)
    as (preview & H1 & _ & _ & _ & H2).
  exists preview. now split.
Defined.

(** X21.  The validation function accepts every layout the constructor
    returns.  It accepts a layout exactly when the corridors and the
    positions per table are positive and the list of table counts has
    one entry per corridor, and raises a [ValueError] otherwise; the
    table counts themselves it does not inspect. *)
Theorem validation_accepts_constructed_layouts (l : LayoutConfiguration) :
  (Previa.validate_layout_configuration l = inr true <->
     0 < num_corridors l /\ 0 < positions_per_table l /\
     Z.of_nat (List.length (tables_per_corridor l)) = num_corridors l) /\
  ((exists msg, Previa.validate_layout_configuration l = inl (Py.ValueError msg)) <->
     ~ (0 < num_corridors l /\ 0 < positions_per_table l /\
        Z.of_nat (List.length (tables_per_corridor l)) = num_corridors l)) /\
  (forall n tpc ppt, Layout.init n tpc ppt = inr l ->
     Previa.validate_layout_configuration l = inr true) /\
  (forall tpc, List.length tpc = List.length (tables_per_corridor l) ->
     Previa.validate_layout_configuration
       (mkLayout (num_corridors l) tpc (positions_per_table l))
     = Previa.validate_layout_configuration l).
Proof.
  assert (Hv : forall l0,
            match Previa.validate_layout_configuration l0 with
            | inr b => b = true /\ 0 < num_corridors l0 /\ 0 < positions_per_table l0 /\
                       Z.of_nat (List.length (tables_per_corridor l0)) = num_corridors l0
            | inl e => (exists msg, e = Py.ValueError msg) /\
                       ~ (0 < num_corridors l0 /\ 0 < positions_per_table l0 /\
                          Z.of_nat (List.length (tables_per_corridor l0)) = num_corridors l0)
            end).
  { intros l0. unfold Previa.validate_layout_configuration.
    destruct (Z.leb_spec (num_corridors l0) 0); [split; [eauto | lia]|].
    destruct (Z.leb_spec (positions_per_table l0) 0); [split; [eauto | lia]|].
    destruct (Z.eqb_spec (Z.of_nat (List.length (tables_per_corridor l0)))
                (num_corridors l0)); cbn [negb]; [|split; [eauto | lia]].
    repeat split; auto. }
  pose proof (Hv l) as H. split; [|split; [|split]].
  - destruct (Previa.validate_layout_configuration l) as [e | b].
    + split; [discriminate | destruct H; tauto].
    + destruct H as (-> & H). split; auto.
  - destruct (Previa.validate_layout_configuration l) as [e | b].
    + destruct H as [[msg ->] Hn]. split; eauto.
    + destruct H as (_ & H). split; [intros [msg Hm]; discriminate | tauto].
  - intros n tpc ppt Hinit.
    destruct (Previa.validate_layout_configuration l) as [e | b].
    + exfalso. destruct H as [_ Hn]. apply Hn.
      destruct (@layout_init_well_formed n tpc ppt l Hinit) as (_ & Hwn & Hwp & Hwl & _). auto.
    + now destruct H as (-> & _).
  - intros tpc Hlen. unfold Previa.validate_layout_configuration.
    cbn [num_corridors positions_per_table tables_per_corridor]. now rewrite Hlen.
Qed.

(** ** The configuration constructor *)

Lemma qltb_zero (q : Q) : Py.Qltb q 0 = false <-> (0 <= q)%Q.
Proof.
  unfold Py.Qltb. rewrite negb_false_iff. apply Qle_bool_iff.
Qed.

Lemma check_pesos_spec (l : Py.dict string Q) :
  match Config.check_pesos l with
  | inr _ => Forall (fun kv => (0 <= snd kv)%Q) l
  | inl e => (exists msg, e = Py.ValueError msg) /\
             ~ Forall (fun kv => (0 <= snd kv)%Q) l
  end.
Proof.
  induction l as [|[n p] l IH]; [constructor|].
  cbn [Config.check_pesos]. destruct (Py.Qltb p 0) eqn:E.
  - split; [eauto|]. intros H. inversion H as [|? ? Hp _]; subst.
    apply qltb_zero in Hp. cbn [snd] in Hp. congruence.
  - apply qltb_zero in E. destruct (Config.check_pesos l) as [e | u].
    + destruct IH as [He Hn]. split; [exact He|]. intros H. inversion H; subst. auto.
    + now constructor.
Qed.

Lemma config_init_spec (fo : string) (pesos : Py.dict string Q) (lim : Q)
    (folga : Z) (pd : Q) (r : option (list Z)) (rr : option (Py.dict string bool)) :
  match Config.init fo pesos lim folga pd r rr with
  | inr cfg =>
      cfg = mkConfig fo pesos lim folga pd
              (Py.sorted (Py.set_of (Config.cenarios_pedidos r)))
              (match rr with Some d => d | None => [] end) /\
      In fo Config.OBJETIVOS_VALIDOS /\ (0 <= lim)%Q /\
      Forall (fun kv => (0 <= snd kv)%Q) pesos /\ 0 <= folga /\ (0 <= pd)%Q
  | inl e =>
      (exists msg, e = Py.ValueError msg) /\
      ~ (In fo Config.OBJETIVOS_VALIDOS /\ (0 <= lim)%Q /\
         Forall (fun kv => (0 <= snd kv)%Q) pesos /\ 0 <= folga /\ (0 <= pd)%Q)
  end.
Proof.
  unfold Config.init.
  destruct (existsb (String.eqb fo) Config.OBJETIVOS_VALIDOS) eqn:Efo; cbn [negb].
  - assert (Hfo : In fo Config.OBJETIVOS_VALIDOS).
    { apply existsb_exists in Efo. destruct Efo as (x & Hx & Ex).
      apply String.eqb_eq in Ex. now subst. }
    destruct (Py.Qltb lim 0) eqn:Elim.
    + split; [eauto|]. intros (_ & H & _). apply qltb_zero in H. congruence.
    + apply qltb_zero in Elim. pose proof (check_pesos_spec pesos) as Hp.
      destruct (Config.check_pesos pesos) as [e | u]; cbn [Py.bind].
      * destruct Hp as [He Hn]. split; [exact He | tauto].
      * destruct (Z.ltb_spec folga 0) as [Hf | Hf].
        -- split; [eauto | lia].
        -- destruct (Py.Qltb pd 0) eqn:Epd.
           ++ split; [eauto|]. intros (_ & _ & _ & _ & H).
              apply qltb_zero in H. congruence.
           ++ apply qltb_zero in Epd. split; [|auto].
              unfold Py.ret. do 2 f_equal. now destruct rr as [[|]|].
  - split; [eauto|]. intros (H & _).
    assert (existsb (String.eqb fo) Config.OBJETIVOS_VALIDOS = true); [|congruence].
    apply existsb_exists. exists fo. split; [assumption | apply String.eqb_refl].
Qed.

(** X22.  The configuration is constructed exactly when the objective is
    one of the three valid names and the over-allocation limit, every
    constraint weight, the minimum slack and the distance weight are not
    negative; otherwise the constructor raises a [ValueError].  The
    object keeps the arguments, with the scenarios sorted and without
    repetition and an absent dictionary of reallocation restrictions
    read as empty; the list of scenarios never makes it fail. *)
Theorem configuration_construction (fo : string) (pesos : Py.dict string Q)
    (lim : Q) (folga : Z) (pd : Q) (r : option (list Z))
    (rr : option (Py.dict string bool)) :
  ((exists cfg, Config.init fo pesos lim folga pd r rr = inr cfg) <->
     In fo Config.OBJETIVOS_VALIDOS /\ (0 <= lim)%Q /\
     Forall (fun kv => (0 <= snd kv)%Q) pesos /\ 0 <= folga /\ (0 <= pd)%Q) /\
  ((exists msg, Config.init fo pesos lim folga pd r rr = inl (Py.ValueError msg)) <->
     ~ (In fo Config.OBJETIVOS_VALIDOS /\ (0 <= lim)%Q /\
        Forall (fun kv => (0 <= snd kv)%Q) pesos /\ 0 <= folga /\ (0 <= pd)%Q)) /\
  (forall cfg, Config.init fo pesos lim folga pd r rr = inr cfg ->
     cfg = mkConfig fo pesos lim folga pd
             (Py.sorted (Py.set_of (Config.cenarios_pedidos r)))
             (match rr with Some d => d | None => [] end)) /\
  (forall r', (exists cfg, Config.init fo pesos lim folga pd r rr = inr cfg) <->
              (exists cfg, Config.init fo pesos lim folga pd r' rr = inr cfg)).
Proof.
  pose proof (config_init_spec fo pesos lim folga pd r rr) as H.
  assert (Hr : forall r',
            (exists cfg, Config.init fo pesos lim folga pd r' rr = inr cfg) <->
            In fo Config.OBJETIVOS_VALIDOS /\ (0 <= lim)%Q /\
            Forall (fun kv => (0 <= snd kv)%Q) pesos /\ 0 <= folga /\ (0 <= pd)%Q).
  { intros r'. pose proof (config_init_spec fo pesos lim folga pd r' rr) as H'.
    destruct (Config.init fo pesos lim folga pd r' rr) as [e | cfg].
    - split; [intros [c Hc]; discriminate | tauto].
    - split; [tauto | eauto]. }
  split; [apply Hr|]. split; [|split].
  - destruct (Config.init fo pesos lim folga pd r rr) as [e | cfg].
    + destruct H as [[msg ->] Hn]. split; eauto.
    + split; [intros [msg Hm]; discriminate | tauto].
  - intros cfg Hc. rewrite Hc in H. tauto.
  - intros r'. now rewrite (Hr r), (Hr r').
Qed.

(** ** Strings: numerals, splitting, stripping *)

Lemma numeral_char_false (c : ascii) :
  Str.numeral_char c = false ->
  forall a, In a ["0"; "1"; "2"; "3"; "4"; "5"; "6"; "7"; "8"; "9"; "-"]%char ->
  Ascii.eqb a c = false.
Proof.
  unfold Str.numeral_char. intros H a Ha.
  destruct (Ascii.eqb a c) eqn:E; [|reflexivity].
  apply Ascii.eqb_eq in E. subst a.
  assert (existsb (Ascii.eqb c)
            ["0"; "1"; "2"; "3"; "4"; "5"; "6"; "7"; "8"; "9"; "-"]%char = true);
    [|congruence].
  apply existsb_exists. exists c. split; [assumption | apply Ascii.eqb_refl].
Qed.

Lemma uint_free (c : ascii) (d : Decimal.uint) :
  Str.numeral_char c = false -> Py.occurs c (NilEmpty.string_of_uint d) = false.
Proof.
  intros H. pose proof (numeral_char_false c H) as Hd.
  induction d; cbn [NilEmpty.string_of_uint Py.occurs]; try reflexivity;
    rewrite IHd, orb_false_r; apply Hd; simpl; tauto.
Qed.

Lemma str_free_char (c : ascii) (n : Z) :
  Str.numeral_char c = false -> Py.occurs c (Py.str n) = false.
Proof.
  intros H. pose proof (numeral_char_false c H) as Hd.
  assert (Hz : Py.occurs c "0" = false).
  { cbn [Py.occurs]. rewrite orb_false_r. apply Hd. simpl. tauto. }
  assert (Hu : forall d, Py.occurs c (NilZero.string_of_uint d) = false).
  { intros d. destruct d; try apply (uint_free c _ H). exact Hz. }
  unfold Py.str. destruct (Z.to_int n) as [d | d].
  - apply Hu.
  - change (NilZero.string_of_int (Decimal.Neg d))
      with (String "-" (NilZero.string_of_uint d)).
    cbn [Py.occurs]. rewrite Hu, orb_false_r. apply Hd. simpl. tauto.
Qed.

Lemma corredor_nome_free_char (c : ascii) (n : Z) :
  Str.numeral_char c = false -> Py.occurs c "Corredor " = false ->
  Py.occurs c (Exec.corredor_nome n) = false.
Proof.
  intros H1 H2. unfold Exec.corredor_nome.
  now rewrite occurs_append, H2, str_free_char.
Qed.

Lemma str_nonempty (n : Z) : Py.str n <> EmptyString.
Proof.
  intros H. pose proof (int_str n) as Hi. rewrite H in Hi. discriminate.
Qed.

Lemma prefix_empty (s : string) : String.prefix EmptyString s = true.
Proof. now destruct s. Qed.

Lemma prefix_cons (a b : ascii) (p s : string) :
  String.prefix (String a p) (String b s) = Ascii.eqb a b && String.prefix p s.
Proof.
  change (String.prefix (String a p) (String b s))
    with (if Ascii.ascii_dec a b then String.prefix p s else false).
  destruct (Ascii.ascii_dec a b) as [-> | E].
  - now rewrite Ascii.eqb_refl.
  - apply Ascii.eqb_neq in E. now rewrite E.
Qed.

(** *** One-character separators *)

Lemma split1_free (c : ascii) (cur s : string) :
  Py.occurs c s = false ->
  Py.split_go (String c EmptyString) 0 cur s = [cur ++ s].
Proof.
  revert cur. induction s as [|a s IH]; intros cur H.
  - simpl. now rewrite append_empty_r.
  - cbn [Py.occurs] in H. apply orb_false_iff in H. destruct H as [Ha Hs].
    rewrite split_go_cons, prefix_cons, (Ascii.eqb_sym c a), Ha. cbn [andb].
    rewrite IH by assumption. now rewrite append_assoc_str.
Qed.

Lemma split1_cut (c : ascii) (cur s1 s2 : string) :
  Py.occurs c s1 = false ->
  Py.split_go (String c EmptyString) 0 cur (s1 ++ String c s2) =
  (cur ++ s1) :: Py.split_go (String c EmptyString) 0 EmptyString s2.
Proof.
  revert cur. induction s1 as [|a s1 IH]; intros cur H.
  - cbn [String.append]. rewrite split_go_cons, prefix_cons, Ascii.eqb_refl, prefix_empty.
    cbn [andb String.length Nat.sub]. now rewrite append_empty_r.
  - cbn [Py.occurs] in H. apply orb_false_iff in H. destruct H as [Ha Hs].
    cbn [String.append].
    rewrite split_go_cons, prefix_cons, (Ascii.eqb_sym c a), Ha. cbn [andb].
    rewrite IH by assumption. now rewrite append_assoc_str.
Qed.

(** *** Two-character separators whose first character the pieces lack *)

Lemma split2_free (a b : ascii) (cur s : string) :
  Py.occurs a s = false ->
  Py.split_go (String a (String b EmptyString)) 0 cur s = [cur ++ s].
Proof.
  revert cur. induction s as [|x s IH]; intros cur H.
  - simpl. now rewrite append_empty_r.
  - cbn [Py.occurs] in H. apply orb_false_iff in H. destruct H as [Hx Hs].
    rewrite split_go_cons, prefix_cons, (Ascii.eqb_sym a x), Hx. cbn [andb].
    rewrite IH by assumption. now rewrite append_assoc_str.
Qed.

Lemma split2_cut (a b : ascii) (cur s1 s2 : string) :
  Py.occurs a s1 = false ->
  Py.split_go (String a (String b EmptyString)) 0 cur
    (s1 ++ String a (String b s2)) =
  (cur ++ s1) :: Py.split_go (String a (String b EmptyString)) 0 EmptyString s2.
Proof.
  revert cur. induction s1 as [|x s1 IH]; intros cur H.
  - cbn [String.append].
    rewrite split_go_cons, !prefix_cons, !Ascii.eqb_refl, prefix_empty.
    cbn [andb String.length Nat.sub]. now rewrite append_empty_r.
  - cbn [Py.occurs] in H. apply orb_false_iff in H. destruct H as [Hx Hs].
    cbn [String.append].
    rewrite split_go_cons, prefix_cons, (Ascii.eqb_sym a x), Hx. cbn [andb].
    rewrite IH by assumption. now rewrite append_assoc_str.
Qed.

(** *** Removal and reversal *)

Lemma remove_free (c : ascii) (s : string) :
  Py.occurs c s = false -> Str.remove c s = s.
Proof.
  induction s as [|a s IH]; [reflexivity|].
  cbn [Py.occurs Str.remove]. intros H. apply orb_false_iff in H.
  destruct H as [Ha Hs]. now rewrite Ha, IH.
Qed.

Lemma rev_append (s1 s2 : string) :
  Str.rev (s1 ++ s2) = Str.rev s2 ++ Str.rev s1.
Proof.
  induction s1 as [|a s1 IH]; cbn [String.append Str.rev].
  - now rewrite append_empty_r.
  - now rewrite IH, append_assoc_str.
Qed.

Lemma rev_involutive (s : string) : Str.rev (Str.rev s) = s.
Proof.
  induction s as [|a s IH]; [reflexivity|].
  cbn [Str.rev]. rewrite rev_append, IH. reflexivity.
Qed.

Lemma occurs_rev (c : ascii) (s : string) : Py.occurs c (Str.rev s) = Py.occurs c s.
Proof.
  induction s as [|a s IH]; [reflexivity|].
  cbn [Str.rev Py.occurs]. rewrite occurs_append, IH. cbn [Py.occurs].
  rewrite orb_false_r. apply orb_comm.
Qed.

(** The last character of a numeral is a numeral character. *)
Lemma str_rev_shape (n : Z) :
  exists d s, Str.rev (Py.str n) = String d s /\ Str.numeral_char d = true.
Proof.
  destruct (Str.rev (Py.str n)) as [|d s] eqn:E.
  - exfalso. apply (str_nonempty n). rewrite <- (rev_involutive (Py.str n)), E.
    reflexivity.
  - exists d, s. split; [reflexivity|].
    destruct (Str.numeral_char d) eqn:Ed; [reflexivity|].
    pose proof (str_free_char d n Ed) as Hf.
    rewrite <- occurs_rev, E in Hf. cbn [Py.occurs] in Hf.
    now rewrite Ascii.eqb_refl in Hf.
Qed.

Lemma numeral_char_cases (d : ascii) :
  Str.numeral_char d = true ->
  In d ["0"; "1"; "2"; "3"; "4"; "5"; "6"; "7"; "8"; "9"; "-"]%char.
Proof.
  unfold Str.numeral_char. intros H. apply existsb_exists in H.
  destruct H as (x & Hx & E). apply Ascii.eqb_eq in E. now subst.
Qed.

(** A text that starts with a letter and ends with a numeral is left as
    it is by [strip], and loses one space in front of it. *)
Lemma strip_corredor (n : Z) :
  Str.strip (" " ++ Exec.corredor_nome n) = Exec.corredor_nome n /\
  Str.strip (Exec.corredor_nome n) = Exec.corredor_nome n.
Proof.
  assert (Hl : Str.lstrip (" " ++ Exec.corredor_nome n) = Exec.corredor_nome n).
  { unfold Exec.corredor_nome. generalize (Py.str n). intros s. reflexivity. }
  assert (Hl' : Str.lstrip (Exec.corredor_nome n) = Exec.corredor_nome n).
  { unfold Exec.corredor_nome. generalize (Py.str n). intros s. reflexivity. }
  assert (Hr : Str.rstrip (Exec.corredor_nome n) = Exec.corredor_nome n).
  { unfold Str.rstrip, Exec.corredor_nome. rewrite rev_append.
    destruct (str_rev_shape n) as (d & s & Hrev & Hd).
    apply numeral_char_cases in Hd.
    assert (E : Str.lstrip_go (map Str.rev Str.WHITESPACE) 0
                  (String d s ++ Str.rev "Corredor ")
                = String d s ++ Str.rev "Corredor ").
    { cbn [String.append]. generalize (s ++ Str.rev "Corredor "). intros r.
      simpl in Hd.
      destruct Hd as [<- | [<- | [<- | [<- | [<- | [<- | [<- | [<- | [<- | [<- | [<- | []]]]]]]]]]]];
        reflexivity. }
    rewrite Hrev, E, <- Hrev, <- rev_append. apply rev_involutive. }
  unfold Str.strip. rewrite Hl, Hl'. now split.
Qed.

(** ** Reading the results back *)

(** *** Position keys *)

Lemma rotulos_posicao (c i p : Z) :
  Visualizacao.rotulos
    (Exec.posicao_id (Exec.mesa_id (Exec.corredor_nome c) i) p)
  = inr (Exec.corredor_nome c, i, p).
Proof.
  assert (HM : Str.numeral_char "M" = false) by reflexivity.
  assert (HP : Str.numeral_char "P" = false) by reflexivity.
  assert (Hsplit : Py.split "_"
            (Exec.posicao_id (Exec.mesa_id (Exec.corredor_nome c) i) p)
          = [Exec.corredor_nome c; "M" ++ Py.str i; "P" ++ Py.str p]).
  { unfold Py.split, Exec.posicao_id, Exec.mesa_id.
    rewrite append_assoc_str.
    change ("_M" ++ Py.str i) with (String "_" ("M" ++ Py.str i)).
    change ("_P" ++ Py.str p) with (String "_" ("P" ++ Py.str p)).
    change (String "_" ("M" ++ Py.str i) ++ String "_" ("P" ++ Py.str p))
      with (String "_" (("M" ++ Py.str i) ++ String "_" ("P" ++ Py.str p))).
    rewrite split1_cut by apply corredor_nome_free.
    change (EmptyString ++ Exec.corredor_nome c) with (Exec.corredor_nome c).
    f_equal.
    rewrite split1_cut by (cbn [String.append Py.occurs]; now rewrite str_free).
    change (EmptyString ++ ("M" ++ Py.str i)) with ("M" ++ Py.str i).
    f_equal.
    rewrite split1_free by (cbn [String.append Py.occurs]; now rewrite str_free).
    reflexivity. }
  unfold Visualizacao.rotulos. rewrite Hsplit.
  change (Str.remove "M" ("M" ++ Py.str i)) with (Str.remove "M" (Py.str i)).
  change (Str.remove "P" ("P" ++ Py.str p)) with (Str.remove "P" (Py.str p)).
  rewrite !remove_free by (apply str_free_char; reflexivity).
  now rewrite !int_str.
Qed.

Lemma posicoes_table_in (l : LayoutConfiguration) (pos : string) (mc : string * string) :
  In (pos, mc) (Exec.posicoes_table l (Exec.mesas_table l)) ->
  exists c i p, Exec.is_table l c i /\ 1 <= p <= positions_per_table l /\
    pos = Exec.posicao_id (Exec.mesa_id (Exec.corredor_nome c) i) p /\
    mc = (Exec.mesa_id (Exec.corredor_nome c) i, Exec.corredor_nome c).
Proof.
  unfold Exec.posicoes_table. rewrite in_flat_map.
  intros ([m [cor i]] & Hm & Hin). cbn [fst snd] in Hin.
  apply in_map_iff in Hin. destruct Hin as (p & [= <- <-] & Hp).
  apply range_in in Hp. apply mesas_table_in in Hm.
  destruct Hm as (c & Ht & -> & ->).
  exists c, i, p. split; [exact Ht|]. split; [lia|]. split; reflexivity.
Qed.

Lemma init_posicoes (l : LayoutConfiguration)
    (cad : Cadastro.CadastroTimesSinergias) (cf : ConfiguracaoModelo)
    (self : ExecucaoModelo) :
  Layout.well_formed l -> Exec.init l cad cf = inr self ->
  posicoes self = Exec.posicoes_table l (Exec.mesas_table l).
Proof.
  intros Hwf Hinit. rewrite (exec_init_well_formed cad cf Hwf) in Hinit.
  injection Hinit as <-. cbn [posicoes]. apply lista_posicoes_table.
Qed.

(** X23.  The report of variables reads every seat key of the engine of
    a valid layout back into its parts: the key splits at the
    underscores into exactly three labels, and the labels give the
    corridor name, the table number and the seat number the key was
    built from. *)
Theorem seat_keys_read_back (l : LayoutConfiguration)
    (cad : Cadastro.CadastroTimesSinergias) (cf : ConfiguracaoModelo)
    (self : ExecucaoModelo) (pos : string) :
  Layout.well_formed l -> Exec.init l cad cf = inr self ->
  In pos (Py.dict_keys (posicoes self)) ->
  exists c i p,
    Exec.is_table l c i /\ 1 <= p <= positions_per_table l /\
    pos = Exec.posicao_id (Exec.mesa_id (Exec.corredor_nome c) i) p /\
    Py.dict_get String.eqb pos (posicoes self)
      = Some (Exec.mesa_id (Exec.corredor_nome c) i, Exec.corredor_nome c) /\
    Visualizacao.rotulos pos = inr (Exec.corredor_nome c, i, p).
Proof.
  intros Hwf Hinit Hpos.
  apply (in_keys_get String.eqb string_eqb_eq) in Hpos. destruct Hpos as [mc Hg].
  pose proof Hg as Hin. apply (dict_get_in String.eqb string_eqb_eq) in Hin.
  rewrite (init_posicoes l cad cf self Hwf Hinit) in Hin.
  apply posicoes_table_in in Hin. destruct Hin as (c & i & p & Ht & Hp & -> & ->).
  exists c, i, p. split; [exact Ht|]. split; [exact Hp|]. split; [reflexivity|].
  split; [exact Hg | apply rotulos_posicao].
Qed.

Lemma seat_keys_read_back_witness :
  exists c i p,
    Exec.is_table Exemplo.layoutA c i /\ 1 <= p <= positions_per_table Exemplo.layoutA /\
    "Corredor 1_M2_P3" = Exec.posicao_id (Exec.mesa_id (Exec.corredor_nome c) i) p /\
    Py.dict_get String.eqb "Corredor 1_M2_P3" (posicoes Exemplo.execA)
      = Some (Exec.mesa_id (Exec.corredor_nome c) i, Exec.corredor_nome c) /\
    Visualizacao.rotulos "Corredor 1_M2_P3" = inr (Exec.corredor_nome c, i, p).
Proof.
  apply (seat_keys_read_back Exemplo.layoutA Exemplo.cadA Exemplo.cfgA Exemplo.execA
           "Corredor 1_M2_P3" layoutA_well_formed eq_refl).
  vm_compute. tauto.
Defined.

(** *** Constraint names *)

(** X24.  The classifier of constraint names never answers
    "Contiguidade Time×Mesa" or "Distância Intra-time": a name that
    starts with "_C" is labelled "Capacidade Assento" when its index is
    at most 125 and "Outras" above, and an index that cannot be read
    makes the classifier fail as the parser does. *)
Theorem constraint_labels (int : string -> Py.result Z) (nome : string) :
  Visualizacao._tipo_rest int nome <> inr "Contiguidade Time×Mesa" /\
  Visualizacao._tipo_rest int nome <> inr "Distância Intra-time" /\
  (forall idx, Str.startswith "_C" nome = true -> int (Str.drop 2 nome) = inr idx ->
     Visualizacao._tipo_rest int nome
     = inr (if idx <=? 125 then "Capacidade Assento" else "Outras")) /\
  (forall e, Str.startswith "_C" nome = true -> int (Str.drop 2 nome) = inl e ->
     Visualizacao._tipo_rest int nome = inl e) /\
  (Str.startswith "_C" nome = false ->
     Visualizacao._tipo_rest int nome
     = inr (if Str.startswith "pres_" nome then "Obrigatoriedade de dias"
            else "Capacidade Total")) /\
  (forall n, Visualizacao._tipo_rest Py.int ("_C" ++ Py.str n)
             = inr (if n <=? 125 then "Capacidade Assento" else "Outras")).
Proof.
  assert (Hidx : forall idx : Z,
            (if idx <=? 5 * 25 then "Capacidade Assento"
             else if idx <=? 2 * 5 * 5 then "Contiguidade Time×Mesa"
             else if idx <=? 3 * 5 * 5 then "Distância Intra-time"
             else "Outras")
            = (if idx <=? 125 then "Capacidade Assento" else "Outras")).
  { intros idx. change (5 * 25) with 125. change (2 * 5 * 5) with 50.
    change (3 * 5 * 5) with 75.
    destruct (Z.leb_spec idx 125); [reflexivity|].
    destruct (Z.leb_spec idx 50); [lia|]. destruct (Z.leb_spec idx 75); [lia|].
    reflexivity. }
  unfold Visualizacao._tipo_rest.
  split; [|split; [|split; [|split; [|split]]]].
  - destruct (Str.startswith "_C" nome).
    + destruct (int (Str.drop 2 nome)) as [e | idx]; cbn [Py.bind Py.ret];
        [discriminate|].
      rewrite Hidx. destruct (idx <=? 125); discriminate.
    + destruct (Str.startswith "pres_" nome); discriminate.
  - destruct (Str.startswith "_C" nome).
    + destruct (int (Str.drop 2 nome)) as [e | idx]; cbn [Py.bind Py.ret];
        [discriminate|].
      rewrite Hidx. destruct (idx <=? 125); discriminate.
    + destruct (Str.startswith "pres_" nome); discriminate.
  - intros idx -> ->. cbn [Py.bind Py.ret]. now rewrite Hidx.
  - intros e -> ->. reflexivity.
  - intros ->. now destruct (Str.startswith "pres_" nome).
  - intros n.
    assert (Hp : Str.startswith "_C" ("_C" ++ Py.str n) = true).
    { unfold Str.startswith. change ("_C" ++ Py.str n) with (String "_" (String "C" (Py.str n))).
      now rewrite !prefix_cons, !Ascii.eqb_refl, prefix_empty. }
    rewrite Hp. change (Str.drop 2 ("_C" ++ Py.str n)) with (Py.str n).
    rewrite int_str. cbn [Py.bind Py.ret]. now rewrite Hidx.
Qed.

(** *** Scenarios on offer *)

(** X25.  After a sweep that returns, the scenarios the result view
    offers are the accepted scenarios of the configured list, each once,
    in ascending order, and there is at least one. *)
Theorem scenarios_on_offer (self : ExecucaoModelo) (solver : Lp.Solver)
    (log : list Lp.LpProblem) (r : SweepResult) :
  fst (Exec.executar self solver log) = inr r ->
  let cs := Visualizacao.cenarios_disponiveis (alocacoes r) in
  StronglySorted Z.lt cs /\ cs <> [] /\
  (forall k, In k cs <->
     In k (dias_obrigatorios_range (cfg self)) /\ Exec.scenario_accepted self solver k) /\
  (forall k, In k cs <-> In k (Py.dict_keys (cenarios r))).
Proof.
  intros Hr cs. unfold cs, Visualizacao.cenarios_disponiveis.
  destruct (executar_records self solver log r Hr) as (K1 & _ & _ & _ & Ka & _).
  pose proof (executar_nodup self solver log r Hr) as Hnd.
  destruct (executar_spec self solver log) as (_ & Hne).
  destruct (Hne r Hr) as (Hne' & _).
  rewrite Ka. split; [|split; [|split]].
  - apply Sorted_StronglySorted; [intros x y z; apply Z.lt_trans|].
    now apply sorted_lt.
  - destruct (cenarios r) as [|[k0 m0] d]; [congruence|].
    intros H. assert (Hin : In k0 (Py.sorted (Py.dict_keys ((k0, m0) :: d))))
      by (apply sorted_in; now left).
    rewrite H in Hin. destruct Hin.
  - intros k. rewrite sorted_in. apply K1.
  - intros k. apply sorted_in.
Qed.

Lemma scenarios_on_offer_witness :
  exists r,
    fst (Exec.executar Exemplo.execA Exemplo.solverA []) = inr r /\
    StronglySorted Z.lt (Visualizacao.cenarios_disponiveis (alocacoes r)).
Proof.
  destruct (fst (Exec.executar Exemplo.execA Exemplo.solverA [])) as [e | r] eqn:E.
  - vm_compute in E. discriminate.
  - exists r. split; [reflexivity|].
    exact (proj1 (scenarios_on_offer Exemplo.execA Exemplo.solverA [] r E)).
Defined.

(** *** Allocation keys *)

Lemma chave_parse_gen (k : Z) (dia cor : string) :
  Py.occurs "|" dia = false -> Py.occurs "|" cor = false ->
  Py.occurs "194" dia = false -> Py.occurs "194" cor = false ->
  Str.strip (" " ++ dia ++ " ") = dia -> Str.strip (" " ++ cor) = cor ->
  Visualizacao.dia_e_corredor (Exec.chave k dia cor) = inr (dia, cor).
Proof.
  intros Hd1 Hc1 Hd2 Hc2 Hsd Hsc.
  assert (H1 : Py.split "|" (Exec.chave k dia cor)
               = [Py.str k ++ "d "; " " ++ dia ++ " · " ++ cor]).
  { unfold Py.split, Exec.chave.
    change ("d | " ++ dia ++ " · " ++ cor)
      with ("d " ++ String "|" (" " ++ dia ++ " · " ++ cor)).
    rewrite <- append_assoc_str.
    rewrite split1_cut
      by (rewrite occurs_append, str_free_char; reflexivity).
    change (EmptyString ++ Py.str k ++ "d ") with (Py.str k ++ "d ").
    f_equal. rewrite split1_free; [reflexivity|].
    cbn [String.append Py.occurs]. rewrite occurs_append, Hd1.
    change (" · " ++ cor)
      with (String " " (String "194" (String "183" (String " " cor)))).
    cbn [Py.occurs]. now rewrite Hc1. }
  assert (H2 : Py.split "·" (" " ++ dia ++ " · " ++ cor)
               = [" " ++ dia ++ " "; " " ++ cor]).
  { unfold Py.split.
    change (" · " ++ cor) with (" " ++ String "194" (String "183" (" " ++ cor))).
    rewrite <- (append_assoc_str dia " ").
    change (" " ++ (dia ++ " ") ++ String "194" (String "183" (" " ++ cor)))
      with ((" " ++ dia ++ " ") ++ String "194" (String "183" (" " ++ cor))).
    change "·" with (String "194" (String "183" EmptyString)).
    rewrite split2_cut.
    - change (EmptyString ++ " " ++ dia ++ " ") with (" " ++ dia ++ " ").
      f_equal. rewrite split2_free; [reflexivity|].
      cbn [String.append Py.occurs]. now rewrite Hc2.
    - cbn [String.append Py.occurs]. rewrite occurs_append, Hd2. reflexivity. }
  unfold Visualizacao.dia_e_corredor. rewrite H1, H2.
  cbn [map]. now rewrite Hsd, Hsc.
Qed.

Lemma chave_parse (k n : Z) (dia : string) :
  In dia DIAS_UTEIS ->
  Visualizacao.dia_e_corredor (Exec.chave k dia (Exec.corredor_nome n))
  = inr (dia, Exec.corredor_nome n).
Proof.
  intros Hd.
  assert (Hc1 : Py.occurs "|" (Exec.corredor_nome n) = false)
    by (apply corredor_nome_free_char; reflexivity).
  assert (Hc2 : Py.occurs "194" (Exec.corredor_nome n) = false)
    by (apply corredor_nome_free_char; reflexivity).
  pose proof (proj1 (strip_corredor n)) as Hsc.
  simpl in Hd.
  destruct Hd as [<- | [<- | [<- | [<- | [<- | []]]]]];
    apply chave_parse_gen; auto; reflexivity.
Qed.

Lemma chave_inj (k n1 n2 : Z) (d1 d2 : string) :
  In d1 DIAS_UTEIS -> In d2 DIAS_UTEIS ->
  Exec.chave k d1 (Exec.corredor_nome n1) = Exec.chave k d2 (Exec.corredor_nome n2) ->
  d1 = d2 /\ Exec.corredor_nome n1 = Exec.corredor_nome n2.
Proof.
  intros H1 H2 E.
  pose proof (chave_parse k n1 d1 H1) as P1. rewrite E, (chave_parse k n2 d2 H2) in P1.
  split; congruence.
Qed.

Lemma append_team_corredor (P : string -> Prop) (n : Z) (team : string)
    (lst : list MesaDict) :
  Forall (fun m => P (corredor m)) lst ->
  Forall (fun m => P (corredor m)) (Exec.append_team n team lst).
Proof.
  induction 1 as [|m lst Hm Hl IH]; cbn [Exec.append_team]; [constructor|].
  destruct (mesa m =? n); constructor; auto.
Qed.

Lemma x_vars_item (self : ExecucaoModelo) (team pos dia : string) (v : Lp.Var) :
  In ((team, pos, dia), v) (Exec.x_vars_of self) -> In dia DIAS_UTEIS.
Proof.
  intros H. unfold Exec.x_vars_of in H.
  apply (dict_of_list_incl Exec.xkey_eqb xkey_eqb_eq) in H.
  apply in_flat_map in H. destruct H as (t & _ & H).
  apply in_flat_map in H. destruct H as (p & _ & H).
  apply in_map_iff in H. destruct H as (d & [= _ _ <- _] & Hd). exact Hd.
Qed.

Section AllocationKeys.

Variable l : LayoutConfiguration.
Variable cad : Cadastro.CadastroTimesSinergias.
Variable cf : ConfiguracaoModelo.
Variable self : ExecucaoModelo.
Hypothesis Hwf : Layout.well_formed l.
Hypothesis Hinit : Exec.init l cad cf = inr self.
Variable k : Z.
Variable model : Lp.SolvedModel.

Lemma extract_step_keys (aloc aloc' : Aloc) (item : XKey * Lp.Var) :
  In item (Exec.x_vars_of self) ->
  Forall (fun kv : string * list MesaDict =>
            exists dia n, In dia DIAS_UTEIS /\ 1 <= n <= num_corridors l /\
              fst kv = Exec.chave k dia (Exec.corredor_nome n) /\
              Forall (fun m => corredor m = Exec.corredor_nome n) (snd kv)) aloc ->
  Exec.extract_step self k model aloc item = inr aloc' ->
  Forall (fun kv : string * list MesaDict =>
            exists dia n, In dia DIAS_UTEIS /\ 1 <= n <= num_corridors l /\
              fst kv = Exec.chave k dia (Exec.corredor_nome n) /\
              Forall (fun m => corredor m = Exec.corredor_nome n) (snd kv)) aloc'.
Proof.
  destruct item as [[[team pos] dia] v]. intros Hitem Hall.
  pose proof (x_vars_item self team pos dia v Hitem) as Hdia.
  unfold Exec.extract_step.
  destruct (Exec.value_is_not_1 _); [now intros [= <-]|].
  unfold Py.dict_item.
  destruct (Py.dict_get String.eqb pos (posicoes self)) as [[mid cor]|] eqn:Eg;
    cbn [Py.bind Py.ret Py.raise]; [|discriminate].
  destruct (Py.index _ _) as [e | s]; cbn [Py.bind]; [discriminate|].
  destruct (Py.int s) as [e | n]; cbn [Py.bind]; [discriminate|].
  apply (dict_get_in String.eqb string_eqb_eq) in Eg.
  rewrite (init_posicoes l cad cf self Hwf Hinit) in Eg.
  apply posicoes_table_in in Eg.
  destruct Eg as (c & i & p & [Hc _] & _ & _ & [= -> ->]).
  unfold Exec.setdefault.
  destruct (Py.dict_get String.eqb
              (Exec.chave k dia (Exec.corredor_nome c)) aloc) as [lst|] eqn:El.
  - intros [= <-]. apply (dict_set_items_forall String.eqb string_eqb_eq); [|exact Hall].
    cbn [fst snd]. exists dia, c. repeat split; auto; try lia.
    apply (append_team_corredor (fun s => s = Exec.corredor_nome c)).
    apply (dict_get_in String.eqb string_eqb_eq) in El.
    rewrite Forall_forall in Hall.
    destruct (Hall _ El) as (d' & n' & Hd' & _ & Hk & Hl). cbn [fst snd] in Hk, Hl.
    destruct (chave_inj k c n' dia d' Hdia Hd' Hk) as [_ Hcn].
    assert (Hlst : Forall (fun m => corredor m = Exec.corredor_nome c) lst).
    { rewrite Hcn. exact Hl. }
    destruct (Exec.find_mesa n lst); [exact Hlst|].
    apply Forall_app. split; [exact Hlst|]. now constructor.
  - intros [= <-].
    apply (dict_set_items_forall String.eqb string_eqb_eq).
    + cbn [fst snd]. exists dia, c. repeat split; auto; try lia.
      cbn [Exec.find_mesa find app Exec.append_team mesa].
      rewrite Z.eqb_refl. now repeat constructor.
    + apply (dict_set_items_forall String.eqb string_eqb_eq); [|exact Hall].
      cbn [fst snd]. exists dia, c. repeat split; auto; try lia.
Qed.

Lemma extract_keys (aloc : Aloc) :
  Exec.extract self k model (Exec.x_vars_of self) = inr aloc ->
  Forall (fun kv : string * list MesaDict =>
            exists dia n, In dia DIAS_UTEIS /\ 1 <= n <= num_corridors l /\
              fst kv = Exec.chave k dia (Exec.corredor_nome n) /\
              Forall (fun m => corredor m = Exec.corredor_nome n) (snd kv)) aloc.
Proof.
  unfold Exec.extract. intros H.
  apply (for_each_invariant
           (fun aloc0 : Aloc =>
              Forall (fun kv : string * list MesaDict =>
                exists dia n, In dia DIAS_UTEIS /\ 1 <= n <= num_corridors l /\
                  fst kv = Exec.chave k dia (Exec.corredor_nome n) /\
                  Forall (fun m => corredor m = Exec.corredor_nome n) (snd kv)) aloc0))
    in H; [exact H | | constructor].
  intros s a s' Ha Hs Hstep. exact (extract_step_keys s s' a Ha Hs Hstep).
Qed.

End AllocationKeys.

(** X26.  The weekly table reads every key of the readable allocation
    of the engine of a valid layout back: the key splits at the bar into
    two parts and its second part at the middle dot into two, which
    stripped are the working day and the corridor name the key was built
    from; the tables listed under the key carry that corridor name. *)
Theorem allocation_keys_read_back (l : LayoutConfiguration)
    (cad : Cadastro.CadastroTimesSinergias) (cf : ConfiguracaoModelo)
    (self : ExecucaoModelo) (k : Z) (model : Lp.SolvedModel) (aloc : Aloc)
    (key : string) (lst : list MesaDict) :
  Layout.well_formed l -> Exec.init l cad cf = inr self ->
  Exec.extract self k model (Exec.x_vars_of self) = inr aloc ->
  In (key, lst) aloc ->
  exists dia n,
    In dia DIAS_UTEIS /\ 1 <= n <= num_corridors l /\
    key = Exec.chave k dia (Exec.corredor_nome n) /\
    Visualizacao.dia_e_corredor key = inr (dia, Exec.corredor_nome n) /\
    Forall (fun m => corredor m = Exec.corredor_nome n) lst.
Proof.
  intros Hwf Hinit Hex Hin.
  pose proof (extract_keys l cad cf self Hwf Hinit k model aloc Hex) as Hall.
  rewrite Forall_forall in Hall.
  destruct (Hall _ Hin) as (dia & n & Hd & Hn & Hk & Hl). cbn [fst snd] in Hk, Hl.
  exists dia, n. repeat split; auto; try lia.
  rewrite Hk. now apply chave_parse.
Qed.

Lemma allocation_keys_read_back_witness :
  exists dia n,
    In dia DIAS_UTEIS /\ 1 <= n <= num_corridors Exemplo.layoutA /\
    "2d | Terça · Corredor 1" = Exec.chave 2 dia (Exec.corredor_nome n) /\
    Visualizacao.dia_e_corredor "2d | Terça · Corredor 1"
      = inr (dia, Exec.corredor_nome n) /\
    Forall (fun m => corredor m = Exec.corredor_nome n)
      [mkMesa 1 "Corredor 1" ["Alpha"; "Alpha"; "Alpha"];
       mkMesa 2 "Corredor 1" ["Beta"; "Beta"; "Beta"]].
Proof.
  apply (allocation_keys_read_back Exemplo.layoutA Exemplo.cadA Exemplo.cfgA
           Exemplo.execA 2 Casos.modeloA Casos.alocA
           "2d | Terça · Corredor 1" _ layoutA_well_formed eq_refl).
  - vm_compute. reflexivity.
  - right. left. reflexivity.
Defined.

(** ** The objective *)

Lemma sum_member_le {A} (f : A -> Z) (l : list A) (x : A) :
  (forall y, In y l -> 0 <= f y) -> In x l ->
  f x <= fold_right Z.add 0 (map f l) /\ 0 <= fold_right Z.add 0 (map f l).
Proof.
  induction l as [|y l IH]; intros Hpos Hin; [destruct Hin|].
  cbn [map fold_right].
  assert (Hy : 0 <= f y) by (apply Hpos; now left).
  assert (Hl : 0 <= fold_right Z.add 0 (map f l)).
  { clear IH Hin. induction l as [|z l IHl]; cbn [map fold_right]; [lia|].
    assert (0 <= f z) by (apply Hpos; right; now left).
    assert (0 <= fold_right Z.add 0 (map f l)); [|lia].
    apply IHl. intros w [<- | Hw]; apply Hpos; [now left | right; now right]. }
  destruct Hin as [<- | Hin]; [lia|].
  destruct (IH (fun w Hw => Hpos w (or_intror Hw)) Hin). lia.
Qed.

Lemma sum_nonneg {A} (f : A -> Z) (l : list A) :
  (forall y, In y l -> 0 <= f y) -> 0 <= fold_right Z.add 0 (map f l).
Proof.
  induction l as [|y l IH]; intros Hpos; cbn [map fold_right]; [lia|].
  assert (0 <= f y) by (apply Hpos; now left).
  assert (0 <= fold_right Z.add 0 (map f l)); [|lia].
  apply IH. intros w Hw. apply Hpos. now right.
Qed.

(** The distances the engine of a valid layout stores. *)
Lemma stored_distance (l : LayoutConfiguration) (m1 m2 : string) (dd : Z) :
  In ((m1, m2), dd) (Exec._dist_mesas (Exec.mesas_table l)) ->
  exists c1 i1 c2 i2,
    Exec.is_table l c1 i1 /\ Exec.is_table l c2 i2 /\
    m1 = Exec.mesa_id (Exec.corredor_nome c1) i1 /\
    m2 = Exec.mesa_id (Exec.corredor_nome c2) i2 /\
    (c1, i1) <> (c2, i2) /\
    dd = (if c1 =? c2 then Z.abs (i1 - i2) else 5 + Z.abs (i1 - i2)) /\
    1 <= dd.
Proof.
  rewrite dist_mesas_comprehension. intros H.
  apply (dict_of_list_incl Exec.pair_eqb pair_eqb_eq) in H.
  apply in_dist_table in H.
  destruct H as ([n1 [cor1 i1]] & [n2 [cor2 i2]] & H1 & H2 & Hleb & [= -> ->] & ->).
  cbn [fst snd] in *.
  apply mesas_table_in in H1, H2.
  destruct H1 as (c1 & Ht1 & -> & ->), H2 as (c2 & Ht2 & -> & ->).
  assert (Hne : (c1, i1) <> (c2, i2)).
  { intros [= -> ->]. destruct (String.leb_total
      (Exec.mesa_id (Exec.corredor_nome c2) i2)
      (Exec.mesa_id (Exec.corredor_nome c2) i2)); congruence. }
  assert (Hm : String.eqb (Exec.mesa_id (Exec.corredor_nome c1) i1)
                 (Exec.mesa_id (Exec.corredor_nome c2) i2) = false).
  { apply String.eqb_neq. intros E. apply mesa_id_inj in E. destruct E. congruence. }
  exists c1, i1, c2, i2. unfold Exec.dist_value, Py.abs. rewrite Hm.
  assert (Hc : String.eqb (Exec.corredor_nome c1) (Exec.corredor_nome c2) = (c1 =? c2)).
  { destruct (Z.eqb_spec c1 c2) as [-> | E]; [apply String.eqb_refl|].
    apply String.eqb_neq. intros H. now apply corredor_nome_inj in H. }
  rewrite Hc.
  split; [exact Ht1|]. split; [exact Ht2|]. split; [reflexivity|].
  split; [reflexivity|]. split; [exact Hne|]. split; [reflexivity|].
  destruct (Z.eqb_spec c1 c2) as [-> | E]; [|lia].
  assert (i1 <> i2) by congruence. lia.
Qed.

Lemma init_dist (l : LayoutConfiguration)
    (cad : Cadastro.CadastroTimesSinergias) (cf : ConfiguracaoModelo)
    (self : ExecucaoModelo) :
  Layout.well_formed l -> Exec.init l cad cf = inr self ->
  dist self = Exec._dist_mesas (Exec.mesas_table l).
Proof.
  intros Hwf Hinit. rewrite (exec_init_well_formed cad cf Hwf) in Hinit.
  now injection Hinit as <-.
Qed.

Section Objective.

Variable self : ExecucaoModelo.
Variable k : Z.
Variable a : Lp.assignment.
Hypothesis Hfeasible : Lp.feasible a (Exec.formulate self k).

Lemma z_binary (t : Time) (e : string * string * Z) (d : string) :
  In t (Exec.times self) -> In e (dist self) -> In d DIAS_UTEIS ->
  a (Lp.Zv (nome t) (fst (fst e)) (snd (fst e)) d) = 0 \/
  a (Lp.Zv (nome t) (fst (fst e)) (snd (fst e)) d) = 1.
Proof.
  destruct e as [[m1 m2] dd]. intros Ht He Hd. cbn [fst snd].
  pose proof (in_c_divisao self k t m1 m2 dd d Ht He Hd) as Hin.
  destruct Hfeasible as [Hb _]. apply Hb.
  apply (constraint_vars_are_variables self k _ _ Hin).
  apply in_or_app; left. now left.
Qed.

Lemma penalty_sum :
  Lp.eval a (Lp.penalty (Lp.objective (Exec.formulate self k))) =
  fold_right Z.add 0
    (map (fun t =>
       fold_right Z.add 0
         (map (fun e =>
            fold_right Z.add 0
              (map (fun d => snd e * a (Lp.Zv (nome t) (fst (fst e)) (snd (fst e)) d))
                   DIAS_UTEIS))
            (dist self)))
       (Exec.times self)).
Proof.
  cbn [Exec.formulate Lp.objective Exec.objective_of Lp.penalty].
  rewrite eval_lpSum.
  assert (F : forall {A} (f : A -> list Lp.LinExpr) (xs : list A),
            fold_right Z.add 0 (map (Lp.eval a) (flat_map f xs)) =
            fold_right Z.add 0
              (map (fun x => fold_right Z.add 0 (map (Lp.eval a) (f x))) xs)).
  { intros A f xs. induction xs as [|x xs IH]; [reflexivity|].
    cbn [flat_map map fold_right]. rewrite map_app, <- IH.
    generalize (map (Lp.eval a) (f x)). intros r.
    generalize (map (Lp.eval a) (flat_map f xs)). intros r'.
    induction r as [|z r IHr]; cbn [app fold_right]; lia. }
  rewrite F. apply sum_map_ext_in. intros t _.
  rewrite F. apply sum_map_ext_in. intros e _.
  rewrite map_map. apply sum_map_ext_in. intros d _.
  now rewrite eval_scale, eval_var.
Qed.

End Objective.

(** X27.  The objective of a scenario on the engine of a valid layout:
    in every solution the gain is the head count times the required
    days, the same for all solutions; every stored distance is at least
    1; the penalty is not negative and is at least the distance of any
    pair of tables a team sits at on a same day.  With a weight that is
    not negative the objective is therefore at most the head count times
    the required days.  The teams have distinct names. *)
Theorem objective_is_occupancy_less_distance (l : LayoutConfiguration)
    (cad : Cadastro.CadastroTimesSinergias) (cf : ConfiguracaoModelo)
    (self : ExecucaoModelo) (k : Z) (a : Lp.assignment) :
  Layout.well_formed l -> Exec.init l cad cf = inr self ->
  NoDup (map nome (Exec.times self)) ->
  Lp.feasible a (Exec.formulate self k) ->
  let o := Lp.objective (Exec.formulate self k) in
  Lp.eval a (Lp.gain o) = Exec.pessoas self * k /\
  (forall e, In e (dist self) -> 1 <= snd e) /\
  0 <= Lp.eval a (Lp.penalty o) /\
  (forall t m1 m2 dd d,
     In t (Exec.times self) -> In ((m1, m2), dd) (dist self) -> In d DIAS_UTEIS ->
     a (Lp.Y (nome t) m1 d) = 1 -> a (Lp.Y (nome t) m2 d) = 1 ->
     dd <= Lp.eval a (Lp.penalty o)) /\
  ((0 <= Lp.weight o)%Q ->
   (Leitura.valor_objetivo a o <= inject_Z (Exec.pessoas self * k))%Q).
Proof.
  intros Hwf Hinit Hn Hf o.
  pose proof (init_posicoes_nodup l cad cf self Hinit) as Hp.
  assert (Hgain : Lp.eval a (Lp.gain o) = Exec.pessoas self * k).
  { unfold o. cbn [Exec.formulate Lp.objective Exec.objective_of Lp.gain].
    rewrite (eval_lpSum_vars a (fun v => v)), map_id.
    apply (total_occupancy self Hn Hp k a Hf). }
  assert (Hdist : forall e, In e (dist self) -> 1 <= snd e).
  { intros [[m1 m2] dd] He. rewrite (init_dist l cad cf self Hwf Hinit) in He.
    apply stored_distance in He.
    destruct He as (c1 & i1 & c2 & i2 & _ & _ & _ & _ & _ & _ & H). exact H. }
  assert (Hterm : forall t e d, In t (Exec.times self) -> In e (dist self) ->
            In d DIAS_UTEIS ->
            0 <= snd e * a (Lp.Zv (nome t) (fst (fst e)) (snd (fst e)) d)).
  { intros t e d Ht He Hd. pose proof (Hdist e He).
    destruct (z_binary self k a Hf t e d Ht He Hd) as [-> | ->]; lia. }
  assert (Hpen : 0 <= Lp.eval a (Lp.penalty o)).
  { unfold o. rewrite (penalty_sum self k a).
    apply sum_nonneg. intros t Ht. apply sum_nonneg. intros e He.
    apply sum_nonneg. intros d Hd. now apply Hterm. }
  split; [exact Hgain|]. split; [exact Hdist|]. split; [exact Hpen|]. split.
  - intros t m1 m2 dd d Ht He Hd H1 H2.
    assert (Hz : a (Lp.Zv (nome t) m1 m2 d) = 1).
    { pose proof (in_c_divisao self k t m1 m2 dd d Ht He Hd) as Hin.
      pose proof (formulation_holds self k a Hf _ Hin) as H.
      unfold Lp.holds, Lp.sub in H. cbn [Lp.sense Lp.lhs Lp.rhs] in H.
      rewrite !eval_add, eval_scale, !eval_var, eval_num in H.
      destruct (z_binary self k a Hf t (m1, m2, dd) d Ht He Hd) as [Hz | Hz];
        cbn [fst snd] in Hz; lia. }
    unfold o. rewrite (penalty_sum self k a).
    set (g3 := fun t0 (e : string * string * Z) d0 =>
                 snd e * a (Lp.Zv (nome t0) (fst (fst e)) (snd (fst e)) d0)).
    set (g2 := fun t0 (e : string * string * Z) =>
                 fold_right Z.add 0 (map (g3 t0 e) DIAS_UTEIS)).
    set (g1 := fun t0 => fold_right Z.add 0 (map (g2 t0) (dist self))).
    change (dd <= fold_right Z.add 0 (map g1 (Exec.times self))).
    assert (H3 : dd <= g2 t (m1, m2, dd)).
    { destruct (sum_member_le (g3 t (m1, m2, dd)) DIAS_UTEIS d) as [H _]; auto.
      - intros y Hy. now apply Hterm.
      - unfold g3 in H at 1. cbn [fst snd] in H. rewrite Hz in H. unfold g2. lia. }
    assert (H4 : g2 t (m1, m2, dd) <= g1 t).
    { destruct (sum_member_le (g2 t) (dist self) (m1, m2, dd)) as [H _]; auto.
      intros y Hy. apply sum_nonneg. intros d0 Hd0. now apply Hterm. }
    assert (H5 : g1 t <= fold_right Z.add 0 (map g1 (Exec.times self))).
    { destruct (sum_member_le g1 (Exec.times self) t) as [H _]; auto.
      intros y Hy. apply sum_nonneg. intros e0 He0.
      apply sum_nonneg. intros d0 Hd0. now apply Hterm. }
    lia.
  - intros Hw. unfold Leitura.valor_objetivo. rewrite Hgain.
    assert (Hq : (0 <= Lp.weight o * inject_Z (Lp.eval a (Lp.penalty o)))%Q).
    { apply Qmult_le_0_compat; [exact Hw|].
      change 0%Q with (inject_Z 0). now rewrite <- Zle_Qle. }
    revert Hq. generalize (Lp.weight o * inject_Z (Lp.eval a (Lp.penalty o)))%Q.
    intros q Hq. 
    setoid_replace (inject_Z (Exec.pessoas self * k))
      with (inject_Z (Exec.pessoas self * k) - 0)%Q at 2 by ring.
    apply Qplus_le_r. apply Qopp_le_compat. exact Hq.
Qed.

Lemma objective_is_occupancy_less_distance_witness :
  Lp.eval Exemplo.solA (Lp.gain (Lp.objective (Exec.formulate Exemplo.execA 2)))
  = Exec.pessoas Exemplo.execA * 2.
Proof.
  exact (proj1 (objective_is_occupancy_less_distance Exemplo.layoutA Exemplo.cadA
                  Exemplo.cfgA Exemplo.execA 2 Exemplo.solA layoutA_well_formed
                  eq_refl execA_nomes_nodup solA_feasible)).
Defined.

(** ** The pre-check along the scenarios *)

Lemma precheck_iff (self : ExecucaoModelo) (k : Z) :
  Exec._upper_bound_feasible self k = true <->
  Exec.pessoas self * k <= 5 * (cap_total self - folga_minima (cfg self)).
Proof.
  unfold Exec._upper_bound_feasible, Exec.demanda_dia.
  change (inject_Z (Z.of_nat (List.length DIAS_UTEIS))) with (inject_Z 5).
  destruct (Qle_bool _ _) eqn:E.
  - split; [intros _ | reflexivity].
    destruct (Z_le_gt_dec (Exec.pessoas self * k)
                (5 * (cap_total self - folga_minima (cfg self)))) as [H | H];
      [exact H|].
    assert (Hlt : 5 * (cap_total self - folga_minima (cfg self))
                  < Exec.pessoas self * k) by lia.
    apply demanda_excede, qle_bool_false in Hlt. congruence.
  - apply qle_bool_false, demanda_excede in E. split; [discriminate | lia].
Qed.

Lemma pessoas_nonneg (self : ExecucaoModelo) :
  Forall (fun t => 0 < qtde_integrantes t) (Exec.times self) ->
  0 <= Exec.pessoas self.
Proof.
  unfold Exec.pessoas. rewrite fold_left_add. intros H.
  assert (0 <= fold_right Z.add 0 (map qtde_integrantes (Exec.times self))); [|lia].
  induction H as [|t ts Ht _ IH]; cbn [map fold_right]; lia.
Qed.

Lemma early_iff_precheck (self : ExecucaoModelo) (solver : Lp.Solver) (k : Z)
    (log : list Lp.LpProblem) :
  fst (Exec._solve_for_k self solver k log) = inr (StatusOnly "EarlyInfeasible") <->
  Exec._upper_bound_feasible self k = false.
Proof.
  unfold Exec._solve_for_k. destruct (Exec._upper_bound_feasible self k); cbn [negb fst].
  - split; [|discriminate]. intros H. exfalso.
    exact (trata_status_never_early self _ _ H).
  - split; reflexivity.
Qed.

(** X28.  With teams of positive size the pre-check is monotone in the
    required days: a scenario that passes lets every scenario of fewer
    days pass, and a scenario rejected early has every scenario of more
    days rejected early, whatever the solver. *)
Theorem early_rejection_is_monotone (self : ExecucaoModelo) (k1 k2 : Z) :
  Forall (fun t => 0 < qtde_integrantes t) (Exec.times self) -> k1 <= k2 ->
  (Exec._upper_bound_feasible self k2 = true ->
   Exec._upper_bound_feasible self k1 = true) /\
  (forall solver log,
     fst (Exec._solve_for_k self solver k1 log) = inr (StatusOnly "EarlyInfeasible") ->
     fst (Exec._solve_for_k self solver k2 log) = inr (StatusOnly "EarlyInfeasible")).
Proof.
  intros Hpos Hk. pose proof (pessoas_nonneg self Hpos) as Hp.
  assert (Hmono : Exec._upper_bound_feasible self k2 = true ->
                  Exec._upper_bound_feasible self k1 = true).
  { rewrite !precheck_iff. intros H.
    assert (Exec.pessoas self * k1 <= Exec.pessoas self * k2)
      by (apply Z.mul_le_mono_nonneg_l; assumption).
    lia. }
  split; [exact Hmono|].
  intros solver log. rewrite !early_iff_precheck. intros H1.
  destruct (Exec._upper_bound_feasible self k2); [|reflexivity].
  rewrite (Hmono eq_refl) in H1. discriminate.
Qed.

Lemma early_rejection_is_monotone_witness :
  Exec._upper_bound_feasible Exemplo.execA 1 = true.
Proof.
  apply (proj1 (early_rejection_is_monotone Exemplo.execA 1 2
                  ltac:(repeat constructor) ltac:(lia))).
  vm_compute. reflexivity.
Defined.
